(** * GSD container engine: a shallow embedding of [gsd.c]

    The development follows the C source function by function.  Unsigned
    64-bit arithmetic is written with its wrap-around ([u64]); the file is a
    byte store with a size, C arrays are maps from a byte offset to a byte,
    and every function that touches the file takes it and returns it. *)

From Stdlib Require Import ZArith List Lia Bool Permutation Sorted.
From Stdlib Require Import Strings.Byte.
Import ListNotations.
Local Open Scope Z_scope.

(** ** Machine integers and bytes *)

Definition u64 (x : Z) : Z := x mod 2 ^ 64.
Definition u32 (x : Z) : Z := x mod 2 ^ 32.
Definition u16 (x : Z) : Z := x mod 2 ^ 16.
Definition u8 (x : Z) : Z := x mod 2 ^ 8.

(** Conversion of a 64-bit pattern to [int64_t] (the type of file offsets). *)
Definition to_int64 (x : Z) : Z :=
  if u64 x <? 2 ^ 63 then u64 x else u64 x - 2 ^ 64.

Definition UINT16_MAX : Z := 65535.

Definition byte_val (b : byte) : Z := Z.of_N (Byte.to_N b).

Definition byte_of (z : Z) : byte :=
  match Byte.of_N (Z.to_N (z mod 256)) with
  | Some b => b
  | None => x00
  end.

Definition is_nul (b : byte) : bool := Byte.eqb b x00.

(** A region of memory addressed by byte offset. *)
Definition buffer : Type := Z -> byte.

Definition zero_buffer : buffer := fun _ => x00.

Definition buf_of_list (l : list byte) : buffer :=
  fun k => if k <? 0 then x00 else nth (Z.to_nat k) l x00.

(** [memcpy (mem + off, l, length l)] *)
Definition store (mem : buffer) (off : Z) (l : list byte) : buffer :=
  fun k =>
    if (off <=? k) && (k <? off + Z.of_nat (length l))
    then nth (Z.to_nat (k - off)) l x00
    else mem k.

(** The [n] bytes of [mem] that start at [off]. *)
Definition load (mem : buffer) (off : Z) (n : nat) : list byte :=
  map (fun k => mem (off + Z.of_nat k)) (seq 0 n).

(** [mem + off] as an array of its own. *)
Definition shift (mem : buffer) (off : Z) : buffer := fun k => mem (off + k).

(** Little-endian integers. *)
Fixpoint le_bytes (n : nat) (v : Z) : list byte :=
  match n with
  | O => []
  | S k => byte_of v :: le_bytes k (v / 256)
  end.

Fixpoint le_value (l : list byte) : Z :=
  match l with
  | [] => 0
  | b :: r => byte_val b + 256 * le_value r
  end.

Definition load_le (mem : buffer) (off : Z) (n : nat) : Z :=
  le_value (load mem off n).

(** A [char[n]] array holding [l]: cut to [n] bytes, padded with NUL. *)
Definition fit (n : nat) (l : list byte) : list byte :=
  firstn n l ++ repeat x00 (n - length l).

(** ** C strings

    A string argument is the list of its characters; as in C it ends at the
    first NUL, and the end of the list stands for the terminator. *)

Fixpoint c_str (l : list byte) : list byte :=
  match l with
  | [] => []
  | c :: r => if is_nul c then [] else c :: c_str r
  end.

Definition strlen (l : list byte) : nat := length (c_str l).

Definition chr (l : list byte) : byte := hd x00 l.

Definition cmp_byte (x y : byte) : comparison :=
  N.compare (Byte.to_N x) (Byte.to_N y).

(** [strncmp a b n]: [Lt], [Eq], [Gt] for a negative, zero, positive result. *)
Fixpoint strncmp (a b : list byte) (n : nat) : comparison :=
  match n with
  | O => Eq
  | S n' =>
      match cmp_byte (chr a) (chr b) with
      | Eq => if is_nul (chr a) then Eq else strncmp (tl a) (tl b) n'
      | c => c
      end
  end.

(** [strcmp a b]: neither string is longer than [length a + length b]. *)
Definition strcmp (a b : list byte) : comparison :=
  strncmp a b (S (length a + length b)).

(** [strncpy (dst, src, n)] followed by [dst[n] = 0], for a [char[n+1]]. *)
Definition strncpy_field (n : nat) (src : list byte) : list byte :=
  fit n (c_str src) ++ [x00].


(** ** The file

    [fdata] is the content, [fsize] the length.  Bytes past the end read as
    zero, so a write that leaves a gap fills it with zeros. *)

Record file : Type := mk_file { fdata : Z -> byte; fsize : Z }.

Definition file_byte (f : file) (o : Z) : byte :=
  if (0 <=? o) && (o <? fsize f) then fdata f o else x00.

Definition empty_file : file := mk_file (fun _ => x00) 0.

(** Largest file offset ([off_t] is a signed 64-bit integer). *)
Definition OFF_MAX : Z := 2 ^ 63 - 1.

(** A descriptor is the file it refers to, or [None] for -1. *)

(** [pwrite]: the whole request is transferred by one call; a bad
    descriptor, a negative offset or a write past [OFF_MAX] fails with -1. *)
Definition pwrite (d : option file) (buf : buffer) (count off : Z)
  : Z * option file :=
  match d with
  | None => (-1, None)
  | Some f =>
      if (off <? 0) || (OFF_MAX <? off + count) then (-1, d)
      else
        (count,
         Some
           (mk_file
              (fun o =>
                 if (off <=? o) && (o <? off + count) then buf (o - off)
                 else file_byte f o)
              (Z.max (fsize f) (off + count))))
  end.

(** [pread]: transfers what the file holds between [off] and [off + count];
    the second component is the destination after the call. *)
Definition pread (d : option file) (count off : Z) : Z * buffer :=
  match d with
  | None => (-1, zero_buffer)
  | Some f =>
      if off <? 0 then (-1, zero_buffer)
      else
        (Z.max 0 (Z.min count (fsize f - off)), fun k => file_byte f (off + k))
  end.

(** [lseek (fd, 0, SEEK_END)] *)
Definition lseek_end (d : option file) : Z :=
  match d with
  | None => -1
  | Some f => fsize f
  end.

(** [ftruncate (fd, 0)] *)
Definition ftruncate0 (d : option file) : Z * option file :=
  match d with
  | None => (-1, None)
  | Some _ => (0, Some empty_file)
  end.

(** [fsync (fd)] *)
Definition fsync (d : option file) : Z :=
  match d with
  | None => -1
  | Some _ => 0
  end.

(** [gsd_pwrite_retry]: the loop calls [pwrite] until [count] bytes are
    written.  As one call of [pwrite] transfers the whole request the body
    runs once, and not at all when [count] is zero.  The offset parameter is
    an [int64_t]. *)
Definition gsd_pwrite_retry (d : option file) (buf : buffer) (count off : Z)
  : Z * option file :=
  if count <=? 0 then (0, d)
  else pwrite d buf count (to_int64 off).

(** [gsd_pread_retry]: the loop stops on an error, at end of file (a read of
    zero bytes) or when [count] bytes are read; with one-call transfers the
    total is what the first call returns. *)
Definition gsd_pread_retry (d : option file) (count off : Z) : Z * buffer :=
  if count <=? 0 then (0, zero_buffer)
  else pread d count (to_int64 off).

(** ** Declarations of [gsd.h] *)

(** Modelled from the spec: [enum gsd_error] of gsd.h, which is not among the
    sources; the error taxonomy of the specification. *)
Inductive gsd_error : Type :=
  | GSD_SUCCESS
  | GSD_ERROR_IO
  | GSD_ERROR_INVALID_ARGUMENT
  | GSD_ERROR_NOT_A_GSD_FILE
  | GSD_ERROR_INVALID_GSD_FILE_VERSION
  | GSD_ERROR_FILE_CORRUPT
  | GSD_ERROR_MEMORY_ALLOCATION_FAILED
  | GSD_ERROR_NAMELIST_FULL
  | GSD_ERROR_FILE_MUST_BE_WRITABLE
  | GSD_ERROR_FILE_MUST_BE_READABLE.

(** Modelled from the spec: [enum gsd_open_flag] of gsd.h: the three open
    modes. *)
Inductive gsd_open_flag : Type :=
  | GSD_OPEN_READWRITE
  | GSD_OPEN_READONLY
  | GSD_OPEN_APPEND.

Definition open_flag_eqb (a b : gsd_open_flag) : bool :=
  match a, b with
  | GSD_OPEN_READWRITE, GSD_OPEN_READWRITE => true
  | GSD_OPEN_READONLY, GSD_OPEN_READONLY => true
  | GSD_OPEN_APPEND, GSD_OPEN_APPEND => true
  | _, _ => false
  end.

(** Modelled from the spec: the enumerators of [enum gsd_type] of gsd.h, the
    ten primitive types numbered from 1 in the order in which
    [gsd_sizeof_type] tests them. *)
Definition GSD_TYPE_UINT8 : Z := 1.
Definition GSD_TYPE_UINT16 : Z := 2.
Definition GSD_TYPE_UINT32 : Z := 3.
Definition GSD_TYPE_UINT64 : Z := 4.
Definition GSD_TYPE_INT8 : Z := 5.
Definition GSD_TYPE_INT16 : Z := 6.
Definition GSD_TYPE_INT32 : Z := 7.
Definition GSD_TYPE_INT64 : Z := 8.
Definition GSD_TYPE_FLOAT : Z := 9.
Definition GSD_TYPE_DOUBLE : Z := 10.

(** Modelled from the spec: [struct gsd_header] of gsd.h, 256 bytes, with the
    field offsets of the specification's file layout. *)
Record gsd_header : Type := mk_header {
  magic : Z;
  index_location : Z;
  namelist_location : Z;
  index_allocated_entries : Z;
  namelist_allocated_entries : Z;
  schema_version : Z;
  gsd_version : Z;
  application : list byte;
  schema : list byte;
  reserved : list byte
}.

Definition sizeof_header : Z := 256.

Definition decode_header (mem : buffer) : gsd_header :=
  {| magic := load_le mem 0 8;
     index_location := load_le mem 8 8;
     namelist_location := load_le mem 16 8;
     index_allocated_entries := load_le mem 24 8;
     namelist_allocated_entries := load_le mem 32 8;
     schema_version := load_le mem 40 4;
     gsd_version := load_le mem 44 4;
     application := load mem 48 64;
     schema := load mem 112 64;
     reserved := load mem 176 80 |}.

Definition encode_header (hd : gsd_header) : list byte :=
  le_bytes 8 (magic hd) ++ le_bytes 8 (index_location hd)
  ++ le_bytes 8 (namelist_location hd)
  ++ le_bytes 8 (index_allocated_entries hd)
  ++ le_bytes 8 (namelist_allocated_entries hd)
  ++ le_bytes 4 (schema_version hd) ++ le_bytes 4 (gsd_version hd)
  ++ fit 64 (application hd) ++ fit 64 (schema hd) ++ fit 80 (reserved hd).

Definition zero_header : gsd_header :=
  mk_header 0 0 0 0 0 0 0 (repeat x00 64) (repeat x00 64) (repeat x00 80).

(** Modelled from the spec: [struct gsd_index_entry] of gsd.h.  The
    specification gives 64 bytes with [frame], [N], [location], [M], [type]
    and [flags] at offsets 0, 8, 16, 24, 28 and 29; it lists [id] as a field
    without an offset, taken here as the two bytes at offset 30.  The rest is
    reserved and written as zero. *)
Record gsd_index_entry : Type := mk_entry {
  frame : Z;
  N : Z;
  location : Z;
  M : Z;
  id : Z;
  type : Z;
  flags : Z
}.

Definition sizeof_index_entry : Z := 64.

Definition zero_entry : gsd_index_entry := mk_entry 0 0 0 0 0 0 0.

Definition decode_entry (mem : buffer) (off : Z) : gsd_index_entry :=
  {| frame := load_le mem off 8;
     N := load_le mem (off + 8) 8;
     location := load_le mem (off + 16) 8;
     M := load_le mem (off + 24) 4;
     type := load_le mem (off + 28) 1;
     flags := load_le mem (off + 29) 1;
     id := load_le mem (off + 30) 2 |}.

Definition encode_entry (e : gsd_index_entry) : list byte :=
  le_bytes 8 (frame e) ++ le_bytes 8 (N e) ++ le_bytes 8 (location e)
  ++ le_bytes 4 (M e) ++ le_bytes 1 (type e) ++ le_bytes 1 (flags e)
  ++ le_bytes 2 (id e) ++ repeat x00 32.

(** [index[i]] of an index held in [mem]. *)
Definition entry_at (mem : buffer) (i : Z) : gsd_index_entry :=
  decode_entry mem (sizeof_index_entry * i).

(** [index[i] = e] *)
Definition store_entry (mem : buffer) (i : Z) (e : gsd_index_entry) : buffer :=
  store mem (sizeof_index_entry * i) (encode_entry e).

(** Modelled from the spec: [struct gsd_namelist_entry] of gsd.h: 64 bytes of
    NUL-padded text. *)
Definition sizeof_namelist_entry : Z := 64.

(** The string that starts at [namelist[i].name]; entries written by this
    library end with a NUL at byte 63 at the latest, and the read stops at
    the end of the entry. *)
Definition name_at (mem : buffer) (i : Z) : list byte :=
  c_str (load mem (sizeof_namelist_entry * i) 64).

(** Modelled from the spec: [struct gsd_name_id_pair]: a pointer to a name of
    the namelist and the id of that name.  Namelist entries are written once
    (the namelist is append-only), so the pair holds the string itself. *)
Record gsd_name_id_pair : Type := mk_pair { pair_name : list byte; pair_id : Z }.

(** Modelled from the spec: [struct gsd_handle] of gsd.h, with the fields the
    source uses.  [fd] is the open file itself ([None] for the descriptor -1);
    [names] holds [names[0 .. namelist_num_entries)]. *)
Record gsd_handle : Type := mk_handle {
  fd : option file;
  header : gsd_header;
  index : buffer;
  append_index_size : Z;
  namelist : buffer;
  index_written_entries : Z;
  index_num_entries : Z;
  namelist_written_entries : Z;
  namelist_num_entries : Z;
  cur_frame : Z;
  file_size : Z;
  open_flags : gsd_open_flag;
  names : list gsd_name_id_pair;
  names_allocated_size : Z
}.

(** [gsd_zero_memory (handle, sizeof (struct gsd_handle))] *)
Definition zero_handle : gsd_handle :=
  mk_handle None zero_header zero_buffer 0 zero_buffer 0 0 0 0 0 0
    GSD_OPEN_READWRITE [] 0.

Definition set_fd (v : option file) (h : gsd_handle) : gsd_handle :=
  mk_handle v (header h) (index h) (append_index_size h) (namelist h)
  (index_written_entries h) (index_num_entries h) (namelist_written_entries h)
  (namelist_num_entries h) (cur_frame h) (file_size h) (open_flags h) (names h)
  (names_allocated_size h).

Definition set_header (v : gsd_header) (h : gsd_handle) : gsd_handle :=
  mk_handle (fd h) v (index h) (append_index_size h) (namelist h) (index_written_entries
  h) (index_num_entries h) (namelist_written_entries h) (namelist_num_entries h)
  (cur_frame h) (file_size h) (open_flags h) (names h) (names_allocated_size h).

Definition set_index (v : buffer) (h : gsd_handle) : gsd_handle :=
  mk_handle (fd h) (header h) v (append_index_size h) (namelist h)
  (index_written_entries h) (index_num_entries h) (namelist_written_entries h)
  (namelist_num_entries h) (cur_frame h) (file_size h) (open_flags h) (names h)
  (names_allocated_size h).

Definition set_append_index_size (v : Z) (h : gsd_handle) : gsd_handle :=
  mk_handle (fd h) (header h) (index h) v (namelist h) (index_written_entries h)
  (index_num_entries h) (namelist_written_entries h) (namelist_num_entries h) (cur_frame
  h) (file_size h) (open_flags h) (names h) (names_allocated_size h).

Definition set_namelist (v : buffer) (h : gsd_handle) : gsd_handle :=
  mk_handle (fd h) (header h) (index h) (append_index_size h) v (index_written_entries
  h) (index_num_entries h) (namelist_written_entries h) (namelist_num_entries h)
  (cur_frame h) (file_size h) (open_flags h) (names h) (names_allocated_size h).

Definition set_index_written_entries (v : Z) (h : gsd_handle) : gsd_handle :=
  mk_handle (fd h) (header h) (index h) (append_index_size h) (namelist h) v
  (index_num_entries h) (namelist_written_entries h) (namelist_num_entries h) (cur_frame
  h) (file_size h) (open_flags h) (names h) (names_allocated_size h).

Definition set_index_num_entries (v : Z) (h : gsd_handle) : gsd_handle :=
  mk_handle (fd h) (header h) (index h) (append_index_size h) (namelist h)
  (index_written_entries h) v (namelist_written_entries h) (namelist_num_entries h)
  (cur_frame h) (file_size h) (open_flags h) (names h) (names_allocated_size h).

Definition set_namelist_written_entries (v : Z) (h : gsd_handle) : gsd_handle :=
  mk_handle (fd h) (header h) (index h) (append_index_size h) (namelist h)
  (index_written_entries h) (index_num_entries h) v (namelist_num_entries h) (cur_frame
  h) (file_size h) (open_flags h) (names h) (names_allocated_size h).

Definition set_namelist_num_entries (v : Z) (h : gsd_handle) : gsd_handle :=
  mk_handle (fd h) (header h) (index h) (append_index_size h) (namelist h)
  (index_written_entries h) (index_num_entries h) (namelist_written_entries h) v
  (cur_frame h) (file_size h) (open_flags h) (names h) (names_allocated_size h).

Definition set_cur_frame (v : Z) (h : gsd_handle) : gsd_handle :=
  mk_handle (fd h) (header h) (index h) (append_index_size h) (namelist h)
  (index_written_entries h) (index_num_entries h) (namelist_written_entries h)
  (namelist_num_entries h) v (file_size h) (open_flags h) (names h)
  (names_allocated_size h).

Definition set_file_size (v : Z) (h : gsd_handle) : gsd_handle :=
  mk_handle (fd h) (header h) (index h) (append_index_size h) (namelist h)
  (index_written_entries h) (index_num_entries h) (namelist_written_entries h)
  (namelist_num_entries h) (cur_frame h) v (open_flags h) (names h)
  (names_allocated_size h).

Definition set_open_flags (v : gsd_open_flag) (h : gsd_handle) : gsd_handle :=
  mk_handle (fd h) (header h) (index h) (append_index_size h) (namelist h)
  (index_written_entries h) (index_num_entries h) (namelist_written_entries h)
  (namelist_num_entries h) (cur_frame h) (file_size h) v (names h) (names_allocated_size
  h).

Definition set_names (v : list gsd_name_id_pair) (h : gsd_handle) : gsd_handle :=
  mk_handle (fd h) (header h) (index h) (append_index_size h) (namelist h)
  (index_written_entries h) (index_num_entries h) (namelist_written_entries h)
  (namelist_num_entries h) (cur_frame h) (file_size h) (open_flags h) v
  (names_allocated_size h).

Definition set_names_allocated_size (v : Z) (h : gsd_handle) : gsd_handle :=
  mk_handle (fd h) (header h) (index h) (append_index_size h) (namelist h)
  (index_written_entries h) (index_num_entries h) (namelist_written_entries h)
  (namelist_num_entries h) (cur_frame h) (file_size h) (open_flags h) (names h) v.

Definition set_hdr_index_location (v : Z) (hd : gsd_header) : gsd_header :=
  mk_header (magic hd) v (namelist_location hd) (index_allocated_entries hd)
  (namelist_allocated_entries hd) (schema_version hd) (gsd_version hd) (application hd)
  (schema hd) (reserved hd).

Definition set_hdr_index_allocated_entries (v : Z) (hd : gsd_header) : gsd_header :=
  mk_header (magic hd) (index_location hd) (namelist_location hd) v
  (namelist_allocated_entries hd) (schema_version hd) (gsd_version hd) (application hd)
  (schema hd) (reserved hd).
(** ** Constants of [gsd.c] *)

Definition GSD_MAGIC_ID : Z := 0x65DF65DF65DF65DF.
Definition GSD_INITIAL_INDEX_SIZE : Z := 128.
Definition GSD_INITIAL_NAMELIST_SIZE : Z := 65535.
Definition GSD_COPY_BUFFER_SIZE : Z := 1024 * 16.

(** [getpagesize ()] *)
Definition page_size : Z := 4096.

(** [gsd_zero_memory (mem + off, len)] *)
Definition gsd_zero_memory (mem : buffer) (off len : Z) : buffer :=
  fun k => if (off <=? k) && (k <? off + len) then x00 else mem k.

(** ** [gsd_sizeof_type] and [gsd_make_version] *)

Definition gsd_sizeof_type (t : Z) : Z :=
  if t =? GSD_TYPE_UINT8 then 1
  else if t =? GSD_TYPE_UINT16 then 2
  else if t =? GSD_TYPE_UINT32 then 4
  else if t =? GSD_TYPE_UINT64 then 8
  else if t =? GSD_TYPE_INT8 then 1
  else if t =? GSD_TYPE_INT16 then 2
  else if t =? GSD_TYPE_INT32 then 4
  else if t =? GSD_TYPE_INT64 then 8
  else if t =? GSD_TYPE_FLOAT then 4
  else if t =? GSD_TYPE_DOUBLE then 8
  else 0.

Definition gsd_make_version (major minor : Z) : Z :=
  u32 (Z.lor (Z.shiftl major 16) minor).

(** ** [gsd_expand_index] *)

(** The first loop of the append branch: copy the old index block to its new
    place through the copy buffer.  Every round moves at least one byte, so
    [fuel] rounds cover [fuel * GSD_COPY_BUFFER_SIZE] bytes. *)
Fixpoint expand_copy_loop (fuel : nat) (d : option file)
  (old_index_location new_index_location total_bytes_written old_index_bytes : Z)
  : bool * option file * Z :=
  if total_bytes_written <? old_index_bytes then
    match fuel with
    | O => (false, d, total_bytes_written)
    | S fuel' =>
        let bytes_to_copy :=
          if old_index_bytes - total_bytes_written <? GSD_COPY_BUFFER_SIZE
          then old_index_bytes - total_bytes_written
          else GSD_COPY_BUFFER_SIZE in
        let '(bytes_read, buf) :=
          gsd_pread_retry d bytes_to_copy
            (u64 (old_index_location + total_bytes_written)) in
        if (bytes_read =? -1) || negb (bytes_read =? bytes_to_copy)
        then (false, d, total_bytes_written)
        else
          let '(bytes_written, d') :=
            gsd_pwrite_retry d buf bytes_to_copy
              (u64 (new_index_location + total_bytes_written)) in
          if (bytes_written =? -1) || negb (bytes_written =? bytes_to_copy)
          then (false, d', total_bytes_written)
          else
            expand_copy_loop fuel' d' old_index_location new_index_location
              (u64 (total_bytes_written + bytes_written)) old_index_bytes
    end
  else (true, d, total_bytes_written).

(** The second loop: fill the new half with zeros. *)
Fixpoint expand_zero_loop (fuel : nat) (d : option file)
  (new_index_location total_bytes_written new_index_bytes : Z)
  : bool * option file * Z :=
  if total_bytes_written <? new_index_bytes then
    match fuel with
    | O => (false, d, total_bytes_written)
    | S fuel' =>
        let bytes_to_copy :=
          if new_index_bytes - total_bytes_written <? GSD_COPY_BUFFER_SIZE
          then new_index_bytes - total_bytes_written
          else GSD_COPY_BUFFER_SIZE in
        let '(bytes_written, d') :=
          gsd_pwrite_retry d zero_buffer bytes_to_copy
            (u64 (new_index_location + total_bytes_written)) in
        if (bytes_written =? -1) || negb (bytes_written =? bytes_to_copy)
        then (false, d', total_bytes_written)
        else
          expand_zero_loop fuel' d' new_index_location
            (u64 (total_bytes_written + bytes_written)) new_index_bytes
    end
  else (true, d, total_bytes_written).

Definition loop_rounds (bytes : Z) : nat :=
  S (Z.to_nat (bytes / GSD_COPY_BUFFER_SIZE)).

(** The part of [gsd_expand_index] that depends on the open mode. *)
Definition expand_index_block (h : gsd_handle) (old_size new_size : Z)
  : gsd_error * gsd_handle :=
  match open_flags h with
  | GSD_OPEN_READWRITE =>
      (* realloc keeps the old entries; the new memory is zeroed *)
      let h1 :=
        set_index
          (gsd_zero_memory (index h) (sizeof_index_entry * old_size)
             (u64 (sizeof_index_entry * u64 (new_size - old_size)))) h in
      let h2 :=
        set_header (set_hdr_index_location (u64 (lseek_end (fd h1))) (header h1))
          h1 in
      let '(bytes_written, d) :=
        gsd_pwrite_retry (fd h2) (index h2) (u64 (sizeof_index_entry * new_size))
          (index_location (header h2)) in
      let h3 := set_fd d h2 in
      if (bytes_written =? -1)
         || negb (bytes_written =? u64 (sizeof_index_entry * new_size))
      then (GSD_ERROR_IO, h3)
      else
        (GSD_SUCCESS,
         set_file_size (u64 (index_location (header h3) + bytes_written)) h3)
  | GSD_OPEN_APPEND =>
      let new_index_location := lseek_end (fd h) in
      let old_index_location := index_location (header h) in
      let old_index_bytes := u64 (old_size * sizeof_index_entry) in
      let '(ok1, d1, total1) :=
        expand_copy_loop (loop_rounds old_index_bytes) (fd h) old_index_location
          new_index_location 0 old_index_bytes in
      if negb ok1 then (GSD_ERROR_IO, set_fd d1 h)
      else
        let new_index_bytes := u64 (new_size * sizeof_index_entry) in
        let '(ok2, d2, total2) :=
          expand_zero_loop (loop_rounds new_index_bytes) d1 new_index_location
            total1 new_index_bytes in
        if negb ok2 then (GSD_ERROR_IO, set_fd d2 h)
        else
          let h1 :=
            set_header
              (set_hdr_index_location (u64 new_index_location) (header h))
              (set_fd d2 h) in
          (GSD_SUCCESS,
           set_file_size (u64 (index_location (header h1) + total2)) h1)
  | GSD_OPEN_READONLY => (GSD_SUCCESS, h)
  end.

Definition gsd_expand_index (h : gsd_handle) : gsd_error * gsd_handle :=
  let old_size := index_allocated_entries (header h) in
  let new_size := u64 (old_size * 2) in
  let h0 := set_header (set_hdr_index_allocated_entries new_size (header h)) h in
  match expand_index_block h0 old_size new_size with
  | (GSD_SUCCESS, h1) =>
      (* sync the expanded index *)
      if negb (fsync (fd h1) =? 0) then (GSD_ERROR_IO, h1)
      else
        (* write the new header out *)
        let '(bytes_written, d) :=
          gsd_pwrite_retry (fd h1) (buf_of_list (encode_header (header h1)))
            sizeof_header 0 in
        let h2 := set_fd d h1 in
        if negb (bytes_written =? sizeof_header) then (GSD_ERROR_IO, h2)
        else if negb (fsync (fd h2) =? 0) then (GSD_ERROR_IO, h2)
        else (GSD_SUCCESS, h2)
  | (e, h1) => (e, h1)
  end.

(** ** The name cache *)

(** [gsd_cmp_name_id_pair (p, q) <= 0] *)
Definition pair_leb (p q : gsd_name_id_pair) : bool :=
  match strcmp (pair_name p) (pair_name q) with
  | Gt => false
  | _ => true
  end.

Fixpoint insert_pair (p : gsd_name_id_pair) (l : list gsd_name_id_pair)
  : list gsd_name_id_pair :=
  match l with
  | [] => [p]
  | q :: r => if pair_leb p q then p :: q :: r else q :: insert_pair p r
  end.

(** [qsort] with [gsd_cmp_name_id_pair].  The C library leaves the order of
    equal keys open; this is the stable result. *)
Fixpoint sort_pairs (l : list gsd_name_id_pair) : list gsd_name_id_pair :=
  match l with
  | [] => []
  | p :: r => insert_pair p (sort_pairs r)
  end.

(** [gsd_sort_name_id_pairs]: sorts [names[0 .. namelist_num_entries)]. *)
Definition gsd_sort_name_id_pairs (h : gsd_handle) : gsd_handle :=
  let n := Z.to_nat (namelist_num_entries h) in
  set_names (sort_pairs (firstn n (names h)) ++ skipn n (names h)) h.

Definition null_pair : gsd_name_id_pair := mk_pair [] 0.

(** [names[i]] *)
Definition names_at (l : list gsd_name_id_pair) (i : Z) : gsd_name_id_pair :=
  nth (Z.to_nat i) l null_pair.

(** The do-while loop of [gsd_find_name].  The window [R - L] shrinks in
    every round that continues, so [R - L] rounds are enough. *)
Fixpoint find_name_loop (fuel : nat) (nm : list gsd_name_id_pair)
  (name : list byte) (len : nat) (L R : Z) : Z :=
  match fuel with
  | O => UINT16_MAX
  | S fuel' =>
      let m := u64 (L + R) / 2 in
      match strncmp name (pair_name (names_at nm m)) len with
      | Lt =>
          if 1 <? u64 (m - L) then find_name_loop fuel' nm name len L m
          else UINT16_MAX
      | Eq => u16 m
      | Gt =>
          if 1 <? u64 (R - m) then find_name_loop fuel' nm name len m R
          else UINT16_MAX
      end
  end.

Definition gsd_find_name (h : gsd_handle) (name : list byte) : Z :=
  let len := strlen name in
  if namelist_written_entries h =? 0 then UINT16_MAX
  else
    let L := 0 in
    let R := namelist_written_entries h in
    match strncmp name (pair_name (names_at (names h) L)) len with
    | Lt => UINT16_MAX
    | Eq => u16 L
    | Gt => find_name_loop (S (Z.to_nat R)) (names h) name len L R
    end.

(** [gsd_append_name]: the result is the error code, [*id] and the handle. *)
Definition gsd_append_name (id0 : Z) (h : gsd_handle) (name : list byte)
  : gsd_error * Z * gsd_handle :=
  if open_flag_eqb (open_flags h) GSD_OPEN_READONLY
  then (GSD_ERROR_FILE_MUST_BE_WRITABLE, id0, h)
  else if namelist_num_entries h =? namelist_allocated_entries (header h)
  then (GSD_ERROR_NAMELIST_FULL, id0, h)
  else
    let n := namelist_num_entries h in
    (* add the name to the end of the namelist *)
    let h1 :=
      set_namelist
        (store (namelist h) (sizeof_namelist_entry * n) (strncpy_field 63 name))
        h in
    (* expand the names[] list if needed *)
    let h2 :=
      if names_allocated_size h1 <? u64 (n + 1)
      then set_names_allocated_size (u64 (names_allocated_size h1 * 2)) h1
      else h1 in
    (* update the names[] mapping *)
    let h3 :=
      set_names (names h2 ++ [mk_pair (name_at (namelist h2) n) (u16 n)]) h2 in
    (GSD_SUCCESS, u16 n, set_namelist_num_entries (u64 (n + 1)) h3).

Definition gsd_get_id (h : gsd_handle) (name : list byte) : Z :=
  let i := gsd_find_name h name in
  if negb (i =? UINT16_MAX) then pair_id (names_at (names h) i)
  else UINT16_MAX.

(** ** [gsd_initialize_file] *)

Definition initial_header (application schema : list byte) (schema_version : Z)
  : gsd_header :=
  {| magic := GSD_MAGIC_ID;
     index_location := sizeof_header;
     namelist_location :=
       u64 (sizeof_header + sizeof_index_entry * GSD_INITIAL_INDEX_SIZE);
     index_allocated_entries := GSD_INITIAL_INDEX_SIZE;
     namelist_allocated_entries := GSD_INITIAL_NAMELIST_SIZE;
     schema_version := u32 schema_version;
     gsd_version := gsd_make_version 1 0;
     application := strncpy_field 63 application;
     schema := strncpy_field 63 schema;
     reserved := repeat x00 80 |}.

Definition gsd_initialize_file (d : option file)
  (application schema : list byte) (schema_version : Z)
  : gsd_error * option file :=
  match d with
  | None => (GSD_ERROR_IO, d)
  | Some _ =>
      let '(retval, d0) := ftruncate0 d in
      if negb (retval =? 0) then (GSD_ERROR_IO, d0)
      else
        let hd := initial_header application schema schema_version in
        (* write the header out *)
        let '(w1, d1) :=
          gsd_pwrite_retry d0 (buf_of_list (encode_header hd)) sizeof_header 0 in
        if negb (w1 =? sizeof_header) then (GSD_ERROR_IO, d1)
        else
          (* write the empty index out *)
          let index_bytes := sizeof_index_entry * GSD_INITIAL_INDEX_SIZE in
          let '(w2, d2) :=
            gsd_pwrite_retry d1 zero_buffer index_bytes sizeof_header in
          if negb (w2 =? index_bytes) then (GSD_ERROR_IO, d2)
          else
            (* write the namelist out *)
            let namelist_bytes :=
              sizeof_namelist_entry * GSD_INITIAL_NAMELIST_SIZE in
            let '(w3, d3) :=
              gsd_pwrite_retry d2 zero_buffer namelist_bytes
                (sizeof_header + index_bytes) in
            if negb (w3 =? namelist_bytes) then (GSD_ERROR_IO, d3)
            else if negb (fsync d3 =? 0) then (GSD_ERROR_IO, d3)
            else (GSD_SUCCESS, d3)
  end.

(** ** [gsd_is_entry_valid] *)

Definition chunk_size (e : gsd_index_entry) : Z :=
  u64 (N e * M e * gsd_sizeof_type (type e)).

Definition gsd_is_entry_valid (h : gsd_handle) (idx : Z) : bool :=
  let entry := entry_at (index h) idx in
  if gsd_sizeof_type (type entry) =? 0 then false
  else
    let size := chunk_size entry in
    if file_size h <? u64 (location entry + size) then false
    else if index_allocated_entries (header h) <=? frame entry then false
    else if namelist_num_entries h <=? id entry then false
    else if negb (flags entry =? 0) then false
    else true.

(** ** [gsd_read_header] *)

(** [mmap (NULL, len, PROT_READ, MAP_SHARED, fd, offset)]: the mapping shows
    the file from [offset] on; [None] stands for [MAP_FAILED] (a bad
    descriptor, an empty mapping or an offset that is no [off_t]).  Bytes of
    the mapping past the end of the file read as zero. *)
Definition mmap (d : option file) (len offset : Z) : option buffer :=
  match d with
  | None => None
  | Some f =>
      if (len =? 0) || (to_int64 offset <? 0) || (OFF_MAX <? offset + len)
      then None
      else Some (fun k => file_byte f (offset + k))
  end.

(** The mapping of the index block used by the read-only and append modes:
    the result is [handle->index]. *)
Definition map_index (h : gsd_handle) : option buffer :=
  let index_size :=
    u64 (sizeof_index_entry * index_allocated_entries (header h)) in
  let offset := u64 (index_location (header h) / page_size * page_size) in
  match
    mmap (fd h) (u64 (index_size + u64 (index_location (header h) - offset)))
      offset
  with
  | None => None
  | Some mapped_data =>
      Some (shift mapped_data (u64 (index_location (header h) - offset)))
  end.

(** The [for] loop that looks for the first empty name, run for the
    [namelist_allocated_entries] rounds of the loop. *)
Fixpoint first_empty_name (rounds : nat) (nl : buffer) (i : Z) : option Z :=
  match rounds with
  | O => None
  | S r =>
      if is_nul (nl (sizeof_namelist_entry * i)) then Some i
      else first_empty_name r nl (i + 1)
  end.

(** [names[i].name = namelist[i].name; names[i].id = i] for [i < n] *)
Definition initial_names (nl : buffer) (n : Z) : list gsd_name_id_pair :=
  map (fun i => mk_pair (name_at nl (Z.of_nat i)) (u16 (Z.of_nat i)))
    (seq 0 (Z.to_nat n)).

(** The do-while loop that bisects for the first entry with location 0;
    [None] is the return of [GSD_ERROR_FILE_CORRUPT]. *)
Fixpoint index_bisect (fuel : nat) (h : gsd_handle) (L R : Z) : option Z :=
  match fuel with
  | O => Some R
  | S fuel' =>
      let m := u64 (L + R) / 2 in
      let em := entry_at (index h) m in
      if negb (location em =? 0)
         && (negb (gsd_is_entry_valid h m)
             || (frame em <? frame (entry_at (index h) L)))
      then None
      else
        let L' := if negb (location em =? 0) then m else L in
        let R' := if negb (location em =? 0) then R else m in
        if 1 <? u64 (R' - L') then index_bisect fuel' h L' R' else Some R'
  end.

(** The second half of [gsd_read_header], from the namelist on; the index
    is mapped or loaded. *)
Definition read_header_tail (h : gsd_handle) : gsd_error * gsd_handle :=
  let namelist_bytes :=
    u64 (sizeof_namelist_entry * namelist_allocated_entries (header h)) in
  (* validate that the namelist block exists inside the file *)
  if file_size h <? u64 (namelist_location (header h) + namelist_bytes)
  then (GSD_ERROR_FILE_CORRUPT, h)
  else
    let '(bytes_read, nl) :=
      gsd_pread_retry (fd h) namelist_bytes (namelist_location (header h)) in
    let h1 := set_namelist nl h in
    if (bytes_read =? -1) || negb (bytes_read =? namelist_bytes)
    then (GSD_ERROR_IO, h1)
    else
      (* the number of namelist entries: the first empty string, or all *)
      let n :=
        match
          first_empty_name
            (Z.to_nat (namelist_allocated_entries (header h1))) nl 0
        with
        | Some i => i
        | None => namelist_allocated_entries (header h1)
        end in
      let h2 := set_namelist_written_entries n (set_namelist_num_entries n h1) in
      let h3 :=
        set_names_allocated_size
          (if n =? 0 then GSD_INITIAL_NAMELIST_SIZE else n) h2 in
      let h4 := gsd_sort_name_id_pairs (set_names (initial_names nl n) h3) in
      (* file is corrupt if first index entry is invalid *)
      if negb (location (entry_at (index h4) 0) =? 0)
         && negb (gsd_is_entry_valid h4 0)
      then (GSD_ERROR_FILE_CORRUPT, h4)
      else
        let found :=
          if location (entry_at (index h4) 0) =? 0 then Some 0
          else
            index_bisect (S (Z.to_nat (index_allocated_entries (header h4))))
              h4 0 (index_allocated_entries (header h4)) in
        match found with
        | None => (GSD_ERROR_FILE_CORRUPT, h4)
        | Some n_index =>
            let h5 := set_index_num_entries n_index h4 in
            let h6 :=
              set_cur_frame
                (if n_index =? 0 then 0
                 else u64 (frame (entry_at (index h5) (n_index - 1)) + 1)) h5 in
            let h7 := set_index_written_entries (index_num_entries h6) h6 in
            if open_flag_eqb (open_flags h7) GSD_OPEN_APPEND
            then
              (* the mapping goes; the cache for one frame is fresh memory *)
              (GSD_SUCCESS, set_index zero_buffer (set_append_index_size 1 h7))
            else (GSD_SUCCESS, h7)
        end.

(** The middle of [gsd_read_header]: the size of the file and the index,
    mapped (read-only and append modes) or read into memory (read/write). *)
Definition read_header_index (h1 : gsd_handle) : gsd_error * gsd_handle :=
  (* determine the file size *)
  let h2 := set_file_size (lseek_end (fd h1)) h1 in
  match open_flags h2 with
  | GSD_OPEN_READONLY | GSD_OPEN_APPEND =>
      match map_index h2 with
      | None => (GSD_ERROR_IO, h2)
      | Some idx => read_header_tail (set_index idx h2)
      end
  | GSD_OPEN_READWRITE =>
      let index_bytes :=
        u64 (sizeof_index_entry * index_allocated_entries (header h2)) in
      (* validate that the index block exists inside the file *)
      if file_size h2 <? u64 (index_location (header h2) + index_bytes)
      then (GSD_ERROR_FILE_CORRUPT, h2)
      else
        let '(bytes_read, idx) :=
          gsd_pread_retry (fd h2) index_bytes (index_location (header h2)) in
        let h3 := set_index idx h2 in
        if (bytes_read =? -1) || negb (bytes_read =? index_bytes)
        then (GSD_ERROR_IO, h3)
        else read_header_tail h3
  end.

Definition gsd_read_header (h : gsd_handle) : gsd_error * gsd_handle :=
  match fd h with
  | None => (GSD_ERROR_IO, h)
  | Some _ =>
      (* read the header *)
      let '(bytes_read, buf) := gsd_pread_retry (fd h) sizeof_header 0 in
      let h1 := set_header (decode_header buf) h in
      if bytes_read =? -1 then (GSD_ERROR_IO, h1)
      else if negb (bytes_read =? sizeof_header)
      then (GSD_ERROR_NOT_A_GSD_FILE, h1)
      (* validate the header *)
      else if negb (magic (header h1) =? GSD_MAGIC_ID)
      then (GSD_ERROR_NOT_A_GSD_FILE, h1)
      else if (gsd_version (header h1) <? gsd_make_version 1 0)
              && negb (gsd_version (header h1) =? gsd_make_version 0 3)
      then (GSD_ERROR_INVALID_GSD_FILE_VERSION, h1)
      else if gsd_make_version 2 0 <=? gsd_version (header h1)
      then (GSD_ERROR_INVALID_GSD_FILE_VERSION, h1)
      else read_header_index h1
  end.

(** ** Creating, opening and truncating *)

(** [open (fname, O_RDWR | O_CREAT | O_TRUNC | extra_flags, mode)] on a path
    that holds [fs] ([None]: no such file). *)
Definition open_create (fs : option file) (exclusive : bool) : option file :=
  match fs with
  | None => Some empty_file
  | Some _ => if exclusive then None else Some empty_file
  end.

Definition gsd_create (fs : option file) (application schema : list byte)
  (schema_version : Z) : gsd_error * option file :=
  gsd_initialize_file (open_create fs false) application schema schema_version.

Definition gsd_create_and_open (h : gsd_handle) (fs : option file)
  (application schema : list byte) (schema_version : Z)
  (flags : gsd_open_flag) (exclusive_create : bool) : gsd_error * gsd_handle :=
  match flags with
  | GSD_OPEN_READONLY => (GSD_ERROR_FILE_MUST_BE_WRITABLE, h)
  | _ =>
      let h1 := set_open_flags flags h in
      let h2 := set_fd (open_create fs exclusive_create) h1 in
      match gsd_initialize_file (fd h2) application schema schema_version with
      | (GSD_SUCCESS, d) => gsd_read_header (set_fd d h2)
      | (e, d) => (e, set_fd d h2)
      end
  end.

(** [open (fname, O_RDWR)] and [open (fname, O_RDONLY)] return the file of
    the path, or -1 when there is none. *)
Definition gsd_open (fs : option file) (flags : gsd_open_flag)
  : gsd_error * gsd_handle :=
  gsd_read_header (set_open_flags flags (set_fd fs zero_handle)).

Definition gsd_truncate (hp : option gsd_handle)
  : gsd_error * option gsd_handle :=
  match hp with
  | None => (GSD_ERROR_INVALID_ARGUMENT, None)
  | Some h =>
      if open_flag_eqb (open_flags h) GSD_OPEN_READONLY
      then (GSD_ERROR_FILE_MUST_BE_WRITABLE, hp)
      else
        (* the buffers are freed; keep a copy of the old header *)
        let old_header := header h in
        match
          gsd_initialize_file (fd h) (application old_header)
            (schema old_header) (schema_version old_header)
        with
        | (GSD_SUCCESS, d) =>
            let '(e, h') := gsd_read_header (set_fd d h) in (e, Some h')
        | (e, d) => (e, Some (set_fd d h))
        end
  end.

(** ** [gsd_end_frame] *)

(** The index part of [gsd_end_frame]: write the entries that are not yet in
    the file. *)
Definition end_frame_index (h : gsd_handle) : gsd_error * gsd_handle :=
  let entries_to_write :=
    u64 (index_num_entries h - index_written_entries h) in
  if 0 <? entries_to_write then
    let write_pos :=
      u64 (index_location (header h)
           + u64 (sizeof_index_entry * index_written_entries h)) in
    (* append mode keeps only the unwritten entries, from the start of the
       memory; read/write mode keeps the whole index *)
    let data :=
      if open_flag_eqb (open_flags h) GSD_OPEN_APPEND then index h
      else shift (index h) (sizeof_index_entry * index_written_entries h) in
    let '(bytes_written, d) :=
      gsd_pwrite_retry (fd h) data (u64 (sizeof_index_entry * entries_to_write))
        write_pos in
    let h1 := set_fd d h in
    if (bytes_written =? -1)
       || negb (bytes_written =? u64 (sizeof_index_entry * entries_to_write))
    then (GSD_ERROR_IO, h1)
    else
      (GSD_SUCCESS,
       set_index_written_entries
         (u64 (index_written_entries h1 + entries_to_write)) h1)
  else (GSD_SUCCESS, h).

(** The namelist part of [gsd_end_frame]. *)
Definition end_frame_namelist (h : gsd_handle) : gsd_error * gsd_handle :=
  let new_namelist_entries :=
    u64 (namelist_num_entries h - namelist_written_entries h) in
  if negb (new_namelist_entries =? 0) then
    let '(bytes_written, d) :=
      gsd_pwrite_retry (fd h)
        (shift (namelist h) (sizeof_namelist_entry * namelist_written_entries h))
        (u64 (sizeof_namelist_entry * new_namelist_entries))
        (u64 (namelist_location (header h)
              + u64 (sizeof_namelist_entry * namelist_written_entries h))) in
    let h1 := set_fd d h in
    if negb (bytes_written =? u64 (sizeof_namelist_entry * new_namelist_entries))
    then (GSD_ERROR_IO, h1)
    else
      let h2 := set_namelist_written_entries (namelist_num_entries h1) h1 in
      (* sort written names for search on the next frame *)
      let h3 := gsd_sort_name_id_pairs h2 in
      if negb (fsync (fd h3) =? 0) then (GSD_ERROR_IO, h3)
      else (GSD_SUCCESS, h3)
  else (GSD_SUCCESS, h).

Definition gsd_end_frame (hp : option gsd_handle)
  : gsd_error * option gsd_handle :=
  match hp with
  | None => (GSD_ERROR_INVALID_ARGUMENT, None)
  | Some h =>
      if open_flag_eqb (open_flags h) GSD_OPEN_READONLY
      then (GSD_ERROR_FILE_MUST_BE_WRITABLE, hp)
      else
        let h1 := set_cur_frame (u64 (cur_frame h + 1)) h in
        match end_frame_index h1 with
        | (GSD_SUCCESS, h2) =>
            let '(e, h3) := end_frame_namelist h2 in (e, Some h3)
        | (e, h2) => (e, Some h2)
        end
  end.

(** ** [gsd_write_chunk] *)

(** The slot of the new entry, and the growth of the append cache. *)
Definition write_chunk_slot (h : gsd_handle) : Z * gsd_handle :=
  let slot := index_num_entries h in
  if open_flag_eqb (open_flags h) GSD_OPEN_APPEND then
    let slot' := u64 (slot - index_written_entries h) in
    if append_index_size h <=? slot'
    then (slot', set_append_index_size (u64 (append_index_size h * 2)) h)
    else (slot', h)
  else (slot, h).

(** [gsd_write_chunk] takes the handle itself: the source reads
    [handle->open_flags] without a test for NULL.  [data] is [None] for a
    NULL pointer and the bytes behind the pointer otherwise. *)
Definition gsd_write_chunk (h : gsd_handle) (name : list byte)
  (type N M flags : Z) (data : option (list byte)) : gsd_error * gsd_handle :=
  match data with
  | None => (GSD_ERROR_INVALID_ARGUMENT, h)
  | Some bytes =>
      if (N =? 0) || (M =? 0) || (gsd_sizeof_type type =? 0)
      then (GSD_ERROR_INVALID_ARGUMENT, h)
      else if open_flag_eqb (open_flags h) GSD_OPEN_READONLY
      then (GSD_ERROR_FILE_MUST_BE_WRITABLE, h)
      else if negb (flags =? 0) then (GSD_ERROR_INVALID_ARGUMENT, h)
      else
        let id0 := gsd_get_id h name in
        let '(e, id1, h1) :=
          if id0 =? UINT16_MAX then gsd_append_name id0 h name
          else (GSD_SUCCESS, id0, h) in
        match e with
        | GSD_SUCCESS =>
            if id1 =? UINT16_MAX then (GSD_ERROR_NAMELIST_FULL, h1)
            else
              let index_entry :=
                {| frame := cur_frame h; N := N; location := file_size h1;
                   M := M; id := id1; type := u8 type; flags := 0 |} in
              let size := u64 (N * M * gsd_sizeof_type type) in
              (* write the data *)
              let '(bytes_written, d) :=
                gsd_pwrite_retry (fd h1) (buf_of_list bytes) size
                  (location index_entry) in
              let h2 := set_fd d h1 in
              if (bytes_written =? -1) || negb (bytes_written =? size)
              then (GSD_ERROR_IO, h2)
              else
                let h3 := set_file_size (u64 (file_size h2 + bytes_written)) h2 in
                (* need to expand the index if it is already full *)
                let '(e2, h4) :=
                  if index_allocated_entries (header h3) <=? index_num_entries h3
                  then gsd_expand_index h3
                  else (GSD_SUCCESS, h3) in
                match e2 with
                | GSD_SUCCESS =>
                    let '(slot, h5) := write_chunk_slot h4 in
                    (GSD_SUCCESS,
                     set_index_num_entries (u64 (index_num_entries h5 + 1))
                       (set_index (store_entry (index h5) slot index_entry) h5))
                | _ => (e2, h4)
                end
        | _ => (e, h1)
        end
  end.

(** ** The read path *)

Definition gsd_get_nframes (hp : option gsd_handle) : Z :=
  match hp with
  | None => 0
  | Some h => cur_frame h
  end.

(** The do-while loop of [gsd_find_chunk]; the result is [L]. *)
Fixpoint find_chunk_bisect (fuel : nat) (idx : buffer) (fr L R : Z) : Z :=
  match fuel with
  | O => L
  | S fuel' =>
      let m := u64 (L + R) / 2 in
      let L' := if fr <? frame (entry_at idx m) then L else m in
      let R' := if fr <? frame (entry_at idx m) then m else R in
      if 1 <? u64 (R' - L') then find_chunk_bisect fuel' idx fr L' R' else L'
  end.

(** The [for] loop of [gsd_find_chunk], downwards from [cur_index]. *)
Fixpoint find_chunk_scan (rounds : nat) (idx : buffer) (fr match_id : Z)
  (cur_index : Z) : option gsd_index_entry :=
  match rounds with
  | O => None
  | S r =>
      if (0 <=? cur_index) && (frame (entry_at idx cur_index) =? fr) then
        if match_id =? id (entry_at idx cur_index)
        then Some (entry_at idx cur_index)
        else find_chunk_scan r idx fr match_id (cur_index - 1)
      else None
  end.

(** The result is the entry behind the returned pointer, [None] for NULL. *)
Definition gsd_find_chunk (hp : option gsd_handle) (fr : Z)
  (name : option (list byte)) : option gsd_index_entry :=
  match hp, name with
  | Some h, Some nm =>
      if gsd_get_nframes hp <=? fr then None
      else if open_flag_eqb (open_flags h) GSD_OPEN_APPEND then None
      else
        let match_id := gsd_get_id h nm in
        if match_id =? UINT16_MAX then None
        else
          let L :=
            find_chunk_bisect (S (Z.to_nat (index_num_entries h))) (index h) fr
              0 (index_num_entries h) in
          find_chunk_scan (S (S (Z.to_nat L))) (index h) fr match_id L
  | _, _ => None
  end.

(** [data] is the destination ([None] for NULL); the result holds the
    destination after the call. *)
Definition gsd_read_chunk (hp : option gsd_handle) (data : option buffer)
  (chunk : option gsd_index_entry) : gsd_error * option buffer :=
  match hp, data, chunk with
  | Some h, Some dst, Some c =>
      if open_flag_eqb (open_flags h) GSD_OPEN_APPEND
      then (GSD_ERROR_FILE_MUST_BE_READABLE, data)
      else
        let size := chunk_size c in
        if size =? 0 then (GSD_ERROR_FILE_CORRUPT, data)
        else if location c =? 0 then (GSD_ERROR_FILE_CORRUPT, data)
        else if file_size h <? u64 (location c + size)
        then (GSD_ERROR_FILE_CORRUPT, data)
        else
          let '(bytes_read, buf) := gsd_pread_retry (fd h) size (location c) in
          let dst' :=
            fun k => if (0 <=? k) && (k <? bytes_read) then buf k else dst k in
          if (bytes_read =? -1) || negb (bytes_read =? size)
          then (GSD_ERROR_IO, Some dst')
          else (GSD_SUCCESS, Some dst')
  | _, _, _ => (GSD_ERROR_INVALID_ARGUMENT, data)
  end.

(** The [for] loop of [gsd_find_matching_chunk_name], run for the
    [namelist_written_entries - start] rounds it can take. *)
Fixpoint matching_scan (rounds : nat) (nm : list gsd_name_id_pair)
  (mt : list byte) (match_len : nat) (i : Z) : option (list byte) :=
  match rounds with
  | O => None
  | S r =>
      match strncmp mt (pair_name (names_at nm i)) match_len with
      | Eq => Some (pair_name (names_at nm i))
      | _ => matching_scan r nm mt match_len (i + 1)
      end
  end.

Definition gsd_find_matching_chunk_name (hp : option gsd_handle)
  (mt prev : option (list byte)) : option (list byte) :=
  match hp, mt with
  | Some h, Some m =>
      if namelist_written_entries h =? 0 then None
      else
        let start :=
          match prev with
          | None => Some 0
          | Some p =>
              let found := gsd_find_name h p in
              if found =? UINT16_MAX then None else Some (found + 1)
          end in
        match start with
        | None => None
        | Some st =>
            matching_scan (Z.to_nat (namelist_written_entries h - st)) (names h)
              m (strlen m) st
        end
  | _, _ => None
  end.

(** * Vocabulary of the statements *)

(** The versions that the header gate lets through: 0.3, and 1.0 up to but
    not including 2.0. *)
Definition version_accepted (v : Z) : Prop :=
  v = gsd_make_version 0 3
  \/ gsd_make_version 1 0 <= v < gsd_make_version 2 0.

(** The argument checks of [gsd_write_chunk] in the order in which the
    specification lists them: data, N, M, type, flags, writable mode.  The
    result is the error of the first check that fails. *)
Definition write_chunk_checks_as_specified (h : gsd_handle)
  (type N M flags : Z) (data : option (list byte)) : option gsd_error :=
  match data with
  | None => Some GSD_ERROR_INVALID_ARGUMENT
  | Some _ =>
      if N =? 0 then Some GSD_ERROR_INVALID_ARGUMENT
      else if M =? 0 then Some GSD_ERROR_INVALID_ARGUMENT
      else if gsd_sizeof_type type =? 0 then Some GSD_ERROR_INVALID_ARGUMENT
      else if negb (flags =? 0) then Some GSD_ERROR_INVALID_ARGUMENT
      else if open_flag_eqb (open_flags h) GSD_OPEN_READONLY
      then Some GSD_ERROR_FILE_MUST_BE_WRITABLE
      else None
  end.

(** The same checks in the order of the source: data, N, M, type, writable
    mode, flags. *)
Definition write_chunk_checks (h : gsd_handle)
  (type N M flags : Z) (data : option (list byte)) : option gsd_error :=
  match data with
  | None => Some GSD_ERROR_INVALID_ARGUMENT
  | Some _ =>
      if N =? 0 then Some GSD_ERROR_INVALID_ARGUMENT
      else if M =? 0 then Some GSD_ERROR_INVALID_ARGUMENT
      else if gsd_sizeof_type type =? 0 then Some GSD_ERROR_INVALID_ARGUMENT
      else if open_flag_eqb (open_flags h) GSD_OPEN_READONLY
      then Some GSD_ERROR_FILE_MUST_BE_WRITABLE
      else if negb (flags =? 0) then Some GSD_ERROR_INVALID_ARGUMENT
      else None
  end.

(** A file made by [gsd_create] and handles on it. *)
Definition fresh_file : option file :=
  snd (gsd_create None [x61; x70; x70] [x73] 0).

Definition fresh_handle (flags : gsd_open_flag) : gsd_handle :=
  snd (gsd_open fresh_file flags).

(** What [entry_at] reads back: every field cut to its width. *)
Definition clip_entry (e : gsd_index_entry) : gsd_index_entry :=
  {| frame := u64 (frame e); N := u64 (N e); location := u64 (location e);
     M := u32 (M e); id := u16 (id e); type := u8 (type e);
     flags := u8 (flags e) |}.

(** Short forms for example sessions: a chunk of one byte, and the end of a
    frame. *)
Definition write_byte (h : gsd_handle) (name : list byte) (b : byte)
  : gsd_handle :=
  snd (gsd_write_chunk h name GSD_TYPE_UINT8 1 1 0 (Some [b])).

Definition end_frame (h : gsd_handle) : gsd_handle :=
  match snd (gsd_end_frame (Some h)) with
  | Some h' => h'
  | None => h
  end.

(** The names that [gsd_end_frame] has committed. *)
Definition committed_names (h : gsd_handle) : list (list byte) :=
  map pair_name (firstn (Z.to_nat (namelist_written_entries h)) (names h)).

(** A read/write handle on a fresh file after one frame with the chunk
    ["ab"]. *)
Definition handle_with_ab : gsd_handle :=
  end_frame
    (write_byte (fresh_handle GSD_OPEN_READWRITE) ["a"%byte; "b"%byte] x01).

(** [mt] is a prefix of [s]: the test of [gsd_find_matching_chunk_name] and
    of [gsd_find_name]. *)
Definition has_prefix (mt s : list byte) : bool :=
  match strncmp mt s (strlen mt) with
  | Eq => true
  | _ => false
  end.

(** The client loop over [gsd_find_matching_chunk_name]: start with NULL,
    feed every result back as [prev], stop at NULL.  [None]: the loop has
    not met NULL within [fuel] calls. *)
Fixpoint enumerate_names (fuel : nat) (h : gsd_handle) (mt : list byte)
  (prev : option (list byte)) : option (list (list byte)) :=
  match fuel with
  | O => None
  | S f =>
      match gsd_find_matching_chunk_name (Some h) (Some mt) prev with
      | None => Some []
      | Some name =>
          option_map (cons name) (enumerate_names f h mt (Some name))
      end
  end.

(** [a] differs from [b] within its own length and is the smaller one: [a]
    sorts before [b] and is no prefix of it. *)
Definition strictly_before (a b : list byte) : bool :=
  match strncmp a b (strlen a) with
  | Lt => true
  | _ => false
  end.

(** A list of names in increasing order in which no name is a prefix of
    another. *)
Fixpoint names_separated (l : list (list byte)) : bool :=
  match l with
  | [] => true
  | a :: r => forallb (strictly_before a) r && names_separated r
  end.

(** A read/write handle on a fresh file after one frame with the chunks
    ["0"], ["a"], ["ab"] and ["ac"]. *)
Definition handle_with_prefixes : gsd_handle :=
  end_frame
    (write_byte
       (write_byte
          (write_byte
             (write_byte (fresh_handle GSD_OPEN_READWRITE) ["0"%byte] x01)
             ["a"%byte] x02)
          ["a"%byte; "b"%byte] x03)
       ["a"%byte; "c"%byte] x04).

(** The scan the enumeration makes from position [st]. *)
Definition enumerate_at (fuel : nat) (h : gsd_handle) (mt : list byte) (st : Z)
  : option (list (list byte)) :=
  match fuel with
  | O => None
  | S f =>
      match
        matching_scan (Z.to_nat (namelist_written_entries h - st)) (names h) mt
          (strlen mt) st
      with
      | None => Some []
      | Some name =>
          option_map (cons name) (enumerate_names f h mt (Some name))
      end
  end.

(** A read/write handle on a fresh file after one frame with the chunks
    ["a/x"], ["b"] and ["a/y"]. *)
Definition handle_with_groups : gsd_handle :=
  end_frame
    (write_byte
       (write_byte
          (write_byte (fresh_handle GSD_OPEN_READWRITE)
             ["a"%byte; "/"%byte; "x"%byte] x01)
          ["b"%byte] x02)
       ["a"%byte; "/"%byte; "y"%byte] x03).

(** An index entry for one byte at the last 64-bit offset. *)
Definition entry_at_last_offset : gsd_index_entry :=
  {| frame := 0; N := 1; location := 2 ^ 64 - 1; M := 1; id := 0;
     type := GSD_TYPE_UINT8; flags := 0 |}.

(** ** Files seen as GSD files *)

Definition file_header (f : file) : gsd_header := decode_header (file_byte f).

(** Entry [i] of the index block that the header of the file points at. *)
Definition file_entry (f : file) (i : Z) : gsd_index_entry :=
  decode_entry (file_byte f)
    (index_location (file_header f) + sizeof_index_entry * i).

(** The number of names in the namelist block: the position of the first
    empty name, or the size of the block. *)
Definition file_name_count (f : file) : Z :=
  match
    first_empty_name (Z.to_nat (namelist_allocated_entries (file_header f)))
      (shift (file_byte f) (namelist_location (file_header f))) 0
  with
  | Some i => i
  | None => namelist_allocated_entries (file_header f)
  end.

(** The test of [gsd_is_entry_valid] on entry [i] of the file. *)
Definition file_entry_valid (f : file) (i : Z) : bool :=
  let e := file_entry f i in
  negb (gsd_sizeof_type (type e) =? 0)
  && (u64 (location e + chunk_size e) <=? fsize f)
  && (frame e <? index_allocated_entries (file_header f))
  && (id e <? file_name_count f)
  && (flags e =? 0).

(** The header is that of a GSD file of an accepted version, and the index
    block and the namelist block lie inside the file. *)
Record file_layout_ok (f : file) : Prop := {
  layout_size : sizeof_header <= fsize f <= OFF_MAX;
  layout_magic : magic (file_header f) = GSD_MAGIC_ID;
  layout_version : version_accepted (gsd_version (file_header f));
  layout_index_some : 1 <= index_allocated_entries (file_header f);
  layout_index :
    index_location (file_header f)
    + sizeof_index_entry * index_allocated_entries (file_header f)
    <= fsize f;
  layout_namelist :
    namelist_location (file_header f)
    + sizeof_namelist_entry * namelist_allocated_entries (file_header f)
    <= fsize f
}.

(** The index of the file is a dense prefix of [k] entries with a location,
    followed by entries with location 0. *)
Definition index_prefix (f : file) (k : Z) : Prop :=
  0 <= k <= index_allocated_entries (file_header f)
  /\ (forall i, 0 <= i < k -> location (file_entry f i) <> 0)
  /\ (forall i, k <= i < index_allocated_entries (file_header f) ->
                location (file_entry f i) = 0).

(** What a handle holds after [gsd_read_header] has read the file [f], whose
    index has a dense prefix of [k] entries. *)
Record opened_on (f : file) (k : Z) (h : gsd_handle) : Prop := {
  op_fd : fd h = Some f;
  op_header : header h = file_header f;
  op_file_size : file_size h = fsize f;
  op_num : index_num_entries h = k;
  op_written : index_written_entries h = k;
  op_cur_frame :
    cur_frame h
    = if k =? 0 then 0 else u64 (frame (file_entry f (k - 1)) + 1);
  op_nnum : namelist_num_entries h = file_name_count f;
  op_nwritten : namelist_written_entries h = file_name_count f;
  op_namelist :
    forall j,
      0 <= j
      < sizeof_namelist_entry * namelist_allocated_entries (file_header f) ->
      namelist h j = file_byte f (namelist_location (file_header f) + j);
  op_names :
    names h
    = sort_pairs (initial_names (namelist h) (namelist_num_entries h));
  op_index :
    if open_flag_eqb (open_flags h) GSD_OPEN_APPEND
    then append_index_size h = 1
    else forall i, entry_at (index h) i = file_entry f i
}.

(** The file behind the descriptor of a handle. *)
Definition file_of (h : gsd_handle) : file :=
  match fd h with
  | Some f => f
  | None => empty_file
  end.

(** [p] holds on the [n] integers from [lo] on. *)
Fixpoint range_forallb (p : Z -> bool) (lo : Z) (n : nat) : bool :=
  match n with
  | O => true
  | S n' => p lo && range_forallb p (lo + 1) n'
  end.

(** The file after a successful [pwrite] of [count] bytes of [buf] at [off]. *)
Definition write_bytes (f : file) (buf : buffer) (count off : Z) : file :=
  mk_file
    (fun o =>
       if (off <=? o) && (o <? off + count) then buf (o - off)
       else file_byte f o)
    (Z.max (fsize f) (off + count)).

(** A header whose integer fields fit their C types and whose arrays have
    their declared lengths. *)
Record header_wf (hd : gsd_header) : Prop := {
  wf_magic : 0 <= magic hd < 2 ^ 64;
  wf_index_location : 0 <= index_location hd < 2 ^ 64;
  wf_namelist_location : 0 <= namelist_location hd < 2 ^ 64;
  wf_index_allocated : 0 <= index_allocated_entries hd < 2 ^ 64;
  wf_namelist_allocated : 0 <= namelist_allocated_entries hd < 2 ^ 64;
  wf_schema_version : 0 <= schema_version hd < 2 ^ 32;
  wf_gsd_version : 0 <= gsd_version hd < 2 ^ 32;
  wf_application : length (application hd) = 64%nat;
  wf_schema : length (schema hd) = 64%nat;
  wf_reserved : length (reserved hd) = 80%nat
}.

(** A writable handle on the file [f] whose index block lies inside the
    file: the state in which [gsd_expand_index] is called. *)
Record expandable (h : gsd_handle) (f : file) : Prop := {
  xa_fd : fd h = Some f;
  xa_mode : open_flags h <> GSD_OPEN_READONLY;
  xa_header : header_wf (header h);
  xa_alloc : 1 <= index_allocated_entries (header h);
  xa_block :
    index_location (header h)
    + sizeof_index_entry * index_allocated_entries (header h)
    <= fsize f;
  xa_size : sizeof_header <= fsize f <= OFF_MAX
}.

(** The old contents of the index block, byte [o]: the index in memory for
    a read/write handle, the block in the file for an append handle. *)
Definition old_index_byte (h : gsd_handle) (f : file) (o : Z) : byte :=
  match open_flags h with
  | GSD_OPEN_READWRITE => index h o
  | _ => file_byte f (index_location (header h) + o)
  end.

(** The state after [gsd_expand_index] on the handle [h] with the file
    [f]. *)
Record expanded (h : gsd_handle) (f : file) (h' : gsd_handle) (f' : file)
  : Prop := {
  xd_fd : fd h' = Some f';
  xd_header :
    header h'
    = set_hdr_index_location (fsize f)
        (set_hdr_index_allocated_entries
           (2 * index_allocated_entries (header h)) (header h));
  xd_disk_header : file_header f' = header h';
  xd_size :
    fsize f'
    = fsize f + 2 * (sizeof_index_entry * index_allocated_entries (header h));
  xd_file_size : file_size h' = fsize f';
  xd_old :
    forall o, sizeof_header <= o < fsize f -> file_byte f' o = file_byte f o;
  xd_low :
    forall o,
      0 <= o < sizeof_index_entry * index_allocated_entries (header h) ->
      file_byte f' (fsize f + o) = old_index_byte h f o;
  xd_high :
    forall o,
      sizeof_index_entry * index_allocated_entries (header h) <= o
      < 2 * (sizeof_index_entry * index_allocated_entries (header h)) ->
      file_byte f' (fsize f + o) = x00;
  xd_index :
    index h'
    = match open_flags h with
      | GSD_OPEN_READWRITE =>
          gsd_zero_memory (index h)
            (sizeof_index_entry * index_allocated_entries (header h))
            (sizeof_index_entry * index_allocated_entries (header h))
      | _ => index h
      end
}.

(** A handle whose cached header and file size are those of its file [f],
    with the index block inside the file. *)
Record handle_on (h : gsd_handle) (f : file) : Prop := {
  ho_fd : fd h = Some f;
  ho_file_size : file_size h = fsize f;
  ho_header : header h = file_header f;
  ho_size : sizeof_header <= fsize f <= OFF_MAX;
  ho_alloc : 1 <= index_allocated_entries (header h);
  ho_block :
    index_location (header h)
    + sizeof_index_entry * index_allocated_entries (header h)
    <= fsize f
}.

(** Two handles that agree on everything but the descriptor, the file size,
    the index and the place and size of the index block. *)
Definition same_rest (h h' : gsd_handle) : Prop :=
  names h' = names h /\ namelist h' = namelist h
  /\ namelist_num_entries h' = namelist_num_entries h
  /\ namelist_written_entries h' = namelist_written_entries h
  /\ index_num_entries h' = index_num_entries h
  /\ index_written_entries h' = index_written_entries h
  /\ cur_frame h' = cur_frame h /\ open_flags h' = open_flags h
  /\ append_index_size h' = append_index_size h
  /\ names_allocated_size h' = names_allocated_size h
  /\ namelist_allocated_entries (header h')
     = namelist_allocated_entries (header h)
  /\ namelist_location (header h') = namelist_location (header h).


(** The file that [gsd_initialize_file] leaves: the header, an empty index
    and an empty namelist. *)
Definition initial_file (application schema : list byte) (schema_version : Z)
  : file :=
  write_bytes
    (write_bytes
       (write_bytes empty_file
          (buf_of_list
             (encode_header (initial_header application schema schema_version)))
          sizeof_header 0)
       zero_buffer (sizeof_index_entry * GSD_INITIAL_INDEX_SIZE) sizeof_header)
    zero_buffer (sizeof_namelist_entry * GSD_INITIAL_NAMELIST_SIZE)
    (sizeof_header + sizeof_index_entry * GSD_INITIAL_INDEX_SIZE).



(** The probes of the bisection of [gsd_read_header] on an index with a
    dense prefix of [k] entries (an entry has a location exactly when it is
    below [k]): the pairs [(m, L)] of a probed entry with a location and
    the left end of the window at that probe, in the order of the loop. *)
Fixpoint bisect_probes (fuel : nat) (k L R : Z) : list (Z * Z) :=
  match fuel with
  | O => []
  | S fuel' =>
      let m := u64 (L + R) / 2 in
      if m <? k
      then (m, L)
           :: (if 1 <? u64 (R - m) then bisect_probes fuel' k m R else [])
      else if 1 <? u64 (m - L) then bisect_probes fuel' k L m else []
  end.

(** The entries that [gsd_read_header] validates on a file whose index has
    a dense prefix of [k] entries: entry 0, then the probes of the
    bisection, each with the entry its frame is compared with. *)
Definition probed_entries (f : file) (k : Z) : list (Z * Z) :=
  if k =? 0 then []
  else
    (0, 0)
    :: bisect_probes
         (S (Z.to_nat (index_allocated_entries (file_header f)))) k 0
         (index_allocated_entries (file_header f)).

(** The test on a probe [(m, L)]: entry [m] passes [gsd_is_entry_valid]
    and its frame is not below the frame of entry [L]. *)
Definition probe_ok (f : file) (p : Z * Z) : bool :=
  file_entry_valid f (fst p)
  && (frame (file_entry f (snd p)) <=? frame (file_entry f (fst p))).

(** ** Sessions and the chunks they commit *)

(** The arguments of one call of [gsd_write_chunk]; [c_data] holds the bytes
    behind the data pointer. *)
Record chunk : Type := mk_chunk {
  c_name : list byte;
  c_type : Z;
  c_N : Z;
  c_M : Z;
  c_data : list byte
}.

Definition c_size (c : chunk) : Z := c_N c * c_M c * gsd_sizeof_type (c_type c).

Definition write_one (h : gsd_handle) (c : chunk) : gsd_error * gsd_handle :=
  gsd_write_chunk h (c_name c) (c_type c) (c_N c) (c_M c) 0 (Some (c_data c)).

(** The calls of [gsd_write_chunk] of one frame, in order; the first error
    ends the run. *)
Fixpoint write_chunks (h : gsd_handle) (cs : list chunk)
  : gsd_error * gsd_handle :=
  match cs with
  | [] => (GSD_SUCCESS, h)
  | c :: r =>
      match write_one h c with
      | (GSD_SUCCESS, h1) => write_chunks h1 r
      | (e, h1) => (e, h1)
      end
  end.

(** A frame: its chunks, then [gsd_end_frame]. *)
Definition write_frame (h : gsd_handle) (cs : list chunk)
  : gsd_error * gsd_handle :=
  match write_chunks h cs with
  | (GSD_SUCCESS, h1) =>
      match gsd_end_frame (Some h1) with
      | (e, Some h2) => (e, h2)
      | (e, None) => (e, h1)
      end
  | (e, h1) => (e, h1)
  end.

Fixpoint write_frames (h : gsd_handle) (fs : list (list chunk))
  : gsd_error * gsd_handle :=
  match fs with
  | [] => (GSD_SUCCESS, h)
  | cs :: r =>
      match write_frame h cs with
      | (GSD_SUCCESS, h1) => write_frames h1 r
      | (e, h1) => (e, h1)
      end
  end.

(** The files that the write path produces, with the frames committed to
    them: [gsd_create], then sessions that open the file for writing and
    write whole frames, every call with success. *)
Inductive produced : file -> list (list chunk) -> Prop :=
  | produced_create (fs : option file) (app sch : list byte) (ver : Z)
      (f : file) :
      gsd_create fs app sch ver = (GSD_SUCCESS, Some f) -> produced f []
  | produced_session (f : file) (log : list (list chunk))
      (flags : gsd_open_flag) (h : gsd_handle) (fs : list (list chunk))
      (h' : gsd_handle) (f' : file) :
      produced f log ->
      gsd_open (Some f) flags = (GSD_SUCCESS, h) ->
      write_frames h fs = (GSD_SUCCESS, h') ->
      fd h' = Some f' ->
      produced f' (log ++ fs).

(** A name as [gsd_write_chunk] stores it whole: not empty, at most 63
    characters, none of them NUL. *)
Definition name_ok (n : list byte) : Prop :=
  n <> [] /\ (length n <= 63)%nat /\ c_str n = n.

(** Arguments within the ranges of their C types, with a payload of
    [N * M * sizeof (type)] bytes. *)
Record chunk_ok (c : chunk) : Prop := {
  ck_name : name_ok (c_name c);
  ck_N : 0 < c_N c < 2 ^ 64;
  ck_M : 0 < c_M c < 2 ^ 32;
  ck_type : gsd_sizeof_type (c_type c) <> 0;
  ck_size : c_size c < 2 ^ 64;
  ck_data : Z.of_nat (length (c_data c)) = c_size c
}.

Definition log_names (log : list (list chunk)) : list (list byte) :=
  map c_name (concat log).

(** No name is a proper prefix of another one. *)
Definition prefix_free (l : list (list byte)) : Prop :=
  forall a b, In a l -> In b l -> has_prefix a b = true -> a = b.

(** Two names of which neither is a prefix of the other. *)
Definition unrelated (a b : list byte) : Prop :=
  has_prefix a b = false /\ has_prefix b a = false.

(** The sessions that the round trip covers: no frame is empty, the
    arguments are valid, a name is written once in a frame at most, and no
    name is a proper prefix of another one. *)
Record log_ok (log : list (list chunk)) : Prop := {
  lo_frames : forall cs, In cs log -> cs <> [];
  lo_chunks : forall c, In c (concat log) -> chunk_ok c;
  lo_once : forall cs, In cs log -> NoDup (map c_name cs);
  lo_prefix : prefix_free (log_names log)
}.

(** The chunks of a log in the order of the index, with their frames. *)
Fixpoint number_frames (k : Z) (log : list (list chunk)) : list (Z * chunk) :=
  match log with
  | [] => []
  | cs :: r => map (pair k) cs ++ number_frames (k + 1) r
  end.

(** ** The invariant of the file format *)

Definition index_end (hd : gsd_header) : Z :=
  index_location hd + sizeof_index_entry * index_allocated_entries hd.

Definition namelist_end (hd : gsd_header) : Z :=
  namelist_location hd
  + sizeof_namelist_entry * namelist_allocated_entries hd.

(** The blocks lie behind the header and do not overlap. *)
Record regions_ok (hd : gsd_header) : Prop := {
  rg_index : sizeof_header <= index_location hd;
  rg_namelist : sizeof_header <= namelist_location hd;
  rg_disjoint :
    index_end hd <= namelist_location hd \/ namelist_end hd <= index_location hd;
  rg_names : namelist_allocated_entries hd <= UINT16_MAX
}.

(** The index entry [e] describes the chunk [c] of frame [fr]; its id is the
    position of the name in [ns]. *)
Record entry_for (ns : list (list byte)) (e : gsd_index_entry) (fr : Z)
  (c : chunk) : Prop := {
  ef_frame : frame e = fr;
  ef_N : N e = c_N c;
  ef_M : M e = c_M c;
  ef_type : type e = c_type c;
  ef_flags : flags e = 0;
  ef_id : 0 <= id e;
  ef_name : nth_error ns (Z.to_nat (id e)) = Some (c_name c)
}.

Definition payload_at (f : file) (loc : Z) (data : list byte) : Prop :=
  forall o b, nth_error data o = Some b -> file_byte f (loc + Z.of_nat o) = b.

(** The payload of [c] is in the file at the location of [e], outside the
    header, the index block and the namelist block. *)
Record stored (f : file) (e : gsd_index_entry) (c : chunk) : Prop := {
  st_low : sizeof_header <= location e;
  st_high : location e + c_size c <= fsize f;
  st_bytes : payload_at f (location e) (c_data c);
  st_index :
    location e + c_size c <= index_location (file_header f)
    \/ index_end (file_header f) <= location e;
  st_namelist :
    location e + c_size c <= namelist_location (file_header f)
    \/ namelist_end (file_header f) <= location e;
  st_ok : chunk_ok c
}.

(** The namelist block of the file holds [ns], in the order of their
    ids, and nothing else. *)
Record disk_names (f : file) (ns : list (list byte)) : Prop := {
  dn_count :
    Z.of_nat (length ns) <= namelist_allocated_entries (file_header f);
  dn_names :
    forall j n, nth_error ns j = Some n ->
      load (file_byte f)
        (namelist_location (file_header f)
         + sizeof_namelist_entry * Z.of_nat j) 64
      = strncpy_field 63 n;
  dn_free :
    forall j,
      Z.of_nat (length ns) <= j
      < namelist_allocated_entries (file_header f) ->
      file_byte f
        (namelist_location (file_header f) + sizeof_namelist_entry * j)
      = x00;
  dn_nodup : NoDup ns
}.

(** The index block of the file holds the entries of [log], with their
    payloads in the file; [free] is the first slot known to be unused. *)
Record disk_index (f : file) (ns : list (list byte))
  (log : list (list chunk)) (free : Z) : Prop := {
  dx_count : free <= index_allocated_entries (file_header f);
  dx_entries :
    forall i fr c, nth_error (number_frames 0 log) i = Some (fr, c) ->
      entry_for ns (file_entry f (Z.of_nat i)) fr c
      /\ stored f (file_entry f (Z.of_nat i)) c;
  dx_free :
    forall i, free <= i < index_allocated_entries (file_header f) ->
      location (file_entry f i) = 0
}.

(** A file that holds the committed frames [log]. *)
Record disk_inv (f : file) (ns : list (list byte))
  (log : list (list chunk)) : Prop := {
  di_layout : file_layout_ok f;
  di_regions : regions_ok (file_header f);
  di_names : disk_names f ns;
  di_log : incl ns (log_names log);
  di_index :
    disk_index f ns log (Z.of_nat (length (number_frames 0 log)))
}.

(** The pairs of the name cache for the names [l], with the ids from [from]
    on. *)
Definition name_pairs (from : nat) (l : list (list byte))
  : list gsd_name_id_pair :=
  map (fun jn => mk_pair (snd jn) (Z.of_nat (fst jn)))
    (combine (seq from (length l)) l).

(** The slot of the index in memory that holds entry [i]. *)
Definition memory_slot (h : gsd_handle) (i : Z) : Z :=
  if open_flag_eqb (open_flags h) GSD_OPEN_APPEND
  then i - index_written_entries h
  else i.

(** A handle on the file [f] in a session: [log] holds the committed
    frames, [pend] the chunks written since the last [gsd_end_frame],
    [ns] the committed names and [pns] the names added since. *)
Record session_inv (h : gsd_handle) (f : file) (ns pns : list (list byte))
  (log : list (list chunk)) (pend : list chunk) : Prop := {
  si_on : handle_on h f;
  si_layout : file_layout_ok f;
  si_regions : regions_ok (file_header f);
  si_names : disk_names f ns;
  si_log : incl ns (log_names log);
  si_pending : incl pns (map c_name pend);
  si_nodup : NoDup (ns ++ pns);
  si_index :
    disk_index f ns log
      (Z.of_nat (length (number_frames 0 log) + length pend));
  si_written :
    index_written_entries h = Z.of_nat (length (number_frames 0 log));
  si_num :
    index_num_entries h
    = Z.of_nat (length (number_frames 0 log) + length pend);
  si_cur_frame : cur_frame h = Z.of_nat (length log);
  si_nwritten : namelist_written_entries h = Z.of_nat (length ns);
  si_nnum : namelist_num_entries h = Z.of_nat (length (ns ++ pns));
  si_nroom :
    Z.of_nat (length (ns ++ pns))
    <= namelist_allocated_entries (file_header f);
  si_namelist :
    forall j n, nth_error (ns ++ pns) j = Some n ->
      load (namelist h) (sizeof_namelist_entry * Z.of_nat j) 64
      = strncpy_field 63 n;
  si_cache :
    exists cp,
      names h = cp ++ name_pairs (length ns) pns
      /\ Permutation (name_pairs 0 ns) cp
      /\ names_separated (map pair_name cp) = true;
  si_committed :
    open_flags h <> GSD_OPEN_APPEND ->
    forall i, 0 <= i < Z.of_nat (length (number_frames 0 log)) ->
      entry_at (index h) i = file_entry f i;
  si_unused :
    open_flags h <> GSD_OPEN_APPEND ->
    forall i,
      Z.of_nat (length (number_frames 0 log) + length pend) <= i
      < index_allocated_entries (file_header f) ->
      location (entry_at (index h) i) = 0;
  si_pend :
    forall j c, nth_error pend j = Some c ->
      let e :=
        entry_at (index h)
          (memory_slot h
             (Z.of_nat (length (number_frames 0 log)) + Z.of_nat j)) in
      entry_for (ns ++ pns) e (Z.of_nat (length log)) c /\ stored f e c;
  si_frames : forall cs, In cs log -> cs <> []
}.

(** The handle [h4] and the file [f4] after [gsd_write_chunk] has written
    the payload of [c] and made room in the index, before the new entry is
    stored; [K] entries are committed and [T] entries are in the index. *)
Record chunk_step (h : gsd_handle) (f : file) (c : chunk) (K T : Z)
  (h4 : gsd_handle) (f4 : file) : Prop := {
  cs_fd : fd h4 = Some f4;
  cs_file_size : file_size h4 = fsize f4;
  cs_header : header h4 = file_header f4;
  cs_size : fsize f + c_size c <= fsize f4;
  cs_max : fsize f4 <= OFF_MAX;
  cs_bytes :
    forall o, sizeof_header <= o < fsize f -> file_byte f4 o = file_byte f o;
  cs_payload : payload_at f4 (fsize f) (c_data c);
  cs_magic : magic (header h4) = magic (header h);
  cs_version : gsd_version (header h4) = gsd_version (header h);
  cs_nloc : namelist_location (header h4) = namelist_location (header h);
  cs_nalloc :
    namelist_allocated_entries (header h4)
    = namelist_allocated_entries (header h);
  cs_index :
    (index_location (header h4) = index_location (header h)
     /\ index_allocated_entries (header h4)
        = index_allocated_entries (header h)
     /\ T < index_allocated_entries (header h))
    \/ (index_location (header h4) = fsize f + c_size c
        /\ index_allocated_entries (header h4)
           = 2 * index_allocated_entries (header h)
        /\ fsize f4
           = fsize f + c_size c
             + sizeof_index_entry * (2 * index_allocated_entries (header h)));
  cs_committed : forall i, 0 <= i < K -> file_entry f4 i = file_entry f i;
  cs_free :
    forall i, T <= i < index_allocated_entries (header h4) ->
      location (file_entry f4 i) = 0;
  cs_memory :
    forall i, 0 <= i < index_allocated_entries (header h) ->
      entry_at (index h4) i = entry_at (index h) i;
  cs_unused :
    open_flags h <> GSD_OPEN_APPEND ->
    forall i,
      index_allocated_entries (header h) <= i
      < index_allocated_entries (header h4) ->
      location (entry_at (index h4) i) = 0
}.

(** ** Example sessions *)

(** A chunk of [N] bytes ([M = 1], type [GSD_TYPE_UINT8]). *)
Definition bytes_chunk (name data : list byte) : chunk :=
  mk_chunk name GSD_TYPE_UINT8 (Z.of_nat (length data)) 1 data.

(** The file of [gsd_create] with the application ["app"], the schema ["s"]
    and the schema version 0. *)
Definition created_file : file := initial_file [x61; x70; x70] [x73] 0.

(** One read/write session on the created file that writes the frames
    [fs], and the file it leaves. *)
Definition session_handle (fs : list (list chunk)) : gsd_handle :=
  snd (write_frames
         (snd (gsd_open (Some created_file) GSD_OPEN_READWRITE)) fs).

Definition session_file (fs : list (list chunk)) : file :=
  file_of (session_handle fs).

(** Frame 0 holds the chunk ["a"]. *)
Definition log_a : list (list chunk) := [[bytes_chunk ["a"%byte] [x01]]].



(** A frame with the chunk ["a"] alone, and 127 such frames: with one more
    chunk the initial index of 128 entries is full. *)
Definition frame_a : list chunk := [bytes_chunk ["a"%byte] [x01]].

Definition log_full : list (list chunk) := repeat frame_a 127.

(** The file of two frames with the chunk ["a"], with the frame of index
    entry 0 overwritten by 5: entry 1 (frame 1) is then below entry 0. *)
Definition file_with_frame_disorder : file :=
  write_bytes (session_file [frame_a; frame_a]) (buf_of_list (le_bytes 8 5))
    8 256.

(** * Properties *)

#[local] Arguments Z.mul : simpl never.
#[local] Arguments Z.add : simpl never.
#[local] Arguments Z.sub : simpl never.
#[local] Arguments Z.div : simpl never.
#[local] Arguments Z.modulo : simpl never.
#[local] Arguments Z.pow : simpl never.
#[local] Arguments Z.of_nat : simpl never.
#[local] Arguments Z.to_nat : simpl never.

(** Reduction of the projections of handles and headers through the field
    updates, and nothing else. *)
Ltac hsimpl :=
  cbn [fd header index append_index_size namelist index_written_entries
       index_num_entries namelist_written_entries namelist_num_entries
       cur_frame file_size open_flags names names_allocated_size
       set_fd set_header set_index set_append_index_size set_namelist
       set_index_written_entries set_index_num_entries
       set_namelist_written_entries set_namelist_num_entries set_cur_frame
       set_file_size set_open_flags set_names set_names_allocated_size
       magic index_location namelist_location index_allocated_entries
       namelist_allocated_entries schema_version gsd_version application
       schema reserved set_hdr_index_location set_hdr_index_allocated_entries
       fst snd].

Ltac hsimpl_in H :=
  cbn [fd header index append_index_size namelist index_written_entries
       index_num_entries namelist_written_entries namelist_num_entries
       cur_frame file_size open_flags names names_allocated_size
       set_fd set_header set_index set_append_index_size set_namelist
       set_index_written_entries set_index_num_entries
       set_namelist_written_entries set_namelist_num_entries set_cur_frame
       set_file_size set_open_flags set_names set_names_allocated_size
       magic index_location namelist_location index_allocated_entries
       namelist_allocated_entries schema_version gsd_version application
       schema reserved set_hdr_index_location set_hdr_index_allocated_entries
       fst snd] in H.

(** ** Bytes and little-endian integers *)

Lemma byte_val_range (b : byte) : 0 <= byte_val b < 256.
Proof.
  unfold byte_val. pose proof (Byte.to_N_bounded b) as H.
  split; [apply N2Z.is_nonneg|].
  apply N2Z.inj_le in H. change (Z.of_N 255) with 255 in H. lia.
Qed.

Lemma byte_val_of (z : Z) : byte_val (byte_of z) = z mod 256.
Proof.
  unfold byte_val, byte_of.
  assert (Hr : 0 <= z mod 256 < 256) by (apply Z.mod_pos_bound; lia).
  destruct (Byte.of_N (Z.to_N (z mod 256))) as [b|] eqn:E.
  - apply Byte.to_of_N in E. rewrite E. rewrite Z2N.id; lia.
  - apply Byte.of_N_None_iff in E.
    apply N2Z.inj_lt in E. rewrite Z2N.id in E by lia.
    change (Z.of_N 255) with 255 in E. lia.
Qed.

Lemma byte_of_val (b : byte) : byte_of (byte_val b) = b.
Proof.
  unfold byte_of. pose proof (byte_val_range b) as Hr.
  rewrite Z.mod_small by lia. unfold byte_val. rewrite N2Z.id.
  rewrite Byte.of_to_N. reflexivity.
Qed.

Lemma byte_val_inj (a b : byte) : byte_val a = byte_val b -> a = b.
Proof.
  intros H. rewrite <- (byte_of_val a), <- (byte_of_val b), H. reflexivity.
Qed.

Lemma byte_val_x00 : byte_val x00 = 0.
Proof. reflexivity. Qed.

Lemma is_nul_true (b : byte) : is_nul b = true <-> b = x00.
Proof.
  unfold is_nul. split; intros H.
  - apply Byte.byte_dec_bl. exact H.
  - apply Byte.byte_dec_lb. exact H.
Qed.

Lemma is_nul_false (b : byte) : is_nul b = false <-> b <> x00.
Proof.
  split; intros H.
  - intros E. apply is_nul_true in E. congruence.
  - destruct (is_nul b) eqn:E; [|reflexivity].
    apply is_nul_true in E. contradiction.
Qed.

Lemma le_bytes_length (n : nat) (v : Z) : length (le_bytes n v) = n.
Proof.
  revert v. induction n as [|n IH]; intros v; simpl; [reflexivity|].
  rewrite IH. reflexivity.
Qed.

Lemma le_value_range (l : list byte) :
  0 <= le_value l < 2 ^ (8 * Z.of_nat (length l)).
Proof.
  induction l as [|b r IH]; cbn [le_value].
  - simpl. lia.
  - pose proof (byte_val_range b) as Hb.
    replace (8 * Z.of_nat (length (b :: r))) with (8 + 8 * Z.of_nat (length r))
      by (simpl length; lia).
    rewrite Z.pow_add_r by lia. change (2 ^ 8) with 256.
    set (P := 2 ^ (8 * Z.of_nat (length r))) in *. lia.
Qed.

Lemma le_value_bytes (n : nat) (v : Z) :
  le_value (le_bytes n v) = v mod 2 ^ (8 * Z.of_nat n).
Proof.
  revert v. induction n as [|n IH]; intros v.
  - simpl. rewrite Z.mod_1_r. reflexivity.
  - cbn [le_bytes le_value]. rewrite IH, byte_val_of.
    replace (8 * Z.of_nat (S n)) with (8 + 8 * Z.of_nat n) by lia.
    rewrite Z.pow_add_r by lia. change (2 ^ 8) with 256.
    rewrite Z.rem_mul_r; [reflexivity | lia | apply Z.pow_pos_nonneg; lia].
Qed.

Lemma le_bytes_value (l : list byte) : le_bytes (length l) (le_value l) = l.
Proof.
  induction l as [|b r IH]; [reflexivity|].
  cbn [length le_bytes le_value].
  pose proof (byte_val_range b) as Hb.
  f_equal.
  - rewrite <- (byte_of_val b) at 2. unfold byte_of.
    replace ((byte_val b + 256 * le_value r) mod 256) with (byte_val b mod 256);
      [reflexivity|].
    rewrite (Z.mul_comm 256 (le_value r)), Z.mod_add by lia. reflexivity.
  - replace ((byte_val b + 256 * le_value r) / 256) with (le_value r); [exact IH|].
    rewrite (Z.mul_comm 256 (le_value r)), Z.div_add by lia.
    rewrite Z.div_small by lia. lia.
Qed.

Lemma load_length (mem : buffer) (off : Z) (n : nat) : length (load mem off n) = n.
Proof. unfold load. rewrite length_map, length_seq. reflexivity. Qed.

Lemma load_ext (m1 m2 : buffer) (off : Z) (n : nat) :
  (forall k, off <= k < off + Z.of_nat n -> m1 k = m2 k) ->
  load m1 off n = load m2 off n.
Proof.
  intros H. unfold load. apply map_ext_in. intros k Hk.
  apply in_seq in Hk. apply H. lia.
Qed.

Lemma load_le_ext (m1 m2 : buffer) (off : Z) (n : nat) :
  (forall k, off <= k < off + Z.of_nat n -> m1 k = m2 k) ->
  load_le m1 off n = load_le m2 off n.
Proof. intros H. unfold load_le. rewrite (load_ext m1 m2); auto. Qed.

Lemma load_le_range (mem : buffer) (off : Z) (n : nat) :
  0 <= load_le mem off n < 2 ^ (8 * Z.of_nat n).
Proof.
  unfold load_le. pose proof (le_value_range (load mem off n)) as H.
  rewrite load_length in H. exact H.
Qed.

Lemma nth_load (mem : buffer) (off : Z) (n k : nat) :
  (k < n)%nat -> nth k (load mem off n) x00 = mem (off + Z.of_nat k).
Proof.
  intros Hk. unfold load.
  rewrite (nth_indep _ x00 (mem (off + Z.of_nat 0)))
    by (rewrite length_map, length_seq; exact Hk).
  rewrite (map_nth (fun k => mem (off + Z.of_nat k))), seq_nth by exact Hk.
  reflexivity.
Qed.

(** Loading from where a list was stored gives the list back. *)
Lemma load_store (mem : buffer) (off : Z) (l : list byte) :
  load (store mem off l) off (length l) = l.
Proof.
  apply (nth_ext _ _ x00 x00).
  - apply load_length.
  - intros k Hk. rewrite load_length in Hk. rewrite nth_load by exact Hk.
    unfold store.
    replace ((off <=? off + Z.of_nat k) && (off + Z.of_nat k <? off + Z.of_nat (length l)))
      with true by (symmetry; apply andb_true_iff; split; [apply Z.leb_le|apply Z.ltb_lt]; lia).
    f_equal. lia.
Qed.

Lemma store_other (mem : buffer) (off : Z) (l : list byte) (k : Z) :
  k < off \/ off + Z.of_nat (length l) <= k -> store mem off l k = mem k.
Proof.
  intros H. unfold store.
  destruct ((off <=? k) && (k <? off + Z.of_nat (length l))) eqn:E; [|reflexivity].
  apply andb_true_iff in E. destruct E as [E1 E2].
  apply Z.leb_le in E1. apply Z.ltb_lt in E2. lia.
Qed.

Lemma load_buf_of_list (l : list byte) : load (buf_of_list l) 0 (length l) = l.
Proof.
  apply (nth_ext _ _ x00 x00).
  - apply load_length.
  - intros k Hk. rewrite load_length in Hk. rewrite nth_load by exact Hk.
    unfold buf_of_list. rewrite Z.add_0_l.
    destruct (Z.of_nat k <? 0) eqn:E; [apply Z.ltb_lt in E; lia|].
    rewrite Nat2Z.id. reflexivity.
Qed.

Lemma u64_small (x : Z) : 0 <= x < 2 ^ 64 -> u64 x = x.
Proof. intros H. unfold u64. apply Z.mod_small. exact H. Qed.

Lemma u64_range (x : Z) : 0 <= u64 x < 2 ^ 64.
Proof. unfold u64. apply Z.mod_pos_bound. lia. Qed.

Lemma to_int64_small (x : Z) : 0 <= x < 2 ^ 63 -> to_int64 x = x.
Proof.
  intros H. unfold to_int64. rewrite u64_small by lia.
  destruct (x <? 2 ^ 63) eqn:E; [reflexivity|]. apply Z.ltb_ge in E. lia.
Qed.

Lemma pair_of_fst {A B : Type} (p : A * B) (a : A) : fst p = a -> p = (a, snd p).
Proof. destruct p as [x y]. cbn [fst snd]. intros ->. reflexivity. Qed.

Lemma load_store_len (mem : buffer) (off : Z) (l : list byte) (n : nat) :
  n = length l -> load (store mem off l) off n = l.
Proof. intros ->. apply load_store. Qed.

Lemma range_forallb_spec (p : Z -> bool) (n : nat) (lo : Z) :
  range_forallb p lo n = true ->
  forall i, lo <= i < lo + Z.of_nat n -> p i = true.
Proof.
  revert lo. induction n as [|n IH]; intros lo H i Hi; [lia|].
  cbn [range_forallb] in H. apply andb_true_iff in H. destruct H as [H0 H1].
  destruct (Z.eq_dec i lo) as [->|Hne]; [exact H0|].
  apply (IH (lo + 1) H1). lia.
Qed.

(** ** The header gate of [gsd_open] *)

Lemma make_version_encoding (major minor : Z) :
  0 <= major < 2 ^ 16 -> 0 <= minor < 2 ^ 16 ->
  gsd_make_version major minor = major * 2 ^ 16 + minor.
Proof.
  intros Hmaj Hmin. unfold gsd_make_version, u32.
  assert (Hland : Z.land (Z.shiftl major 16) minor = 0).
  { apply Z.bits_inj'. intros n Hn. rewrite Z.land_spec, Z.bits_0.
    destruct (Z.ltb_spec n 16) as [Hlt|Hge].
    - rewrite Z.shiftl_spec_low by lia. reflexivity.
    - rewrite (Z.bits_above_log2 minor n); [apply andb_false_r|lia|].
      destruct (Z.eq_dec minor 0) as [->|Hnz]; [simpl; lia|].
      apply Z.log2_lt_pow2; [lia|].
      assert (2 ^ 16 <= 2 ^ n) by (apply Z.pow_le_mono_r; lia). lia. }
  rewrite <- Z.lxor_lor by exact Hland.
  rewrite <- Z.add_nocarry_lxor by exact Hland.
  rewrite Z.shiftl_mul_pow2 by lia.
  apply Z.mod_small. lia.
Qed.

Lemma read_header_tail_codes (h : gsd_handle) :
  fst (read_header_tail h) = GSD_SUCCESS
  \/ fst (read_header_tail h) = GSD_ERROR_IO
  \/ fst (read_header_tail h) = GSD_ERROR_FILE_CORRUPT.
Proof.
  unfold read_header_tail.
  repeat
    match goal with
    | |- context [let '(_, _) := ?x in _] => destruct x
    | |- context [if ?c then _ else _] => destruct c
    | |- context [match ?x with Some _ => _ | None => _ end] => destruct x
    end; cbn [fst]; auto.
Qed.

Lemma read_header_index_codes (h : gsd_handle) :
  fst (read_header_index h) = GSD_SUCCESS
  \/ fst (read_header_index h) = GSD_ERROR_IO
  \/ fst (read_header_index h) = GSD_ERROR_FILE_CORRUPT.
Proof.
  unfold read_header_index.
  repeat
    match goal with
    | |- context [let '(_, _) := ?x in _] => destruct x
    | |- context [if ?c then _ else _] => destruct c
    | |- context [match map_index ?x with Some _ => _ | None => _ end] =>
        destruct (map_index x)
    | |- context [match open_flags ?x with _ => _ end] => destruct (open_flags x)
    end; cbn [fst]; auto using read_header_tail_codes.
Qed.

Lemma pread_header (f : file) :
  gsd_pread_retry (Some f) sizeof_header 0
  = (Z.max 0 (Z.min sizeof_header (fsize f)), file_byte f).
Proof.
  unfold gsd_pread_retry, pread. change (sizeof_header <=? 0) with false.
  change (to_int64 0) with 0. change (0 <? 0) with false. cbv iota.
  rewrite Z.sub_0_r. reflexivity.
Qed.

Lemma read_header_gate (h : gsd_handle) (f : file) :
  fd h = Some f ->
  let hd := decode_header (file_byte f) in
  (fsize f < sizeof_header \/ magic hd <> GSD_MAGIC_ID ->
   fst (gsd_read_header h) = GSD_ERROR_NOT_A_GSD_FILE)
  /\ (sizeof_header <= fsize f -> magic hd = GSD_MAGIC_ID ->
      (fst (gsd_read_header h) = GSD_ERROR_INVALID_GSD_FILE_VERSION
       <-> ~ version_accepted (gsd_version hd))).
Proof.
  intros Hfd hd. unfold gsd_read_header. rewrite Hfd, pread_header.
  cbn [header set_header].
  fold hd. unfold sizeof_header.
  assert (Hm1 : (Z.max 0 (Z.min 256 (fsize f)) =? -1) = false)
    by (apply Z.eqb_neq; lia).
  rewrite Hm1.
  split.
  - intros [Hshort|Hmagic].
    + replace (Z.max 0 (Z.min 256 (fsize f)) =? 256) with false
        by (symmetry; apply Z.eqb_neq; lia).
      reflexivity.
    + destruct (negb (Z.max 0 (Z.min 256 (fsize f)) =? 256)); [reflexivity|].
      replace (magic hd =? GSD_MAGIC_ID) with false
        by (symmetry; apply Z.eqb_neq; exact Hmagic).
      reflexivity.
  - intros Hlong Hmagic.
    replace (Z.max 0 (Z.min 256 (fsize f)) =? 256) with true
      by (symmetry; apply Z.eqb_eq; lia).
    replace (magic hd =? GSD_MAGIC_ID) with true
      by (symmetry; apply Z.eqb_eq; exact Hmagic).
    cbn [negb]. unfold version_accepted.
    set (rest := read_header_index (set_header hd h)).
    assert (Hrest : fst rest <> GSD_ERROR_INVALID_GSD_FILE_VERSION).
    { destruct (read_header_index_codes (set_header hd h)) as [E|[E|E]];
        fold rest in E; rewrite E; discriminate. }
    change (gsd_make_version 1 0) with 65536.
    change (gsd_make_version 0 3) with 3.
    change (gsd_make_version 2 0) with 131072.
    destruct (Z.ltb_spec (gsd_version hd) 65536) as [Hlt|Hge];
      destruct (Z.eqb_spec (gsd_version hd) 3) as [He|Hne];
      destruct (Z.leb_spec 131072 (gsd_version hd)) as [Hle|Hgt];
      cbn [andb negb fst]; split; intros Hc;
      try lia; try (exfalso; apply Hrest; exact Hc); try (exfalso; apply Hc; lia);
      try reflexivity; try (intros [?|?]; lia).
Qed.

(** C7: [gsd_open] fails with [GSD_ERROR_NOT_A_GSD_FILE] when the file is
    shorter than the 256 bytes of the header or when the magic differs from
    0x65DF65DF65DF65DF; when both are right it fails with
    [GSD_ERROR_INVALID_GSD_FILE_VERSION] exactly when the version is neither
    0.3 nor in the range 1.0 <= v < 2.0, where [gsd_make_version] encodes a
    version as [major << 16 | minor]. *)
Theorem gsd_open_header_gate (f : file) (flags : gsd_open_flag) :
  let hd := decode_header (file_byte f) in
  (fsize f < sizeof_header \/ magic hd <> GSD_MAGIC_ID ->
   fst (gsd_open (Some f) flags) = GSD_ERROR_NOT_A_GSD_FILE)
  /\ (sizeof_header <= fsize f -> magic hd = GSD_MAGIC_ID ->
      (fst (gsd_open (Some f) flags) = GSD_ERROR_INVALID_GSD_FILE_VERSION
       <-> ~ version_accepted (gsd_version hd)))
  /\ (forall major minor, 0 <= major < 2 ^ 16 -> 0 <= minor < 2 ^ 16 ->
      gsd_make_version major minor = major * 2 ^ 16 + minor).
Proof.
  intros hd. unfold gsd_open.
  destruct (read_header_gate (set_open_flags flags (set_fd (Some f) zero_handle)) f
              eq_refl) as [H1 H2].
  split; [exact H1|]. split; [exact H2|].
  exact make_version_encoding.
Qed.

Lemma gsd_open_header_gate_witness :
  fst (gsd_open (Some empty_file) GSD_OPEN_READONLY) = GSD_ERROR_NOT_A_GSD_FILE.
Proof.
  assert (H : fsize empty_file < sizeof_header
              \/ magic (decode_header (file_byte empty_file)) <> GSD_MAGIC_ID)
    by (left; vm_compute; reflexivity).
  exact (proj1 (gsd_open_header_gate empty_file GSD_OPEN_READONLY) H).
Defined.

(** ** The argument checks of [gsd_write_chunk] *)

(** C5 (as stated, refuted): with the checks in the order of the
    specification, a read-only handle and non-zero flags would give
    [GSD_ERROR_INVALID_ARGUMENT]; the source tests the mode first and returns
    [GSD_ERROR_FILE_MUST_BE_WRITABLE]. *)
Lemma write_chunk_checks_order_counterexample :
  ~ (forall h name type N M flags data e,
        write_chunk_checks_as_specified h type N M flags data = Some e ->
        gsd_write_chunk h name type N M flags data = (e, h)).
Proof.
  intros H.
  specialize
    (H (fresh_handle GSD_OPEN_READONLY) [x78] GSD_TYPE_UINT8 1 1 1 (Some [x00])
       GSD_ERROR_INVALID_ARGUMENT eq_refl).
  apply (f_equal fst) in H. vm_compute in H. discriminate H.
Qed.

(** C5 (amended): [gsd_write_chunk] checks data, then N, M and the type, then
    the open mode, then the flags; the first failing check decides the error
    ([GSD_ERROR_INVALID_ARGUMENT], or [GSD_ERROR_FILE_MUST_BE_WRITABLE] for a
    read-only handle), and the handle with its file is returned unchanged. *)
Theorem write_chunk_checks_sound (h : gsd_handle) (name : list byte)
  (type N M flags : Z) (data : option (list byte)) (e : gsd_error) :
  write_chunk_checks h type N M flags data = Some e ->
  gsd_write_chunk h name type N M flags data = (e, h)
  /\ (e = GSD_ERROR_INVALID_ARGUMENT \/ e = GSD_ERROR_FILE_MUST_BE_WRITABLE)
  /\ (e = GSD_ERROR_FILE_MUST_BE_WRITABLE <->
      data <> None /\ N <> 0 /\ M <> 0 /\ gsd_sizeof_type type <> 0
      /\ open_flags h = GSD_OPEN_READONLY).
Proof.
  unfold write_chunk_checks, gsd_write_chunk.
  destruct data as [bytes|]; [|intros [= <-]; repeat split; auto; try discriminate;
                                intros (Hd & _); congruence].
  destruct (Z.eqb_spec N 0) as [HN|HN];
    [intros [= <-]; cbn [orb]; repeat split; auto; try discriminate;
     intros (_ & ? & _); contradiction|].
  destruct (Z.eqb_spec M 0) as [HM|HM];
    [intros [= <-]; cbn [orb]; repeat split; auto; try discriminate;
     intros (_ & _ & ? & _); contradiction|].
  destruct (Z.eqb_spec (gsd_sizeof_type type) 0) as [HT|HT];
    [intros [= <-]; cbn [orb]; repeat split; auto; try discriminate;
     intros (_ & _ & _ & ? & _); contradiction|].
  cbn [orb].
  destruct (open_flags h) eqn:Hmode; cbn [open_flag_eqb];
    try (intros [= <-]; repeat split; auto; discriminate).
  all: destruct (Z.eqb_spec flags 0) as [HF|HF]; cbn [negb]; try discriminate;
    intros [= <-]; repeat split; auto; try discriminate;
    intros (_ & _ & _ & _ & ?); discriminate.
Qed.

Lemma write_chunk_checks_sound_witness :
  gsd_write_chunk (fresh_handle GSD_OPEN_READONLY) [x78] GSD_TYPE_UINT8 1 1 1
    (Some [x00])
  = (GSD_ERROR_FILE_MUST_BE_WRITABLE, fresh_handle GSD_OPEN_READONLY).
Proof.
  apply (write_chunk_checks_sound (fresh_handle GSD_OPEN_READONLY) [x78]
           GSD_TYPE_UINT8 1 1 1 (Some [x00]) GSD_ERROR_FILE_MUST_BE_WRITABLE).
  vm_compute. reflexivity.
Defined.

(** ** What [gsd_expand_index] and [gsd_write_chunk] leave alone *)

Lemma expand_index_block_frame (h : gsd_handle) (o n : Z) (e : gsd_error)
  (h' : gsd_handle) :
  expand_index_block h o n = (e, h') ->
  names h' = names h /\ namelist h' = namelist h
  /\ namelist_num_entries h' = namelist_num_entries h
  /\ namelist_written_entries h' = namelist_written_entries h
  /\ index_num_entries h' = index_num_entries h
  /\ index_written_entries h' = index_written_entries h
  /\ cur_frame h' = cur_frame h /\ open_flags h' = open_flags h
  /\ append_index_size h' = append_index_size h
  /\ names_allocated_size h' = names_allocated_size h
  /\ index_allocated_entries (header h') = index_allocated_entries (header h)
  /\ namelist_allocated_entries (header h') = namelist_allocated_entries (header h)
  /\ namelist_location (header h') = namelist_location (header h).
Proof.
  unfold expand_index_block.
  destruct (open_flags h) eqn:Hm.
  - destruct (gsd_pwrite_retry _ _ _ _) as [bw d].
    destruct (_ || _); intros [= <- <-]; cbn; rewrite ?Hm; repeat split.
  - intros [= <- <-]. rewrite Hm. repeat split.
  - destruct (expand_copy_loop _ _ _ _ _ _) as [[ok1 d1] t1].
    destruct (negb ok1); [intros [= <- <-]; cbn; rewrite ?Hm; repeat split|].
    destruct (expand_zero_loop _ _ _ _ _) as [[ok2 d2] t2].
    destruct (negb ok2); intros [= <- <-]; cbn; rewrite ?Hm; repeat split.
Qed.

Lemma expand_index_frame (h : gsd_handle) (e : gsd_error) (h' : gsd_handle) :
  gsd_expand_index h = (e, h') ->
  names h' = names h /\ namelist h' = namelist h
  /\ namelist_num_entries h' = namelist_num_entries h
  /\ namelist_written_entries h' = namelist_written_entries h
  /\ index_num_entries h' = index_num_entries h
  /\ index_written_entries h' = index_written_entries h
  /\ cur_frame h' = cur_frame h /\ open_flags h' = open_flags h
  /\ append_index_size h' = append_index_size h
  /\ names_allocated_size h' = names_allocated_size h
  /\ namelist_allocated_entries (header h') = namelist_allocated_entries (header h)
  /\ namelist_location (header h') = namelist_location (header h).
Proof.
  unfold gsd_expand_index.
  destruct (expand_index_block _ _ _) as [e1 h1] eqn:Hb.
  apply expand_index_block_frame in Hb. cbn in Hb.
  destruct Hb as (H1 & H2 & H3 & H4 & H5 & H6 & H7 & H8 & H9 & H10 & _ & H12 & H13).
  assert (Hthru : forall e0, (e0, h1) = (e, h') ->
    names h' = names h /\ namelist h' = namelist h
    /\ namelist_num_entries h' = namelist_num_entries h
    /\ namelist_written_entries h' = namelist_written_entries h
    /\ index_num_entries h' = index_num_entries h
    /\ index_written_entries h' = index_written_entries h
    /\ cur_frame h' = cur_frame h /\ open_flags h' = open_flags h
    /\ append_index_size h' = append_index_size h
    /\ names_allocated_size h' = names_allocated_size h
    /\ namelist_allocated_entries (header h') = namelist_allocated_entries (header h)
    /\ namelist_location (header h') = namelist_location (header h)).
  { intros e0 [= <- <-]. repeat split; assumption. }
  destruct e1; try apply Hthru.
  destruct (negb (fsync (fd h1) =? 0)); [apply Hthru|].
  destruct (gsd_pwrite_retry _ _ _ _) as [bw d].
  destruct (negb (bw =? sizeof_header));
    [intros [= <- <-]; cbn; repeat split; assumption|].
  destruct (negb (fsync (fd (set_fd d h1)) =? 0));
    intros [= <- <-]; cbn; repeat split; assumption.
Qed.

(** The steps of a call of [gsd_write_chunk] that returns success. *)
Lemma write_chunk_success (h : gsd_handle) (name : list byte)
  (type N M flags : Z) (data : option (list byte)) (h' : gsd_handle) :
  gsd_write_chunk h name type N M flags data = (GSD_SUCCESS, h') ->
  exists bytes id1 h1 d h4,
    data = Some bytes /\ N <> 0 /\ M <> 0 /\ gsd_sizeof_type type <> 0
    /\ open_flags h <> GSD_OPEN_READONLY /\ flags = 0
    /\ (if gsd_get_id h name =? UINT16_MAX
        then gsd_append_name (gsd_get_id h name) h name
        else (GSD_SUCCESS, gsd_get_id h name, h)) = (GSD_SUCCESS, id1, h1)
    /\ id1 <> UINT16_MAX
    /\ gsd_pwrite_retry (fd h1) (buf_of_list bytes)
         (u64 (N * M * gsd_sizeof_type type)) (file_size h1)
       = (u64 (N * M * gsd_sizeof_type type), d)
    /\ (let h3 :=
          set_file_size
            (u64 (file_size h1 + u64 (N * M * gsd_sizeof_type type)))
            (set_fd d h1) in
        (if index_allocated_entries (header h3) <=? index_num_entries h3
         then gsd_expand_index h3 else (GSD_SUCCESS, h3)) = (GSD_SUCCESS, h4))
    /\ h' =
       set_index_num_entries
         (u64 (index_num_entries (snd (write_chunk_slot h4)) + 1))
         (set_index
            (store_entry (index (snd (write_chunk_slot h4)))
               (fst (write_chunk_slot h4))
               {| frame := cur_frame h; N := N; location := file_size h1;
                  M := M; id := id1; type := u8 type; flags := 0 |})
            (snd (write_chunk_slot h4))).
Proof.
  unfold gsd_write_chunk.
  destruct data as [bytes|]; [|discriminate].
  destruct (Z.eqb_spec N 0) as [|HN]; [discriminate|].
  destruct (Z.eqb_spec M 0) as [|HM]; [discriminate|].
  destruct (Z.eqb_spec (gsd_sizeof_type type) 0) as [|HT]; [discriminate|].
  cbn [orb].
  destruct (open_flag_eqb (open_flags h) GSD_OPEN_READONLY) eqn:Hro;
    [discriminate|].
  destruct (Z.eqb_spec flags 0) as [HF|]; [|discriminate]. cbn [negb].
  destruct (if gsd_get_id h name =? UINT16_MAX
            then gsd_append_name (gsd_get_id h name) h name
            else (GSD_SUCCESS, gsd_get_id h name, h)) as [[e id1] h1] eqn:Hid.
  destruct e; try discriminate.
  destruct (Z.eqb_spec id1 UINT16_MAX) as [|Hid1]; [discriminate|].
  cbn [location].
  destruct (gsd_pwrite_retry (fd h1) (buf_of_list bytes)
              (u64 (N * M * gsd_sizeof_type type)) (file_size h1)) as [bw d] eqn:Hw.
  destruct (Z.eqb_spec bw (-1)) as [|Hbw1]; [discriminate|]. cbn [orb].
  destruct (Z.eqb_spec bw (u64 (N * M * gsd_sizeof_type type))) as [Hbw|];
    [|discriminate].
  cbn [negb]. subst bw.
  destruct (if index_allocated_entries
                 (header (set_file_size
                    (u64 (file_size (set_fd d h1) + u64 (N * M * gsd_sizeof_type type)))
                    (set_fd d h1))) <=?
               index_num_entries
                 (set_file_size
                    (u64 (file_size (set_fd d h1) + u64 (N * M * gsd_sizeof_type type)))
                    (set_fd d h1))
            then _ else _) as [e2 h4] eqn:Hx.
  destruct e2; try discriminate.
  destruct (write_chunk_slot h4) as [slot h5] eqn:Hs.
  intros [= <-].
  exists bytes, id1, h1, d, h4.
  split; [reflexivity|]. split; [exact HN|]. split; [exact HM|].
  split; [exact HT|].
  split; [intros E; rewrite E in Hro; discriminate|]. split; [exact HF|].
  split; [first [exact Hid|reflexivity]|]. split; [exact Hid1|].
  split; [first [exact Hw|reflexivity]|].
  split; [first [exact Hx|reflexivity]|].
  rewrite Hs. reflexivity.
Qed.

(** ** Index entries in memory *)

Lemma load_store_sub (mem : buffer) (off : Z) (l : list byte) (a n : nat) :
  (a + n <= length l)%nat ->
  load (store mem off l) (off + Z.of_nat a) n = firstn n (skipn a l).
Proof.
  intros Hlen. apply (nth_ext _ _ x00 x00).
  - rewrite load_length, length_firstn, length_skipn. lia.
  - intros k Hk. rewrite load_length in Hk. rewrite nth_load by exact Hk.
    rewrite nth_firstn.
    destruct (Nat.ltb_spec k n) as [_|?]; [|lia].
    rewrite nth_skipn. unfold store.
    replace ((off <=? off + Z.of_nat a + Z.of_nat k)
             && (off + Z.of_nat a + Z.of_nat k <? off + Z.of_nat (length l)))
      with true
      by (symmetry; apply andb_true_iff; split;
          [apply Z.leb_le|apply Z.ltb_lt]; lia).
    f_equal. lia.
Qed.

Lemma encode_entry_length (e : gsd_index_entry) : length (encode_entry e) = 64%nat.
Proof. reflexivity. Qed.

Lemma decode_store_entry (mem : buffer) (off : Z) (e : gsd_index_entry) :
  decode_entry (store mem off (encode_entry e)) off = clip_entry e.
Proof.
  unfold decode_entry, clip_entry, load_le.
  pose proof (load_store_sub mem off (encode_entry e)) as H.
  rewrite <- (Z.add_0_r off) at 2.
  change 0 with (Z.of_nat 0) at 1. change 8 with (Z.of_nat 8) at 1.
  change 16 with (Z.of_nat 16). change 24 with (Z.of_nat 24).
  change 28 with (Z.of_nat 28). change 29 with (Z.of_nat 29).
  change 30 with (Z.of_nat 30).
  rewrite !H by (rewrite encode_entry_length; lia).
  unfold encode_entry. cbn [le_bytes app skipn firstn].
  change (byte_of (frame e)
          :: byte_of (frame e / 256)
          :: byte_of (frame e / 256 / 256)
          :: byte_of (frame e / 256 / 256 / 256)
          :: byte_of (frame e / 256 / 256 / 256 / 256)
          :: byte_of (frame e / 256 / 256 / 256 / 256 / 256)
          :: byte_of (frame e / 256 / 256 / 256 / 256 / 256 / 256)
          :: byte_of (frame e / 256 / 256 / 256 / 256 / 256 / 256 / 256) :: [])
    with (le_bytes 8 (frame e)).
  change (byte_of (N e)
          :: byte_of (N e / 256)
          :: byte_of (N e / 256 / 256)
          :: byte_of (N e / 256 / 256 / 256)
          :: byte_of (N e / 256 / 256 / 256 / 256)
          :: byte_of (N e / 256 / 256 / 256 / 256 / 256)
          :: byte_of (N e / 256 / 256 / 256 / 256 / 256 / 256)
          :: byte_of (N e / 256 / 256 / 256 / 256 / 256 / 256 / 256) :: [])
    with (le_bytes 8 (N e)).
  change (byte_of (location e)
          :: byte_of (location e / 256)
          :: byte_of (location e / 256 / 256)
          :: byte_of (location e / 256 / 256 / 256)
          :: byte_of (location e / 256 / 256 / 256 / 256)
          :: byte_of (location e / 256 / 256 / 256 / 256 / 256)
          :: byte_of (location e / 256 / 256 / 256 / 256 / 256 / 256)
          :: byte_of (location e / 256 / 256 / 256 / 256 / 256 / 256 / 256) :: [])
    with (le_bytes 8 (location e)).
  change (byte_of (M e)
          :: byte_of (M e / 256)
          :: byte_of (M e / 256 / 256)
          :: byte_of (M e / 256 / 256 / 256) :: [])
    with (le_bytes 4 (M e)).
  change [byte_of (type e)] with (le_bytes 1 (type e)).
  change [byte_of (flags e)] with (le_bytes 1 (flags e)).
  change [byte_of (id e); byte_of (id e / 256)] with (le_bytes 2 (id e)).
  rewrite !le_value_bytes. reflexivity.
Qed.

Lemma entry_at_store_same (mem : buffer) (i : Z) (e : gsd_index_entry) :
  entry_at (store_entry mem i e) i = clip_entry e.
Proof. unfold entry_at, store_entry. apply decode_store_entry. Qed.

Lemma decode_entry_ext (m1 m2 : buffer) (off : Z) :
  (forall k, off <= k < off + 32 -> m1 k = m2 k) ->
  decode_entry m1 off = decode_entry m2 off.
Proof.
  intros H. unfold decode_entry.
  f_equal; apply load_le_ext; intros k Hk; apply H; lia.
Qed.

Lemma entry_at_store_other (mem : buffer) (i j : Z) (e : gsd_index_entry) :
  i <> j -> entry_at (store_entry mem i e) j = entry_at mem j.
Proof.
  intros Hij. unfold entry_at, store_entry. apply decode_entry_ext.
  intros k Hk. apply store_other. rewrite encode_entry_length.
  unfold sizeof_index_entry in *. lia.
Qed.

(** ** Name lookup looks at committed names only *)

Lemma names_at_app (nm extra : list gsd_name_id_pair) (m : Z) :
  0 <= m < Z.of_nat (length nm) -> names_at (nm ++ extra) m = names_at nm m.
Proof. intros H. unfold names_at. apply app_nth1. lia. Qed.

Lemma find_name_loop_app (fuel : nat) (nm extra : list gsd_name_id_pair)
  (name : list byte) (len : nat) (L R : Z) :
  0 <= L < R -> R <= Z.of_nat (length nm) -> R < 2 ^ 63 ->
  find_name_loop fuel (nm ++ extra) name len L R
  = find_name_loop fuel nm name len L R.
Proof.
  revert L R. induction fuel as [|fuel IH]; intros L R HL HR Hb; [reflexivity|].
  cbn [find_name_loop].
  assert (Hm : u64 (L + R) / 2 = (L + R) / 2) by (rewrite u64_small; lia).
  rewrite Hm.
  assert (HmR : L <= (L + R) / 2 < R).
  { split; [apply Z.div_le_lower_bound|apply Z.div_lt_upper_bound]; lia. }
  rewrite names_at_app by lia.
  destruct (strncmp name (pair_name (names_at nm ((L + R) / 2))) len);
    [reflexivity| |].
  - rewrite u64_small by lia.
    destruct (Z.ltb_spec 1 ((L + R) / 2 - L)); [|reflexivity].
    apply IH; lia.
  - rewrite u64_small by lia.
    destruct (Z.ltb_spec 1 (R - (L + R) / 2)); [|reflexivity].
    apply IH; lia.
Qed.

Lemma find_name_app (h h1 : gsd_handle) (extra : list gsd_name_id_pair)
  (name : list byte) :
  0 <= namelist_written_entries h <= Z.of_nat (length (names h)) ->
  namelist_written_entries h < 2 ^ 63 ->
  names h1 = names h ++ extra ->
  namelist_written_entries h1 = namelist_written_entries h ->
  gsd_find_name h1 name = gsd_find_name h name.
Proof.
  intros Hw Hb Hn Hwe. unfold gsd_find_name. rewrite Hn, Hwe.
  destruct (Z.eqb_spec (namelist_written_entries h) 0) as [|Hnz]; [reflexivity|].
  rewrite names_at_app by lia.
  destruct (strncmp name (pair_name (names_at (names h) 0)) (strlen name));
    try reflexivity.
  apply find_name_loop_app; lia.
Qed.

Lemma get_id_not_found (h : gsd_handle) (name : list byte) :
  gsd_find_name h name = UINT16_MAX -> gsd_get_id h name = UINT16_MAX.
Proof. intros H. unfold gsd_get_id. rewrite H. reflexivity. Qed.

Lemma write_chunk_slot_cases (h : gsd_handle) :
  snd (write_chunk_slot h) = h
  \/ snd (write_chunk_slot h)
     = set_append_index_size (u64 (append_index_size h * 2)) h.
Proof.
  unfold write_chunk_slot. destruct (open_flag_eqb _ _); [|left; reflexivity].
  destruct (_ <=? _); [right|left]; reflexivity.
Qed.

(** The effect of a successful [gsd_write_chunk] on the namelist and on the
    new index entry. *)
Lemma write_chunk_name_effect (h : gsd_handle) (name : list byte)
  (type N M flags : Z) (data : option (list byte)) (h' : gsd_handle) :
  gsd_write_chunk h name type N M flags data = (GSD_SUCCESS, h') ->
  namelist_written_entries h' = namelist_written_entries h
  /\ (exists slot, id (entry_at (index h') slot)
                  = if gsd_get_id h name =? UINT16_MAX
                    then u16 (namelist_num_entries h)
                    else u16 (gsd_get_id h name))
  /\ if gsd_get_id h name =? UINT16_MAX
     then
       namelist h'
       = store (namelist h) (sizeof_namelist_entry * namelist_num_entries h)
           (strncpy_field 63 name)
       /\ names h'
          = names h
            ++ [mk_pair (name_at (namelist h') (namelist_num_entries h))
                  (u16 (namelist_num_entries h))]
       /\ namelist_num_entries h' = u64 (namelist_num_entries h + 1)
       /\ u16 (namelist_num_entries h) <> UINT16_MAX
     else
       namelist h' = namelist h /\ names h' = names h
       /\ namelist_num_entries h' = namelist_num_entries h.
Proof.
  intros Hs. apply write_chunk_success in Hs.
  destruct Hs as (bytes & id1 & h1 & d & h4 & -> & HN & HM & HT & Hro & -> & Hid
                  & Hid1 & Hw & Hx & ->).
  cbv zeta in Hx.
  assert (Hfr : names h4 = names h1 /\ namelist h4 = namelist h1
                /\ namelist_num_entries h4 = namelist_num_entries h1
                /\ namelist_written_entries h4 = namelist_written_entries h1).
  { destruct (_ <=? _) in Hx.
    - apply expand_index_frame in Hx.
      destruct Hx as (X1 & X2 & X3 & X4 & _).
      hsimpl_in X1; hsimpl_in X2; hsimpl_in X3; hsimpl_in X4.
      repeat split; assumption.
    - injection Hx as <-. hsimpl. repeat split. }
  destruct Hfr as (F1 & F2 & F3 & F4).
  assert (Hsl : names (snd (write_chunk_slot h4)) = names h4
                /\ namelist (snd (write_chunk_slot h4)) = namelist h4
                /\ namelist_num_entries (snd (write_chunk_slot h4))
                   = namelist_num_entries h4
                /\ namelist_written_entries (snd (write_chunk_slot h4))
                   = namelist_written_entries h4).
  { destruct (write_chunk_slot_cases h4) as [E|E]; rewrite E; hsimpl; repeat split. }
  destruct Hsl as (S1 & S2 & S3 & S4).
  hsimpl.
  rewrite S1, S2, S3, S4, F1, F2, F3, F4.
  assert (Hent : exists slot,
             id (entry_at
                   (store_entry (index (snd (write_chunk_slot h4)))
                      (fst (write_chunk_slot h4))
                      {| frame := cur_frame h; N := N; location := file_size h1;
                         M := M; id := id1; type := u8 type; flags := 0 |})
                   slot) = u16 id1).
  { exists (fst (write_chunk_slot h4)). rewrite entry_at_store_same. reflexivity. }
  clear Hw Hx F1 F2 F3 F4 S1 S2 S3 S4.
  destruct (Z.eqb_spec (gsd_get_id h name) UINT16_MAX) as [Hnf|Hf].
  - unfold gsd_append_name in Hid.
    destruct (open_flag_eqb (open_flags h) GSD_OPEN_READONLY); [discriminate|].
    destruct (namelist_num_entries h =? namelist_allocated_entries (header h));
      [discriminate|].
    assert (E1 : id1 = u16 (namelist_num_entries h)) by congruence.
    assert (E2 : namelist_written_entries h1 = namelist_written_entries h
                 /\ namelist h1
                    = store (namelist h)
                        (sizeof_namelist_entry * namelist_num_entries h)
                        (strncpy_field 63 name)
                 /\ names h1
                    = names h
                      ++ [mk_pair (name_at (namelist h1) (namelist_num_entries h))
                            (u16 (namelist_num_entries h))]
                 /\ namelist_num_entries h1 = u64 (namelist_num_entries h + 1)).
    { destruct (_ <? _) in Hid;
        apply (f_equal snd) in Hid; cbn [snd] in Hid; subst h1; hsimpl;
        repeat split. }
    destruct E2 as (E2 & E3 & E4 & E5). subst id1.
    replace (u16 (u16 (namelist_num_entries h))) with (u16 (namelist_num_entries h))
      in Hent by (unfold u16; rewrite Z.mod_mod by lia; reflexivity).
    split; [exact E2|]. split; [exact Hent|].
    rewrite <- E3. repeat split; assumption.
  - assert (E1 : id1 = gsd_get_id h name) by congruence.
    assert (E2 : h1 = h) by congruence.
    subst id1 h1.
    split; [reflexivity|]. split; [exact Hent|]. repeat split.
Qed.

(** ** The same new name twice in one frame *)

Lemma u16_succ_neq (n : Z) : u16 n <> u16 (u64 (n + 1)).
Proof.
  unfold u16, u64.
  rewrite Z.mod_mod_divide by (exists (2 ^ 48); reflexivity).
  intros H.
  assert (H1 : ((n + 1) - n) mod 2 ^ 16 = 0).
  { rewrite Zminus_mod, <- H, Z.sub_diag. reflexivity. }
  replace (n + 1 - n) with 1 in H1 by lia. discriminate H1.
Qed.

(** C10 (as stated, refuted): ["a"] has never been committed on
    [handle_with_ab], yet both calls find the id of ["ab"] (the lookup
    compares no more than the length of the name) and no namelist entry is
    appended. *)
Lemma write_twice_counterexample :
  ~ (forall h name t1 N1 M1 d1 t2 N2 M2 d2 h1 h2,
        ~ In name (committed_names h) ->
        gsd_write_chunk h name t1 N1 M1 0 d1 = (GSD_SUCCESS, h1) ->
        gsd_write_chunk h1 name t2 N2 M2 0 d2 = (GSD_SUCCESS, h2) ->
        gsd_get_id h1 name = UINT16_MAX
        /\ namelist_num_entries h2 = namelist_num_entries h1 + 1).
Proof.
  intros H.
  pose (w1 := gsd_write_chunk handle_with_ab ["a"%byte] GSD_TYPE_UINT8 1 1 0
                (Some [x02])).
  pose (w2 := gsd_write_chunk (snd w1) ["a"%byte] GSD_TYPE_UINT8 1 1 0
                (Some [x03])).
  assert (F1 : fst w1 = GSD_SUCCESS) by (vm_compute; reflexivity).
  assert (F2 : fst w2 = GSD_SUCCESS) by (vm_compute; reflexivity).
  assert (E0 : ~ In ["a"%byte] (committed_names handle_with_ab)).
  { vm_compute. intros [E|[]]. discriminate E. }
  destruct (H handle_with_ab ["a"%byte] _ _ _ _ _ _ _ _ (snd w1) (snd w2) E0
              (pair_of_fst w1 _ F1) (pair_of_fst w2 _ F2)) as [Hid _].
  vm_compute in Hid. discriminate Hid.
Qed.

(** C10 (amended): when the lookup among the committed names does not find
    the name (no committed name begins with it) and the name is written
    twice within one frame, both calls returning success, then the second
    call does not find it either, and each call appends a namelist entry
    with the same text under its own id: the two ids differ. *)
Theorem write_twice_appends_twice (h h1 h2 : gsd_handle) (name : list byte)
  (t1 N1 M1 t2 N2 M2 : Z) (d1 d2 : option (list byte)) :
  0 <= namelist_written_entries h <= Z.of_nat (length (names h)) ->
  namelist_written_entries h < 2 ^ 63 ->
  gsd_find_name h name = UINT16_MAX ->
  gsd_write_chunk h name t1 N1 M1 0 d1 = (GSD_SUCCESS, h1) ->
  gsd_write_chunk h1 name t2 N2 M2 0 d2 = (GSD_SUCCESS, h2) ->
  let n := namelist_num_entries h in
  gsd_find_name h1 name = UINT16_MAX
  /\ namelist_num_entries h1 = u64 (n + 1)
  /\ namelist_num_entries h2 = u64 (u64 (n + 1) + 1)
  /\ load (namelist h2) (sizeof_namelist_entry * n) 64 = strncpy_field 63 name
  /\ load (namelist h2) (sizeof_namelist_entry * u64 (n + 1)) 64
     = strncpy_field 63 name
  /\ (exists slot1 slot2,
        id (entry_at (index h1) slot1) = u16 n
        /\ id (entry_at (index h2) slot2) = u16 (u64 (n + 1))
        /\ u16 n <> u16 (u64 (n + 1)))
  /\ (u64 (n + 1) <> n ->
      exists p1 p2,
        names h2 = names h ++ [p1; p2]
        /\ pair_id p1 = u16 n /\ pair_id p2 = u16 (u64 (n + 1))).
Proof.
  intros Hw Hb Hnf W1 W2 n.
  apply write_chunk_name_effect in W1.
  destruct W1 as (A1 & [s1 A2] & A3).
  rewrite (get_id_not_found h name Hnf) in A2, A3.
  change (UINT16_MAX =? UINT16_MAX) with true in A2, A3. cbv iota in A2, A3.
  destruct A3 as (A3 & A4 & A5 & A6).
  assert (Hnf1 : gsd_find_name h1 name = UINT16_MAX).
  { rewrite (find_name_app h h1 _ name Hw Hb A4 A1). exact Hnf. }
  apply write_chunk_name_effect in W2.
  destruct W2 as (B1 & [s2 B2] & B3).
  rewrite (get_id_not_found h1 name Hnf1) in B2, B3.
  change (UINT16_MAX =? UINT16_MAX) with true in B2, B3. cbv iota in B2, B3.
  destruct B3 as (B3 & B4 & B5 & B6).
  fold n in A2, A3, A4, A5, A6. rewrite A5 in B2, B3, B4, B5, B6.
  assert (Hlen : length (strncpy_field 63 name) = 64%nat).
  { unfold strncpy_field, fit. rewrite !length_app, length_firstn, repeat_length.
    cbn [length]. lia. }
  split; [exact Hnf1|]. split; [exact A5|]. split; [exact B5|].
  assert (Hslot2 : load (namelist h2) (sizeof_namelist_entry * u64 (n + 1)) 64
                   = strncpy_field 63 name).
  { rewrite B3. apply load_store_len. symmetry. exact Hlen. }
  assert (Hne : u64 (n + 1) <> n -> 
                load (namelist h2) (sizeof_namelist_entry * n) 64
                = strncpy_field 63 name).
  { intros Hd. rewrite B3, A3.
    rewrite (load_ext _ (store (namelist h) (sizeof_namelist_entry * n)
                           (strncpy_field 63 name))).
    - apply load_store_len. symmetry. exact Hlen.
    - intros k Hk. apply store_other. rewrite Hlen.
      unfold sizeof_namelist_entry in *. lia. }
  split.
  { destruct (Z.eq_dec (u64 (n + 1)) n) as [E|E]; [|exact (Hne E)].
    rewrite E in Hslot2. exact Hslot2. }
  split; [exact Hslot2|].
  split.
  { exists s1, s2. split; [exact A2|]. split; [exact B2|]. apply u16_succ_neq. }
  intros Hd.
  eexists _, _. split.
  - rewrite B4, A4, <- app_assoc. reflexivity.
  - split; reflexivity.
Qed.

Lemma write_twice_appends_twice_witness :
  gsd_find_name (write_byte (fresh_handle GSD_OPEN_READWRITE) ["a"%byte] x01)
    ["a"%byte]
  = UINT16_MAX.
Proof.
  pose (h := fresh_handle GSD_OPEN_READWRITE).
  pose (w1 := gsd_write_chunk h ["a"%byte] GSD_TYPE_UINT8 1 1 0 (Some [x01])).
  pose (w2 := gsd_write_chunk (snd w1) ["a"%byte] GSD_TYPE_UINT8 1 1 0
                (Some [x02])).
  assert (F1 : fst w1 = GSD_SUCCESS) by (vm_compute; reflexivity).
  assert (F2 : fst w2 = GSD_SUCCESS) by (vm_compute; reflexivity).
  assert (H1 : 0 <= namelist_written_entries h <= Z.of_nat (length (names h)))
    by (vm_compute; split; discriminate).
  assert (H2 : namelist_written_entries h < 2 ^ 63) by (vm_compute; reflexivity).
  assert (H3 : gsd_find_name h ["a"%byte] = UINT16_MAX)
    by (vm_compute; reflexivity).
  exact (proj1 (write_twice_appends_twice h (snd w1) (snd w2) ["a"%byte]
                  _ _ _ _ _ _ _ _ H1 H2 H3 (pair_of_fst w1 _ F1)
                  (pair_of_fst w2 _ F2))).
Defined.

(** ** String comparison *)

Lemma cmp_byte_refl (x : byte) : cmp_byte x x = Eq.
Proof. unfold cmp_byte. apply N.compare_refl. Qed.

Lemma cmp_byte_eq (x y : byte) : cmp_byte x y = Eq -> x = y.
Proof.
  unfold cmp_byte. intros H. apply N.compare_eq in H.
  apply byte_val_inj. unfold byte_val. rewrite H. reflexivity.
Qed.

Lemma cmp_byte_antisym (x y : byte) : cmp_byte y x = CompOpp (cmp_byte x y).
Proof. unfold cmp_byte. apply N.compare_antisym. Qed.

Lemma cmp_byte_gt_not_nul (x y : byte) : cmp_byte x y = Gt -> is_nul x = false.
Proof.
  unfold cmp_byte. intros H. apply is_nul_false. intros ->.
  apply N.compare_gt_iff in H. change (Byte.to_N x00) with 0%N in H.
  apply N.nlt_0_r in H. exact H.
Qed.

Lemma chr_nul_c_str (a : list byte) : is_nul (chr a) = true -> c_str a = [].
Proof.
  destruct a as [|c r]; [reflexivity|]. cbn [chr hd c_str]. intros ->. reflexivity.
Qed.

Lemma chr_not_nul (a : list byte) :
  is_nul (chr a) = false -> exists c r, a = c :: r /\ is_nul c = false.
Proof.
  destruct a as [|c r]; cbn [chr hd]; [discriminate|]. intros H. eauto.
Qed.

Lemma strlen_cons (c : byte) (r : list byte) :
  is_nul c = false -> strlen (c :: r) = S (strlen r).
Proof. intros H. unfold strlen. cbn [c_str]. rewrite H. reflexivity. Qed.

Lemma strncmp_antisym (a b : list byte) (n : nat) :
  strncmp b a n = CompOpp (strncmp a b n).
Proof.
  revert a b. induction n as [|n IH]; intros a b; [reflexivity|].
  cbn [strncmp]. rewrite (cmp_byte_antisym (chr a) (chr b)).
  destruct (cmp_byte (chr a) (chr b)) eqn:E; cbn [CompOpp]; try reflexivity.
  apply cmp_byte_eq in E. rewrite E.
  destruct (is_nul (chr b)); [reflexivity|]. apply IH.
Qed.

(** A string compares equal with itself over its whole length. *)
Lemma strncmp_refl (a : list byte) (n : nat) : strncmp a a n = Eq.
Proof.
  revert a. induction n as [|n IH]; intros a; [reflexivity|].
  cbn [strncmp]. rewrite cmp_byte_refl.
  destruct (is_nul (chr a)); [reflexivity|]. apply IH.
Qed.

(** A difference in favour of the first string lies within its length. *)
Lemma strncmp_gt_strlen (a b : list byte) (n : nat) :
  strncmp a b n = Gt -> strncmp a b (strlen a) = Gt.
Proof.
  revert a b. induction n as [|n IH]; intros a b; [discriminate|].
  cbn [strncmp].
  destruct (cmp_byte (chr a) (chr b)) eqn:E; try discriminate.
  - destruct (is_nul (chr a)) eqn:Hn; [discriminate|].
    destruct (chr_not_nul a Hn) as (c & r & -> & Hc).
    intros H. rewrite (strlen_cons c r Hc). cbn [strncmp].
    rewrite E, Hn. apply IH. exact H.
  - intros _. pose proof (cmp_byte_gt_not_nul _ _ E) as Hn.
    destruct (chr_not_nul a Hn) as (c & r & -> & Hc).
    rewrite (strlen_cons c r Hc). cbn [strncmp]. rewrite E. reflexivity.
Qed.

(** A difference in favour of the second string either lies within the
    length of the first, or the first is a prefix of the second. *)
Lemma strncmp_lt_strlen (a b : list byte) (n : nat) :
  strncmp a b n = Lt ->
  strncmp a b (strlen a) = Lt \/ strncmp a b (strlen a) = Eq.
Proof.
  revert a b. induction n as [|n IH]; intros a b; [discriminate|].
  cbn [strncmp].
  destruct (is_nul (chr a)) eqn:Hn.
  - intros _. right. unfold strlen. rewrite (chr_nul_c_str a Hn). reflexivity.
  - destruct (chr_not_nul a Hn) as (c & r & -> & Hc).
    rewrite (strlen_cons c r Hc). cbn [strncmp]. rewrite Hn.
    destruct (cmp_byte (chr (c :: r)) (chr b)) eqn:E; try discriminate.
    + apply IH.
    + intros _. left. reflexivity.
Qed.

(** An equal comparison stays equal over fewer characters. *)
Lemma strncmp_eq_le (a b : list byte) (n m : nat) :
  (m <= n)%nat -> strncmp a b n = Eq -> strncmp a b m = Eq.
Proof.
  revert a b m. induction n as [|n IH]; intros a b m Hm.
  - replace m with 0%nat by lia. reflexivity.
  - destruct m as [|m]; [reflexivity|]. cbn [strncmp].
    destruct (cmp_byte (chr a) (chr b)); try discriminate.
    destruct (is_nul (chr a)); [reflexivity|]. apply IH. lia.
Qed.

(** A decided comparison stays decided over more characters. *)
Lemma strncmp_decided_ge (a b : list byte) (n m : nat) :
  (n <= m)%nat -> strncmp a b n <> Eq -> strncmp a b m = strncmp a b n.
Proof.
  revert a b m. induction n as [|n IH]; intros a b m Hm H.
  - exfalso. apply H. reflexivity.
  - destruct m as [|m]; [lia|]. cbn [strncmp] in *.
    destruct (cmp_byte (chr a) (chr b)); try reflexivity.
    destruct (is_nul (chr a)); [reflexivity|]. apply IH; [lia|exact H].
Qed.

(** Equality over the length of the first string plus one is equality of
    the strings. *)
Lemma strncmp_eq_c_str (a b : list byte) (n : nat) :
  (strlen a < n)%nat -> strncmp a b n = Eq -> c_str a = c_str b.
Proof.
  revert a b. induction n as [|n IH]; intros a b Hn; [lia|].
  cbn [strncmp].
  destruct (cmp_byte (chr a) (chr b)) eqn:E; try discriminate.
  apply cmp_byte_eq in E.
  destruct (is_nul (chr a)) eqn:Hnul.
  - intros _. rewrite (chr_nul_c_str a Hnul).
    rewrite E in Hnul. rewrite (chr_nul_c_str b Hnul). reflexivity.
  - destruct (chr_not_nul a Hnul) as (c & r & -> & Hc).
    rewrite E in Hnul.
    destruct (chr_not_nul b Hnul) as (c' & r' & -> & Hc').
    cbn [chr hd] in E. subst c'. cbn [tl c_str]. rewrite Hc.
    intros H. f_equal. apply IH; [|exact H].
    rewrite (strlen_cons c r Hc) in Hn. lia.
Qed.

(** ** The bisection of [gsd_find_name] *)

Lemma names_separated_nth (l : list (list byte)) (i j : nat) :
  names_separated l = true -> (i < j < length l)%nat ->
  strncmp (nth i l []) (nth j l []) (strlen (nth i l [])) = Lt.
Proof.
  revert i j. induction l as [|a r IH]; intros i j Hs Hij; [cbn in Hij; lia|].
  cbn [names_separated] in Hs. apply andb_true_iff in Hs. destruct Hs as [Ha Hr].
  destruct j as [|j]; [lia|]. cbn [length] in Hij.
  destruct i as [|i]; cbn [nth].
  - rewrite forallb_forall in Ha.
    assert (Hj : (j < length r)%nat) by lia.
    specialize (Ha (nth j r []) (nth_In r [] Hj)).
    unfold strictly_before in Ha.
    destruct (strncmp a (nth j r []) (strlen a)); try discriminate. reflexivity.
  - apply IH; [exact Hr|lia].
Qed.

(** Where the needle stands against the other names of a separated list. *)
Lemma separated_compare (l : list (list byte)) (i m : nat) :
  names_separated l = true -> (i < length l)%nat -> (m < length l)%nat ->
  strncmp (nth i l []) (nth m l []) (strlen (nth i l []))
  = Nat.compare i m.
Proof.
  intros Hs Hi Hm.
  destruct (Nat.compare_spec i m) as [->|Hlt|Hgt].
  - apply strncmp_refl.
  - apply names_separated_nth; [exact Hs|lia].
  - apply (strncmp_gt_strlen _ _ (strlen (nth m l []))).
    rewrite strncmp_antisym.
    rewrite (names_separated_nth l m i Hs) by lia. reflexivity.
Qed.

Lemma committed_names_nth (h : gsd_handle) (m : Z) :
  0 <= m < namelist_written_entries h ->
  namelist_written_entries h <= Z.of_nat (length (names h)) ->
  pair_name (names_at (names h) m) = nth (Z.to_nat m) (committed_names h) [].
Proof.
  intros Hm Hw. unfold committed_names, names_at.
  change [] with (pair_name null_pair) at 1. rewrite map_nth.
  f_equal. rewrite nth_firstn.
  destruct (Nat.ltb_spec (Z.to_nat m) (Z.to_nat (namelist_written_entries h)));
    [reflexivity|lia].
Qed.

Lemma committed_names_length (h : gsd_handle) :
  0 <= namelist_written_entries h <= Z.of_nat (length (names h)) ->
  length (committed_names h) = Z.to_nat (namelist_written_entries h).
Proof.
  intros Hw. unfold committed_names. rewrite length_map, length_firstn. lia.
Qed.

(** The loop finds the position [i] whenever the comparison of the needle
    with the name at [m] follows the order of [i] and [m]. *)
Lemma find_name_loop_exact (fuel : nat) (nm : list gsd_name_id_pair)
  (name : list byte) (len : nat) (i W L R : Z) :
  (forall m, 0 <= m < W ->
             strncmp name (pair_name (names_at nm m)) len = Z.compare i m) ->
  0 <= L < i -> i < R -> R <= W -> R < 2 ^ 63 -> R - L <= Z.of_nat fuel ->
  find_name_loop fuel nm name len L R = u16 i.
Proof.
  intros Hcmp. revert L R.
  induction fuel as [|fuel IH]; intros L R HL HR HW Hb Hf; [lia|].
  cbn [find_name_loop].
  rewrite (u64_small (L + R)) by lia.
  assert (HmR : L + 1 <= (L + R) / 2 < R).
  { split; [apply Z.div_le_lower_bound|apply Z.div_lt_upper_bound]; lia. }
  rewrite Hcmp by lia.
  destruct (Z.compare_spec i ((L + R) / 2)) as [->|Hlt|Hgt].
  - reflexivity.
  - rewrite u64_small by lia.
    destruct (Z.ltb_spec 1 ((L + R) / 2 - L)); [|lia].
    apply IH; lia.
  - rewrite u64_small by lia.
    destruct (Z.ltb_spec 1 (R - (L + R) / 2)); [|lia].
    apply IH; lia.
Qed.

(** [gsd_find_name] finds every committed name of a separated cache at its
    own position. *)
Lemma find_name_exact (h : gsd_handle) (i : Z) :
  0 <= i < namelist_written_entries h ->
  namelist_written_entries h <= Z.of_nat (length (names h)) ->
  namelist_written_entries h <= 65535 ->
  names_separated (committed_names h) = true ->
  gsd_find_name h (nth (Z.to_nat i) (committed_names h) []) = i.
Proof.
  intros Hi Hw Hb Hs.
  pose proof (committed_names_length h ltac:(lia)) as Hlen.
  assert (Hcmp : forall m, 0 <= m < namelist_written_entries h ->
            strncmp (nth (Z.to_nat i) (committed_names h) [])
              (pair_name (names_at (names h) m))
              (strlen (nth (Z.to_nat i) (committed_names h) []))
            = Z.compare i m).
  { intros m Hm. rewrite committed_names_nth by lia.
    rewrite separated_compare by (try exact Hs; lia).
    rewrite <- (Z2Nat.id i) at 2 by lia. rewrite <- (Z2Nat.id m) at 2 by lia.
    symmetry. apply Nat2Z.inj_compare. }
  unfold gsd_find_name.
  destruct (Z.eqb_spec (namelist_written_entries h) 0) as [E|_]; [lia|].
  rewrite Hcmp by lia.
  destruct (Z.compare_spec i 0) as [->|Hlt|Hgt]; [reflexivity|lia|].
  rewrite (find_name_loop_exact _ _ _ _ i (namelist_written_entries h)); try lia.
  - unfold u16. apply Z.mod_small. lia.
  - exact Hcmp.
Qed.

(** ** Enumerating the names with a prefix *)

(** C8 (as stated, refuted): on [handle_with_prefixes] the committed names
    are ["0"], ["a"], ["ab"], ["ac"].  With ["a"] fed back as [prev], the
    bisection of [gsd_find_name] stops at ["ab"] (of which ["a"] is a
    prefix), the scan starts behind it, and ["ab"] is never returned. *)
Lemma enumerate_names_counterexample :
  ~ (forall h mt,
        0 < namelist_written_entries h ->
        exists fuel l,
          enumerate_names fuel h mt None = Some l
          /\ forall name,
               In name (committed_names h) -> has_prefix mt name = true ->
               In name l).
Proof.
  intros H.
  assert (Hw : 0 < namelist_written_entries handle_with_prefixes)
    by (vm_compute; reflexivity).
  destruct (H handle_with_prefixes ["a"%byte] Hw) as (fuel & l & He & Hall).
  assert (Hin : In ["a"%byte; "b"%byte] l).
  { apply Hall; vm_compute; auto. }
  assert (E1 : gsd_find_matching_chunk_name (Some handle_with_prefixes)
                 (Some ["a"%byte]) None = Some ["a"%byte])
    by (vm_compute; reflexivity).
  assert (E2 : gsd_find_matching_chunk_name (Some handle_with_prefixes)
                 (Some ["a"%byte]) (Some ["a"%byte])
               = Some ["a"%byte; "c"%byte])
    by (vm_compute; reflexivity).
  assert (E3 : gsd_find_matching_chunk_name (Some handle_with_prefixes)
                 (Some ["a"%byte]) (Some ["a"%byte; "c"%byte]) = None)
    by (vm_compute; reflexivity).
  destruct fuel as [|[|[|fuel]]]; cbn [enumerate_names] in He;
    rewrite ?E1, ?E2, ?E3 in He; cbn [enumerate_names option_map] in He;
    try discriminate He.
  injection He as <-.
  destruct Hin as [E|[E|[]]]; discriminate E.
Qed.

Lemma separated_NoDup (l : list (list byte)) :
  names_separated l = true -> NoDup l.
Proof.
  induction l as [|a r IH]; intros Hs; [constructor|].
  cbn [names_separated] in Hs. apply andb_true_iff in Hs. destruct Hs as [Ha Hr].
  constructor; [|apply IH; exact Hr].
  intros Hin. rewrite forallb_forall in Ha. specialize (Ha a Hin).
  unfold strictly_before in Ha. rewrite strncmp_refl in Ha. discriminate Ha.
Qed.

Lemma skipn_nth_cons {A : Type} (l : list A) (n : nat) (d : A) :
  (n < length l)%nat -> skipn n l = nth n l d :: skipn (S n) l.
Proof.
  revert n. induction l as [|a r IH]; intros n Hn; [cbn in Hn; lia|].
  destruct n as [|n]; [reflexivity|]. cbn [skipn nth]. apply IH.
  cbn [length] in Hn. lia.
Qed.

Lemma enumerate_at_spec (h : gsd_handle) (mt : list byte) :
  0 < namelist_written_entries h <= 65535 ->
  namelist_written_entries h <= Z.of_nat (length (names h)) ->
  names_separated (committed_names h) = true ->
  forall (k : nat) (st : Z) (fuel : nat),
    0 <= st -> st + Z.of_nat k = namelist_written_entries h ->
    (k < fuel)%nat ->
    enumerate_at fuel h mt st
    = Some (filter (has_prefix mt) (skipn (Z.to_nat st) (committed_names h))).
Proof.
  intros Hw Hlen Hs.
  pose proof (committed_names_length h ltac:(lia)) as Hcl.
  induction k as [|k IH]; intros st fuel Hst Hk Hf.
  - destruct fuel as [|f]; [lia|]. cbn [enumerate_at].
    replace (namelist_written_entries h - st) with 0 by lia.
    cbn [Z.to_nat matching_scan].
    rewrite skipn_all2 by lia. reflexivity.
  - destruct fuel as [|f]; [lia|]. cbn [enumerate_at].
    replace (Z.to_nat (namelist_written_entries h - st)) with (S k) by lia.
    cbn [matching_scan].
    rewrite (skipn_nth_cons (committed_names h) (Z.to_nat st) []) by lia.
    cbn [filter]. unfold has_prefix at 1.
    rewrite committed_names_nth by lia.
    destruct (strncmp mt (nth (Z.to_nat st) (committed_names h) []) (strlen mt))
      eqn:E.
    + (* the name at [st] matches: the next call starts behind it *)
      destruct f as [|f]; [lia|].
      specialize (IH (st + 1) (S f) ltac:(lia) ltac:(lia) ltac:(lia)).
      cbn [enumerate_at] in IH.
      cbn [enumerate_names gsd_find_matching_chunk_name].
      destruct (Z.eqb_spec (namelist_written_entries h) 0) as [E0|_]; [lia|].
      rewrite (find_name_exact h st) by (try exact Hs; lia).
      destruct (Z.eqb_spec st UINT16_MAX) as [E1|_];
        [unfold UINT16_MAX in E1; lia|].
      rewrite IH.
      replace (Z.to_nat (st + 1)) with (S (Z.to_nat st)) by lia.
      reflexivity.
    + specialize (IH (st + 1) (S f) ltac:(lia) ltac:(lia) ltac:(lia)).
      cbn [enumerate_at] in IH.
      replace (Z.to_nat (namelist_written_entries h - (st + 1))) with k in IH
        by lia.
      rewrite IH.
      replace (Z.to_nat (st + 1)) with (S (Z.to_nat st)) by lia.
      reflexivity.
    + specialize (IH (st + 1) (S f) ltac:(lia) ltac:(lia) ltac:(lia)).
      cbn [enumerate_at] in IH.
      replace (Z.to_nat (namelist_written_entries h - (st + 1))) with k in IH
        by lia.
      rewrite IH.
      replace (Z.to_nat (st + 1)) with (S (Z.to_nat st)) by lia.
      reflexivity.
Qed.

(** C8 (amended): when the committed names are in increasing order and none
    of them is a prefix of another, the iteration of
    [gsd_find_matching_chunk_name] from NULL ends after at most one call per
    committed name and one more, and it returns, in the order of the cache,
    the committed names that begin with [mt], each of them once. *)
Theorem enumerate_names_complete (h : gsd_handle) (mt : list byte) :
  0 < namelist_written_entries h <= 65535 ->
  namelist_written_entries h <= Z.of_nat (length (names h)) ->
  names_separated (committed_names h) = true ->
  enumerate_names (S (Z.to_nat (namelist_written_entries h))) h mt None
  = Some (filter (has_prefix mt) (committed_names h))
  /\ NoDup (filter (has_prefix mt) (committed_names h))
  /\ (forall name,
        In name (filter (has_prefix mt) (committed_names h))
        <-> In name (committed_names h) /\ has_prefix mt name = true).
Proof.
  intros Hw Hlen Hs. split; [|split].
  - pose proof (enumerate_at_spec h mt Hw Hlen Hs
                  (Z.to_nat (namelist_written_entries h)) 0
                  (S (Z.to_nat (namelist_written_entries h)))
                  ltac:(lia) ltac:(lia) ltac:(lia)) as H.
    cbn [enumerate_at] in H. cbn [enumerate_names gsd_find_matching_chunk_name].
    destruct (Z.eqb_spec (namelist_written_entries h) 0) as [E0|_]; [lia|].
    rewrite Z.sub_0_r in *. exact H.
  - apply NoDup_filter. apply separated_NoDup. exact Hs.
  - intros name. apply filter_In.
Qed.

Lemma enumerate_names_complete_witness :
  enumerate_names
    (S (Z.to_nat (namelist_written_entries handle_with_groups)))
    handle_with_groups ["a"%byte] None
  = Some (filter (has_prefix ["a"%byte]) (committed_names handle_with_groups)).
Proof.
  assert (H1 : 0 < namelist_written_entries handle_with_groups <= 65535)
    by (vm_compute; split; [reflexivity|discriminate]).
  assert (H2 : namelist_written_entries handle_with_groups
               <= Z.of_nat (length (names handle_with_groups)))
    by (vm_compute; discriminate).
  assert (H3 : names_separated (committed_names handle_with_groups) = true)
    by (vm_compute; reflexivity).
  exact (proj1 (enumerate_names_complete handle_with_groups ["a"%byte] H1 H2 H3)).
Defined.

(** ** [gsd_read_chunk] *)

(** The checks of [gsd_read_chunk] that come before the read. *)
Lemma read_chunk_checks (hp : option gsd_handle) (data : option buffer)
  (chunk : option gsd_index_entry) :
  (hp = None \/ data = None \/ chunk = None ->
   gsd_read_chunk hp data chunk = (GSD_ERROR_INVALID_ARGUMENT, data))
  /\ (forall h dst c,
        hp = Some h -> data = Some dst -> chunk = Some c ->
        (open_flags h = GSD_OPEN_APPEND ->
         gsd_read_chunk hp data chunk = (GSD_ERROR_FILE_MUST_BE_READABLE, data))
        /\ (open_flags h <> GSD_OPEN_APPEND ->
            chunk_size c = 0 \/ location c = 0
            \/ file_size h < u64 (location c + chunk_size c) ->
            gsd_read_chunk hp data chunk = (GSD_ERROR_FILE_CORRUPT, data))).
Proof.
  split.
  - intros [->|[->| ->]]; [reflexivity| |].
    + destruct hp; reflexivity.
    + destruct hp; [destruct data|]; reflexivity.
  - intros h dst c -> -> ->. cbn [gsd_read_chunk]. split.
    + intros ->. reflexivity.
    + intros Hm Hbad.
      destruct (open_flags h); cbn [open_flag_eqb]; try contradiction.
      all: destruct (Z.eqb_spec (chunk_size c) 0) as [|Hs]; [reflexivity|];
        destruct (Z.eqb_spec (location c) 0) as [|Hl]; [reflexivity|];
        destruct (Z.ltb_spec (file_size h) (u64 (location c + chunk_size c)));
        [reflexivity|lia].
Qed.

(** C6 (code at the failing input): the entry lies one byte before offset
    2^64, so [location + size] is beyond the size of the file; the 64-bit
    sum wraps to 0, the bound check passes, and the read at offset -1 fails:
    the result is [GSD_ERROR_IO], not [GSD_ERROR_FILE_CORRUPT]. *)
Theorem read_chunk_wrapped_bound :
  chunk_size entry_at_last_offset = 1
  /\ file_size (fresh_handle GSD_OPEN_READONLY)
     < location entry_at_last_offset + chunk_size entry_at_last_offset
  /\ fst (gsd_read_chunk (Some (fresh_handle GSD_OPEN_READONLY))
            (Some zero_buffer) (Some entry_at_last_offset))
     = GSD_ERROR_IO.
Proof.
  split; [vm_compute; reflexivity|]. split; vm_compute; reflexivity.
Qed.

(** ** Opening a file: the index bisection *)

Lemma load_shift (mem : buffer) (a off : Z) (n : nat) :
  load (shift mem a) off n = load mem (a + off) n.
Proof.
  unfold load, shift. apply map_ext. intros k. f_equal. lia.
Qed.

Lemma decode_entry_shift (mem : buffer) (a off : Z) :
  decode_entry (shift mem a) off = decode_entry mem (a + off).
Proof.
  unfold decode_entry, load_le. rewrite !load_shift.
  rewrite !Z.add_assoc. reflexivity.
Qed.

Lemma decode_entry_eq (mem : buffer) (o1 o2 : Z) :
  o1 = o2 -> decode_entry mem o1 = decode_entry mem o2.
Proof. intros ->. reflexivity. Qed.

(** The bisection on a handle whose index shows a dense prefix of length
    [k]: the result is [k], unless a probed entry fails the validation. *)
Lemma index_bisect_spec (h : gsd_handle) (k : Z) :
  let alloc := index_allocated_entries (header h) in
  alloc < 2 ^ 63 ->
  (forall i, 0 <= i < k -> location (entry_at (index h) i) <> 0) ->
  (forall i, k <= i < alloc -> location (entry_at (index h) i) = 0) ->
  forall (fuel : nat) (L R : Z),
    0 <= L < k -> k <= R <= alloc -> R - L <= Z.of_nat fuel ->
    (index_bisect fuel h L R = None \/ index_bisect fuel h L R = Some k)
    /\ ((forall i, 0 <= i < k -> gsd_is_entry_valid h i = true) ->
        (forall i j, 0 <= i <= j -> j < k ->
                     frame (entry_at (index h) i) <= frame (entry_at (index h) j)) ->
        index_bisect fuel h L R = Some k).
Proof.
  intros alloc Hb Hnz Hz.
  induction fuel as [|fuel IH]; intros L R HL HR Hf; [lia|].
  cbn [index_bisect].
  rewrite (u64_small (L + R)) by lia.
  assert (HmR : L <= (L + R) / 2 < R).
  { split; [apply Z.div_le_lower_bound|apply Z.div_lt_upper_bound]; lia. }
  assert (HmL : 2 <= R - L -> L + 1 <= (L + R) / 2).
  { intros H2. apply Z.div_le_lower_bound; lia. }
  remember ((L + R) / 2) as m eqn:Em. clear Em.
  destruct (Z.eqb_spec (location (entry_at (index h) m)) 0) as [Ez|Enz];
    cbn [negb andb].
  - (* the probe has location 0: it lies behind the prefix *)
    assert (Hk : k <= m).
    { destruct (Z.lt_ge_cases m k) as [Hlt|Hge]; [|exact Hge].
      exfalso. apply (Hnz m); [lia|exact Ez]. }
    rewrite (u64_small (m - L)) by lia.
    destruct (Z.ltb_spec 1 (m - L)) as [Hgo|Hstop].
    + apply IH; lia.
    + replace m with k by lia. split; [right; reflexivity|reflexivity].
  - assert (Hk : m < k).
    { destruct (Z.lt_ge_cases m k) as [Hlt|Hge]; [exact Hlt|].
      exfalso. apply Enz. apply Hz. fold alloc. lia. }
    destruct (negb (gsd_is_entry_valid h m)
              || (frame (entry_at (index h) m) <? frame (entry_at (index h) L)))
      eqn:Ebad.
    + split; [left; reflexivity|].
      intros Hv Hmono. exfalso.
      apply orb_true_iff in Ebad. destruct Ebad as [Ebad|Ebad].
      * rewrite Hv in Ebad by lia. discriminate Ebad.
      * apply Z.ltb_lt in Ebad. specialize (Hmono L m ltac:(lia) Hk). lia.
    + rewrite (u64_small (R - m)) by lia.
      destruct (Z.ltb_spec 1 (R - m)) as [Hgo|Hstop].
      * apply IH; lia.
      * replace R with k by lia. split; [right; reflexivity|reflexivity].
Qed.

(** ** Opening a file: from the header to the handle *)

Lemma pread_inside (f : file) (count off : Z) :
  0 < count -> 0 <= off -> off + count <= fsize f -> fsize f <= OFF_MAX ->
  gsd_pread_retry (Some f) count off = (count, shift (file_byte f) off).
Proof.
  intros Hc Ho Hin Hmax. unfold gsd_pread_retry, pread, OFF_MAX in *.
  destruct (Z.leb_spec count 0); [lia|].
  rewrite to_int64_small by lia.
  destruct (Z.ltb_spec off 0); [lia|].
  replace (Z.max 0 (Z.min count (fsize f - off))) with count by lia.
  reflexivity.
Qed.

Lemma header_fields_range (f : file) :
  0 <= index_location (file_header f) < 2 ^ 64
  /\ 0 <= namelist_location (file_header f) < 2 ^ 64
  /\ 0 <= index_allocated_entries (file_header f) < 2 ^ 64
  /\ 0 <= namelist_allocated_entries (file_header f) < 2 ^ 64.
Proof.
  unfold file_header, decode_header. cbn [index_location namelist_location
    index_allocated_entries namelist_allocated_entries].
  repeat split; apply (load_le_range _ _ 8).
Qed.

Lemma entry_fields_range (mem : buffer) (off : Z) :
  let e := decode_entry mem off in
  0 <= frame e < 2 ^ 64 /\ 0 <= N e < 2 ^ 64 /\ 0 <= location e < 2 ^ 64
  /\ 0 <= M e < 2 ^ 32 /\ 0 <= id e < 2 ^ 16 /\ 0 <= type e < 2 ^ 8
  /\ 0 <= flags e < 2 ^ 8.
Proof.
  unfold decode_entry. cbn [frame N location M id type flags].
  repeat split;
    first [apply (load_le_range _ _ 8) | apply (load_le_range _ _ 4)
          | apply (load_le_range _ _ 2) | apply (load_le_range _ _ 1)].
Qed.

(** The index as the handle sees it after the first half of
    [gsd_read_header], in every mode. *)
Lemma read_header_reduce (h0 : gsd_handle) (f : file) :
  fd h0 = Some f -> file_layout_ok f ->
  exists idx,
    (forall i, entry_at idx i = file_entry f i)
    /\ gsd_read_header h0
       = read_header_tail
           (set_index idx
              (set_file_size (fsize f) (set_header (file_header f) h0))).
Proof.
  intros Hfd [Hsz Hmag Hver Hal Hidx Hnl].
  pose proof (header_fields_range f) as (Hr1 & Hr2 & Hr3 & Hr4).
  unfold sizeof_header, OFF_MAX, sizeof_index_entry in *.
  unfold gsd_read_header. rewrite Hfd, pread_header.
  unfold sizeof_header.
  replace (Z.max 0 (Z.min 256 (fsize f))) with 256 by lia.
  change (256 =? -1) with false. change (256 =? 256) with true.
  cbn [negb]. hsimpl. fold (file_header f).
  rewrite Hmag, Z.eqb_refl. cbn [negb].
  change (gsd_make_version 1 0) with 65536.
  change (gsd_make_version 0 3) with 3.
  change (gsd_make_version 2 0) with 131072.
  assert (Hgate : (gsd_version (file_header f) <? 65536)
                  && negb (gsd_version (file_header f) =? 3) = false
                  /\ (131072 <=? gsd_version (file_header f)) = false).
  { unfold version_accepted in Hver.
    change (gsd_make_version 1 0) with 65536 in Hver.
    change (gsd_make_version 0 3) with 3 in Hver.
    change (gsd_make_version 2 0) with 131072 in Hver.
    destruct Hver as [->|Hv]; [split; reflexivity|].
    split; [apply andb_false_iff; left; apply Z.ltb_ge; lia|apply Z.leb_gt; lia]. }
  destruct Hgate as [-> ->].
  unfold read_header_index. hsimpl. rewrite Hfd. cbn [lseek_end].
  assert (Hib : u64 (sizeof_index_entry
                     * index_allocated_entries (file_header f))
                = 64 * index_allocated_entries (file_header f)).
  { unfold sizeof_index_entry. apply u64_small. lia. }
  destruct (open_flags h0) eqn:Hmode.
  - (* read/write: the index is read into memory *)
    rewrite Hib. rewrite u64_small by lia.
    destruct (Z.ltb_spec (fsize f)
                (index_location (file_header f)
                 + 64 * index_allocated_entries (file_header f))); [lia|].
    rewrite pread_inside by (unfold OFF_MAX; lia).
    rewrite Z.eqb_refl. cbn [orb negb].
    destruct (Z.eqb_spec (64 * index_allocated_entries (file_header f)) (-1));
      [lia|].
    eexists. split; [|reflexivity].
    intros i. unfold entry_at, file_entry. apply decode_entry_shift.
  - (* read-only: the index is mapped *)
    unfold map_index, mmap, OFF_MAX. hsimpl. rewrite Hfd, Hib.
    set (loc := index_location (file_header f)) in *.
    assert (Hoff : 0 <= loc / page_size * page_size <= loc).
    { unfold page_size. pose proof (Z.mul_div_le loc 4096 ltac:(lia)).
      pose proof (Z.div_pos loc 4096 ltac:(lia) ltac:(lia)). lia. }
    rewrite (u64_small (loc / page_size * page_size)) by lia.
    rewrite (u64_small (loc - loc / page_size * page_size)) by lia.
    rewrite u64_small by lia.
    rewrite to_int64_small by lia.
    destruct (Z.eqb_spec (64 * index_allocated_entries (file_header f)
                          + (loc - loc / page_size * page_size)) 0); [lia|].
    destruct (Z.ltb_spec (loc / page_size * page_size) 0); [lia|].
    destruct (Z.ltb_spec (2 ^ 63 - 1)
                (loc / page_size * page_size
                 + (64 * index_allocated_entries (file_header f)
                    + (loc - loc / page_size * page_size)))); [lia|].
    cbn [orb]. eexists. split; [|reflexivity].
    intros i. unfold entry_at, file_entry.
    rewrite decode_entry_shift.
    change (fun k : Z => file_byte f (loc / page_size * page_size + k))
      with (shift (file_byte f) (loc / page_size * page_size)).
    rewrite decode_entry_shift. apply decode_entry_eq. fold loc. lia.
  - (* append: the index is mapped for the scan *)
    unfold map_index, mmap, OFF_MAX. hsimpl. rewrite Hfd, Hib.
    set (loc := index_location (file_header f)) in *.
    assert (Hoff : 0 <= loc / page_size * page_size <= loc).
    { unfold page_size. pose proof (Z.mul_div_le loc 4096 ltac:(lia)).
      pose proof (Z.div_pos loc 4096 ltac:(lia) ltac:(lia)). lia. }
    rewrite (u64_small (loc / page_size * page_size)) by lia.
    rewrite (u64_small (loc - loc / page_size * page_size)) by lia.
    rewrite u64_small by lia.
    rewrite to_int64_small by lia.
    destruct (Z.eqb_spec (64 * index_allocated_entries (file_header f)
                          + (loc - loc / page_size * page_size)) 0); [lia|].
    destruct (Z.ltb_spec (loc / page_size * page_size) 0); [lia|].
    destruct (Z.ltb_spec (2 ^ 63 - 1)
                (loc / page_size * page_size
                 + (64 * index_allocated_entries (file_header f)
                    + (loc - loc / page_size * page_size)))); [lia|].
    cbn [orb]. eexists. split; [|reflexivity].
    intros i. unfold entry_at, file_entry.
    rewrite decode_entry_shift.
    change (fun k : Z => file_byte f (loc / page_size * page_size + k))
      with (shift (file_byte f) (loc / page_size * page_size)).
    rewrite decode_entry_shift. apply decode_entry_eq. fold loc. lia.
Qed.

Lemma pread_inside_gen (f : file) (count off : Z) :
  0 <= count -> 0 <= off -> off + count <= fsize f -> fsize f <= OFF_MAX ->
  fst (gsd_pread_retry (Some f) count off) = count
  /\ forall j, 0 <= j < count ->
               snd (gsd_pread_retry (Some f) count off) j = file_byte f (off + j).
Proof.
  intros Hc Ho Hin Hmax.
  destruct (Z.eq_dec count 0) as [->|Hnz].
  - split; [reflexivity|]. intros j Hj. lia.
  - rewrite pread_inside by lia. split; [reflexivity|]. intros j _. reflexivity.
Qed.

Lemma first_empty_name_ext (r : nat) (nl1 nl2 : buffer) (i : Z) :
  (forall j, i <= j < i + Z.of_nat r ->
             nl1 (sizeof_namelist_entry * j) = nl2 (sizeof_namelist_entry * j)) ->
  first_empty_name r nl1 i = first_empty_name r nl2 i.
Proof.
  revert i. induction r as [|r IH]; intros i H; [reflexivity|].
  cbn [first_empty_name]. rewrite (H i) by lia.
  destruct (is_nul _); [reflexivity|]. apply IH. intros j Hj. apply H. lia.
Qed.

Lemma first_empty_name_range (r : nat) (nl : buffer) (i n : Z) :
  first_empty_name r nl i = Some n -> i <= n < i + Z.of_nat r.
Proof.
  revert i. induction r as [|r IH]; intros i; [discriminate|].
  cbn [first_empty_name]. destruct (is_nul _).
  - intros [= <-]. lia.
  - intros H. apply IH in H. lia.
Qed.

Lemma file_name_count_range (f : file) :
  0 <= file_name_count f <= namelist_allocated_entries (file_header f).
Proof.
  pose proof (header_fields_range f) as (_ & _ & _ & Hr).
  unfold file_name_count.
  destruct (first_empty_name _ _ _) as [n|] eqn:E; [|lia].
  apply first_empty_name_range in E. lia.
Qed.

Lemma initial_names_length (nl : buffer) (n : Z) :
  length (initial_names nl n) = Z.to_nat n.
Proof. unfold initial_names. rewrite length_map, length_seq. reflexivity. Qed.

Lemma sort_names_all (h : gsd_handle) :
  length (names h) = Z.to_nat (namelist_num_entries h) ->
  names (gsd_sort_name_id_pairs h) = sort_pairs (names h).
Proof.
  intros H. unfold gsd_sort_name_id_pairs. hsimpl.
  rewrite firstn_all2, skipn_all2 by lia. apply app_nil_r.
Qed.

(** The validity test of the handle is the validity test of the file. *)
Lemma entry_valid_file (h : gsd_handle) (f : file) (i : Z) :
  header h = file_header f -> file_size h = fsize f ->
  namelist_num_entries h = file_name_count f ->
  entry_at (index h) i = file_entry f i ->
  gsd_is_entry_valid h i = file_entry_valid f i.
Proof.
  intros Hh Hs Hn He. unfold gsd_is_entry_valid, file_entry_valid.
  rewrite He, Hh, Hs, Hn.
  destruct (gsd_sizeof_type (type (file_entry f i)) =? 0); [reflexivity|].
  cbn [negb andb].
  rewrite (Z.ltb_antisym (u64 _) (fsize f)).
  destruct (u64 _ <=? fsize f); [|reflexivity]. cbn [negb andb].
  rewrite (Z.leb_antisym (frame _)).
  destruct (frame _ <? _); [|reflexivity]. cbn [negb andb].
  rewrite (Z.leb_antisym (id _)).
  destruct (id _ <? _); [|reflexivity]. cbn [negb andb].
  destruct (flags _ =? 0); reflexivity.
Qed.

(** The second half of [gsd_read_header] on a file whose index has a dense
    prefix of [k] entries: the result is [GSD_ERROR_FILE_CORRUPT] or a
    handle that counts [k] entries; it is the handle when the entries of the
    prefix are valid and their frames do not decrease. *)
Lemma read_header_tail_spec (h : gsd_handle) (f : file) (k : Z) :
  fd h = Some f -> header h = file_header f -> file_size h = fsize f ->
  (forall i, entry_at (index h) i = file_entry f i) ->
  file_layout_ok f -> index_prefix f k ->
  (fst (read_header_tail h) = GSD_ERROR_FILE_CORRUPT
   \/ (fst (read_header_tail h) = GSD_SUCCESS
       /\ opened_on f k (snd (read_header_tail h))
       /\ open_flags (snd (read_header_tail h)) = open_flags h))
  /\ ((forall i, 0 <= i < k -> file_entry_valid f i = true) ->
      (forall i j, 0 <= i <= j -> j < k ->
                   frame (file_entry f i) <= frame (file_entry f j)) ->
      fst (read_header_tail h) = GSD_SUCCESS).
Proof.
  intros Hfd Hh Hfs Hidx [Hsz Hmag Hver Hal Hib Hnl] (Hk & Hnz & Hz).
  pose proof (header_fields_range f) as (Hr1 & Hr2 & Hr3 & Hr4).
  unfold sizeof_header, OFF_MAX, sizeof_index_entry, sizeof_namelist_entry in *.
  unfold read_header_tail. rewrite Hh, Hfs, Hfd.
  unfold sizeof_namelist_entry.
  rewrite (u64_small (64 * namelist_allocated_entries (file_header f))) by lia.
  rewrite u64_small by lia.
  destruct (Z.ltb_spec (fsize f)
              (namelist_location (file_header f)
               + 64 * namelist_allocated_entries (file_header f)))
    as [Hlt|_]; [lia|].
  destruct (pread_inside_gen f (64 * namelist_allocated_entries (file_header f))
              (namelist_location (file_header f)))
    as [Hbr Hnlv]; try (unfold OFF_MAX; lia).
  destruct (gsd_pread_retry (Some f)
              (64 * namelist_allocated_entries (file_header f))
              (namelist_location (file_header f))) as [bytes_read nl].
  cbn [fst snd] in Hbr, Hnlv. subst bytes_read.
  rewrite Z.eqb_refl. cbn [negb orb].
  destruct (Z.eqb_spec (64 * namelist_allocated_entries (file_header f)) (-1))
    as [Hm1|_]; [lia|].
  hsimpl. rewrite Hh.
  (* the number of names *)
  assert (Hcnt : match
                   first_empty_name
                     (Z.to_nat (namelist_allocated_entries (file_header f))) nl 0
                 with
                 | Some i => i
                 | None => namelist_allocated_entries (file_header f)
                 end = file_name_count f).
  { unfold file_name_count.
    rewrite (first_empty_name_ext _ nl
               (shift (file_byte f) (namelist_location (file_header f))));
      [reflexivity|].
    intros j Hj. unfold sizeof_namelist_entry. apply Hnlv. lia. }
  rewrite Hcnt.
  pose proof (file_name_count_range f) as Hcr.
  set (n := file_name_count f) in *.
  set (h3 := set_names_allocated_size _ _).
  set (h4 := gsd_sort_name_id_pairs (set_names (initial_names nl n) h3)).
  assert (H4i : index h4 = index h) by reflexivity.
  assert (H4h : header h4 = file_header f) by exact Hh.
  assert (H4s : file_size h4 = fsize f) by exact Hfs.
  assert (H4n : namelist_num_entries h4 = n) by reflexivity.
  assert (H4names : names h4 = sort_pairs (initial_names nl n)).
  { unfold h4. rewrite sort_names_all; hsimpl; [reflexivity|].
    apply initial_names_length. }
  assert (Hvalid : forall i, gsd_is_entry_valid h4 i = file_entry_valid f i).
  { intros i. apply entry_valid_file; try assumption.
    rewrite H4i. apply Hidx. }
  assert (Hent : forall i, entry_at (index h4) i = file_entry f i).
  { intros i. rewrite H4i. apply Hidx. }
  rewrite (Hent 0), (Hvalid 0), H4h.
  (* the handle that comes out for a count [c] *)
  assert (Hout : forall c,
    c = k ->
    let h5 := set_index_num_entries c h4 in
    let h6 :=
      set_cur_frame
        (if c =? 0 then 0 else u64 (frame (entry_at (index h5) (c - 1)) + 1))
        h5 in
    let h7 := set_index_written_entries (index_num_entries h6) h6 in
    let r :=
      if open_flag_eqb (open_flags h7) GSD_OPEN_APPEND
      then (GSD_SUCCESS, set_index zero_buffer (set_append_index_size 1 h7))
      else (GSD_SUCCESS, h7) in
    fst r = GSD_SUCCESS /\ opened_on f k (snd r)
    /\ open_flags (snd r) = open_flags h).
  { intros c -> h5 h6 h7 r. unfold r, h7, h6, h5. hsimpl.
    change (open_flags h4) with (open_flags h).
    destruct (open_flag_eqb (open_flags h) GSD_OPEN_APPEND) eqn:Hap.
    - split; [reflexivity|]. split; [|reflexivity]. hsimpl.
      constructor; hsimpl; try assumption; try reflexivity.
      all: try (rewrite Hent; reflexivity).
      all: try (intros j Hj; apply Hnlv; unfold sizeof_namelist_entry in Hj; lia).
      all: change (open_flags h4) with (open_flags h); rewrite Hap;
        first [reflexivity | exact Hent].
    - split; [reflexivity|]. split; [|reflexivity]. hsimpl.
      constructor; hsimpl; try assumption; try reflexivity.
      all: try (rewrite Hent; reflexivity).
      all: try (intros j Hj; apply Hnlv; unfold sizeof_namelist_entry in Hj; lia).
      all: change (open_flags h4) with (open_flags h); rewrite Hap;
        first [reflexivity | exact Hent]. }
  destruct (Z.eq_dec k 0) as [Hk0|Hk0].
  - (* empty index *)
    rewrite (Hz 0) by lia. cbn [Z.eqb negb andb].
    specialize (Hout 0 (eq_sym Hk0)). cbv zeta in Hout.
    destruct Hout as (O1 & O2 & O3).
    split; [right; split; [exact O1|split; [exact O2|exact O3]]|].
    intros _ _. exact O1.
  - destruct (Z.eqb_spec (location (file_entry f 0)) 0) as [E0|E0];
      [exfalso; apply (Hnz 0); [lia|exact E0]|].
    cbn [negb andb].
    destruct (file_entry_valid f 0) eqn:Ev0; cbn [negb].
    + pose proof (index_bisect_spec h4 k) as Hbis. cbv zeta in Hbis.
      rewrite H4h in Hbis.
      specialize (Hbis ltac:(lia)).
      specialize (Hbis ltac:(intros i Hi; rewrite Hent; apply Hnz; exact Hi)).
      specialize (Hbis ltac:(intros i Hi; rewrite Hent; apply Hz; exact Hi)).
      specialize (Hbis (S (Z.to_nat (index_allocated_entries (file_header f))))
                    0 (index_allocated_entries (file_header f))
                    ltac:(lia) ltac:(lia) ltac:(lia)).
      destruct Hbis as [Hb1 Hb2].
      split.
      * destruct Hb1 as [-> | ->]; [left; reflexivity|].
        specialize (Hout k eq_refl). cbv zeta in Hout.
        destruct Hout as (O1 & O2 & O3).
        right. split; [exact O1|split; [exact O2|exact O3]].
      * intros Hv Hm. rewrite Hb2.
        -- specialize (Hout k eq_refl). cbv zeta in Hout. apply Hout.
        -- intros i Hi. rewrite Hvalid. apply Hv. exact Hi.
        -- intros i j Hij Hj. rewrite !Hent. apply Hm; assumption.
    + split; [left; reflexivity|].
      intros Hv _. rewrite Hv in Ev0 by lia. discriminate Ev0.
Qed.

(** [gsd_read_header] on a file with a dense index prefix of [k] entries. *)
Lemma read_header_spec (h0 : gsd_handle) (f : file) (k : Z) :
  fd h0 = Some f -> file_layout_ok f -> index_prefix f k ->
  (fst (gsd_read_header h0) = GSD_ERROR_FILE_CORRUPT
   \/ (fst (gsd_read_header h0) = GSD_SUCCESS
       /\ opened_on f k (snd (gsd_read_header h0))
       /\ open_flags (snd (gsd_read_header h0)) = open_flags h0))
  /\ ((forall i, 0 <= i < k -> file_entry_valid f i = true) ->
      (forall i j, 0 <= i <= j -> j < k ->
                   frame (file_entry f i) <= frame (file_entry f j)) ->
      fst (gsd_read_header h0) = GSD_SUCCESS).
Proof.
  intros Hfd Hl Hp.
  destruct (read_header_reduce h0 f Hfd Hl) as (idx & Hidx & ->).
  pose proof (read_header_tail_spec
                (set_index idx
                   (set_file_size (fsize f) (set_header (file_header f) h0)))
                f k Hfd eq_refl eq_refl Hidx Hl Hp) as H.
  exact H.
Qed.

(** ** The entries that the bisection validates *)

Lemma bisect_probes_range (k : Z) (fuel : nat) (L R : Z) (m L' : Z) :
  0 <= L <= R -> R < 2 ^ 63 ->
  In (m, L') (bisect_probes fuel k L R) -> L <= L' <= m /\ m < k /\ m <= R.
Proof.
  revert L R. induction fuel as [|fuel IH]; intros L R HL HR; [intros []|].
  cbn [bisect_probes].
  rewrite (u64_small (L + R)) by lia.
  assert (Hm : L <= (L + R) / 2 <= R)
    by (split; [apply Z.div_le_lower_bound|apply Z.div_le_upper_bound]; lia).
  remember ((L + R) / 2) as c eqn:Ec. clear Ec.
  destruct (Z.ltb_spec c k) as [Hlt|Hge].
  - intros [E|Hin].
    + injection E as <- <-. lia.
    + rewrite (u64_small (R - c)) in Hin by lia.
      destruct (1 <? R - c); [|destruct Hin].
      specialize (IH c R ltac:(lia) HR Hin). lia.
  - rewrite (u64_small (c - L)) by lia.
    destruct (1 <? c - L); [|intros []].
    intros Hin. specialize (IH L c ltac:(lia) ltac:(lia) Hin). lia.
Qed.

(** The bisection succeeds exactly when every probe passes. *)
Lemma index_bisect_probes (h : gsd_handle) (k : Z) :
  let alloc := index_allocated_entries (header h) in
  alloc < 2 ^ 63 ->
  (forall i, 0 <= i < k -> location (entry_at (index h) i) <> 0) ->
  (forall i, k <= i < alloc -> location (entry_at (index h) i) = 0) ->
  forall (fuel : nat) (L R : Z),
    0 <= L < k -> k <= R <= alloc -> R - L <= Z.of_nat fuel ->
    (index_bisect fuel h L R <> None
     <-> forall m L', In (m, L') (bisect_probes fuel k L R) ->
           gsd_is_entry_valid h m = true
           /\ frame (entry_at (index h) L') <= frame (entry_at (index h) m)).
Proof.
  intros alloc Hb Hnz Hz.
  induction fuel as [|fuel IH]; intros L R HL HR Hf; [lia|].
  cbn [index_bisect bisect_probes].
  rewrite (u64_small (L + R)) by lia.
  assert (HmR : L <= (L + R) / 2 < R).
  { split; [apply Z.div_le_lower_bound|apply Z.div_lt_upper_bound]; lia. }
  assert (HmL : 2 <= R - L -> L + 1 <= (L + R) / 2).
  { intros H2. apply Z.div_le_lower_bound; lia. }
  remember ((L + R) / 2) as c eqn:Ec. clear Ec.
  destruct (Z.eqb_spec (location (entry_at (index h) c)) 0) as [Ez|Enz];
    cbn [negb andb].
  - assert (Hk : k <= c).
    { destruct (Z.lt_ge_cases c k) as [Hlt|Hge]; [|exact Hge].
      exfalso. apply (Hnz c); [lia|exact Ez]. }
    destruct (Z.ltb_spec c k) as [|_]; [lia|].
    rewrite (u64_small (c - L)) by lia.
    destruct (Z.ltb_spec 1 (c - L)) as [Hgo|Hstop].
    + apply IH; lia.
    + split; [intros _ m L' []|intros _; discriminate].
  - assert (Hk : c < k).
    { destruct (Z.lt_ge_cases c k) as [Hlt|Hge]; [exact Hlt|].
      exfalso. apply Enz. apply Hz. fold alloc. lia. }
    destruct (Z.ltb_spec c k) as [_|]; [|lia].
    rewrite (u64_small (R - c)) by lia.
    destruct (negb (gsd_is_entry_valid h c)
              || (frame (entry_at (index h) c) <? frame (entry_at (index h) L)))
      eqn:Ebad.
    + split; [intros Hc; contradiction|].
      intros Hall. exfalso.
      destruct (Hall c L (or_introl eq_refl)) as [Hv Hfr].
      apply orb_true_iff in Ebad. destruct Ebad as [Ebad|Ebad].
      * rewrite Hv in Ebad. discriminate Ebad.
      * apply Z.ltb_lt in Ebad. lia.
    + apply orb_false_iff in Ebad. destruct Ebad as [Ev Efr].
      apply negb_false_iff in Ev. apply Z.ltb_ge in Efr.
      destruct (Z.ltb_spec 1 (R - c)) as [Hgo|Hstop].
      * rewrite (IH c R ltac:(lia) ltac:(lia) ltac:(lia)). split.
        -- intros Hall m L' [E|Hin]; [injection E as <- <-; split; assumption|].
           apply Hall. exact Hin.
        -- intros Hall m L' Hin. apply Hall. right. exact Hin.
      * split; [|intros _; discriminate].
        intros _ m L' [E|[]]. injection E as <- <-. split; assumption.
Qed.

(** The second half of [gsd_read_header] on a file whose index has a dense
    prefix of [k] entries succeeds exactly when the probed entries pass. *)
Lemma read_header_tail_probes (h : gsd_handle) (f : file) (k : Z) :
  fd h = Some f -> header h = file_header f -> file_size h = fsize f ->
  (forall i, entry_at (index h) i = file_entry f i) ->
  file_layout_ok f -> index_prefix f k ->
  (fst (read_header_tail h) = GSD_SUCCESS
   <-> forallb (probe_ok f) (probed_entries f k) = true).
Proof.
  intros Hfd Hh Hfs Hidx [Hsz Hmag Hver Hal Hib Hnl] (Hk & Hnz & Hz).
  pose proof (header_fields_range f) as (Hr1 & Hr2 & Hr3 & Hr4).
  unfold sizeof_header, OFF_MAX, sizeof_index_entry, sizeof_namelist_entry in *.
  unfold read_header_tail. rewrite Hh, Hfs, Hfd.
  unfold sizeof_namelist_entry.
  rewrite (u64_small (64 * namelist_allocated_entries (file_header f))) by lia.
  rewrite u64_small by lia.
  destruct (Z.ltb_spec (fsize f)
              (namelist_location (file_header f)
               + 64 * namelist_allocated_entries (file_header f)))
    as [Hlt|_]; [lia|].
  destruct (pread_inside_gen f (64 * namelist_allocated_entries (file_header f))
              (namelist_location (file_header f)))
    as [Hbr Hnlv]; try (unfold OFF_MAX; lia).
  destruct (gsd_pread_retry (Some f)
              (64 * namelist_allocated_entries (file_header f))
              (namelist_location (file_header f))) as [bytes_read nl].
  cbn [fst snd] in Hbr, Hnlv. subst bytes_read.
  rewrite Z.eqb_refl. cbn [negb orb].
  destruct (Z.eqb_spec (64 * namelist_allocated_entries (file_header f)) (-1))
    as [Hm1|_]; [lia|].
  hsimpl. rewrite Hh.
  assert (Hcnt : match
                   first_empty_name
                     (Z.to_nat (namelist_allocated_entries (file_header f))) nl 0
                 with
                 | Some i => i
                 | None => namelist_allocated_entries (file_header f)
                 end = file_name_count f).
  { unfold file_name_count.
    rewrite (first_empty_name_ext _ nl
               (shift (file_byte f) (namelist_location (file_header f))));
      [reflexivity|].
    intros j Hj. unfold sizeof_namelist_entry. apply Hnlv. lia. }
  rewrite Hcnt.
  set (n := file_name_count f) in *.
  set (h3 := set_names_allocated_size _ _).
  set (h4 := gsd_sort_name_id_pairs (set_names (initial_names nl n) h3)).
  assert (H4i : index h4 = index h) by reflexivity.
  assert (H4h : header h4 = file_header f) by exact Hh.
  assert (H4s : file_size h4 = fsize f) by exact Hfs.
  assert (H4n : namelist_num_entries h4 = n) by reflexivity.
  assert (Hvalid : forall i, gsd_is_entry_valid h4 i = file_entry_valid f i).
  { intros i. apply entry_valid_file; try assumption.
    rewrite H4i. apply Hidx. }
  assert (Hent : forall i, entry_at (index h4) i = file_entry f i).
  { intros i. rewrite H4i. apply Hidx. }
  rewrite (Hent 0), (Hvalid 0), H4h.
  assert (Hfin : forall c,
    fst (let h5 := set_index_num_entries c h4 in
         let h6 :=
           set_cur_frame
             (if c =? 0 then 0
              else u64 (frame (entry_at (index h5) (c - 1)) + 1)) h5 in
         let h7 := set_index_written_entries (index_num_entries h6) h6 in
         if open_flag_eqb (open_flags h7) GSD_OPEN_APPEND
         then (GSD_SUCCESS, set_index zero_buffer (set_append_index_size 1 h7))
         else (GSD_SUCCESS, h7)) = GSD_SUCCESS).
  { intros c. cbv zeta. destruct (open_flag_eqb _ _); reflexivity. }
  unfold probed_entries.
  destruct (Z.eqb_spec k 0) as [Hk0|Hk0].
  - rewrite (Hz 0) by lia. cbn [Z.eqb negb andb forallb].
    split; [reflexivity|intros _; apply Hfin].
  - destruct (Z.eqb_spec (location (file_entry f 0)) 0) as [E0|E0];
      [exfalso; apply (Hnz 0); [lia|exact E0]|].
    cbn [negb andb forallb]. unfold probe_ok at 1. cbn [fst snd].
    rewrite Z.leb_refl, andb_true_r.
    destruct (file_entry_valid f 0) eqn:Ev0; cbn [negb andb];
      [|split; discriminate].
    pose proof (index_bisect_probes h4 k) as Hbis. cbv zeta in Hbis.
    rewrite H4h in Hbis.
    specialize (Hbis ltac:(lia)).
    specialize (Hbis ltac:(intros i Hi; rewrite Hent; apply Hnz; exact Hi)).
    specialize (Hbis ltac:(intros i Hi; rewrite Hent; apply Hz; exact Hi)).
    specialize (Hbis (S (Z.to_nat (index_allocated_entries (file_header f))))
                  0 (index_allocated_entries (file_header f))
                  ltac:(lia) ltac:(lia) ltac:(lia)).
    rewrite forallb_forall.
    destruct (index_bisect _ h4 0 _) as [c|] eqn:Eb.
    + split; [intros _|intros _; apply Hfin].
      intros [m L'] Hin. unfold probe_ok. cbn [fst snd].
      destruct (proj1 Hbis ltac:(discriminate) m L' Hin) as [Hv Hfr].
      rewrite Hvalid in Hv. rewrite !Hent in Hfr. rewrite Hv. cbn [andb].
      apply Z.leb_le. exact Hfr.
    + split; [discriminate|]. intros Hall. exfalso.
      apply (proj2 Hbis); [|reflexivity].
      intros m L' Hin. specialize (Hall (m, L') Hin).
      unfold probe_ok in Hall. cbn [fst snd] in Hall.
      apply andb_true_iff in Hall. destruct Hall as [Hv Hfr].
      rewrite Hvalid, !Hent. split; [exact Hv|apply Z.leb_le; exact Hfr].
Qed.

(** [gsd_read_header] on a file with a dense index prefix of [k] entries
    succeeds exactly when the probed entries pass. *)
Lemma read_header_probes (h0 : gsd_handle) (f : file) (k : Z) :
  fd h0 = Some f -> file_layout_ok f -> index_prefix f k ->
  (fst (gsd_read_header h0) = GSD_SUCCESS
   <-> forallb (probe_ok f) (probed_entries f k) = true).
Proof.
  intros Hfd Hl Hp.
  destruct (read_header_reduce h0 f Hfd Hl) as (idx & Hidx & ->).
  exact (read_header_tail_probes
           (set_index idx
              (set_file_size (fsize f) (set_header (file_header f) h0)))
           f k Hfd eq_refl eq_refl Hidx Hl Hp).
Qed.

Lemma probed_entries_range (f : file) (k : Z) (m L : Z) :
  file_layout_ok f -> index_prefix f k ->
  In (m, L) (probed_entries f k) -> 0 <= L <= m /\ m < k.
Proof.
  intros [Hsz _ _ Hal Hib _] (Hk & _ & _). unfold probed_entries.
  destruct (Z.eqb_spec k 0) as [|Hk0]; [intros []|].
  intros [E|Hin]; [injection E as <- <-; lia|].
  pose proof (header_fields_range f) as (Hr1 & Hr2 & Hr3 & Hr4).
  unfold sizeof_header, OFF_MAX, sizeof_index_entry in *.
  apply bisect_probes_range in Hin; lia.
Qed.

(** The last entry of the prefix is among the probes. *)
Lemma bisect_probes_last (k : Z) (fuel : nat) (L R : Z) :
  0 <= L < k -> k <= R -> R < 2 ^ 63 -> R - L <= Z.of_nat fuel ->
  L = k - 1 \/ exists L', In (k - 1, L') (bisect_probes fuel k L R).
Proof.
  revert L R. induction fuel as [|fuel IH]; intros L R HL HR Hb Hf; [lia|].
  cbn [bisect_probes].
  rewrite (u64_small (L + R)) by lia.
  assert (Hm : L <= (L + R) / 2 < R)
    by (split; [apply Z.div_le_lower_bound|apply Z.div_lt_upper_bound]; lia).
  assert (HmL : 2 <= R - L -> L + 1 <= (L + R) / 2)
    by (intros H2; apply Z.div_le_lower_bound; lia).
  remember ((L + R) / 2) as c eqn:Ec. clear Ec.
  destruct (Z.ltb_spec c k) as [Hlt|Hge].
  - right. rewrite (u64_small (R - c)) by lia.
    destruct (Z.ltb_spec 1 (R - c)) as [Hgo|Hstop].
    + destruct (IH c R ltac:(lia) HR Hb ltac:(lia)) as [E|(L' & Hin)].
      * exists L. left. rewrite E. reflexivity.
      * exists L'. right. exact Hin.
    + exists L. left. f_equal. lia.
  - rewrite (u64_small (c - L)) by lia.
    destruct (Z.ltb_spec 1 (c - L)) as [Hgo|Hstop].
    + apply IH; lia.
    + left. lia.
Qed.

Lemma probed_entries_last (f : file) (k : Z) :
  file_layout_ok f -> index_prefix f k -> k <> 0 ->
  exists L, In (k - 1, L) (probed_entries f k).
Proof.
  intros [Hsz _ _ Hal Hib _] (Hk & _ & _) Hk0. unfold probed_entries.
  destruct (Z.eqb_spec k 0) as [|_]; [contradiction|].
  pose proof (header_fields_range f) as (Hr1 & Hr2 & Hr3 & Hr4).
  unfold sizeof_header, OFF_MAX, sizeof_index_entry in *.
  destruct (bisect_probes_last k
              (S (Z.to_nat (index_allocated_entries (file_header f)))) 0
              (index_allocated_entries (file_header f)))
    as [E|(L & Hin)]; try lia.
  - exists 0. left. f_equal. lia.
  - exists L. right. exact Hin.
Qed.

(** C4: on a well-formed file whose index is a dense prefix of [k] entries
    with a location followed by entries with location 0, [gsd_open]
    validates entry 0 and the entries that the bisection for the first
    location 0 probes, each with [gsd_is_entry_valid] and against the frame
    of the left end of the window.  When one of them fails, [gsd_open]
    returns [GSD_ERROR_FILE_CORRUPT]; when all of them pass (in particular
    when every entry of the prefix is valid and the frames do not
    decrease), it succeeds, sets [index_num_entries] to [k] and [cur_frame]
    to the frame of the last entry of the prefix plus 1 (0 for an empty
    prefix). *)
Theorem open_counts_index_prefix (f : file) (flags : gsd_open_flag) (k : Z) :
  file_layout_ok f -> index_prefix f k ->
  (fst (gsd_open (Some f) flags) = GSD_ERROR_FILE_CORRUPT
   \/ (fst (gsd_open (Some f) flags) = GSD_SUCCESS
       /\ index_num_entries (snd (gsd_open (Some f) flags)) = k
       /\ cur_frame (snd (gsd_open (Some f) flags))
          = if k =? 0 then 0 else u64 (frame (file_entry f (k - 1)) + 1)))
  /\ ((forall i, 0 <= i < k -> file_entry_valid f i = true) ->
      (forall i j, 0 <= i <= j -> j < k ->
                   frame (file_entry f i) <= frame (file_entry f j)) ->
      fst (gsd_open (Some f) flags) = GSD_SUCCESS
      /\ index_num_entries (snd (gsd_open (Some f) flags)) = k
      /\ cur_frame (snd (gsd_open (Some f) flags))
         = if k =? 0 then 0 else frame (file_entry f (k - 1)) + 1)
  /\ (forallb (probe_ok f) (probed_entries f k) = true ->
      fst (gsd_open (Some f) flags) = GSD_SUCCESS
      /\ index_num_entries (snd (gsd_open (Some f) flags)) = k
      /\ cur_frame (snd (gsd_open (Some f) flags))
         = if k =? 0 then 0 else frame (file_entry f (k - 1)) + 1)
  /\ (forall m L, In (m, L) (probed_entries f k) ->
        file_entry_valid f m = false
        \/ frame (file_entry f m) < frame (file_entry f L) ->
        fst (gsd_open (Some f) flags) = GSD_ERROR_FILE_CORRUPT)
  /\ (forall m L, In (m, L) (probed_entries f k) -> 0 <= L <= m /\ m < k).
Proof.
  intros Hl Hp. unfold gsd_open.
  destruct (read_header_spec (set_open_flags flags (set_fd (Some f) zero_handle))
              f k eq_refl Hl Hp) as [H1 H2].
  pose proof (read_header_probes
                (set_open_flags flags (set_fd (Some f) zero_handle))
                f k eq_refl Hl Hp) as Hpr.
  split; [|split; [|split; [|split]]].
  - destruct H1 as [H1|(H1 & Ho & _)]; [left; exact H1|].
    right. split; [exact H1|]. destruct Ho. auto.
  - intros Hv Hm. specialize (H2 Hv Hm).
    destruct H1 as [H1|(_ & Ho & _)]; [rewrite H1 in H2; discriminate H2|].
    split; [exact H2|]. destruct Ho as [_ _ _ On _ Oc _ _ _ _ _].
    split; [exact On|]. rewrite Oc.
    destruct (Z.eqb_spec k 0) as [|Hk0]; [reflexivity|].
    destruct Hp as (Hk & _ & _).
    specialize (Hv (k - 1) ltac:(lia)).
    unfold file_entry_valid in Hv.
    apply andb_true_iff in Hv. destruct Hv as [Hv _].
    apply andb_true_iff in Hv. destruct Hv as [Hv _].
    apply andb_true_iff in Hv. destruct Hv as [_ Hv].
    apply Z.ltb_lt in Hv.
    pose proof (header_fields_range f) as (_ & _ & Hr & _).
    pose proof (entry_fields_range (file_byte f)
                  (index_location (file_header f)
                   + sizeof_index_entry * (k - 1))) as (Hfr & _).
    fold (file_entry f (k - 1)) in Hfr.
    apply u64_small. lia.
  - intros Hall. pose proof (proj2 Hpr Hall) as Hs.
    destruct H1 as [H1|(_ & Ho & _)]; [rewrite H1 in Hs; discriminate Hs|].
    split; [exact Hs|]. destruct Ho as [_ _ _ On _ Oc _ _ _ _ _].
    split; [exact On|]. rewrite Oc.
    destruct (Z.eqb_spec k 0) as [|Hk0]; [reflexivity|].
    destruct (probed_entries_last f k Hl Hp Hk0) as (L & Hin).
    rewrite forallb_forall in Hall. specialize (Hall _ Hin).
    unfold probe_ok in Hall. cbn [fst snd] in Hall.
    apply andb_true_iff in Hall. destruct Hall as [Hv _].
    unfold file_entry_valid in Hv.
    apply andb_true_iff in Hv. destruct Hv as [Hv _].
    apply andb_true_iff in Hv. destruct Hv as [Hv _].
    apply andb_true_iff in Hv. destruct Hv as [_ Hv].
    apply Z.ltb_lt in Hv.
    pose proof (header_fields_range f) as (_ & _ & Hr & _).
    pose proof (entry_fields_range (file_byte f)
                  (index_location (file_header f)
                   + sizeof_index_entry * (k - 1))) as (Hfr & _).
    fold (file_entry f (k - 1)) in Hfr.
    apply u64_small. lia.
  - intros m L Hin Hbad.
    destruct H1 as [H1|(H1 & _)]; [exact H1|].
    exfalso. apply Hpr in H1. rewrite forallb_forall in H1.
    specialize (H1 (m, L) Hin). unfold probe_ok in H1. cbn [fst snd] in H1.
    apply andb_true_iff in H1. destruct H1 as [Hv Hfr].
    apply Z.leb_le in Hfr.
    destruct Hbad as [Hbad|Hbad]; [rewrite Hbad in Hv; discriminate Hv|lia].
  - intros m L Hin. exact (probed_entries_range f k m L Hl Hp Hin).
Qed.

Lemma file_with_ab_layout : file_layout_ok (file_of handle_with_ab).
Proof.
  constructor.
  - vm_compute. split; discriminate.
  - vm_compute. reflexivity.
  - right. vm_compute. split; [discriminate|reflexivity].
  - vm_compute. discriminate.
  - vm_compute. discriminate.
  - vm_compute. discriminate.
Defined.

Lemma file_with_ab_prefix : index_prefix (file_of handle_with_ab) 1.
Proof.
  split; [vm_compute; split; discriminate|]. split.
  - intros i Hi. assert (E : i = 0) by lia. subst i. vm_compute. discriminate.
  - intros i Hi.
    apply Z.eqb_eq.
    apply (range_forallb_spec
             (fun i => location (file_entry (file_of handle_with_ab) i) =? 0)
             127 1).
    + vm_compute. reflexivity.
    + change (index_allocated_entries (file_header (file_of handle_with_ab)))
        with 128 in Hi. lia.
Defined.

Lemma file_with_frame_disorder_layout : file_layout_ok file_with_frame_disorder.
Proof.
  constructor.
  - vm_compute. split; discriminate.
  - vm_compute. reflexivity.
  - right. vm_compute. split; [discriminate|reflexivity].
  - vm_compute. discriminate.
  - vm_compute. discriminate.
  - vm_compute. discriminate.
Defined.

Lemma file_with_frame_disorder_prefix : index_prefix file_with_frame_disorder 2.
Proof.
  split; [vm_compute; split; discriminate|]. split.
  - intros i Hi. assert (E : i = 0 \/ i = 1) by lia.
    destruct E as [-> | ->]; vm_compute; discriminate.
  - intros i Hi.
    apply Z.eqb_eq.
    apply (range_forallb_spec
             (fun i => location (file_entry file_with_frame_disorder i) =? 0)
             126 2).
    + vm_compute. reflexivity.
    + change (index_allocated_entries (file_header file_with_frame_disorder))
        with 128 in Hi. lia.
Defined.

Lemma open_counts_index_prefix_witness :
  (fst (gsd_open (Some (file_of handle_with_ab)) GSD_OPEN_READONLY)
   = GSD_SUCCESS
   /\ index_num_entries
        (snd (gsd_open (Some (file_of handle_with_ab)) GSD_OPEN_READONLY)) = 1
   /\ cur_frame
        (snd (gsd_open (Some (file_of handle_with_ab)) GSD_OPEN_READONLY))
      = (if 1 =? 0 then 0
         else frame (file_entry (file_of handle_with_ab) (1 - 1)) + 1))
  /\ fst (gsd_open (Some file_with_frame_disorder) GSD_OPEN_READONLY)
     = GSD_ERROR_FILE_CORRUPT.
Proof.
  split.
  - refine (proj1 (proj2 (open_counts_index_prefix (file_of handle_with_ab)
                            GSD_OPEN_READONLY 1 file_with_ab_layout
                            file_with_ab_prefix)) _ _).
    + intros i Hi. assert (E : i = 0) by lia. subst i. vm_compute. reflexivity.
    + intros i j Hij Hj. assert (E : i = 0) by lia. assert (E' : j = 0) by lia.
      subst i j. apply Z.le_refl.
  - refine (proj1 (proj2 (proj2 (proj2
              (open_counts_index_prefix file_with_frame_disorder
                 GSD_OPEN_READONLY 2 file_with_frame_disorder_layout
                 file_with_frame_disorder_prefix)))) 1 0 _ _).
    + vm_compute. right. left. reflexivity.
    + right. vm_compute. reflexivity.
Defined.

(** ** Writing to the file *)

Lemma write_bytes_size (f : file) (buf : buffer) (count off : Z) :
  fsize (write_bytes f buf count off) = Z.max (fsize f) (off + count).
Proof. reflexivity. Qed.

Lemma write_bytes_byte (f : file) (buf : buffer) (count off o : Z) :
  0 <= off ->
  file_byte (write_bytes f buf count off) o
  = if (off <=? o) && (o <? off + count) then buf (o - off) else file_byte f o.
Proof.
  intros Hoff. unfold file_byte at 1. cbn [fsize fdata write_bytes].
  destruct ((off <=? o) && (o <? off + count)) eqn:Ein.
  - apply andb_true_iff in Ein. destruct Ein as [E1 E2].
    apply Z.leb_le in E1. apply Z.ltb_lt in E2.
    replace ((0 <=? o) && (o <? Z.max (fsize f) (off + count))) with true;
      [reflexivity|].
    symmetry. apply andb_true_iff. split; [apply Z.leb_le|apply Z.ltb_lt]; lia.
  - destruct ((0 <=? o) && (o <? Z.max (fsize f) (off + count))) eqn:E;
      [reflexivity|].
    unfold file_byte.
    destruct ((0 <=? o) && (o <? fsize f)) eqn:E'; [|reflexivity].
    exfalso. apply andb_true_iff in E'. destruct E' as [E1 E2].
    apply Z.leb_le in E1. apply Z.ltb_lt in E2.
    apply andb_false_iff in E. destruct E as [E|E];
      [apply Z.leb_gt in E|apply Z.ltb_ge in E]; lia.
Qed.

Lemma write_bytes_inside (f : file) (buf : buffer) (count off o : Z) :
  0 <= off -> off <= o < off + count ->
  file_byte (write_bytes f buf count off) o = buf (o - off).
Proof.
  intros Hoff Ho. rewrite write_bytes_byte by exact Hoff.
  replace ((off <=? o) && (o <? off + count)) with true; [reflexivity|].
  symmetry. apply andb_true_iff. split; [apply Z.leb_le|apply Z.ltb_lt]; lia.
Qed.

Lemma write_bytes_outside (f : file) (buf : buffer) (count off o : Z) :
  0 <= off -> o < off \/ off + count <= o ->
  file_byte (write_bytes f buf count off) o = file_byte f o.
Proof.
  intros Hoff Ho. rewrite write_bytes_byte by exact Hoff.
  replace ((off <=? o) && (o <? off + count)) with false; [reflexivity|].
  symmetry. apply andb_false_iff.
  destruct Ho; [left; apply Z.leb_gt|right; apply Z.ltb_ge]; lia.
Qed.

(** A [gsd_pwrite_retry] that fits below [OFF_MAX] writes everything. *)
Lemma pwrite_ok (f : file) (buf : buffer) (count off : Z) :
  0 < count -> 0 <= off -> off + count <= OFF_MAX ->
  gsd_pwrite_retry (Some f) buf count off
  = (count, Some (write_bytes f buf count off)).
Proof.
  intros Hc Ho Hmax. unfold gsd_pwrite_retry, pwrite, OFF_MAX in *.
  destruct (Z.leb_spec count 0); [lia|].
  rewrite to_int64_small by lia.
  destruct (Z.ltb_spec off 0); [lia|].
  destruct (Z.ltb_spec (2 ^ 63 - 1) (off + count)); [lia|].
  reflexivity.
Qed.

(** A [gsd_pwrite_retry] that reports the whole count has written it. *)
Lemma pwrite_success (d d' : option file) (buf : buffer) (count off : Z) :
  0 < count -> 0 <= off < 2 ^ 64 ->
  gsd_pwrite_retry d buf count off = (count, d') ->
  exists f, d = Some f /\ off + count <= OFF_MAX
            /\ d' = Some (write_bytes f buf count off).
Proof.
  intros Hc Ho. unfold gsd_pwrite_retry, pwrite.
  destruct (Z.leb_spec count 0); [lia|].
  destruct d as [f|]; [|intros [= E]; lia].
  unfold to_int64. rewrite (u64_small off) by lia.
  destruct (Z.ltb_spec off (2 ^ 63)) as [Hlo|Hhi].
  - destruct (Z.ltb_spec off 0); [lia|]. cbn [orb].
    destruct (Z.ltb_spec OFF_MAX (off + count)); [intros [= E]; lia|].
    intros [= <-]. exists f. repeat split; lia.
  - destruct (Z.ltb_spec (off - 2 ^ 64) 0); [|lia]. cbn [orb].
    intros [= E]. lia.
Qed.

(** ** The header codec *)

Lemma load_buf_of_list_sub (l : list byte) (a n : nat) :
  (a + n <= length l)%nat ->
  load (buf_of_list l) (Z.of_nat a) n = firstn n (skipn a l).
Proof.
  intros Hlen. apply (nth_ext _ _ x00 x00).
  - rewrite load_length, length_firstn, length_skipn. lia.
  - intros k Hk. rewrite load_length in Hk. rewrite nth_load by exact Hk.
    rewrite nth_firstn.
    destruct (Nat.ltb_spec k n) as [_|?]; [|lia].
    rewrite nth_skipn. unfold buf_of_list.
    destruct (Z.ltb_spec (Z.of_nat a + Z.of_nat k) 0); [lia|].
    f_equal. lia.
Qed.

Lemma firstn_app_exact {A : Type} (l1 l2 : list A) (n : nat) :
  length l1 = n -> firstn n (l1 ++ l2) = l1.
Proof.
  intros <-. rewrite firstn_app, Nat.sub_diag, firstn_all. cbn [firstn].
  apply app_nil_r.
Qed.

Lemma skipn_app_exact {A : Type} (l1 l2 : list A) (n : nat) :
  length l1 = n -> skipn n (l1 ++ l2) = l2.
Proof.
  intros <-. rewrite skipn_app, Nat.sub_diag, skipn_all. reflexivity.
Qed.

Lemma fit_exact (n : nat) (l : list byte) : length l = n -> fit n l = l.
Proof.
  intros <-. unfold fit. rewrite firstn_all, Nat.sub_diag. apply app_nil_r.
Qed.

Lemma fit_length (n : nat) (l : list byte) : length (fit n l) = n.
Proof. unfold fit. rewrite length_app, length_firstn, repeat_length. lia. Qed.

Lemma encode_header_length (hd : gsd_header) :
  length (encode_header hd) = 256%nat.
Proof.
  unfold encode_header. rewrite !length_app, !le_bytes_length, !fit_length.
  reflexivity.
Qed.

Lemma decode_header_wf (mem : buffer) : header_wf (decode_header mem).
Proof.
  constructor; unfold decode_header;
    cbn [magic index_location namelist_location index_allocated_entries
         namelist_allocated_entries schema_version gsd_version application
         schema reserved];
    first [apply (load_le_range _ _ 8) | apply (load_le_range _ _ 4)
          | apply load_length].
Qed.

Lemma decode_header_ext (m1 m2 : buffer) :
  (forall k, 0 <= k < 256 -> m1 k = m2 k) ->
  decode_header m1 = decode_header m2.
Proof.
  intros H. unfold decode_header.
  f_equal; first [apply load_le_ext | apply load_ext]; intros k Hk; apply H; lia.
Qed.

Lemma load_segment (l pre seg post : list byte) (off : Z) (n : nat) :
  l = pre ++ seg ++ post -> off = Z.of_nat (length pre) -> n = length seg ->
  load (buf_of_list l) off n = seg.
Proof.
  intros -> -> ->. rewrite load_buf_of_list_sub.
  - rewrite skipn_app_exact by reflexivity. apply firstn_app_exact. reflexivity.
  - rewrite !length_app. lia.
Qed.

Lemma decode_encode_header (hd : gsd_header) :
  header_wf hd -> decode_header (buf_of_list (encode_header hd)) = hd.
Proof.
  intros [W1 W2 W3 W4 W5 W6 W7 W8 W9 W10].
  destruct hd as [mg il nl ia na sv gv ap sc rs].
  cbn [magic index_location namelist_location index_allocated_entries
       namelist_allocated_entries schema_version gsd_version application
       schema reserved] in *.
  unfold decode_header, load_le, encode_header.
  cbn [magic index_location namelist_location index_allocated_entries
       namelist_allocated_entries schema_version gsd_version application
       schema reserved].
  rewrite (fit_exact 64 ap W8), (fit_exact 64 sc W9), (fit_exact 80 rs W10).
  set (a1 := le_bytes 8 mg). set (a2 := le_bytes 8 il). set (a3 := le_bytes 8 nl).
  set (a4 := le_bytes 8 ia). set (a5 := le_bytes 8 na). set (a6 := le_bytes 4 sv).
  set (a7 := le_bytes 4 gv).
  set (l := a1 ++ a2 ++ a3 ++ a4 ++ a5 ++ a6 ++ a7 ++ ap ++ sc ++ rs).
  assert (L1 : length a1 = 8%nat) by apply le_bytes_length.
  assert (L2 : length a2 = 8%nat) by apply le_bytes_length.
  assert (L3 : length a3 = 8%nat) by apply le_bytes_length.
  assert (L4 : length a4 = 8%nat) by apply le_bytes_length.
  assert (L5 : length a5 = 8%nat) by apply le_bytes_length.
  assert (L6 : length a6 = 4%nat) by apply le_bytes_length.
  assert (L7 : length a7 = 4%nat) by apply le_bytes_length.
  assert (E1 : load (buf_of_list l) 0 8 = a1).
  { apply (load_segment l [] a1 (a2 ++ a3 ++ a4 ++ a5 ++ a6 ++ a7 ++ ap ++ sc ++ rs));
      [reflexivity|reflexivity|symmetry; exact L1]. }
  assert (E2 : load (buf_of_list l) 8 8 = a2).
  { apply (load_segment l a1 a2 (a3 ++ a4 ++ a5 ++ a6 ++ a7 ++ ap ++ sc ++ rs));
      [reflexivity|rewrite L1; reflexivity|symmetry; exact L2]. }
  assert (E3 : load (buf_of_list l) 16 8 = a3).
  { apply (load_segment l (a1 ++ a2) a3 (a4 ++ a5 ++ a6 ++ a7 ++ ap ++ sc ++ rs));
      [unfold l; rewrite <- !app_assoc; reflexivity
      |rewrite !length_app, L1, L2; reflexivity|symmetry; exact L3]. }
  assert (E4 : load (buf_of_list l) 24 8 = a4).
  { apply (load_segment l (a1 ++ a2 ++ a3) a4 (a5 ++ a6 ++ a7 ++ ap ++ sc ++ rs));
      [unfold l; rewrite <- !app_assoc; reflexivity
      |rewrite !length_app, L1, L2, L3; reflexivity|symmetry; exact L4]. }
  assert (E5 : load (buf_of_list l) 32 8 = a5).
  { apply (load_segment l (a1 ++ a2 ++ a3 ++ a4) a5 (a6 ++ a7 ++ ap ++ sc ++ rs));
      [unfold l; rewrite <- !app_assoc; reflexivity
      |rewrite !length_app, L1, L2, L3, L4; reflexivity|symmetry; exact L5]. }
  assert (E6 : load (buf_of_list l) 40 4 = a6).
  { apply (load_segment l (a1 ++ a2 ++ a3 ++ a4 ++ a5) a6 (a7 ++ ap ++ sc ++ rs));
      [unfold l; rewrite <- !app_assoc; reflexivity
      |rewrite !length_app, L1, L2, L3, L4, L5; reflexivity|symmetry; exact L6]. }
  assert (E7 : load (buf_of_list l) 44 4 = a7).
  { apply (load_segment l (a1 ++ a2 ++ a3 ++ a4 ++ a5 ++ a6) a7 (ap ++ sc ++ rs));
      [unfold l; rewrite <- !app_assoc; reflexivity
      |rewrite !length_app, L1, L2, L3, L4, L5, L6; reflexivity
      |symmetry; exact L7]. }
  assert (E8 : load (buf_of_list l) 48 64 = ap).
  { apply (load_segment l (a1 ++ a2 ++ a3 ++ a4 ++ a5 ++ a6 ++ a7) ap (sc ++ rs));
      [unfold l; rewrite <- !app_assoc; reflexivity
      |rewrite !length_app, L1, L2, L3, L4, L5, L6, L7; reflexivity
      |symmetry; exact W8]. }
  assert (E9 : load (buf_of_list l) 112 64 = sc).
  { apply (load_segment l (a1 ++ a2 ++ a3 ++ a4 ++ a5 ++ a6 ++ a7 ++ ap) sc rs);
      [unfold l; rewrite <- !app_assoc; reflexivity
      |rewrite !length_app, L1, L2, L3, L4, L5, L6, L7, W8; reflexivity
      |symmetry; exact W9]. }
  assert (E10 : load (buf_of_list l) 176 80 = rs).
  { apply (load_segment l (a1 ++ a2 ++ a3 ++ a4 ++ a5 ++ a6 ++ a7 ++ ap ++ sc)
             rs []);
      [unfold l; rewrite <- !app_assoc, app_nil_r; reflexivity
      |rewrite !length_app, L1, L2, L3, L4, L5, L6, L7, W8, W9; reflexivity
      |symmetry; exact W10]. }
  rewrite E1, E2, E3, E4, E5, E6, E7, E8, E9, E10.
  unfold a1, a2, a3, a4, a5, a6, a7. rewrite !le_value_bytes.
  rewrite !Z.mod_small by assumption. reflexivity.
Qed.

(** ** The copy loops of [gsd_expand_index] *)

Lemma loop_rounds_enough (bytes : Z) :
  0 <= bytes -> bytes < Z.of_nat (loop_rounds bytes) * GSD_COPY_BUFFER_SIZE.
Proof.
  intros Hb. unfold loop_rounds, GSD_COPY_BUFFER_SIZE.
  change (1024 * 16) with 16384.
  rewrite Nat2Z.inj_succ, Z2Nat.id by (apply Z.div_pos; lia).
  pose proof (Z.mul_succ_div_gt bytes 16384 ltac:(lia)). lia.
Qed.

(** The first loop copies the [B] bytes of the old index block to the end
    of the file [f0], when the new block fits below [OFF_MAX]. *)
Lemma expand_copy_loop_ok (f0 : file) (oloc B : Z) :
  0 <= oloc -> oloc + B <= fsize f0 -> fsize f0 + B <= OFF_MAX ->
  forall (fuel : nat) (f : file) (total : Z),
    0 <= total <= B ->
    B - total <= Z.of_nat fuel * GSD_COPY_BUFFER_SIZE ->
    (total < B -> (0 < fuel)%nat) ->
    fsize f = fsize f0 + total ->
    (forall o, o < fsize f0 -> file_byte f o = file_byte f0 o) ->
    (forall o, fsize f0 <= o < fsize f0 + total ->
               file_byte f o = file_byte f0 (oloc + (o - fsize f0))) ->
    exists f',
      expand_copy_loop fuel (Some f) oloc (fsize f0) total B
      = (true, Some f', B)
      /\ fsize f' = fsize f0 + B
      /\ (forall o, o < fsize f0 -> file_byte f' o = file_byte f0 o)
      /\ (forall o, fsize f0 <= o < fsize f0 + B ->
                    file_byte f' o = file_byte f0 (oloc + (o - fsize f0))).
Proof.
  intros Hol Hsrc Hmax. unfold OFF_MAX, GSD_COPY_BUFFER_SIZE in *.
  change (1024 * 16) with 16384 in *.
  induction fuel as [|fuel IH]; intros f total Ht Hf Hpos Hsz Hlow Hnew.
  - assert (total = B) by lia. subst total.
    exists f. cbn [expand_copy_loop]. rewrite Z.ltb_irrefl. auto.
  - cbn [expand_copy_loop].
    destruct (Z.ltb_spec total B) as [Hlt|Hge].
    2:{ assert (total = B) by lia. subst total. exists f. auto. }
    unfold GSD_COPY_BUFFER_SIZE. change (1024 * 16) with 16384.
    set (btc := if B - total <? 16384 then B - total else 16384).
    assert (Hbtc : 0 < btc <= 16384 /\ btc <= B - total
                   /\ (btc = B - total \/ btc = 16384)).
    { unfold btc. destruct (Z.ltb_spec (B - total) 16384); lia. }
    clearbody btc.
    rewrite (u64_small (oloc + total)) by lia.
    rewrite pread_inside by (unfold OFF_MAX; lia).
    rewrite Z.eqb_refl. cbn [negb orb].
    destruct (Z.eqb_spec btc (-1)); [lia|].
    rewrite (u64_small (fsize f0 + total)) by lia.
    rewrite pwrite_ok by (unfold OFF_MAX; lia).
    rewrite Z.eqb_refl. cbn [negb orb].
    destruct (Z.eqb_spec btc (-1)); [lia|].
    rewrite (u64_small (total + btc)) by lia.
    apply IH.
    + lia.
    + lia.
    + intros Hmore. destruct fuel; [lia|lia].
    + rewrite write_bytes_size. lia.
    + intros o Ho. rewrite write_bytes_outside by lia. apply Hlow. exact Ho.
    + intros o Ho.
      destruct (Z.lt_ge_cases o (fsize f0 + total)) as [Hold|Hnw].
      * rewrite write_bytes_outside by lia. apply Hnew. lia.
      * rewrite write_bytes_inside by lia. unfold shift.
        replace (oloc + total + (o - (fsize f0 + total)))
          with (oloc + (o - fsize f0)) by lia.
        apply Hlow. lia.
Qed.

(** The first loop fails when the copy does not fit below [OFF_MAX]. *)
Lemma expand_copy_loop_full (oloc nloc B : Z) :
  0 <= nloc <= OFF_MAX -> B < 2 ^ 64 -> OFF_MAX < nloc + B ->
  forall (fuel : nat) (d : option file) (total : Z),
    0 <= total < B -> nloc + total < 2 ^ 64 ->
    fst (fst (expand_copy_loop fuel d oloc nloc total B)) = false.
Proof.
  intros Hn HB Hfull. unfold OFF_MAX in *.
  induction fuel as [|fuel IH]; intros d total Ht Hw; cbn [expand_copy_loop].
  - destruct (Z.ltb_spec total B); [reflexivity|lia].
  - destruct (Z.ltb_spec total B); [|lia].
    unfold GSD_COPY_BUFFER_SIZE. change (1024 * 16) with 16384.
    set (btc := if B - total <? 16384 then B - total else 16384).
    assert (Hbtc : 0 < btc <= B - total).
    { unfold btc. destruct (Z.ltb_spec (B - total) 16384); lia. }
    clearbody btc.
    destruct (gsd_pread_retry d btc _) as [br buf].
    destruct ((br =? -1) || negb (br =? btc)); [reflexivity|].
    destruct (gsd_pwrite_retry d buf btc (u64 (nloc + total))) as [bw d'] eqn:Ew.
    destruct (Z.eqb_spec bw (-1)); [reflexivity|]. cbn [orb].
    destruct (Z.eqb_spec bw btc) as [->|]; [|reflexivity]. cbn [negb].
    rewrite (u64_small (nloc + total)) in Ew by lia.
    apply pwrite_success in Ew; [|lia|lia].
    destruct Ew as (f & _ & Hfit & _). unfold OFF_MAX in Hfit.
    rewrite (u64_small (total + btc)) by lia.
    apply IH; lia.
Qed.

(** The second loop fills the bytes from [total0] to [B] behind [nloc]
    with zeros, when they fit below [OFF_MAX]. *)
Lemma expand_zero_loop_ok (f0 : file) (nloc total0 B : Z) :
  0 <= nloc -> 0 <= total0 -> fsize f0 = nloc + total0 -> nloc + B <= OFF_MAX ->
  forall (fuel : nat) (f : file) (total : Z),
    total0 <= total <= B ->
    B - total <= Z.of_nat fuel * GSD_COPY_BUFFER_SIZE ->
    (total < B -> (0 < fuel)%nat) ->
    fsize f = nloc + total ->
    (forall o, o < nloc + total0 -> file_byte f o = file_byte f0 o) ->
    (forall o, nloc + total0 <= o < nloc + total -> file_byte f o = x00) ->
    exists f',
      expand_zero_loop fuel (Some f) nloc total B = (true, Some f', B)
      /\ fsize f' = nloc + B
      /\ (forall o, o < nloc + total0 -> file_byte f' o = file_byte f0 o)
      /\ (forall o, nloc + total0 <= o < nloc + B -> file_byte f' o = x00).
Proof.
  intros Hn Ht0 Hs0 Hmax. unfold OFF_MAX, GSD_COPY_BUFFER_SIZE in *.
  change (1024 * 16) with 16384 in *.
  induction fuel as [|fuel IH]; intros f total Ht Hf Hpos Hsz Hlow Hnew.
  - assert (total = B) by lia. subst total.
    exists f. cbn [expand_zero_loop]. rewrite Z.ltb_irrefl. auto.
  - cbn [expand_zero_loop].
    destruct (Z.ltb_spec total B) as [Hlt|Hge].
    2:{ assert (total = B) by lia. subst total. exists f. auto. }
    unfold GSD_COPY_BUFFER_SIZE. change (1024 * 16) with 16384.
    set (btc := if B - total <? 16384 then B - total else 16384).
    assert (Hbtc : 0 < btc <= 16384 /\ btc <= B - total
                   /\ (btc = B - total \/ btc = 16384)).
    { unfold btc. destruct (Z.ltb_spec (B - total) 16384); lia. }
    clearbody btc.
    rewrite (u64_small (nloc + total)) by lia.
    rewrite pwrite_ok by (unfold OFF_MAX; lia).
    rewrite Z.eqb_refl. cbn [negb orb].
    destruct (Z.eqb_spec btc (-1)); [lia|].
    rewrite (u64_small (total + btc)) by lia.
    apply IH.
    + lia.
    + lia.
    + intros Hmore. destruct fuel; [lia|lia].
    + rewrite write_bytes_size. lia.
    + intros o Ho. rewrite write_bytes_outside by lia. apply Hlow. exact Ho.
    + intros o Ho.
      destruct (Z.lt_ge_cases o (nloc + total)) as [Hold|Hnw].
      * rewrite write_bytes_outside by lia. apply Hnew. lia.
      * rewrite write_bytes_inside by lia. reflexivity.
Qed.

Lemma expand_zero_loop_full (nloc B : Z) :
  0 <= nloc <= OFF_MAX -> B < 2 ^ 64 -> OFF_MAX < nloc + B ->
  forall (fuel : nat) (d : option file) (total : Z),
    0 <= total < B -> nloc + total < 2 ^ 64 ->
    fst (fst (expand_zero_loop fuel d nloc total B)) = false.
Proof.
  intros Hn HB Hfull. unfold OFF_MAX in *.
  induction fuel as [|fuel IH]; intros d total Ht Hw; cbn [expand_zero_loop].
  - destruct (Z.ltb_spec total B); [reflexivity|lia].
  - destruct (Z.ltb_spec total B); [|lia].
    unfold GSD_COPY_BUFFER_SIZE. change (1024 * 16) with 16384.
    set (btc := if B - total <? 16384 then B - total else 16384).
    assert (Hbtc : 0 < btc <= B - total).
    { unfold btc. destruct (Z.ltb_spec (B - total) 16384); lia. }
    clearbody btc.
    destruct (gsd_pwrite_retry d zero_buffer btc (u64 (nloc + total)))
      as [bw d'] eqn:Ew.
    destruct (Z.eqb_spec bw (-1)); [reflexivity|]. cbn [orb].
    destruct (Z.eqb_spec bw btc) as [->|]; [|reflexivity]. cbn [negb].
    rewrite (u64_small (nloc + total)) in Ew by lia.
    apply pwrite_success in Ew; [|lia|lia].
    destruct Ew as (f & _ & Hfit & _). unfold OFF_MAX in Hfit.
    rewrite (u64_small (total + btc)) by lia.
    apply IH; lia.
Qed.

(** ** [gsd_expand_index] *)

Lemma header_write (f : file) (hd : gsd_header) :
  header_wf hd ->
  file_header (write_bytes f (buf_of_list (encode_header hd)) sizeof_header 0)
  = hd.
Proof.
  intros Hwf. unfold file_header.
  rewrite (decode_header_ext _ (buf_of_list (encode_header hd))).
  - apply decode_encode_header. exact Hwf.
  - intros k Hk. unfold sizeof_header.
    rewrite write_bytes_inside by lia. f_equal. lia.
Qed.

Lemma set_hdr_wf (hd : gsd_header) (loc alloc : Z) :
  header_wf hd -> 0 <= loc < 2 ^ 64 -> 0 <= alloc < 2 ^ 64 ->
  header_wf (set_hdr_index_location loc
               (set_hdr_index_allocated_entries alloc hd)).
Proof.
  intros [W1 W2 W3 W4 W5 W6 W7 W8 W9 W10] Hl Ha.
  constructor; cbn; assumption.
Qed.

(** The last steps of [gsd_expand_index]: the syncs and the header. *)
Lemma expand_index_finish (h h1 : gsd_handle) (f1 : file) :
  expand_index_block
    (set_header
       (set_hdr_index_allocated_entries
          (u64 (index_allocated_entries (header h) * 2)) (header h)) h)
    (index_allocated_entries (header h))
    (u64 (index_allocated_entries (header h) * 2))
  = (GSD_SUCCESS, h1) ->
  fd h1 = Some f1 ->
  gsd_expand_index h
  = (GSD_SUCCESS,
     set_fd
       (Some (write_bytes f1 (buf_of_list (encode_header (header h1)))
                sizeof_header 0)) h1).
Proof.
  intros Hb Hfd. unfold gsd_expand_index. rewrite Hb, Hfd.
  cbn [fsync Z.eqb negb].
  rewrite pwrite_ok by (unfold sizeof_header, OFF_MAX; lia).
  rewrite Z.eqb_refl. cbn [negb]. hsimpl. cbn [fsync Z.eqb negb].
  reflexivity.
Qed.

Lemma expand_index_ok (h : gsd_handle) (f : file) :
  expandable h f ->
  fsize f + 2 * (sizeof_index_entry * index_allocated_entries (header h))
  <= OFF_MAX ->
  exists h' f', gsd_expand_index h = (GSD_SUCCESS, h') /\ expanded h f h' f'.
Proof.
  intros [Hfd Hmode Hwf Hal Hblk Hsz] Hfit.
  pose proof Hwf as [W1 W2 W3 W4 W5 W6 W7 W8 W9 W10].
  unfold sizeof_index_entry, sizeof_header, OFF_MAX in *.
  set (A := index_allocated_entries (header h)) in *.
  assert (HA2 : u64 (A * 2) = 2 * A) by (rewrite u64_small; lia).
  destruct (open_flags h) eqn:Hm; [| contradiction |].
  - (* read/write *)
    set (idx' := gsd_zero_memory (index h) (64 * A) (64 * A)).
    set (f1 := write_bytes f idx' (2 * (64 * A)) (fsize f)).
    set (hd' := set_hdr_index_location (fsize f)
                  (set_hdr_index_allocated_entries (2 * A) (header h))).
    assert (Hb : expand_index_block
                   (set_header
                      (set_hdr_index_allocated_entries (u64 (A * 2)) (header h)) h)
                   A (u64 (A * 2))
                 = (GSD_SUCCESS,
                    set_file_size (fsize f + 2 * (64 * A))
                      (set_fd (Some f1)
                         (set_header hd' (set_index idx' h))))).
    { unfold expand_index_block. hsimpl. rewrite Hm, Hfd. cbn [lseek_end].
      unfold sizeof_index_entry. rewrite HA2.
      rewrite (u64_small (2 * A - A)) by lia.
      replace (2 * A - A) with A by lia.
      rewrite (u64_small (64 * A)) by lia.
      rewrite (u64_small (fsize f)) by lia.
      rewrite (u64_small (64 * (2 * A))) by lia.
      replace (64 * (2 * A)) with (2 * (64 * A)) by lia.
      rewrite pwrite_ok by (unfold OFF_MAX; lia).
      rewrite Z.eqb_refl. cbn [negb orb].
      destruct (Z.eqb_spec (2 * (64 * A)) (-1)); [lia|].
      rewrite u64_small by lia. reflexivity. }
    eexists _, _. split.
    + apply (expand_index_finish h _ f1 Hb). reflexivity.
    + hsimpl.
      assert (Hwf' : header_wf hd') by (apply set_hdr_wf; [exact Hwf|lia|lia]).
      constructor; hsimpl; unfold sizeof_index_entry, sizeof_header;
        fold A; try reflexivity.
      * apply header_write. exact Hwf'.
      * rewrite write_bytes_size. unfold f1. rewrite write_bytes_size. lia.
      * rewrite write_bytes_size. unfold f1. rewrite write_bytes_size. lia.
      * intros o Ho. rewrite write_bytes_outside by lia.
        unfold f1. rewrite write_bytes_outside by lia. reflexivity.
      * intros o Ho. rewrite write_bytes_outside by lia.
        unfold f1. rewrite write_bytes_inside by lia.
        unfold old_index_byte. rewrite Hm.
        replace (fsize f + o - fsize f) with o by lia.
        unfold idx', gsd_zero_memory.
        destruct (Z.leb_spec (64 * A) o); [lia|]. reflexivity.
      * intros o Ho. rewrite write_bytes_outside by lia.
        unfold f1. rewrite write_bytes_inside by lia.
        replace (fsize f + o - fsize f) with o by lia.
        unfold idx', gsd_zero_memory.
        destruct (Z.leb_spec (64 * A) o); [|lia].
        destruct (Z.ltb_spec o (64 * A + 64 * A)); [|lia]. reflexivity.
      * rewrite Hm. reflexivity.
  - (* append *)
    destruct (expand_copy_loop_ok f (index_location (header h)) (64 * A)
                ltac:(lia) ltac:(lia) ltac:(unfold OFF_MAX; lia)
                (loop_rounds (64 * A)) f 0)
      as (f1 & Hc & Hs1 & Hlow1 & Hnew1).
    { lia. }
    { pose proof (loop_rounds_enough (64 * A) ltac:(lia)). lia. }
    { intros _. unfold loop_rounds. lia. }
    { lia. }
    { intros o _. reflexivity. }
    { intros o Ho. lia. }
    destruct (expand_zero_loop_ok f1 (fsize f) (64 * A) (2 * (64 * A))
                ltac:(lia) ltac:(lia) Hs1 ltac:(unfold OFF_MAX; lia)
                (loop_rounds (2 * (64 * A))) f1 (64 * A))
      as (f2 & Hz & Hs2 & Hlow2 & Hnew2).
    { lia. }
    { pose proof (loop_rounds_enough (2 * (64 * A)) ltac:(lia)). lia. }
    { intros _. unfold loop_rounds. lia. }
    { exact Hs1. }
    { intros o _. reflexivity. }
    { intros o Ho. lia. }
    set (hd' := set_hdr_index_location (fsize f)
                  (set_hdr_index_allocated_entries (2 * A) (header h))).
    assert (Hb : expand_index_block
                   (set_header
                      (set_hdr_index_allocated_entries (u64 (A * 2)) (header h)) h)
                   A (u64 (A * 2))
                 = (GSD_SUCCESS,
                    set_file_size (fsize f + 2 * (64 * A))
                      (set_header hd' (set_fd (Some f2) h)))).
    { unfold expand_index_block. hsimpl. rewrite Hm, Hfd. cbn [lseek_end].
      unfold sizeof_index_entry. rewrite HA2.
      rewrite (u64_small (A * 64)) by lia.
      replace (A * 64) with (64 * A) by lia.
      rewrite Hc. cbn [negb].
      rewrite (u64_small (2 * A * 64)) by lia.
      replace (2 * A * 64) with (2 * (64 * A)) by lia.
      rewrite Hz. cbn [negb]. hsimpl.
      rewrite (u64_small (fsize f)) by lia.
      rewrite u64_small by lia. reflexivity. }
    eexists _, _. split.
    + apply (expand_index_finish h _ f2 Hb). reflexivity.
    + hsimpl.
      assert (Hwf' : header_wf hd') by (apply set_hdr_wf; [exact Hwf|lia|lia]).
      constructor; hsimpl; unfold sizeof_index_entry, sizeof_header;
        fold A; try reflexivity.
      * apply header_write. exact Hwf'.
      * rewrite write_bytes_size. lia.
      * rewrite write_bytes_size. lia.
      * intros o Ho. rewrite write_bytes_outside by lia.
        rewrite Hlow2 by lia. apply Hlow1. lia.
      * intros o Ho. rewrite write_bytes_outside by lia.
        rewrite Hlow2 by lia. rewrite Hnew1 by lia.
        unfold old_index_byte. rewrite Hm. f_equal. lia.
      * intros o Ho. rewrite write_bytes_outside by lia.
        apply Hnew2. lia.
      * rewrite Hm. reflexivity.
Qed.

Lemma pwrite_full (d : option file) (buf : buffer) (count off : Z) :
  0 < count -> 0 <= off < 2 ^ 63 -> OFF_MAX < off + count ->
  gsd_pwrite_retry d buf count off = (-1, d).
Proof.
  intros Hc Ho Hfull. unfold gsd_pwrite_retry, pwrite.
  destruct (Z.leb_spec count 0); [lia|].
  destruct d as [f|]; [|reflexivity].
  rewrite to_int64_small by lia.
  destruct (Z.ltb_spec off 0); [lia|].
  destruct (Z.ltb_spec OFF_MAX (off + count)); [|lia]. reflexivity.
Qed.

Lemma expand_index_full (h : gsd_handle) (f : file) :
  expandable h f ->
  OFF_MAX
  < fsize f + 2 * (sizeof_index_entry * index_allocated_entries (header h)) ->
  fst (gsd_expand_index h) = GSD_ERROR_IO.
Proof.
  intros [Hfd Hmode Hwf Hal Hblk Hsz] Hfull.
  pose proof Hwf as [W1 W2 W3 W4 W5 W6 W7 W8 W9 W10].
  unfold sizeof_index_entry, sizeof_header in *.
  set (A := index_allocated_entries (header h)) in *.
  assert (HA : 64 * A < 2 ^ 63) by (unfold OFF_MAX in *; lia).
  assert (HA2 : u64 (A * 2) = 2 * A) by (rewrite u64_small; lia).
  unfold gsd_expand_index. fold A.
  destruct (open_flags h) eqn:Hm; [| contradiction |].
  - unfold expand_index_block. hsimpl. rewrite Hm, Hfd. cbn [lseek_end].
    unfold sizeof_index_entry. rewrite HA2.
    rewrite (u64_small (fsize f)) by (unfold OFF_MAX in *; lia).
    rewrite (u64_small (64 * (2 * A))) by lia.
    rewrite pwrite_full by (unfold OFF_MAX in *; lia).
    cbn [Z.eqb orb]. reflexivity.
  - unfold expand_index_block. hsimpl. rewrite Hm, Hfd. cbn [lseek_end].
    unfold sizeof_index_entry. rewrite HA2.
    rewrite (u64_small (A * 64)) by lia.
    replace (A * 64) with (64 * A) by lia.
    destruct (Z.le_gt_cases (fsize f + 64 * A) OFF_MAX) as [Hfit1|Hfull1].
    + destruct (expand_copy_loop_ok f (index_location (header h)) (64 * A)
                  ltac:(lia) ltac:(lia) Hfit1
                  (loop_rounds (64 * A)) f 0)
        as (f1 & Hc & Hs1 & Hlow1 & Hnew1).
      { lia. }
      { pose proof (loop_rounds_enough (64 * A) ltac:(lia)). lia. }
      { intros _. unfold loop_rounds. lia. }
      { lia. }
      { intros o _. reflexivity. }
      { intros o Ho. lia. }
      rewrite Hc. cbn [negb].
      rewrite (u64_small (2 * A * 64)) by lia.
      pose proof (expand_zero_loop_full (fsize f) (2 * A * 64)
                    ltac:(lia) ltac:(unfold OFF_MAX in *; lia) ltac:(lia)
                    (loop_rounds (2 * A * 64)) (Some f1) (64 * A)
                    ltac:(lia) ltac:(unfold OFF_MAX in *; lia)) as Hz.
      destruct (expand_zero_loop _ _ _ _ _) as [[ok2 d2] t2].
      cbn [fst] in Hz. subst ok2. reflexivity.
    + pose proof (expand_copy_loop_full (index_location (header h)) (fsize f)
                    (64 * A) ltac:(lia) ltac:(lia) Hfull1
                    (loop_rounds (64 * A)) (Some f) 0 ltac:(lia)
                    ltac:(unfold OFF_MAX in *; lia)) as Hc.
      destruct (expand_copy_loop _ _ _ _ _ _) as [[ok1 d1] t1].
      cbn [fst] in Hc. subst ok1. reflexivity.
Qed.

(** A call of [gsd_expand_index] that returns success has made the new
    block. *)
Lemma expand_index_success (h h' : gsd_handle) (f : file) :
  expandable h f -> gsd_expand_index h = (GSD_SUCCESS, h') ->
  fsize f + 2 * (sizeof_index_entry * index_allocated_entries (header h))
  <= OFF_MAX
  /\ exists f', expanded h f h' f'.
Proof.
  intros Hx Hs.
  destruct (Z.le_gt_cases
              (fsize f
               + 2 * (sizeof_index_entry * index_allocated_entries (header h)))
              OFF_MAX) as [Hfit|Hfull].
  - split; [exact Hfit|].
    destruct (expand_index_ok h f Hx Hfit) as (h2 & f2 & E & Hex).
    rewrite E in Hs. injection Hs as <-. exists f2. exact Hex.
  - pose proof (expand_index_full h f Hx Hfull) as E.
    rewrite Hs in E. discriminate E.
Qed.

(** ** [gsd_write_chunk] step by step *)

(** The lookup or the append of the name touches the namelist only. *)
Lemma name_step_frame (h h1 : gsd_handle) (name : list byte) (id1 : Z) :
  (if gsd_get_id h name =? UINT16_MAX
   then gsd_append_name (gsd_get_id h name) h name
   else (GSD_SUCCESS, gsd_get_id h name, h)) = (GSD_SUCCESS, id1, h1) ->
  fd h1 = fd h /\ header h1 = header h /\ index h1 = index h
  /\ file_size h1 = file_size h /\ index_num_entries h1 = index_num_entries h
  /\ index_written_entries h1 = index_written_entries h
  /\ cur_frame h1 = cur_frame h /\ open_flags h1 = open_flags h
  /\ append_index_size h1 = append_index_size h.
Proof.
  destruct (gsd_get_id h name =? UINT16_MAX).
  - unfold gsd_append_name.
    destruct (open_flag_eqb _ _); [discriminate|].
    destruct (_ =? _); [discriminate|].
    intros H. apply (f_equal snd) in H. cbn [snd] in H. subst h1.
    destruct (_ <? _); hsimpl; repeat split.
  - intros H. apply (f_equal snd) in H. cbn [snd] in H. subst h1.
    repeat split.
Qed.

(** The payload write at the end of the file. *)
Lemma payload_write (f : file) (d : option file) (buf : buffer) (size : Z) :
  0 <= size < 2 ^ 64 -> 0 <= fsize f <= OFF_MAX ->
  gsd_pwrite_retry (Some f) buf size (fsize f) = (size, d) ->
  exists f1,
    d = Some f1 /\ fsize f1 = fsize f + size /\ fsize f1 <= OFF_MAX
    /\ (forall o, o < fsize f -> file_byte f1 o = file_byte f o)
    /\ (forall o, 0 <= o < size -> file_byte f1 (fsize f + o) = buf o).
Proof.
  intros Hs Hf Hw. unfold OFF_MAX in *.
  destruct (Z.eq_dec size 0) as [->|Hnz].
  - unfold gsd_pwrite_retry in Hw. cbn [Z.leb Z.compare] in Hw.
    injection Hw as <-. exists f. rewrite Z.add_0_r.
    repeat split; try (intros; lia).
  - apply pwrite_success in Hw; [|lia|lia].
    destruct Hw as (f0 & [= <-] & Hfit & ->). unfold OFF_MAX in Hfit.
    eexists. split; [reflexivity|]. rewrite write_bytes_size.
    split; [lia|]. split; [lia|]. split.
    + intros o Ho. apply write_bytes_outside; lia.
    + intros o Ho. rewrite write_bytes_inside by lia. f_equal. lia.
Qed.

Lemma entry_at_zero_memory_low (mem : buffer) (a len i : Z) :
  0 <= i -> sizeof_index_entry * (i + 1) <= a ->
  entry_at (gsd_zero_memory mem a len) i = entry_at mem i.
Proof.
  intros Hi Ha. unfold entry_at. apply decode_entry_ext.
  intros k Hk. unfold gsd_zero_memory, sizeof_index_entry in *.
  destruct (Z.leb_spec a k); [lia|]. reflexivity.
Qed.

Lemma file_entry_bytes (f : file) (mem : buffer) (i : Z) :
  (forall o, sizeof_index_entry * i <= o < sizeof_index_entry * (i + 1) ->
             file_byte f (index_location (file_header f) + o) = mem o) ->
  file_entry f i = entry_at mem i.
Proof.
  intros H. unfold file_entry, entry_at.
  rewrite <- decode_entry_shift. apply decode_entry_ext.
  intros k Hk. unfold shift. apply H. unfold sizeof_index_entry in *. lia.
Qed.

Lemma handle_on_wf (h : gsd_handle) (f : file) :
  handle_on h f -> header_wf (header h).
Proof.
  intros H. rewrite (ho_header h f H). apply decode_header_wf.
Qed.

(** A successful [gsd_write_chunk] on a handle coherent with the file [f]:
    the file [f1] after the payload write, and the handle [h4] and the file
    [f4] after the expansion of the index, when there is one. *)
Lemma write_chunk_on (h : gsd_handle) (f : file) (name : list byte)
  (type N M flags : Z) (data : option (list byte)) (h' : gsd_handle) :
  handle_on h f ->
  gsd_write_chunk h name type N M flags data = (GSD_SUCCESS, h') ->
  exists bytes id1 h1 f1 h4 f4,
    data = Some bytes
    /\ (if gsd_get_id h name =? UINT16_MAX
        then gsd_append_name (gsd_get_id h name) h name
        else (GSD_SUCCESS, gsd_get_id h name, h)) = (GSD_SUCCESS, id1, h1)
    /\ id1 <> UINT16_MAX
    /\ fsize f1 = fsize f + u64 (N * M * gsd_sizeof_type type)
    /\ fsize f1 <= OFF_MAX
    /\ (forall o, o < fsize f -> file_byte f1 o = file_byte f o)
    /\ (forall o, 0 <= o < u64 (N * M * gsd_sizeof_type type) ->
                  file_byte f1 (fsize f + o) = buf_of_list bytes o)
    /\ (if index_allocated_entries (header h) <=? index_num_entries h
        then expanded (set_file_size (fsize f1) (set_fd (Some f1) h1)) f1 h4 f4
        else h4 = set_file_size (fsize f1) (set_fd (Some f1) h1) /\ f4 = f1)
    /\ fsize f4 <= OFF_MAX
    /\ same_rest h1 h4
    /\ h' =
       set_index_num_entries
         (u64 (index_num_entries (snd (write_chunk_slot h4)) + 1))
         (set_index
            (store_entry (index (snd (write_chunk_slot h4)))
               (fst (write_chunk_slot h4))
               {| frame := cur_frame h; N := N; location := fsize f;
                  M := M; id := id1; type := u8 type; flags := 0 |})
            (snd (write_chunk_slot h4))).
Proof.
  intros Hon Hw.
  pose proof (handle_on_wf h f Hon) as Hwf.
  destruct Hon as [Hfd Hfs Hhd Hsz Hal Hblk].
  apply write_chunk_success in Hw.
  destruct Hw as (bytes & id1 & h1 & d & h4 & -> & HN & HM & HT & Hro & ->
                  & Hid & Hid1 & Hpw & Hex & ->).
  destruct (name_step_frame _ _ _ _ Hid)
    as (F1 & F2 & F3 & F4 & F5 & F6 & F7 & F8 & F9).
  rewrite F1, Hfd, F4, Hfs in Hpw.
  pose proof (u64_range (N * M * gsd_sizeof_type type)) as Hu.
  unfold sizeof_header in Hsz.
  apply payload_write in Hpw; [|lia|lia].
  destruct Hpw as (f1 & -> & S1 & S2 & S3 & S4).
  rewrite F4, Hfs, <- S1 in Hex.
  rewrite (u64_small (fsize f1)) in Hex by (unfold OFF_MAX in S2; lia).
  hsimpl_in Hex. rewrite F2, F5 in Hex.
  destruct (Z.leb_spec (index_allocated_entries (header h))
              (index_num_entries h)) as [Hfull|Hroom].
  - pose proof (expand_index_frame _ _ _ Hex) as Hfr. hsimpl_in Hfr.
    apply (expand_index_success _ _ f1) in Hex.
    + destruct Hex as (Hfit & f4 & Hx).
      assert (Hm4 : fsize f4 <= OFF_MAX).
      { rewrite (xd_size _ _ _ _ Hx). hsimpl. hsimpl_in Hfit.
        rewrite F2 in *. exact Hfit. }
      exists bytes, id1, h1, f1, h4, f4. rewrite F4, Hfs.
      repeat (split; [first [assumption|reflexivity]|]). reflexivity.
    + constructor; hsimpl; rewrite ?F2, ?F8; try assumption.
      * reflexivity.
      * lia.
      * unfold sizeof_header. lia.
  - injection Hex as <-.
    exists bytes, id1, h1, f1,
      (set_file_size (fsize f1) (set_fd (Some f1) h1)), f1.
    rewrite F4, Hfs.
    repeat (split; [first [assumption|reflexivity|split; reflexivity]|]).
    split; [|reflexivity]. unfold same_rest. hsimpl. repeat split.
Qed.

(** ** Index expansion *)

Lemma write_chunk_slot_frame (h : gsd_handle) :
  fd (snd (write_chunk_slot h)) = fd h
  /\ header (snd (write_chunk_slot h)) = header h
  /\ index (snd (write_chunk_slot h)) = index h
  /\ open_flags (snd (write_chunk_slot h)) = open_flags h
  /\ index_num_entries (snd (write_chunk_slot h)) = index_num_entries h
  /\ index_written_entries (snd (write_chunk_slot h))
     = index_written_entries h
  /\ file_size (snd (write_chunk_slot h)) = file_size h
  /\ cur_frame (snd (write_chunk_slot h)) = cur_frame h
  /\ namelist (snd (write_chunk_slot h)) = namelist h
  /\ names (snd (write_chunk_slot h)) = names h
  /\ namelist_num_entries (snd (write_chunk_slot h)) = namelist_num_entries h
  /\ namelist_written_entries (snd (write_chunk_slot h))
     = namelist_written_entries h.
Proof.
  destruct (write_chunk_slot_cases h) as [-> | ->]; hsimpl; repeat split.
Qed.



(** ** The file of [gsd_initialize_file] *)

Lemma initialize_file_ok (f : file) (app sch : list byte) (ver : Z) :
  gsd_initialize_file (Some f) app sch ver
  = (GSD_SUCCESS, Some (initial_file app sch ver)).
Proof.
  unfold gsd_initialize_file, ftruncate0. cbn [negb Z.eqb].
  rewrite pwrite_ok by (unfold sizeof_header, OFF_MAX; lia).
  rewrite Z.eqb_refl. cbn [negb].
  rewrite pwrite_ok
    by (unfold sizeof_header, sizeof_index_entry, GSD_INITIAL_INDEX_SIZE,
          OFF_MAX; lia).
  rewrite Z.eqb_refl. cbn [negb].
  rewrite pwrite_ok
    by (unfold sizeof_header, sizeof_index_entry, GSD_INITIAL_INDEX_SIZE,
          sizeof_namelist_entry, GSD_INITIAL_NAMELIST_SIZE, OFF_MAX; lia).
  rewrite Z.eqb_refl. cbn [negb fsync Z.eqb]. reflexivity.
Qed.

Lemma initial_header_wf (app sch : list byte) (ver : Z) :
  header_wf (initial_header app sch ver).
Proof.
  constructor; unfold initial_header;
    cbn [magic index_location namelist_location index_allocated_entries
         namelist_allocated_entries schema_version gsd_version
         application schema reserved].
  - vm_compute. split; [discriminate|reflexivity].
  - vm_compute. split; [discriminate|reflexivity].
  - vm_compute. split; [discriminate|reflexivity].
  - vm_compute. split; [discriminate|reflexivity].
  - vm_compute. split; [discriminate|reflexivity].
  - unfold u32. apply Z.mod_pos_bound. lia.
  - vm_compute. split; [discriminate|reflexivity].
  - unfold strncpy_field. rewrite length_app, fit_length. reflexivity.
  - unfold strncpy_field. rewrite length_app, fit_length. reflexivity.
  - apply repeat_length.
Qed.

Lemma initial_file_size (app sch : list byte) (ver : Z) :
  fsize (initial_file app sch ver) = 4202688.
Proof. reflexivity. Qed.

Lemma initial_file_header (app sch : list byte) (ver : Z) :
  file_header (initial_file app sch ver)
  = initial_header app sch ver.
Proof.
  unfold initial_file.
  rewrite <- (header_write empty_file
                (initial_header app sch ver))
    at 2 by apply initial_header_wf.
  unfold file_header. apply decode_header_ext. intros k Hk.
  unfold sizeof_header, sizeof_index_entry, sizeof_namelist_entry,
    GSD_INITIAL_INDEX_SIZE, GSD_INITIAL_NAMELIST_SIZE.
  rewrite !(write_bytes_outside _ zero_buffer) by lia. reflexivity.
Qed.

Lemma initial_file_zero (app sch : list byte) (ver o : Z) :
  sizeof_header <= o ->
  file_byte (initial_file app sch ver) o = x00.
Proof.
  intros Ho. unfold initial_file.
  unfold sizeof_header, sizeof_index_entry, sizeof_namelist_entry,
    GSD_INITIAL_INDEX_SIZE, GSD_INITIAL_NAMELIST_SIZE in *.
  rewrite write_bytes_byte by lia.
  destruct (_ && _); [reflexivity|].
  rewrite write_bytes_byte by lia.
  destruct (_ && _); [reflexivity|].
  rewrite write_bytes_outside by lia.
  unfold file_byte, empty_file. cbn [fsize fdata].
  destruct (_ && _); reflexivity.
Qed.

Lemma initial_file_layout (app sch : list byte) (ver : Z) :
  file_layout_ok (initial_file app sch ver).
Proof.
  constructor; rewrite ?initial_file_header, ?initial_file_size;
    unfold initial_header;
    cbn [magic index_location namelist_location index_allocated_entries
         namelist_allocated_entries gsd_version].
  - vm_compute. split; discriminate.
  - reflexivity.
  - right. vm_compute. split; [discriminate|reflexivity].
  - vm_compute. discriminate.
  - vm_compute. discriminate.
  - vm_compute. discriminate.
Qed.

Lemma load_zero (mem : buffer) (off : Z) (n : nat) :
  (forall k, off <= k < off + Z.of_nat n -> mem k = x00) ->
  load_le mem off n = 0.
Proof.
  intros H. unfold load_le.
  rewrite (load_ext mem zero_buffer) by exact H.
  clear H. unfold load. generalize (seq 0 n). intros l.
  induction l as [|k l IH]; [reflexivity|].
  cbn [map le_value]. rewrite IH. reflexivity.
Qed.

Lemma initial_file_entry (app sch : list byte) (ver i : Z) :
  0 <= i ->
  location (file_entry (initial_file app sch ver) i) = 0.
Proof.
  intros Hi. unfold file_entry, decode_entry. cbn [location].
  rewrite initial_file_header. unfold initial_header. cbn [index_location].
  apply load_zero. intros k Hk. apply initial_file_zero.
  unfold sizeof_header, sizeof_index_entry in *. lia.
Qed.



(** ** [gsd_truncate] *)

Lemma fit_cons (n : nat) (c : byte) (l : list byte) :
  fit (S n) (c :: l) = c :: fit n l.
Proof. reflexivity. Qed.

Lemma c_str_strncpy (n : nat) (s : list byte) :
  (length (c_str s) <= n)%nat -> c_str (strncpy_field n s) = c_str s.
Proof.
  unfold strncpy_field. revert n.
  induction s as [|c r IH]; intros n Hn.
  - cbn [c_str]. unfold fit. cbn [firstn length]. rewrite firstn_nil.
    cbn [app]. destruct n; reflexivity.
  - cbn [c_str] in *. destruct (is_nul c) eqn:Ec.
    + unfold fit. rewrite firstn_nil. cbn [app length].
      destruct n; reflexivity.
    + cbn [length] in Hn. destruct n as [|n]; [lia|].
      rewrite fit_cons. cbn [app c_str]. rewrite Ec.
      f_equal. apply IH. lia.
Qed.

Lemma c_str_idem (s : list byte) : c_str (c_str s) = c_str s.
Proof.
  induction s as [|c r IH]; [reflexivity|].
  cbn [c_str]. destruct (is_nul c) eqn:Ec; [reflexivity|].
  cbn [c_str]. rewrite Ec, IH. reflexivity.
Qed.


Lemma c_str_fit (n : nat) (s : list byte) :
  c_str (fit n (c_str s) ++ [x00]) = firstn n (c_str s).
Proof.
  revert n. induction s as [|c r IH]; intros n.
  - cbn [c_str]. unfold fit. rewrite firstn_nil. cbn [app length].
    destruct n; reflexivity.
  - cbn [c_str]. destruct (is_nul c) eqn:Ec.
    + unfold fit. rewrite firstn_nil. cbn [app length].
      destruct n; reflexivity.
    + destruct n as [|n]; [reflexivity|].
      rewrite fit_cons. cbn [app c_str firstn]. rewrite Ec.
      f_equal. apply IH.
Qed.

Lemma firstn_c_str (n : nat) (s : list byte) :
  c_str (firstn n (c_str s)) = firstn n (c_str s).
Proof.
  revert n. induction s as [|c r IH]; intros n.
  - cbn [c_str]. rewrite firstn_nil. reflexivity.
  - cbn [c_str]. destruct (is_nul c) eqn:Ec.
    + rewrite firstn_nil. reflexivity.
    + destruct n as [|n]; [reflexivity|].
      cbn [firstn c_str]. rewrite Ec, IH. reflexivity.
Qed.





(** ** The entries of a log *)

Lemma number_frames_app (k : Z) (l1 l2 : list (list chunk)) :
  number_frames k (l1 ++ l2)
  = number_frames k l1 ++ number_frames (k + Z.of_nat (length l1)) l2.
Proof.
  revert k. induction l1 as [|cs r IH]; intros k.
  - cbn [app number_frames length]. f_equal. lia.
  - cbn [app number_frames length]. rewrite IH, <- app_assoc.
    do 3 f_equal. lia.
Qed.

Lemma number_frames_last (log : list (list chunk)) (cs : list chunk) :
  number_frames 0 (log ++ [cs])
  = number_frames 0 log ++ map (pair (Z.of_nat (length log))) cs.
Proof.
  rewrite number_frames_app. cbn [number_frames]. rewrite app_nil_r.
  reflexivity.
Qed.

Lemma number_frames_length (k : Z) (log : list (list chunk)) :
  length (number_frames k log) = length (concat log).
Proof.
  revert k. induction log as [|cs r IH]; intros k; [reflexivity|].
  cbn [number_frames concat]. rewrite !length_app, length_map, IH.
  reflexivity.
Qed.

(** The entries carry the frames of the log. *)
Lemma number_frames_In (k : Z) (log : list (list chunk)) (fr : Z) (c : chunk) :
  In (fr, c) (number_frames k log)
  <-> exists j cs, nth_error log j = Some cs /\ In c cs
                   /\ fr = k + Z.of_nat j.
Proof.
  revert k. induction log as [|cs r IH]; intros k.
  - cbn [number_frames]. split; [intros []|].
    intros (j & cs & H & _). destruct j; discriminate H.
  - cbn [number_frames]. rewrite in_app_iff, IH, in_map_iff. split.
    + intros [(c' & [= <- <-] & Hin)|(j & cs' & Hj & Hin & ->)].
      * exists 0%nat, cs. repeat split; [exact Hin|lia].
      * exists (S j), cs'. repeat split; [exact Hj|exact Hin|lia].
    + intros (j & cs' & Hj & Hin & ->). destruct j as [|j].
      * injection Hj as <-. left. exists c. split; [f_equal; lia|exact Hin].
      * right. exists j, cs'. repeat split; [exact Hj|exact Hin|lia].
Qed.

(** The frames do not decrease along the index, and with no empty frame
    the frame of an entry is at most its position. *)
Lemma number_frames_bounds (k : Z) (log : list (list chunk)) (i : nat)
  (fr : Z) (c : chunk) :
  (forall cs, In cs log -> cs <> []) ->
  nth_error (number_frames k log) i = Some (fr, c) ->
  k <= fr <= k + Z.of_nat i /\ fr < k + Z.of_nat (length log).
Proof.
  intros Hne. revert k i. induction log as [|cs r IH]; intros k i.
  - destruct i; discriminate.
  - cbn [number_frames length].
    destruct (Nat.lt_ge_cases i (length cs)) as [Hlt|Hge].
    + rewrite nth_error_app1 by (rewrite length_map; exact Hlt).
      rewrite nth_error_map.
      destruct (nth_error cs i); [|discriminate]. intros [= <- <-]. lia.
    + rewrite nth_error_app2 by (rewrite length_map; exact Hge).
      rewrite length_map. intros H. apply IH in H.
      * assert (Hcs : cs <> []) by (apply Hne; left; reflexivity).
        destruct cs; [contradiction|]. cbn [length] in *. lia.
      * intros cs' Hin. apply Hne. right. exact Hin.
Qed.

Lemma number_frames_mono (k : Z) (log : list (list chunk)) (i j : nat)
  (fi fj : Z) (ci cj : chunk) :
  (i <= j)%nat ->
  nth_error (number_frames k log) i = Some (fi, ci) ->
  nth_error (number_frames k log) j = Some (fj, cj) ->
  fi <= fj.
Proof.
  revert k i j. induction log as [|cs r IH]; intros k i j Hij.
  - destruct i; discriminate.
  - cbn [number_frames].
    destruct (Nat.lt_ge_cases i (length cs)) as [Hlt|Hge].
    + rewrite (nth_error_app1 _ _ (n := i))
        by (rewrite length_map; exact Hlt).
      rewrite nth_error_map.
      destruct (nth_error cs i); [|discriminate]. intros [= <- <-].
      destruct (Nat.lt_ge_cases j (length cs)) as [Hlt'|Hge'].
      * rewrite nth_error_app1 by (rewrite length_map; exact Hlt').
        rewrite nth_error_map.
        destruct (nth_error cs j); [|discriminate]. intros [= <- <-]. lia.
      * rewrite nth_error_app2 by (rewrite length_map; exact Hge').
        intros H. apply nth_error_In in H. apply number_frames_In in H.
        destruct H as (j' & cs' & _ & _ & ->). lia.
    + rewrite (nth_error_app2 _ _ (n := i))
        by (rewrite length_map; exact Hge).
      rewrite nth_error_app2 by (rewrite length_map; lia).
      apply IH. lia.
Qed.

(** Two entries of one frame with the same name are the same entry, when a
    name is written once in a frame. *)
Lemma number_frames_once (k : Z) (log : list (list chunk)) (i j : nat)
  (fr : Z) (ci cj : chunk) :
  (forall cs, In cs log -> NoDup (map c_name cs)) ->
  nth_error (number_frames k log) i = Some (fr, ci) ->
  nth_error (number_frames k log) j = Some (fr, cj) ->
  c_name ci = c_name cj -> i = j.
Proof.
  intros Hnd. revert k i j. induction log as [|cs r IH]; intros k i j.
  - destruct i; discriminate.
  - cbn [number_frames].
    assert (Hcs : NoDup (map c_name cs)) by (apply Hnd; left; reflexivity).
    assert (Hr : forall cs', In cs' r -> NoDup (map c_name cs'))
      by (intros cs' H; apply Hnd; right; exact H).
    destruct (Nat.lt_ge_cases i (length cs)) as [Hi|Hi];
      destruct (Nat.lt_ge_cases j (length cs)) as [Hj|Hj].
    + rewrite !nth_error_app1 by (rewrite length_map; assumption).
      rewrite !nth_error_map.
      destruct (nth_error cs i) as [ci'|] eqn:Ei; [|discriminate].
      destruct (nth_error cs j) as [cj'|] eqn:Ej; [|discriminate].
      intros [= _ <-] [= _ <-] Hn.
      apply (proj1 (NoDup_nth_error (map c_name cs)) Hcs).
      * rewrite length_map. exact Hi.
      * rewrite !nth_error_map, Ei, Ej. cbn. f_equal. exact Hn.
    + rewrite (nth_error_app1 _ _ (n := i)) by (rewrite length_map; assumption).
      rewrite (nth_error_app2 _ _ (n := j)) by (rewrite length_map; assumption).
      rewrite nth_error_map.
      destruct (nth_error cs i); [|discriminate]. intros [= <- _] H.
      apply nth_error_In, number_frames_In in H.
      destruct H as (j' & _ & _ & _ & E). lia.
    + rewrite (nth_error_app2 _ _ (n := i)) by (rewrite length_map; assumption).
      rewrite (nth_error_app1 _ _ (n := j)) by (rewrite length_map; assumption).
      rewrite nth_error_map.
      destruct (nth_error cs j); [|intros _; discriminate].
      intros H [= <- _].
      apply nth_error_In, number_frames_In in H.
      destruct H as (j' & _ & _ & _ & E). lia.
    + rewrite !nth_error_app2 by (rewrite length_map; assumption).
      rewrite length_map. intros H1 H2 Hn.
      pose proof (IH Hr _ _ _ H1 H2 Hn). lia.
Qed.

(** The last entry belongs to the last frame. *)
Lemma number_frames_end (log : list (list chunk)) (fr : Z) (c : chunk) :
  (forall cs, In cs log -> cs <> []) ->
  nth_error (number_frames 0 log) (length (number_frames 0 log) - 1)
  = Some (fr, c) ->
  fr = Z.of_nat (length log) - 1.
Proof.
  intros Hne.
  destruct log as [|c0 r0]; [discriminate|].
  destruct (exists_last (l := c0 :: r0)) as (l' & cs & E); [discriminate|].
  rewrite E in *. clear E c0 r0.
  rewrite number_frames_last, length_app, length_map.
  assert (Hcs : cs <> []) by (apply Hne, in_or_app; right; left; reflexivity).
  assert (Hl : (0 < length cs)%nat) by (destruct cs; [contradiction|cbn; lia]).
  rewrite nth_error_app2 by lia. rewrite nth_error_map.
  destruct (nth_error cs _); [|discriminate]. intros [= <- _].
  rewrite length_app. cbn [length]. lia.
Qed.

Lemma number_frames_empty (log : list (list chunk)) :
  (forall cs, In cs log -> cs <> []) ->
  number_frames 0 log = [] -> log = [].
Proof.
  intros Hne. destruct log as [|cs r]; [reflexivity|].
  cbn [number_frames]. intros H. apply app_eq_nil in H. destruct H as [H _].
  apply map_eq_nil in H. exfalso. apply (Hne cs); [left; reflexivity|exact H].
Qed.

Lemma number_frames_count (k : Z) (log : list (list chunk)) :
  (forall cs, In cs log -> cs <> []) ->
  (length log <= length (number_frames k log))%nat.
Proof.
  intros Hne. revert k. induction log as [|cs r IH]; intros k; [cbn; lia|].
  cbn [number_frames length]. rewrite length_app, length_map.
  assert (Hcs : cs <> []) by (apply Hne; left; reflexivity).
  specialize (IH (fun cs' H => Hne cs' (or_intror H)) (k + 1)).
  destruct cs; [contradiction|]. cbn [length]. lia.
Qed.

(** ** Names in the namelist and in the cache *)

Lemma name_ok_head (n : list byte) :
  name_ok n -> exists c r, n = c :: r /\ is_nul c = false.
Proof.
  intros (Hne & _ & Hc). destruct n as [|c r]; [contradiction|].
  exists c, r. split; [reflexivity|].
  cbn [c_str] in Hc. destruct (is_nul c); [discriminate|reflexivity].
Qed.

Lemma name_ok_strlen (n : list byte) : name_ok n -> strlen n = length n.
Proof. intros (_ & _ & Hc). unfold strlen. rewrite Hc. reflexivity. Qed.

Lemma name_ok_field (n : list byte) :
  name_ok n -> c_str (strncpy_field 63 n) = n.
Proof.
  intros (Hne & Hlen & Hc). rewrite c_str_strncpy; [exact Hc|].
  rewrite Hc. exact Hlen.
Qed.

Lemma strncpy_field_length (n : nat) (s : list byte) :
  length (strncpy_field n s) = S n.
Proof.
  unfold strncpy_field. rewrite length_app, fit_length. cbn [length]. lia.
Qed.

Lemma name_ok_field_head (n : list byte) :
  name_ok n -> is_nul (hd x00 (strncpy_field 63 n)) = false.
Proof.
  intros Hn. destruct (name_ok_head n Hn) as (c & r & -> & Hc).
  destruct Hn as (_ & _ & Hs). unfold strncpy_field. rewrite Hs.
  cbn [fit firstn app hd]. unfold fit. cbn [firstn app hd]. exact Hc.
Qed.

Lemma name_at_field (mem : buffer) (j : Z) (n : list byte) :
  name_ok n ->
  load mem (sizeof_namelist_entry * j) 64 = strncpy_field 63 n ->
  name_at mem j = n.
Proof.
  intros Hn H. unfold name_at. rewrite H. apply name_ok_field. exact Hn.
Qed.

(** ** The order of the names *)

Lemma cmp_byte_trans (x y z : byte) :
  cmp_byte x y = Lt -> cmp_byte y z = Lt -> cmp_byte x z = Lt.
Proof.
  unfold cmp_byte. rewrite !N.compare_lt_iff. intros H1 H2.
  exact (N.lt_trans _ _ _ H1 H2).
Qed.

Lemma strncmp_trans (a b c : list byte) (n : nat) :
  strncmp a b n = Lt -> strncmp b c n = Lt -> strncmp a c n = Lt.
Proof.
  revert a b c. induction n as [|n IH]; intros a b c; [discriminate|].
  cbn [strncmp].
  destruct (cmp_byte (chr a) (chr b)) eqn:Eab; try discriminate.
  - apply cmp_byte_eq in Eab. rewrite Eab.
    destruct (is_nul (chr b)) eqn:Hb; [discriminate|].
    destruct (cmp_byte (chr b) (chr c)) eqn:Ebc; try discriminate.
    + apply IH.
    + reflexivity.
  - intros _.
    destruct (cmp_byte (chr b) (chr c)) eqn:Ebc; try discriminate.
    + apply cmp_byte_eq in Ebc. rewrite <- Ebc, Eab. reflexivity.
    + rewrite (cmp_byte_trans _ _ _ Eab Ebc). reflexivity.
Qed.

Lemma strictly_before_of_strcmp (a b : list byte) :
  has_prefix a b = false -> strcmp a b <> Gt -> strictly_before a b = true.
Proof.
  unfold has_prefix, strictly_before, strcmp. intros Hp Hc.
  destruct (strncmp a b (strlen a)) eqn:E; [discriminate|reflexivity|].
  exfalso. apply Hc.
  rewrite <- E. apply strncmp_decided_ge.
  - unfold strlen.
    assert (H : (length (c_str a) <= length a)%nat).
    { clear. induction a as [|c r IH]; [cbn; lia|].
      cbn [c_str]. destruct (is_nul c); cbn [length]; lia. }
    lia.
  - rewrite E. discriminate.
Qed.

Lemma strictly_before_of_gt (a b : list byte) :
  has_prefix b a = false -> strcmp a b = Gt -> strictly_before b a = true.
Proof.
  intros Hp Hc. apply strictly_before_of_strcmp; [exact Hp|].
  unfold strcmp in *. rewrite strncmp_antisym.
  replace (S (length b + length a)) with (S (length a + length b)) by lia.
  rewrite Hc. discriminate.
Qed.

Lemma strictly_before_trans (a b c : list byte) :
  has_prefix a c = false ->
  strictly_before a b = true -> strictly_before b c = true ->
  strictly_before a c = true.
Proof.
  unfold has_prefix, strictly_before. intros Hp Hab Hbc.
  destruct (strncmp a b (strlen a)) eqn:Eab; try discriminate.
  destruct (strncmp b c (strlen b)) eqn:Ebc; try discriminate.
  set (n := (strlen a + strlen b)%nat).
  assert (H1 : strncmp a b n = Lt).
  { rewrite (strncmp_decided_ge a b (strlen a) n); [exact Eab|lia|].
    rewrite Eab. discriminate. }
  assert (H2 : strncmp b c n = Lt).
  { rewrite (strncmp_decided_ge b c (strlen b) n); [exact Ebc|lia|].
    rewrite Ebc. discriminate. }
  pose proof (strncmp_trans _ _ _ _ H1 H2) as H3.
  destruct (strncmp_lt_strlen _ _ _ H3) as [E|E]; rewrite E in *;
    [reflexivity|discriminate].
Qed.

Lemma insert_pair_In (p x : gsd_name_id_pair) (l : list gsd_name_id_pair) :
  In x (insert_pair p l) <-> x = p \/ In x l.
Proof.
  induction l as [|q r IH]; cbn [insert_pair].
  - cbn. intuition congruence.
  - destruct (pair_leb p q); cbn [In]; [intuition congruence|].
    rewrite IH. intuition congruence.
Qed.

Lemma insert_pair_perm (p : gsd_name_id_pair) (l : list gsd_name_id_pair) :
  Permutation (p :: l) (insert_pair p l).
Proof.
  induction l as [|q r IH]; cbn [insert_pair]; [apply Permutation_refl|].
  destruct (pair_leb p q); [apply Permutation_refl|].
  apply perm_trans with (q :: p :: r); [apply perm_swap|].
  apply perm_skip. exact IH.
Qed.

Lemma sort_pairs_perm (l : list gsd_name_id_pair) :
  Permutation l (sort_pairs l).
Proof.
  induction l as [|p r IH]; cbn [sort_pairs]; [apply perm_nil|].
  apply perm_trans with (p :: sort_pairs r); [apply perm_skip; exact IH|].
  apply insert_pair_perm.
Qed.

Lemma insert_pair_separated (p : gsd_name_id_pair)
  (l : list gsd_name_id_pair) :
  (forall q, In q l -> unrelated (pair_name p) (pair_name q)) ->
  names_separated (map pair_name l) = true ->
  names_separated (map pair_name (insert_pair p l)) = true.
Proof.
  induction l as [|q r IH]; intros Hu Hs; [reflexivity|].
  cbn [map names_separated] in Hs. apply andb_true_iff in Hs.
  destruct Hs as [Hq Hr]. rewrite forallb_forall in Hq.
  destruct (Hu q (or_introl eq_refl)) as [Hpq Hqp].
  cbn [insert_pair]. unfold pair_leb.
  destruct (strcmp (pair_name p) (pair_name q)) eqn:Ec.
  - cbn [map names_separated]. apply andb_true_iff. split.
    + assert (Hb : strictly_before (pair_name p) (pair_name q) = true)
        by (apply strictly_before_of_strcmp; [exact Hpq|rewrite Ec; discriminate]).
      cbn [forallb]. rewrite Hb. cbn [andb].
      apply forallb_forall. intros x Hx.
      apply in_map_iff in Hx. destruct Hx as (y & <- & Hy).
      apply strictly_before_trans with (pair_name q); [|exact Hb|].
      * apply (Hu y). right. exact Hy.
      * apply Hq. apply in_map. exact Hy.
    + apply andb_true_iff. split; [apply forallb_forall; exact Hq|exact Hr].
  - cbn [map names_separated]. apply andb_true_iff. split.
    + assert (Hb : strictly_before (pair_name p) (pair_name q) = true)
        by (apply strictly_before_of_strcmp; [exact Hpq|rewrite Ec; discriminate]).
      cbn [forallb]. rewrite Hb. cbn [andb].
      apply forallb_forall. intros x Hx.
      apply in_map_iff in Hx. destruct Hx as (y & <- & Hy).
      apply strictly_before_trans with (pair_name q); [|exact Hb|].
      * apply (Hu y). right. exact Hy.
      * apply Hq. apply in_map. exact Hy.
    + apply andb_true_iff. split; [apply forallb_forall; exact Hq|exact Hr].
  - cbn [map names_separated]. apply andb_true_iff. split.
    + apply forallb_forall. intros x Hx.
      apply in_map_iff in Hx. destruct Hx as (y & <- & Hy).
      apply insert_pair_In in Hy. destruct Hy as [->|Hy].
      * apply strictly_before_of_gt; [exact Hqp|exact Ec].
      * apply Hq. apply in_map. exact Hy.
    + apply IH; [|exact Hr]. intros y Hy. apply Hu. right. exact Hy.
Qed.

Lemma sort_pairs_separated (l : list gsd_name_id_pair) :
  ForallOrdPairs (fun p q => unrelated (pair_name p) (pair_name q)) l ->
  names_separated (map pair_name (sort_pairs l)) = true.
Proof.
  induction 1 as [|p r Hp Hr IH]; [reflexivity|].
  cbn [sort_pairs]. apply insert_pair_separated; [|exact IH].
  intros q Hq. rewrite Forall_forall in Hp. apply Hp.
  apply (Permutation_in q (Permutation_sym (sort_pairs_perm r))). exact Hq.
Qed.

(** ** Lookups in the name cache *)

(** The loop reports a position only where the comparison is [Eq]. *)
Lemma find_name_loop_none (fuel : nat) (nm : list gsd_name_id_pair)
  (name : list byte) (len : nat) (W L R : Z) :
  (forall m, 0 <= m < W ->
             strncmp name (pair_name (names_at nm m)) len <> Eq) ->
  0 <= L < R -> R <= W -> R < 2 ^ 63 ->
  find_name_loop fuel nm name len L R = UINT16_MAX.
Proof.
  intros Hcmp. revert L R.
  induction fuel as [|fuel IH]; intros L R HL HW Hb; [reflexivity|].
  cbn [find_name_loop].
  rewrite (u64_small (L + R)) by lia.
  assert (HmR : L <= (L + R) / 2 < R).
  { split; [apply Z.div_le_lower_bound|apply Z.div_lt_upper_bound]; lia. }
  specialize (Hcmp ((L + R) / 2) ltac:(lia)) as Hm.
  destruct (strncmp name (pair_name (names_at nm ((L + R) / 2))) len).
  - contradiction.
  - rewrite u64_small by lia.
    destruct (Z.ltb_spec 1 ((L + R) / 2 - L)); [|reflexivity].
    apply IH; lia.
  - rewrite u64_small by lia.
    destruct (Z.ltb_spec 1 (R - (L + R) / 2)); [|reflexivity].
    apply IH; lia.
Qed.

Lemma find_name_none (h : gsd_handle) (name : list byte) :
  0 <= namelist_written_entries h < 2 ^ 63 ->
  (forall m, 0 <= m < namelist_written_entries h ->
     strncmp name (pair_name (names_at (names h) m)) (strlen name) <> Eq) ->
  gsd_find_name h name = UINT16_MAX.
Proof.
  intros Hw Hcmp. unfold gsd_find_name.
  destruct (Z.eqb_spec (namelist_written_entries h) 0) as [|Hnz];
    [reflexivity|].
  specialize (Hcmp 0 ltac:(lia)) as H0.
  destruct (strncmp name (pair_name (names_at (names h) 0)) (strlen name)).
  - contradiction.
  - reflexivity.
  - apply (find_name_loop_none _ _ _ _ (namelist_written_entries h));
      [exact Hcmp|lia|lia|lia].
Qed.

Lemma name_pairs_cons (from : nat) (n : list byte) (l : list (list byte)) :
  name_pairs from (n :: l) = mk_pair n (Z.of_nat from) :: name_pairs (S from) l.
Proof. reflexivity. Qed.

Lemma name_pairs_length (from : nat) (l : list (list byte)) :
  length (name_pairs from l) = length l.
Proof.
  revert from. induction l as [|n r IH]; intros from; [reflexivity|].
  rewrite name_pairs_cons. cbn [length]. rewrite IH. reflexivity.
Qed.

Lemma name_pairs_names (from : nat) (l : list (list byte)) :
  map pair_name (name_pairs from l) = l.
Proof.
  revert from. induction l as [|n r IH]; intros from; [reflexivity|].
  rewrite name_pairs_cons. cbn [map pair_name]. rewrite IH. reflexivity.
Qed.

Lemma name_pairs_app (from : nat) (l1 l2 : list (list byte)) :
  name_pairs from (l1 ++ l2)
  = name_pairs from l1 ++ name_pairs (from + length l1) l2.
Proof.
  revert from. induction l1 as [|n r IH]; intros from.
  - cbn [app length name_pairs]. rewrite Nat.add_0_r. reflexivity.
  - cbn [app length]. rewrite !name_pairs_cons, IH. cbn [app].
    do 3 f_equal. lia.
Qed.

Lemma name_pairs_nth (from : nat) (l : list (list byte)) (j : nat)
  (n : list byte) :
  nth_error l j = Some n ->
  nth_error (name_pairs from l) j = Some (mk_pair n (Z.of_nat (from + j))).
Proof.
  revert from j. induction l as [|x r IH]; intros from j.
  - destruct j; discriminate.
  - rewrite name_pairs_cons. destruct j as [|j]; cbn [nth_error].
    + intros [= <-]. rewrite Nat.add_0_r. reflexivity.
    + intros H. rewrite (IH (S from) j H). do 3 f_equal. lia.
Qed.

Lemma name_pairs_In (from : nat) (l : list (list byte))
  (p : gsd_name_id_pair) :
  In p (name_pairs from l) ->
  exists j, nth_error l j = Some (pair_name p)
            /\ pair_id p = Z.of_nat (from + j).
Proof.
  revert from. induction l as [|x r IH]; intros from; [intros []|].
  rewrite name_pairs_cons. intros [<-|H].
  - exists 0%nat. split; [reflexivity|]. cbn [pair_id]. f_equal. lia.
  - apply IH in H. destruct H as (j & Hj & Hid).
    exists (S j). split; [exact Hj|]. rewrite Hid. f_equal. lia.
Qed.

Lemma unrelated_pairs (l : list gsd_name_id_pair) :
  NoDup (map pair_name l) -> prefix_free (map pair_name l) ->
  ForallOrdPairs (fun p q => unrelated (pair_name p) (pair_name q)) l.
Proof.
  induction l as [|p r IH]; intros Hnd Hpf; [constructor|].
  cbn [map] in Hnd. apply NoDup_cons_iff in Hnd. destruct Hnd as [Hp Hr].
  constructor.
  - apply Forall_forall. intros q Hq.
    assert (Hin : In (pair_name q) (map pair_name r)) by (apply in_map; exact Hq).
    split.
    + destruct (has_prefix (pair_name p) (pair_name q)) eqn:E; [|reflexivity].
      exfalso. apply Hp.
      rewrite (Hpf _ _ (or_introl eq_refl) (or_intror Hin) E). exact Hin.
    + destruct (has_prefix (pair_name q) (pair_name p)) eqn:E; [|reflexivity].
      exfalso. apply Hp.
      rewrite <- (Hpf _ _ (or_intror Hin) (or_introl eq_refl) E). exact Hin.
  - apply IH; [exact Hr|].
    intros a b Ha Hb. apply Hpf; right; assumption.
Qed.

(** Sorting the pairs of names of which none is a prefix of another one
    gives a cache that is a permutation of the pairs and separated. *)
Lemma sorted_cache (l : list gsd_name_id_pair) (ns : list (list byte)) :
  Permutation (name_pairs 0 ns) l -> NoDup ns -> prefix_free ns ->
  Permutation (name_pairs 0 ns) (sort_pairs l)
  /\ names_separated (map pair_name (sort_pairs l)) = true.
Proof.
  intros Hp Hnd Hpf. split.
  - apply perm_trans with l; [exact Hp|apply sort_pairs_perm].
  - apply sort_pairs_separated.
    assert (Hm : Permutation ns (map pair_name l)).
    { rewrite <- (name_pairs_names 0 ns) at 1. apply Permutation_map.
      exact Hp. }
    apply unrelated_pairs.
    + apply (Permutation_NoDup Hm). exact Hnd.
    + intros a b Ha Hb. apply Hpf.
      * apply (Permutation_in a (Permutation_sym Hm)). exact Ha.
      * apply (Permutation_in b (Permutation_sym Hm)). exact Hb.
Qed.

(** What a lookup needs of the handle: the cache holds the committed names
    [ns], sorted and separated, before the names added since. *)
Lemma get_id_committed (h : gsd_handle) (ns : list (list byte))
  (cp pp : list gsd_name_id_pair) (j : nat) (n : list byte) :
  names h = cp ++ pp -> Permutation (name_pairs 0 ns) cp ->
  names_separated (map pair_name cp) = true ->
  namelist_written_entries h = Z.of_nat (length ns) ->
  Z.of_nat (length ns) <= UINT16_MAX ->
  nth_error ns j = Some n ->
  gsd_get_id h n = Z.of_nat j.
Proof.
  intros Hn Hp Hs Hw Hb Hj.
  assert (Hlen : length cp = length ns).
  { rewrite <- (Permutation_length Hp). apply name_pairs_length. }
  assert (Hin : In (mk_pair n (Z.of_nat j)) cp).
  { apply (Permutation_in _ Hp).
    apply (nth_error_In _ j). rewrite (name_pairs_nth 0 ns j n Hj).
    reflexivity. }
  apply In_nth_error in Hin. destruct Hin as (i & Hi).
  assert (Hil : (i < length cp)%nat) by (apply nth_error_Some; congruence).
  assert (Hcn : committed_names h = map pair_name cp).
  { unfold committed_names. rewrite Hw, Nat2Z.id, Hn, <- Hlen.
    rewrite firstn_app, Nat.sub_diag, firstn_all. cbn [firstn].
    rewrite app_nil_r. reflexivity. }
  assert (Hni : nth i (committed_names h) [] = n).
  { rewrite Hcn. change [] with (pair_name null_pair). rewrite map_nth.
    rewrite (nth_error_nth _ _ _ Hi). reflexivity. }
  assert (Hf : gsd_find_name h n = Z.of_nat i).
  { rewrite <- Hni at 1. rewrite <- (Nat2Z.id i) at 1.
    apply find_name_exact.
    - lia.
    - rewrite Hn, length_app. lia.
    - unfold UINT16_MAX in Hb. lia.
    - rewrite Hcn. exact Hs. }
  unfold gsd_get_id. rewrite Hf.
  unfold UINT16_MAX in *.
  destruct (Z.eqb_spec (Z.of_nat i) 65535) as [E|_]; [lia|]. cbn [negb].
  unfold names_at. rewrite Nat2Z.id, Hn, app_nth1 by exact Hil.
  rewrite (nth_error_nth _ _ _ Hi). reflexivity.
Qed.

Lemma get_id_unknown (h : gsd_handle) (ns : list (list byte))
  (cp pp : list gsd_name_id_pair) (n : list byte) :
  names h = cp ++ pp -> Permutation (name_pairs 0 ns) cp ->
  namelist_written_entries h = Z.of_nat (length ns) ->
  Z.of_nat (length ns) <= UINT16_MAX ->
  (forall m, In m ns -> has_prefix n m = false) ->
  gsd_get_id h n = UINT16_MAX.
Proof.
  intros Hn Hp Hw Hb Hu. unfold UINT16_MAX in Hb.
  assert (Hlen : length cp = length ns).
  { rewrite <- (Permutation_length Hp). apply name_pairs_length. }
  apply get_id_not_found. apply find_name_none; [lia|].
  intros m Hm. rewrite Hw in Hm.
  unfold names_at. rewrite Hn, app_nth1 by lia.
  assert (Hin : In (nth (Z.to_nat m) cp null_pair) cp) by (apply nth_In; lia).
  apply (Permutation_in _ (Permutation_sym Hp)) in Hin.
  apply name_pairs_In in Hin. destruct Hin as (j & Hj & _).
  apply nth_error_In in Hj. specialize (Hu _ Hj).
  unfold has_prefix in Hu. intros E. rewrite E in Hu. discriminate.
Qed.

(** ** The search of [gsd_find_chunk] *)

(** On an index whose frames do not decrease the bisection ends at the last
    entry with a frame up to [fr]. *)
Lemma find_chunk_bisect_spec (idx : buffer) (fr n : Z) (fuel : nat) (L R : Z) :
  (forall i j, 0 <= i <= j -> j < n ->
     frame (entry_at idx i) <= frame (entry_at idx j)) ->
  0 <= L < R -> R <= n -> n < 2 ^ 63 ->
  frame (entry_at idx L) <= fr ->
  (R < n -> fr < frame (entry_at idx R)) ->
  R - L <= Z.of_nat fuel ->
  let r := find_chunk_bisect fuel idx fr L R in
  L <= r < R /\ frame (entry_at idx r) <= fr
  /\ forall j, r < j < n -> fr < frame (entry_at idx j).
Proof.
  intros Hmono. revert L R.
  induction fuel as [|fuel IH]; intros L R HL HR Hn HFL HFR Hf; [lia|].
  cbn [find_chunk_bisect]. rewrite (u64_small (L + R)) by lia.
  assert (Hm : L <= (L + R) / 2 < R).
  { split; [apply Z.div_le_lower_bound|apply Z.div_lt_upper_bound]; lia. }
  assert (HmL : 2 <= R - L -> L + 1 <= (L + R) / 2).
  { intros H. apply Z.div_le_lower_bound; lia. }
  remember ((L + R) / 2) as m eqn:Em. clear Em.
  assert (Hend : forall L' R', L <= L' -> L' < R' -> R' <= R ->
            R' - L' <= 1 ->
            frame (entry_at idx L') <= fr ->
            (R' < n -> fr < frame (entry_at idx R')) ->
            L <= L' < R /\ frame (entry_at idx L') <= fr
            /\ forall j, L' < j < n -> fr < frame (entry_at idx j)).
  { intros L' R' H1 H2 H3 H4 H5 H6. split; [lia|]. split; [exact H5|].
    intros j Hj. assert (E : R' = L' + 1) by lia.
    apply Z.lt_le_trans with (frame (entry_at idx R')); [apply H6; lia|].
    apply Hmono; lia. }
  destruct (Z.ltb_spec fr (frame (entry_at idx m))) as [Hlt|Hge].
  - assert (HmL' : m <> L) by (intros ->; lia).
    rewrite u64_small by lia.
    destruct (Z.ltb_spec 1 (m - L)) as [Hgo|Hstop].
    + destruct (IH L m) as (I1 & I2 & I3); try lia.
      split; [lia|]. split; assumption.
    + apply (Hend L m); lia.
  - rewrite u64_small by lia.
    destruct (Z.ltb_spec 1 (R - m)) as [Hgo|Hstop].
    + destruct (IH m R) as (I1 & I2 & I3); try lia.
      split; [lia|]. split; assumption.
    + apply (Hend m R); lia.
Qed.

(** The scan returns the first entry of frame [fr] with the id, downwards
    from [cur]. *)
Lemma find_chunk_scan_spec (rounds : nat) (idx : buffer) (fr mid cur : Z) :
  -1 <= cur -> cur + 2 <= Z.of_nat rounds ->
  match find_chunk_scan rounds idx fr mid cur with
  | Some e =>
      exists i, 0 <= i <= cur /\ e = entry_at idx i
                /\ frame (entry_at idx i) = fr /\ id (entry_at idx i) = mid
  | None =>
      forall i, 0 <= i <= cur ->
        (forall j, i <= j <= cur -> frame (entry_at idx j) = fr) ->
        id (entry_at idx i) <> mid
  end.
Proof.
  revert cur. induction rounds as [|r IH]; intros cur Hc Hr; [lia|].
  cbn [find_chunk_scan].
  destruct (Z.leb_spec 0 cur) as [Hpos|Hneg]; cbn [andb]; [|intros i Hi; lia].
  destruct (Z.eqb_spec (frame (entry_at idx cur)) fr) as [Hfr|Hfr].
  - destruct (Z.eqb_spec mid (id (entry_at idx cur))) as [Hid|Hid].
    + exists cur. split; [lia|]. split; [reflexivity|].
      split; [exact Hfr|symmetry; exact Hid].
    + specialize (IH (cur - 1) ltac:(lia) ltac:(lia)).
      destruct (find_chunk_scan r idx fr mid (cur - 1)) as [e|].
      * destruct IH as (i & Hi & He). exists i. split; [lia|exact He].
      * intros i Hi Hrun.
        destruct (Z.eq_dec i cur) as [->|Hne]; [congruence|].
        apply IH; [lia|]. intros j Hj. apply Hrun. lia.
  - intros i Hi Hrun. exfalso. apply Hfr. apply Hrun. lia.
Qed.

(** ** The index of a session in memory *)

Lemma entry_for_app (ns pns : list (list byte)) (e : gsd_index_entry)
  (fr : Z) (c : chunk) :
  entry_for ns e fr c -> entry_for (ns ++ pns) e fr c.
Proof.
  intros [H1 H2 H3 H4 H5 H6 H7]. constructor; try assumption.
  rewrite nth_error_app1; [exact H7|].
  apply nth_error_Some. rewrite H7. discriminate.
Qed.

Lemma entry_for_id (ns : list (list byte)) (e : gsd_index_entry) (fr : Z)
  (c : chunk) :
  entry_for ns e fr c -> 0 <= id e < Z.of_nat (length ns).
Proof.
  intros [_ _ _ _ _ H6 H7]. split; [exact H6|].
  assert (H : (Z.to_nat (id e) < length ns)%nat)
    by (apply nth_error_Some; rewrite H7; discriminate).
  lia.
Qed.

(** The fields of the invariant under fixed names. *)
Ltac inv_fields H :=
  let I := fresh "I" in
  pose proof H as I;
  destruct I as [Hon Hlay Hreg Hdn Hlog Hpn Hnd Hdx Hwr Hnum Hcf Hnw Hnn Hnr
                 Hnl Hca Hco Hun Hpe Hfm].

Section Session.

Variables (h : gsd_handle) (f : file) (ns pns : list (list byte))
  (log : list (list chunk)) (pend : list chunk).
Hypothesis Hinv : session_inv h f ns pns log pend.

Lemma inv_alloc_bound : index_allocated_entries (header h) < 2 ^ 63.
Proof.
  inv_fields Hinv. destruct Hon as [_ _ Hh Hs _ Hb].
  destruct Hreg as [R1 _ _ _]. rewrite <- Hh in R1.
  unfold sizeof_index_entry, OFF_MAX, sizeof_header in *. lia.
Qed.

Lemma inv_names_bound : Z.of_nat (length (ns ++ pns)) <= UINT16_MAX.
Proof.
  inv_fields Hinv. destruct Hreg as [_ _ _ R]. lia.
Qed.

Lemma inv_committed_bound : Z.of_nat (length ns) <= UINT16_MAX.
Proof.
  pose proof inv_names_bound as H. rewrite length_app in H. lia.
Qed.

Lemma inv_num_bound :
  Z.of_nat (length (number_frames 0 log) + length pend)
  <= index_allocated_entries (header h).
Proof.
  inv_fields Hinv. destruct Hdx as [Hc _ _]. destruct Hon as [_ _ Hh _ _ _].
  rewrite Hh. exact Hc.
Qed.

(** Entry [i] of the index as the handle holds it. *)
Lemma inv_entry (i : nat) (fr : Z) (c : chunk) :
  nth_error (number_frames 0 (log ++ [pend])) i = Some (fr, c) ->
  entry_for (ns ++ pns)
    (entry_at (index h)
       (if (i <? length (number_frames 0 log))%nat then Z.of_nat i
        else memory_slot h (Z.of_nat i))) fr c
  /\ stored f
       (entry_at (index h)
          (if (i <? length (number_frames 0 log))%nat then Z.of_nat i
           else memory_slot h (Z.of_nat i))) c
  \/ open_flags h = GSD_OPEN_APPEND /\ (i < length (number_frames 0 log))%nat.
Proof.
  rewrite number_frames_last. intros Hi.
  destruct (Nat.ltb_spec i (length (number_frames 0 log))) as [Hlt|Hge].
  - rewrite nth_error_app1 in Hi by exact Hlt.
    destruct (open_flags h) eqn:Hm; [| |right; split; [reflexivity|exact Hlt]];
      left.
    all: inv_fields Hinv; rewrite Hco by (try lia; congruence);
      destruct Hdx as [_ He _]; destruct (He _ _ _ Hi) as [E S];
      split; [apply entry_for_app; exact E|exact S].
  - left. rewrite nth_error_app2 in Hi by exact Hge.
    rewrite nth_error_map in Hi.
    destruct (nth_error pend (i - length (number_frames 0 log))) as [c'|]
      eqn:Ej; [|discriminate].
    injection Hi as <- <-.
    inv_fields Hinv. specialize (Hpe _ _ Ej). cbn zeta in Hpe.
    replace (Z.of_nat (length (number_frames 0 log))
             + Z.of_nat (i - length (number_frames 0 log)))
      with (Z.of_nat i) in Hpe by lia.
    exact Hpe.
Qed.

Hypothesis Hmode : open_flags h <> GSD_OPEN_APPEND.

Lemma inv_entry_direct (i : Z) :
  0 <= i < Z.of_nat (length (number_frames 0 log) + length pend) ->
  exists fr c,
    nth_error (number_frames 0 (log ++ [pend])) (Z.to_nat i) = Some (fr, c)
    /\ entry_for (ns ++ pns) (entry_at (index h) i) fr c
    /\ stored f (entry_at (index h) i) c.
Proof.
  intros Hi.
  destruct (nth_error (number_frames 0 (log ++ [pend])) (Z.to_nat i))
    as [[fr c]|] eqn:E.
  - exists fr, c. split; [reflexivity|].
    destruct (inv_entry _ _ _ E) as [H|[H _]]; [|contradiction].
    unfold memory_slot in H.
    destruct (open_flags h); try contradiction; cbn [open_flag_eqb] in H;
      destruct (_ <? _)%nat; rewrite Z2Nat.id in H by lia; exact H.
  - apply nth_error_None in E.
    rewrite number_frames_last, length_app, length_map in E. lia.
Qed.

Lemma inv_entry_committed (i : nat) (fr : Z) (c : chunk) :
  nth_error (number_frames 0 log) i = Some (fr, c) ->
  entry_at (index h) (Z.of_nat i) = file_entry f (Z.of_nat i)
  /\ entry_for ns (file_entry f (Z.of_nat i)) fr c
  /\ stored f (file_entry f (Z.of_nat i)) c.
Proof.
  intros Hi. inv_fields Hinv.
  assert (Hl : (i < length (number_frames 0 log))%nat)
    by (apply nth_error_Some; rewrite Hi; discriminate).
  split; [apply Hco; [exact Hmode|lia]|].
  destruct Hdx as [_ He _]. apply He. exact Hi.
Qed.

Lemma inv_frames_mono (i j : Z) :
  0 <= i <= j ->
  j < Z.of_nat (length (number_frames 0 log) + length pend) ->
  frame (entry_at (index h) i) <= frame (entry_at (index h) j).
Proof.
  intros Hij Hj.
  destruct (inv_entry_direct i ltac:(lia)) as (fi & ci & Ei & [Fi _ _ _ _ _ _] & _).
  destruct (inv_entry_direct j ltac:(lia)) as (fj & cj & Ej & [Fj _ _ _ _ _ _] & _).
  rewrite Fi, Fj.
  apply (number_frames_mono 0 (log ++ [pend]) (Z.to_nat i) (Z.to_nat j)
           fi fj ci cj); [lia|exact Ei|exact Ej].
Qed.

(** An entry in memory with a committed frame is a committed entry. *)
Lemma inv_entry_of_frame (i : Z) :
  0 <= i < Z.of_nat (length (number_frames 0 log) + length pend) ->
  frame (entry_at (index h) i) < Z.of_nat (length log) ->
  exists c,
    nth_error (number_frames 0 log) (Z.to_nat i)
    = Some (frame (entry_at (index h) i), c)
    /\ nth_error (ns ++ pns) (Z.to_nat (id (entry_at (index h) i)))
       = Some (c_name c).
Proof.
  intros Hi Hfr.
  destruct (inv_entry_direct i Hi) as (fi & ci & Ei & [Fi _ _ _ _ _ Ni] & _).
  exists ci. split; [|exact Ni].
  rewrite number_frames_last in Ei.
  destruct (Nat.lt_ge_cases (Z.to_nat i) (length (number_frames 0 log)))
    as [Hlt|Hge].
  - rewrite nth_error_app1 in Ei by exact Hlt. rewrite Fi. exact Ei.
  - rewrite nth_error_app2 in Ei by exact Hge. rewrite nth_error_map in Ei.
    destruct (nth_error pend _); [|discriminate]. injection Ei as E _. lia.
Qed.

(** [gsd_find_chunk] on a committed frame: the result is the entry of the
    chunk of that frame with the name, if there is one. *)
Lemma find_chunk_inv (fr : Z) (name : list byte) :
  0 <= fr < Z.of_nat (length log) ->
  (forall m, In m ns -> has_prefix name m = true -> m = name) ->
  match gsd_find_chunk (Some h) fr (Some name) with
  | Some e =>
      exists i c, nth_error (number_frames 0 log) i = Some (fr, c)
                  /\ c_name c = name /\ e = file_entry f (Z.of_nat i)
  | None => forall c, In (fr, c) (number_frames 0 log) -> c_name c <> name
  end.
Proof.
  intros Hfr Hq. inv_fields Hinv. pose proof Hfm as Hne.
  pose proof inv_committed_bound as Hcb.
  destruct Hca as (cp & Hnames & Hperm & Hsep).
  unfold gsd_find_chunk, gsd_get_nframes. rewrite Hcf.
  destruct (Z.leb_spec (Z.of_nat (length log)) fr) as [|_]; [lia|].
  replace (open_flag_eqb (open_flags h) GSD_OPEN_APPEND) with false
    by (destruct (open_flags h); try reflexivity; contradiction).
  assert (Hknown : forall c, In (fr, c) (number_frames 0 log) ->
            c_name c = name ->
            exists j, nth_error ns j = Some name
                      /\ gsd_get_id h name = Z.of_nat j).
  { intros c Hin Hn. apply In_nth_error in Hin. destruct Hin as (i & Hi).
    destruct (inv_entry_committed _ _ _ Hi) as (_ & [_ _ _ _ _ I1 I2] & _).
    rewrite Hn in I2. exists (Z.to_nat (id (file_entry f (Z.of_nat i)))).
    split; [exact I2|].
    exact (get_id_committed h ns cp _ _ name Hnames Hperm Hsep Hnw Hcb I2). }
  destruct (Z.eqb_spec (gsd_get_id h name) UINT16_MAX) as [Emax|Hid].
  { intros c Hin Hn. destruct (Hknown c Hin Hn) as (j & Hj & Eid).
    assert (Hjl : (j < length ns)%nat)
      by (apply nth_error_Some; rewrite Hj; discriminate).
    lia. }
  assert (Hj : exists j, nth_error ns j = Some name
                         /\ gsd_get_id h name = Z.of_nat j).
  { destruct (in_dec (list_eq_dec byte_eq_dec) name ns) as [Hin|Hnin].
    - apply In_nth_error in Hin. destruct Hin as (j & Hj). exists j.
      split; [exact Hj|].
      exact (get_id_committed h ns cp _ _ name Hnames Hperm Hsep Hnw Hcb Hj).
    - exfalso. apply Hid.
      apply (get_id_unknown h ns cp _ name Hnames Hperm Hnw Hcb).
      intros m Hm. destruct (has_prefix name m) eqn:E; [|reflexivity].
      exfalso. apply Hnin. rewrite <- (Hq m Hm E). exact Hm. }
  destruct Hj as (j & Hj & Eid). rewrite Eid.
  set (T := Z.of_nat (length (number_frames 0 log) + length pend)).
  assert (HK : (0 < length (number_frames 0 log))%nat).
  { destruct (number_frames 0 log) eqn:E; [|cbn; lia].
    apply number_frames_empty in E; [|exact Hne]. rewrite E in Hfr.
    cbn in Hfr. lia. }
  pose proof inv_alloc_bound as Hab. pose proof inv_num_bound as Hnb.
  assert (H0 : frame (entry_at (index h) 0) <= fr).
  { destruct (nth_error (number_frames 0 log) 0) as [[f0 c0]|] eqn:E0.
    - destruct (inv_entry_committed _ _ _ E0) as (Em & [F0 _ _ _ _ _ _] & _).
      change (Z.of_nat 0) with 0 in Em. rewrite Em.
      change (Z.of_nat 0) with 0 in F0. rewrite F0.
      apply (number_frames_bounds 0 log 0 f0 c0 Hne) in E0. lia.
    - apply nth_error_None in E0. lia. }
  rewrite Hnum. fold T.
  destruct (find_chunk_bisect_spec (index h) fr T (S (Z.to_nat T)) 0 T)
    as (HL & HFL & Habove); try (unfold T; lia).
  { intros a b Hab' Hb. apply inv_frames_mono; [exact Hab'|exact Hb]. }
  set (L := find_chunk_bisect (S (Z.to_nat T)) (index h) fr 0 T) in *.
  pose proof (find_chunk_scan_spec (S (S (Z.to_nat L))) (index h) fr
                (Z.of_nat j) L ltac:(lia) ltac:(lia)) as Hscan.
  destruct (find_chunk_scan (S (S (Z.to_nat L))) (index h) fr (Z.of_nat j) L)
    as [e|].
  - destruct Hscan as (i & Hi & -> & Fi & Ii).
    destruct (inv_entry_of_frame i ltac:(unfold T in *; lia) ltac:(lia))
      as (c & Ec & En).
    rewrite Fi in Ec. exists (Z.to_nat i), c. split; [exact Ec|].
    rewrite Ii, Nat2Z.id in En.
    rewrite nth_error_app1 in En
      by (apply nth_error_Some; rewrite Hj; discriminate).
    split; [congruence|].
    rewrite Z2Nat.id by lia. apply Hco; [exact Hmode|].
    assert (Hl : (Z.to_nat i < length (number_frames 0 log))%nat)
      by (apply nth_error_Some; rewrite Ec; discriminate).
    lia.
  - intros c Hin Hn. apply In_nth_error in Hin. destruct Hin as (i & Hi).
    assert (Hil : (i < length (number_frames 0 log))%nat)
      by (apply nth_error_Some; rewrite Hi; discriminate).
    destruct (inv_entry_committed _ _ _ Hi) as (Em & [F1 _ _ _ _ I1 I2] & _).
    rewrite <- Em in F1, I1, I2.
    assert (HiL : Z.of_nat i <= L).
    { destruct (Z.le_gt_cases (Z.of_nat i) L) as [|Hgt]; [assumption|].
      specialize (Habove (Z.of_nat i) ltac:(unfold T; lia)). lia. }
    apply (Hscan (Z.of_nat i) ltac:(lia)).
    + intros k Hk.
      pose proof (inv_frames_mono (Z.of_nat i) k ltac:(lia)
                    ltac:(unfold T in *; lia)).
      pose proof (inv_frames_mono k L ltac:(lia) ltac:(unfold T in *; lia)).
      lia.
    + rewrite Hn in I2.
      destruct Hdn as [_ _ _ Hnd'].
      pose proof (proj1 (NoDup_nth_error ns) Hnd' _ _
                    ltac:(apply nth_error_Some; rewrite I2; discriminate)
                    ltac:(rewrite I2, Hj; reflexivity)) as E.
      lia.
Qed.

End Session.

(** ** Reading a committed chunk *)

Lemma sizeof_type_range (t : Z) :
  gsd_sizeof_type t <> 0 -> 1 <= t <= 10 /\ 1 <= gsd_sizeof_type t <= 8.
Proof.
  unfold gsd_sizeof_type, GSD_TYPE_UINT8, GSD_TYPE_UINT16, GSD_TYPE_UINT32,
    GSD_TYPE_UINT64, GSD_TYPE_INT8, GSD_TYPE_INT16, GSD_TYPE_INT32,
    GSD_TYPE_INT64, GSD_TYPE_FLOAT, GSD_TYPE_DOUBLE.
  repeat match goal with
         | |- context [t =? ?k] =>
             destruct (Z.eqb_spec t k) as [->|?];
             [intros _; vm_compute; repeat split; intros; discriminate|]
         end.
  intros H. exfalso. apply H. reflexivity.
Qed.

Lemma chunk_ok_size (c : chunk) : chunk_ok c -> 0 < c_size c < 2 ^ 64.
Proof.
  intros [_ HN HM HT HS _]. split; [|exact HS].
  destruct (sizeof_type_range _ HT) as [_ Hs]. unfold c_size.
  apply Z.mul_pos_pos; [apply Z.mul_pos_pos|]; lia.
Qed.

Lemma load_eq_list (mem : buffer) (off : Z) (l : list byte) :
  (forall o b, nth_error l o = Some b -> mem (off + Z.of_nat o) = b) ->
  load mem off (length l) = l.
Proof.
  intros H. apply nth_ext with (d := x00) (d' := x00).
  - apply load_length.
  - intros o Ho. rewrite load_length in Ho.
    rewrite nth_load by exact Ho. apply H.
    apply nth_error_nth'. exact Ho.
Qed.

Lemma entry_chunk_size (ns : list (list byte)) (e : gsd_index_entry) (fr : Z)
  (c : chunk) :
  entry_for ns e fr c -> chunk_ok c -> chunk_size e = c_size c.
Proof.
  intros [_ HN HM HT _ _ _] Hc. unfold chunk_size. rewrite HN, HM, HT.
  apply u64_small. pose proof (chunk_ok_size c Hc). unfold c_size in *. lia.
Qed.

(** [gsd_read_chunk] on the entry of a stored chunk delivers the payload. *)
Lemma read_chunk_stored (h : gsd_handle) (f : file) (ns : list (list byte))
  (e : gsd_index_entry) (fr : Z) (c : chunk) (dst : buffer) :
  fd h = Some f -> file_size h = fsize f -> fsize f <= OFF_MAX ->
  open_flags h <> GSD_OPEN_APPEND ->
  entry_for ns e fr c -> stored f e c -> chunk_ok c ->
  exists buf,
    gsd_read_chunk (Some h) (Some dst) (Some e) = (GSD_SUCCESS, Some buf)
    /\ load buf 0 (length (c_data c)) = c_data c.
Proof.
  intros Hfd Hfs Hmax Hmode He Hst Hc.
  pose proof (entry_chunk_size _ _ _ _ He Hc) as Hsz.
  pose proof (chunk_ok_size c Hc) as Hpos.
  destruct Hst as [S1 S2 S3 _ _ _]. unfold sizeof_header in S1.
  unfold gsd_read_chunk.
  replace (open_flag_eqb (open_flags h) GSD_OPEN_APPEND) with false
    by (destruct (open_flags h); try reflexivity; contradiction).
  rewrite Hsz.
  destruct (Z.eqb_spec (c_size c) 0) as [|_]; [lia|].
  destruct (Z.eqb_spec (location e) 0) as [|_]; [lia|].
  rewrite Hfs, u64_small by (unfold OFF_MAX in Hmax; lia).
  destruct (Z.ltb_spec (fsize f) (location e + c_size c)) as [|_]; [lia|].
  rewrite Hfd.
  destruct (pread_inside_gen f (c_size c) (location e)) as [P1 P2];
    [lia|lia|lia|exact Hmax|].
  destruct (gsd_pread_retry (Some f) (c_size c) (location e)) as [n buf].
  cbn [fst snd] in P1, P2. subst n.
  destruct (Z.eqb_spec (c_size c) (-1)) as [|_]; [lia|].
  rewrite Z.eqb_refl. cbn [orb negb].
  eexists. split; [reflexivity|].
  apply load_eq_list. intros o b Ho.
  assert (Hl : (o < length (c_data c))%nat)
    by (apply nth_error_Some; rewrite Ho; discriminate).
  destruct Hc as [_ _ _ _ _ Hd].
  rewrite Z.add_0_l.
  destruct (Z.leb_spec 0 (Z.of_nat o)); [|lia].
  destruct (Z.ltb_spec (Z.of_nat o) (c_size c)); [|lia]. cbn [andb].
  rewrite P2 by lia. apply S3. exact Ho.
Qed.

(** ** Opening a file that holds committed frames *)

Lemma log_names_ok (log : list (list chunk)) (n : list byte) :
  log_ok log -> In n (log_names log) -> name_ok n.
Proof.
  intros [_ Hc _ _] Hin. unfold log_names in Hin.
  apply in_map_iff in Hin. destruct Hin as (c & <- & Hin).
  apply (ck_name c). apply Hc. exact Hin.
Qed.

Lemma first_empty_name_spec (r : nat) (nl : buffer) (i k : Z) :
  i <= k <= i + Z.of_nat r ->
  (forall j, i <= j < k -> is_nul (nl (sizeof_namelist_entry * j)) = false) ->
  (k < i + Z.of_nat r -> is_nul (nl (sizeof_namelist_entry * k)) = true) ->
  match first_empty_name r nl i with
  | Some x => x = k
  | None => k = i + Z.of_nat r
  end.
Proof.
  revert i. induction r as [|r IH]; intros i Hk Hfull Hfree.
  - cbn [first_empty_name]. lia.
  - cbn [first_empty_name].
    destruct (Z.eq_dec i k) as [->|Hne].
    + rewrite Hfree by lia. reflexivity.
    + rewrite Hfull by lia.
      specialize (IH (i + 1) ltac:(lia)).
      destruct (first_empty_name r nl (i + 1)).
      * apply IH; [intros j Hj; apply Hfull; lia|intros H; apply Hfree; lia].
      * rewrite IH; [lia|intros j Hj; apply Hfull; lia
                     |intros H; apply Hfree; lia].
Qed.

Lemma disk_name_head (f : file) (ns : list (list byte)) (j : nat)
  (n : list byte) :
  disk_names f ns -> name_ok n -> nth_error ns j = Some n ->
  is_nul (file_byte f (namelist_location (file_header f)
                       + sizeof_namelist_entry * Z.of_nat j)) = false.
Proof.
  intros [_ Hn _ _] Hok Hj.
  pose proof (Hn j n Hj) as H.
  apply (f_equal (hd x00)) in H.
  rewrite <- (name_ok_field_head n Hok), <- H.
  cbn [load seq map hd]. rewrite Z.add_0_r. reflexivity.
Qed.

Lemma disk_names_count (f : file) (ns : list (list byte)) :
  disk_names f ns -> (forall n, In n ns -> name_ok n) ->
  file_name_count f = Z.of_nat (length ns).
Proof.
  intros Hdn Hok.
  pose proof (header_fields_range f) as (_ & _ & _ & Hr).
  pose proof (dn_count f ns Hdn) as Hc.
  unfold file_name_count.
  pose proof (first_empty_name_spec
                (Z.to_nat (namelist_allocated_entries (file_header f)))
                (shift (file_byte f) (namelist_location (file_header f)))
                0 (Z.of_nat (length ns))) as H.
  destruct (first_empty_name _ _ 0).
  - apply H; [lia| |].
    + intros j Hj. unfold shift.
      destruct (nth_error ns (Z.to_nat j)) as [n|] eqn:E.
      * rewrite <- (Z2Nat.id j) by lia.
        apply (disk_name_head f ns _ n Hdn); [|exact E].
        apply Hok. apply (nth_error_In _ _ E).
      * apply nth_error_None in E. lia.
    + intros Hlt. unfold shift. rewrite (dn_free f ns Hdn) by lia.
      reflexivity.
  - rewrite H; [lia|lia| |].
    + intros j Hj. unfold shift.
      destruct (nth_error ns (Z.to_nat j)) as [n|] eqn:E.
      * rewrite <- (Z2Nat.id j) by lia.
        apply (disk_name_head f ns _ n Hdn); [|exact E].
        apply Hok. apply (nth_error_In _ _ E).
      * apply nth_error_None in E. lia.
    + intros Hlt. unfold shift. rewrite (dn_free f ns Hdn) by lia.
      reflexivity.
Qed.

Lemma initial_names_pairs (nl : buffer) (ns : list (list byte)) (from : nat) :
  (forall j n, nth_error ns j = Some n ->
     name_at nl (Z.of_nat (from + j)) = n) ->
  Z.of_nat (from + length ns) <= 65536 ->
  map (fun i => mk_pair (name_at nl (Z.of_nat i)) (u16 (Z.of_nat i)))
    (seq from (length ns))
  = name_pairs from ns.
Proof.
  revert from. induction ns as [|n r IH]; intros from Hn Hb; [reflexivity|].
  cbn [length seq map]. rewrite name_pairs_cons. f_equal.
  - rewrite <- (Nat.add_0_r from) at 1. rewrite (Hn 0%nat n eq_refl).
    f_equal. unfold u16. apply Z.mod_small. cbn [length] in Hb. lia.
  - apply IH.
    + intros j m Hj. replace (S from + j)%nat with (from + S j)%nat by lia.
      apply Hn. exact Hj.
    + cbn [length] in Hb. lia.
Qed.

(** The entries of a file with committed frames pass the validation. *)
Lemma disk_entry_valid (f : file) (ns : list (list byte))
  (log : list (list chunk)) (i : Z) :
  disk_inv f ns log -> log_ok log ->
  0 <= i < Z.of_nat (length (number_frames 0 log)) ->
  file_entry_valid f i = true.
Proof.
  intros [Hlay Hreg Hdn Hlog [Hcnt Hent _]] Hok Hi.
  destruct (nth_error (number_frames 0 log) (Z.to_nat i)) as [[fr c]|] eqn:E;
    [|apply nth_error_None in E; lia].
  destruct (Hent _ _ _ E) as [He Hst]. rewrite Z2Nat.id in He, Hst by lia.
  assert (Hc : chunk_ok c).
  { apply (lo_chunks log Hok). apply nth_error_In in E.
    apply number_frames_In in E. destruct E as (j & cs & Hj & Hin & _).
    apply in_concat. exists cs. split; [apply (nth_error_In _ _ Hj)|exact Hin]. }
  pose proof (entry_chunk_size _ _ _ _ He Hc) as Hsz.
  pose proof (chunk_ok_size c Hc) as Hpos.
  pose proof (entry_for_id _ _ _ _ He) as Hid.
  pose proof (number_frames_bounds 0 log _ _ _ (lo_frames log Hok) E) as Hb.
  assert (Hnc : file_name_count f = Z.of_nat (length ns)).
  { apply disk_names_count; [exact Hdn|]. intros n Hn.
    apply (log_names_ok log); [exact Hok|apply Hlog; exact Hn]. }
  destruct He as [E1 E2 E3 E4 E5 E6 E7]. destruct Hst as [S1 S2 _ _ _ _].
  destruct Hlay as [[L1 L2] _ _ _ _ _].
  unfold file_entry_valid. rewrite Hsz, E4, E1, E5, Hnc.
  unfold OFF_MAX, sizeof_header in *.
  rewrite u64_small by lia.
  destruct (Z.eqb_spec (gsd_sizeof_type (c_type c)) 0) as [H0|_];
    [destruct Hc; contradiction|].
  cbn [negb andb].
  destruct (Z.leb_spec (location (file_entry f i) + c_size c) (fsize f));
    [|lia].
  destruct (Z.ltb_spec fr (index_allocated_entries (file_header f))); [|lia].
  destruct (Z.ltb_spec (id (file_entry f i)) (Z.of_nat (length ns))); [|lia].
  reflexivity.
Qed.

Lemma disk_index_prefix (f : file) (ns : list (list byte))
  (log : list (list chunk)) :
  disk_inv f ns log ->
  index_prefix f (Z.of_nat (length (number_frames 0 log))).
Proof.
  intros [_ _ _ _ [Hcnt Hent Hfree]]. split; [lia|]. split.
  - intros i Hi.
    destruct (nth_error (number_frames 0 log) (Z.to_nat i)) as [[fr c]|] eqn:E;
      [|apply nth_error_None in E; lia].
    destruct (Hent _ _ _ E) as [_ [S1 _ _ _ _ _]].
    rewrite Z2Nat.id in S1 by lia. unfold sizeof_header in S1. lia.
  - exact Hfree.
Qed.

Lemma disk_frames_mono (f : file) (ns : list (list byte))
  (log : list (list chunk)) (i j : Z) :
  disk_inv f ns log ->
  0 <= i <= j -> j < Z.of_nat (length (number_frames 0 log)) ->
  frame (file_entry f i) <= frame (file_entry f j).
Proof.
  intros [_ _ _ _ [_ Hent _]] Hij Hj.
  destruct (nth_error (number_frames 0 log) (Z.to_nat i)) as [[fi ci]|] eqn:Ei;
    [|apply nth_error_None in Ei; lia].
  destruct (nth_error (number_frames 0 log) (Z.to_nat j)) as [[fj cj]|] eqn:Ej;
    [|apply nth_error_None in Ej; lia].
  destruct (Hent _ _ _ Ei) as [[F1 _ _ _ _ _ _] _].
  destruct (Hent _ _ _ Ej) as [[F2 _ _ _ _ _ _] _].
  rewrite Z2Nat.id in F1, F2 by lia. rewrite F1, F2.
  apply (number_frames_mono 0 log (Z.to_nat i) (Z.to_nat j) fi fj ci cj);
    [lia|exact Ei|exact Ej].
Qed.

(** [gsd_read_header] on a file with committed frames succeeds, and the
    handle starts a session. *)
Lemma read_header_inv (h0 : gsd_handle) (f : file) (ns : list (list byte))
  (log : list (list chunk)) :
  fd h0 = Some f -> disk_inv f ns log -> log_ok log ->
  exists h,
    gsd_read_header h0 = (GSD_SUCCESS, h)
    /\ open_flags h = open_flags h0
    /\ session_inv h f ns [] log [].
Proof.
  intros Hfd Hdi Hok.
  pose proof (disk_index_prefix f ns log Hdi) as Hpre.
  pose proof Hdi as [Hlay Hreg Hdn Hlog Hdx].
  destruct (read_header_spec h0 f _ Hfd Hlay Hpre) as [H1 H2].
  assert (Hs : fst (gsd_read_header h0) = GSD_SUCCESS).
  { apply H2.
    - intros i Hi. apply (disk_entry_valid f ns log); assumption.
    - intros i j Hij Hj. apply (disk_frames_mono f ns log); assumption. }
  destruct H1 as [H1|(_ & Hop & Hfl)]; [rewrite Hs in H1; discriminate|].
  destruct (gsd_read_header h0) as [e h] eqn:Erh. cbn [fst snd] in *.
  subst e. exists h. split; [reflexivity|]. split; [exact Hfl|].
  destruct Hop as [O1 O2 O3 O4 O5 O6 O7 O8 O9 O10 O11].
  assert (Hnok : forall n, In n ns -> name_ok n).
  { intros n Hn. apply (log_names_ok log); [exact Hok|apply Hlog; exact Hn]. }
  pose proof (disk_names_count f ns Hdn Hnok) as Hnc.
  pose proof Hlay as [L1 L2 L3 L4 L5 L6].
  pose proof Hreg as [R1 R2 R3 R4].
  assert (Hnl : forall j n, nth_error ns j = Some n ->
            load (namelist h) (sizeof_namelist_entry * Z.of_nat j) 64
            = strncpy_field 63 n).
  { intros j n Hj. rewrite <- (dn_names f ns Hdn j n Hj).
    assert (Hjl : (j < length ns)%nat)
      by (apply nth_error_Some; rewrite Hj; discriminate).
    pose proof (dn_count f ns Hdn) as Hc.
    rewrite <- (load_shift (file_byte f)).
    apply load_ext. intros k Hk. unfold shift. apply O9.
    unfold sizeof_namelist_entry in *. lia. }
  constructor.
  - constructor; try assumption; rewrite ?O2; assumption.
  - exact Hlay.
  - exact Hreg.
  - exact Hdn.
  - exact Hlog.
  - intros x [].
  - rewrite app_nil_r. exact (dn_nodup f ns Hdn).
  - cbn [length]. rewrite Nat.add_0_r. exact Hdx.
  - exact O5.
  - cbn [length]. rewrite Nat.add_0_r. exact O4.
  - rewrite O6.
    destruct (Z.eqb_spec (Z.of_nat (length (number_frames 0 log))) 0)
      as [E|Hnz].
    + assert (E' : number_frames 0 log = [])
        by (destruct (number_frames 0 log); [reflexivity|discriminate E]).
      apply number_frames_empty in E'; [|exact (lo_frames log Hok)].
      rewrite E'. reflexivity.
    + destruct (nth_error (number_frames 0 log)
                  (length (number_frames 0 log) - 1)) as [[fr c]|] eqn:E;
        [|apply nth_error_None in E; lia].
      pose proof (number_frames_end log fr c (lo_frames log Hok) E) as Hfr.
      pose proof (header_fields_range f) as (_ & _ & Hr & _).
      destruct Hdx as [Hcnt He _].
      destruct (He _ _ _ E) as [[F1 _ _ _ _ _ _] _].
      replace (Z.of_nat (length (number_frames 0 log) - 1))
        with (Z.of_nat (length (number_frames 0 log)) - 1) in F1 by lia.
      rewrite F1, Hfr.
      pose proof (number_frames_bounds 0 log _ _ _ (lo_frames log Hok) E).
      rewrite u64_small by lia. lia.
  - rewrite O8. exact Hnc.
  - rewrite app_nil_r, O7. exact Hnc.
  - rewrite app_nil_r. exact (dn_count f ns Hdn).
  - rewrite app_nil_r. exact Hnl.
  - exists (sort_pairs (name_pairs 0 ns)).
    assert (Hin : initial_names (namelist h) (namelist_num_entries h)
                  = name_pairs 0 ns).
    { unfold initial_names. rewrite O7, Hnc, Nat2Z.id.
      apply initial_names_pairs.
      - intros j n Hj. cbn [Nat.add].
        apply name_at_field; [apply Hnok, (nth_error_In _ _ Hj)|].
        apply Hnl. exact Hj.
      - pose proof (dn_count f ns Hdn). unfold UINT16_MAX in R4. lia. }
    destruct (sorted_cache (name_pairs 0 ns) ns (Permutation_refl _)
                (dn_nodup f ns Hdn)) as [P1 P2].
    { intros a b Ha Hb. apply (lo_prefix log Hok); apply Hlog; assumption. }
    split; [|split; assumption].
    rewrite O10, Hin. cbn [name_pairs length seq combine map].
    rewrite app_nil_r. reflexivity.
  - intros Hm i Hi.
    destruct (open_flags h); cbn [open_flag_eqb] in O11;
      [apply O11|apply O11|contradiction].
  - intros Hm i Hi. cbn [length] in Hi. rewrite Nat.add_0_r in Hi.
    destruct Hdx as [_ _ Hfree].
    destruct (open_flags h); cbn [open_flag_eqb] in O11;
      [rewrite O11; apply Hfree; exact Hi
      |rewrite O11; apply Hfree; exact Hi|contradiction].
  - intros j c Hj. destruct j; discriminate.
  - exact (lo_frames log Hok).
Qed.

(** ** The name of a new chunk *)

Section NameStep.

Variables (h : gsd_handle) (f : file) (ns pns : list (list byte))
  (log : list (list chunk)) (pend : list chunk).
Hypothesis Hinv : session_inv h f ns pns log pend.

Variable name : list byte.
Hypothesis Hname : name_ok name.
Hypothesis Hfree : forall m, In m ns -> has_prefix name m = true -> m = name.
Hypothesis Hnew : ~ In name pns.

(** The lookup finds a committed name and nothing else. *)
Lemma inv_get_id :
  (exists j, nth_error ns j = Some name /\ gsd_get_id h name = Z.of_nat j
             /\ Z.of_nat j < UINT16_MAX)
  \/ (~ In name ns /\ gsd_get_id h name = UINT16_MAX).
Proof.
  inv_fields Hinv. pose proof (inv_committed_bound _ _ _ _ _ _ Hinv) as Hcb.
  destruct Hca as (cp & Hnames & Hperm & Hsep).
  destruct (in_dec (list_eq_dec byte_eq_dec) name ns) as [Hin|Hnin].
  - left. apply In_nth_error in Hin. destruct Hin as (j & Hj). exists j.
    split; [exact Hj|]. split.
    + exact (get_id_committed h ns cp _ _ name Hnames Hperm Hsep Hnw Hcb Hj).
    + assert (Hjl : (j < length ns)%nat)
        by (apply nth_error_Some; rewrite Hj; discriminate).
      lia.
  - right. split; [exact Hnin|].
    apply (get_id_unknown h ns cp _ name Hnames Hperm Hnw Hcb).
    intros m Hm. destruct (has_prefix name m) eqn:E; [|reflexivity].
    exfalso. apply Hnin. rewrite <- (Hfree m Hm E). exact Hm.
Qed.

Lemma name_step_spec (id1 : Z) (h1 : gsd_handle) :
  (if gsd_get_id h name =? UINT16_MAX
   then gsd_append_name (gsd_get_id h name) h name
   else (GSD_SUCCESS, gsd_get_id h name, h)) = (GSD_SUCCESS, id1, h1) ->
  exists pns',
    (pns' = pns \/ pns' = pns ++ [name])
    /\ NoDup (ns ++ pns')
    /\ 0 <= id1 < UINT16_MAX
    /\ nth_error (ns ++ pns') (Z.to_nat id1) = Some name
    /\ namelist_num_entries h1 = Z.of_nat (length (ns ++ pns'))
    /\ Z.of_nat (length (ns ++ pns'))
       <= namelist_allocated_entries (file_header f)
    /\ (forall j n, nth_error (ns ++ pns') j = Some n ->
          load (namelist h1) (sizeof_namelist_entry * Z.of_nat j) 64
          = strncpy_field 63 n)
    /\ namelist_written_entries h1 = namelist_written_entries h
    /\ exists cp,
         names h1 = cp ++ name_pairs (length ns) pns'
         /\ Permutation (name_pairs 0 ns) cp
         /\ names_separated (map pair_name cp) = true.
Proof.
  inv_fields Hinv. pose proof (inv_names_bound _ _ _ _ _ _ Hinv) as Hb.
  unfold UINT16_MAX in Hb.
  destruct inv_get_id as [(j & Hj & Eid & Hjb)|(Hnin & Eid)]; rewrite Eid.
  - destruct (Z.eqb_spec (Z.of_nat j) UINT16_MAX) as [E|_]; [lia|].
    intros [= <- <-]. exists pns.
    split; [left; reflexivity|]. split; [exact Hnd|]. split; [lia|].
    split.
    { rewrite Nat2Z.id, nth_error_app1; [exact Hj|].
      apply nth_error_Some. rewrite Hj. discriminate. }
    split; [exact Hnn|]. split; [exact Hnr|]. split; [exact Hnl|].
    split; [reflexivity|exact Hca].
  - rewrite Z.eqb_refl. unfold gsd_append_name.
    destruct (open_flag_eqb (open_flags h) GSD_OPEN_READONLY); [discriminate|].
    destruct (Z.eqb_spec (namelist_num_entries h)
                (namelist_allocated_entries (header h))) as [|Hroom];
      [discriminate|].
    rewrite (ho_header h f Hon) in Hroom.
    set (n := namelist_num_entries h) in *.
    assert (Hn : n = Z.of_nat (length (ns ++ pns))) by exact Hnn.
    assert (Hn16 : 0 <= n < 65535).
    { destruct Hreg as [_ _ _ R4]. unfold UINT16_MAX in R4. lia. }
    assert (Hu16 : u16 n = n) by (unfold u16; apply Z.mod_small; lia).
    intros H.
    assert (E1 : id1 = u16 n) by (apply (f_equal (fun x => snd (fst x))) in H;
                                   cbn [fst snd] in H; congruence).
    apply (f_equal snd) in H. cbn [snd] in H. subst h1 id1.
    exists (pns ++ [name]).
    split; [right; reflexivity|].
    assert (Hload : forall j m, nth_error (ns ++ pns ++ [name]) j = Some m ->
              load (store (namelist h) (sizeof_namelist_entry * n)
                      (strncpy_field 63 name))
                (sizeof_namelist_entry * Z.of_nat j) 64
              = strncpy_field 63 m).
    { intros j m Hjm. rewrite app_assoc in Hjm.
      destruct (Nat.lt_ge_cases j (length (ns ++ pns))) as [Hlt|Hge].
      - rewrite nth_error_app1 in Hjm by exact Hlt.
        rewrite <- (Hnl j m Hjm). apply load_ext. intros k Hk.
        apply store_other. rewrite strncpy_field_length.
        unfold sizeof_namelist_entry in *.
        change (Z.of_nat 64) with 64 in *. lia.
      - rewrite nth_error_app2 in Hjm by exact Hge.
        destruct (j - length (ns ++ pns))%nat as [|d] eqn:Ed;
          [|destruct d; discriminate].
        injection Hjm as <-.
        replace (Z.of_nat j) with n by lia.
        apply load_store_len. rewrite strncpy_field_length. reflexivity. }
    split.
    { rewrite app_assoc.
      apply (Permutation_NoDup (Permutation_cons_append (ns ++ pns) name)).
      constructor; [|exact Hnd].
      intros Hin. apply in_app_or in Hin. destruct Hin; contradiction. }
    split; [rewrite Hu16; unfold UINT16_MAX; lia|].
    split.
    { rewrite Hu16, Hn, Nat2Z.id, app_assoc, nth_error_app2 by lia.
      rewrite Nat.sub_diag. reflexivity. }
    split.
    { destruct (_ <? _); hsimpl; rewrite u64_small by lia;
        rewrite app_assoc, length_app; cbn [length]; lia. }
    split.
    { rewrite app_assoc, length_app. cbn [length]. lia. }
    split.
    { intros j m Hjm. destruct (_ <? _); hsimpl; apply Hload; exact Hjm. }
    split; [destruct (_ <? _); reflexivity|].
    destruct Hca as (cp & Hnames & Hperm & Hsep). exists cp.
    split; [|split; assumption].
    assert (Hna : name_at (store (namelist h) (sizeof_namelist_entry * n)
                             (strncpy_field 63 name)) n = name).
    { apply name_at_field; [exact Hname|].
      apply load_store_len. rewrite strncpy_field_length. reflexivity. }
    rewrite name_pairs_app. cbn [name_pairs length seq combine map fst snd].
    rewrite app_assoc, <- Hnames.
    replace (Z.of_nat (length ns + length pns)) with n
      by (rewrite Hn, length_app; lia).
    destruct (_ <? _); hsimpl; rewrite Hna, Hu16; reflexivity.
Qed.

End NameStep.

(** ** One call of [gsd_write_chunk] in a session *)

Lemma location_zero (mem : buffer) (i : Z) :
  (forall o, sizeof_index_entry * i <= o < sizeof_index_entry * (i + 1) ->
             mem o = x00) ->
  location (entry_at mem i) = 0.
Proof.
  intros H. unfold entry_at, decode_entry. cbn [location].
  apply load_zero. intros k Hk. apply H.
  unfold sizeof_index_entry in *. lia.
Qed.

Lemma file_location_zero (f : file) (i : Z) :
  (forall o, sizeof_index_entry * i <= o < sizeof_index_entry * (i + 1) ->
             file_byte f (index_location (file_header f) + o) = x00) ->
  location (file_entry f i) = 0.
Proof.
  intros H. rewrite (file_entry_bytes f zero_buffer i).
  - apply location_zero. reflexivity.
  - intros o Ho. rewrite H by exact Ho. reflexivity.
Qed.

Lemma file_entry_same (f f' : file) (i : Z) :
  index_location (file_header f') = index_location (file_header f) ->
  (forall o, sizeof_index_entry * i <= o < sizeof_index_entry * (i + 1) ->
     file_byte f' (index_location (file_header f) + o)
     = file_byte f (index_location (file_header f) + o)) ->
  file_entry f' i = file_entry f i.
Proof.
  intros Hl H. unfold file_entry. rewrite Hl. apply decode_entry_ext.
  intros k Hk.
  replace k with (index_location (file_header f)
                  + (k - index_location (file_header f))) by lia.
  apply H. unfold sizeof_index_entry in *. lia.
Qed.

Lemma file_header_same (f f' : file) :
  sizeof_header <= fsize f -> fsize f <= fsize f' ->
  (forall o, 0 <= o < sizeof_header -> file_byte f' o = file_byte f o) ->
  file_header f' = file_header f.
Proof.
  intros H1 H2 H. unfold file_header. apply decode_header_ext.
  intros k Hk. apply H. unfold sizeof_header. lia.
Qed.

Lemma write_chunk_writable (h : gsd_handle) (name : list byte)
  (type N M flags : Z) (data : option (list byte)) (h' : gsd_handle) :
  gsd_write_chunk h name type N M flags data = (GSD_SUCCESS, h') ->
  open_flags h <> GSD_OPEN_READONLY.
Proof.
  intros H. apply write_chunk_success in H.
  destruct H as (? & ? & ? & ? & ? & _ & _ & _ & _ & H & _). exact H.
Qed.

Section WriteStep.

Variables (h : gsd_handle) (f : file) (ns pns : list (list byte))
  (log : list (list chunk)) (pend : list chunk).
Hypothesis Hinv : session_inv h f ns pns log pend.

Variable c : chunk.
Hypothesis Hc : chunk_ok c.

Let K := Z.of_nat (length (number_frames 0 log)).
Let T := Z.of_nat (length (number_frames 0 log) + length pend).

Lemma write_one_step (h' : gsd_handle) :
  write_one h c = (GSD_SUCCESS, h') ->
  exists id1 h1 h4 f4,
    (if gsd_get_id h (c_name c) =? UINT16_MAX
     then gsd_append_name (gsd_get_id h (c_name c)) h (c_name c)
     else (GSD_SUCCESS, gsd_get_id h (c_name c), h)) = (GSD_SUCCESS, id1, h1)
    /\ same_rest h1 h4
    /\ chunk_step h f c K T h4 f4
    /\ h' =
       set_index_num_entries
         (u64 (index_num_entries (snd (write_chunk_slot h4)) + 1))
         (set_index
            (store_entry (index (snd (write_chunk_slot h4)))
               (fst (write_chunk_slot h4))
               {| frame := cur_frame h; N := c_N c; location := fsize f;
                  M := c_M c; id := id1; type := u8 (c_type c); flags := 0 |})
            (snd (write_chunk_slot h4))).
Proof.
  intros Hw. inv_fields Hinv.
  pose proof (write_chunk_writable _ _ _ _ _ _ _ _ Hw) as Hrw.
  pose proof (inv_alloc_bound _ _ _ _ _ _ Hinv) as Hab.
  pose proof (inv_num_bound _ _ _ _ _ _ Hinv) as Hnb. fold T in Hnb.
  assert (HKT : 0 <= K <= T) by (unfold K, T; lia).
  destruct (write_chunk_on _ _ _ _ _ _ _ _ _ Hon Hw)
    as (bytes & id1 & h1 & f1 & h4 & f4 & Hb & Hid & Hid1 & S1 & S2 & S3 & S4
        & Hx & Hm4 & Hfr & ->).
  injection Hb as <-.
  fold (c_size c) in S1, S4.
  pose proof (chunk_ok_size c Hc) as Hsz.
  rewrite (u64_small (c_size c)) in S1, S4 by lia.
  destruct (name_step_frame _ _ _ _ Hid)
    as (F1 & F2 & F3 & F4 & F5 & F6 & F7 & F8 & F9).
  pose proof Hon as [Hfd Hfs Hhd Hs Hal Hblk].
  pose proof Hreg as [R1 R2 R3 R4]. rewrite <- Hhd in R1, R2, R3, R4.
  pose proof Hlay as [_ _ _ _ _ L6]. rewrite <- Hhd in L6.
  unfold sizeof_header, sizeof_index_entry, sizeof_namelist_entry, index_end,
    namelist_end in *.
  assert (Hpay : payload_at f1 (fsize f) (c_data c)).
  { intros o b Ho.
    assert (Hl : (o < length (c_data c))%nat)
      by (apply nth_error_Some; rewrite Ho; discriminate).
    destruct Hc as [_ _ _ _ _ Hd].
    rewrite S4 by lia. unfold buf_of_list.
    destruct (Z.ltb_spec (Z.of_nat o) 0); [lia|].
    rewrite Nat2Z.id. apply nth_error_nth. exact Ho. }
  assert (Hhd1 : file_header f1 = file_header f).
  { apply file_header_same; unfold sizeof_header; try lia.
    intros o Ho. apply S3. lia. }
  exists id1, h1, h4, f4. split; [exact Hid|]. split; [exact Hfr|].
  split; [|reflexivity].
  rewrite Hnum in Hx. fold T in Hx.
  destruct (Z.leb_spec (index_allocated_entries (header h)) T) as [Hfull|Hroom].
  - (* the index is full *)
    destruct Hx as [X1 X2 X3 X4 X5 X6 X7 X8 X9].
    hsimpl_in X2. hsimpl_in X4. hsimpl_in X7. hsimpl_in X8. hsimpl_in X9.
    rewrite F2 in X2, X4, X7, X8, X9. rewrite F8, F3 in X9.
    unfold sizeof_header, sizeof_index_entry in *.
    assert (Hold : forall o,
              0 <= o < 64 * index_allocated_entries (header h) ->
              file_byte f4 (fsize f1 + o) = old_index_byte h f o).
    { intros o Ho. rewrite X7 by exact Ho. unfold old_index_byte. hsimpl.
      rewrite F8, F3, F2.
      destruct (open_flags h); [reflexivity| |]; apply S3; lia. }
    assert (Hil : index_location (file_header f4) = fsize f1)
      by (rewrite X3, X2; reflexivity).
    assert (Hlow : forall i,
              0 <= i < index_allocated_entries (header h) ->
              file_entry f4 i
              = match open_flags h with
                | GSD_OPEN_READWRITE => entry_at (index h) i
                | _ => file_entry f i
                end).
    { intros i Hi.
      rewrite (file_entry_bytes f4 (old_index_byte h f) i).
      - unfold old_index_byte, file_entry, entry_at.
        destruct (open_flags h); try reflexivity;
          rewrite <- Hhd, <- decode_entry_shift; reflexivity.
      - intros o Ho. rewrite Hil. apply Hold.
        unfold sizeof_index_entry in Ho. lia. }
    constructor.
    + exact X1.
    + exact X5.
    + symmetry. exact X3.
    + lia.
    + exact Hm4.
    + intros o Ho. unfold sizeof_header in Ho. rewrite X6 by lia.
      apply S3. lia.
    + intros o b Ho. rewrite X6; [apply Hpay; exact Ho|].
      assert (Hl : (o < length (c_data c))%nat)
        by (apply nth_error_Some; rewrite Ho; discriminate).
      destruct Hc as [_ _ _ _ _ Hd]. lia.
    + rewrite X2. reflexivity.
    + rewrite X2. reflexivity.
    + rewrite X2. reflexivity.
    + rewrite X2. reflexivity.
    + right. rewrite X2. hsimpl. unfold sizeof_index_entry.
      repeat split; lia.
    + intros i Hi. rewrite Hlow by lia.
      destruct (open_flags h) eqn:Hm; try reflexivity.
      apply Hco; [congruence|exact Hi].
    + intros i Hi. rewrite X2 in Hi. hsimpl_in Hi.
      destruct (Z.lt_ge_cases i (index_allocated_entries (header h)))
        as [Hlo|Hhi].
      * rewrite Hlow by lia.
        destruct (open_flags h) eqn:Hm;
          first [ apply Hun; [congruence|]; rewrite <- Hhd; unfold T in *; lia
                | destruct Hdx as [_ _ Hf]; apply Hf; rewrite <- Hhd;
                  unfold T in *; lia ].
      * apply file_location_zero. intros o Ho. rewrite Hil.
        apply X8. unfold sizeof_index_entry in Ho. lia.
    + intros i Hi. rewrite X9.
      destruct (open_flags h); try reflexivity.
      apply entry_at_zero_memory_low; [lia|unfold sizeof_index_entry; lia].
    + intros Hm i Hi. rewrite X2 in Hi. hsimpl_in Hi. rewrite X9.
      destruct (open_flags h); try contradiction.
      apply location_zero. intros o Ho. unfold gsd_zero_memory.
        unfold sizeof_index_entry in Ho.
        destruct (Z.leb_spec (64 * index_allocated_entries (header h)) o);
          [|lia].
        destruct (Z.ltb_spec o (64 * index_allocated_entries (header h)
                                + 64 * index_allocated_entries (header h)));
          [reflexivity|lia].
  - (* there is room *)
    destruct Hx as [-> ->].
    constructor; hsimpl; rewrite ?F2, ?F3.
    + reflexivity.
    + reflexivity.
    + rewrite Hhd1. exact Hhd.
    + lia.
    + exact S2.
    + intros o Ho. unfold sizeof_header in Ho. apply S3. lia.
    + exact Hpay.
    + reflexivity.
    + reflexivity.
    + reflexivity.
    + reflexivity.
    + left. repeat split; lia.
    + intros i Hi. apply file_entry_same; [rewrite Hhd1; reflexivity|].
      intros o Ho. apply S3. rewrite <- Hhd.
      destruct Hdx as [Hcnt _ _]. rewrite <- Hhd in Hcnt.
      unfold K, T, sizeof_index_entry in *. lia.
    + intros i Hi. destruct Hdx as [_ _ Hf].
      rewrite <- (Hf i) by (rewrite <- Hhd; unfold T in *; lia).
      f_equal. apply file_entry_same; [rewrite Hhd1; reflexivity|].
      intros o Ho. apply S3. rewrite <- Hhd.
      unfold sizeof_index_entry in *. lia.
    + reflexivity.
    + intros Hm i Hi. lia.
Qed.

End WriteStep.

(** ** The invariant along [gsd_write_chunk] *)

Lemma stored_step (f f' : file) (e : gsd_index_entry) (c : chunk) :
  stored f e c -> fsize f <= fsize f' ->
  (forall o, location e <= o < location e + c_size c ->
             file_byte f' o = file_byte f o) ->
  (location e + c_size c <= index_location (file_header f')
   \/ index_end (file_header f') <= location e) ->
  namelist_location (file_header f') = namelist_location (file_header f) ->
  namelist_allocated_entries (file_header f')
  = namelist_allocated_entries (file_header f) ->
  stored f' e c.
Proof.
  intros [S1 S2 S3 S4 S5 S6] Hsz Hb Hi Hn1 Hn2.
  constructor; try assumption.
  - lia.
  - intros o b Ho. rewrite Hb; [apply S3; exact Ho|].
    assert (Hl : (o < length (c_data c))%nat)
      by (apply nth_error_Some; rewrite Ho; discriminate).
    destruct S6 as [_ _ _ _ _ Hd]. lia.
  - unfold namelist_end in *. rewrite Hn1, Hn2. exact S5.
Qed.

Lemma disk_names_step (f f' : file) (ns : list (list byte)) :
  disk_names f ns ->
  namelist_location (file_header f') = namelist_location (file_header f) ->
  namelist_allocated_entries (file_header f')
  = namelist_allocated_entries (file_header f) ->
  (forall o, namelist_location (file_header f) <= o
             < namelist_end (file_header f) ->
             file_byte f' o = file_byte f o) ->
  disk_names f' ns.
Proof.
  intros [D1 D2 D3 D4] Hn1 Hn2 Hb. unfold namelist_end in Hb.
  constructor; rewrite ?Hn1, ?Hn2; try assumption.
  - intros j n Hj. rewrite <- (D2 j n Hj). apply load_ext. intros k Hk.
    apply Hb.
    assert (Hjl : (j < length ns)%nat)
      by (apply nth_error_Some; rewrite Hj; discriminate).
    unfold sizeof_namelist_entry in *. change (Z.of_nat 64) with 64 in Hk.
    lia.
  - intros j Hj. rewrite Hb; [apply D3; exact Hj|].
    unfold sizeof_namelist_entry in *. lia.
Qed.

Lemma entry_for_ext (ns ns' : list (list byte)) (e : gsd_index_entry) (fr : Z)
  (c : chunk) :
  entry_for ns e fr c -> (exists x, ns' = ns ++ x) -> entry_for ns' e fr c.
Proof.
  intros H (x & ->). apply entry_for_app. exact H.
Qed.

Lemma u8_type (t : Z) : gsd_sizeof_type t <> 0 -> u8 (u8 t) = t.
Proof.
  intros H. destruct (sizeof_type_range t H) as [Ht _].
  unfold u8. rewrite Z.mod_mod by lia. apply Z.mod_small. lia.
Qed.

Section WriteInv.

Variables (h : gsd_handle) (f : file) (ns pns : list (list byte))
  (log : list (list chunk)) (pend : list chunk).
Hypothesis Hinv : session_inv h f ns pns log pend.

Variable c : chunk.
Hypothesis Hc : chunk_ok c.
Hypothesis Hfree :
  forall m, In m ns -> has_prefix (c_name c) m = true -> m = c_name c.
Hypothesis Hnew : ~ In (c_name c) (map c_name pend).

(** A successful [gsd_write_chunk] adds the chunk to the pending ones. *)
Lemma write_one_inv (h' : gsd_handle) :
  write_one h c = (GSD_SUCCESS, h') ->
  open_flags h' = open_flags h
  /\ exists f' pns', session_inv h' f' ns pns' log (pend ++ [c]).
Proof.
  intros Hw. inv_fields Hinv.
  pose proof (inv_alloc_bound _ _ _ _ _ _ Hinv) as Hab.
  pose proof (inv_num_bound _ _ _ _ _ _ Hinv) as Hnb.
  destruct (write_one_step _ _ _ _ _ _ Hinv c Hc h' Hw)
    as (id1 & h1 & h4 & f4 & Hid & Hfr & Hst & ->).
  assert (Hnp : ~ In (c_name c) pns) by (intros H; apply Hnew, Hpn, H).
  destruct (name_step_spec _ _ _ _ _ _ Hinv (c_name c) (ck_name c Hc) Hfree
              Hnp id1 h1 Hid)
    as (pns' & Hp' & Hnd' & Hidr & Hidn & Hnn1 & Hnr1 & Hnl1 & Hnw1 & Hca1).
  destruct (name_step_frame _ _ _ _ Hid)
    as (F1 & F2 & F3 & F4 & F5 & F6 & F7 & F8 & F9).
  destruct Hfr as (G1 & G2 & G3 & G4 & G5 & G6 & G7 & G8 & G9 & _).
  destruct (write_chunk_slot_frame h4)
    as (W1 & W2 & W3 & W4 & W5 & W6 & W7 & W8 & W9 & W10 & W11 & W12).
  destruct Hst as [C1 C2 C3 C4 C5 C6 C7 C8 C9 C10 C11 C12 C13 C14 C15 C16].
  pose proof Hon as [Hfd Hfs Hhd Hs Hal Hblk].
  pose proof Hreg as [R1 R2 R3 R4].
  pose proof Hlay as [L1 L2 L3 L4 L5 L6].
  pose proof (chunk_ok_size c Hc) as Hsz.
  set (K := Z.of_nat (length (number_frames 0 log))) in *.
  set (P := Z.of_nat (length pend)).
  assert (HT : Z.of_nat (length (number_frames 0 log) + length pend) = K + P)
    by (unfold K, P; lia).
  rewrite HT in *.
  rewrite C3 in C8, C9, C10, C11, C12, C14, C16.
  rewrite Hhd in C8, C9, C10, C11, C12, C15, C16, Hab, Hnb, Hal, Hblk.
  unfold sizeof_header, sizeof_index_entry, sizeof_namelist_entry, index_end,
    namelist_end, UINT16_MAX in *.
  assert (Hext : exists x, ns ++ pns' = (ns ++ pns) ++ x).
  { destruct Hp' as [->| ->]; [exists []; rewrite app_nil_r
                              |exists [c_name c]; rewrite app_assoc];
      reflexivity. }
  assert (Hmode : open_flags h4 = open_flags h) by congruence.
  assert (Hslot : fst (write_chunk_slot h4) = memory_slot h (K + P)).
  { unfold write_chunk_slot, memory_slot. rewrite Hmode, G5, F5, Hnum, G6, F6, Hwr.
    destruct (open_flag_eqb (open_flags h) GSD_OPEN_APPEND); [|reflexivity].
    rewrite u64_small by lia. destruct (_ <=? _); reflexivity. }
  assert (Hms : forall x, memory_slot
                  (set_index_num_entries
                     (u64 (index_num_entries (snd (write_chunk_slot h4)) + 1))
                     (set_index
                        (store_entry (index (snd (write_chunk_slot h4)))
                           (fst (write_chunk_slot h4))
                           {| frame := cur_frame h; N := c_N c;
                              location := fsize f; M := c_M c; id := id1;
                              type := u8 (c_type c); flags := 0 |})
                        (snd (write_chunk_slot h4)))) x
                = memory_slot h x).
  { intros x. unfold memory_slot. hsimpl. rewrite W4, Hmode, W6, G6, F6.
    reflexivity. }
  assert (Hidx : forall i, i <> memory_slot h (K + P) ->
            entry_at (store_entry (index (snd (write_chunk_slot h4)))
                        (fst (write_chunk_slot h4))
                        {| frame := cur_frame h; N := c_N c;
                           location := fsize f; M := c_M c; id := id1;
                           type := u8 (c_type c); flags := 0 |}) i
            = entry_at (index h4) i).
  { intros i Hi. rewrite Hslot, W3. apply entry_at_store_other.
    intros E. apply Hi. symmetry. exact E. }
  assert (Hstored : forall e c', stored f e c' -> stored f4 e c').
  { intros e c' He. pose proof He as [S1 S2 _ S4 _ _].
    apply (stored_step f f4 e c' He).
    - lia.
    - intros o Ho. apply C6. unfold sizeof_header in *. lia.
    - unfold index_end.
      destruct C12 as [(E1 & E2 & _)|(E1 & E2 & _)]; rewrite E1, E2.
      + exact S4.
      + left. lia.
    - exact C10.
    - exact C11. }
  split; [hsimpl; rewrite W4; exact Hmode|].
  exists f4, pns'. constructor.
  - (* si_on *)
    constructor; hsimpl; rewrite ?W1, ?W2, ?W7; try assumption.
    + unfold sizeof_header. lia.
    + rewrite C3. destruct C12 as [(_ & E2 & _)|(_ & E2 & _)]; rewrite E2; lia.
    + rewrite C3. unfold sizeof_index_entry.
      destruct C12 as [(E1 & E2 & _)|(E1 & E2 & E3)]; rewrite E1, E2; lia.
  - (* si_layout *)
    constructor; unfold sizeof_header, sizeof_index_entry,
      sizeof_namelist_entry; rewrite ?C8, ?C9, ?C10, ?C11; try assumption.
    + lia.
    + destruct C12 as [(_ & E2 & _)|(_ & E2 & _)]; rewrite E2; lia.
    + destruct C12 as [(E1 & E2 & _)|(E1 & E2 & E3)]; rewrite E1, E2; lia.
    + lia.
  - (* si_regions *)
    constructor; unfold sizeof_header, index_end, namelist_end,
      sizeof_index_entry, sizeof_namelist_entry, UINT16_MAX;
      rewrite ?C10, ?C11; try assumption.
    + destruct C12 as [(E1 & _)|(E1 & _)]; rewrite E1; lia.
    + destruct C12 as [(E1 & E2 & _)|(E1 & E2 & _)]; rewrite E1, E2;
        [exact R3|right; lia].
  - (* si_names *)
    apply (disk_names_step f f4 ns Hdn C10 C11).
    intros o Ho. apply C6. unfold namelist_end, sizeof_header,
      sizeof_namelist_entry in *. lia.
  - exact Hlog.
  - (* si_pending *)
    rewrite map_app. intros x Hx.
    destruct Hp' as [->| ->].
    + apply in_or_app. left. apply Hpn. exact Hx.
    + apply in_app_or in Hx. apply in_or_app.
      destruct Hx as [Hx|Hx]; [left; apply Hpn; exact Hx|right; exact Hx].
  - exact Hnd'.
  - (* si_index *)
    rewrite length_app. cbn [length].
    replace (Z.of_nat (length (number_frames 0 log) + (length pend + 1)))
      with (K + P + 1) by (unfold K, P; lia).
    destruct Hdx as [_ He _]. constructor.
    + destruct C12 as [(_ & E2 & ?)|(_ & E2 & _)]; rewrite E2; lia.
    + intros i fr c' Hi.
      assert (Hil : (i < length (number_frames 0 log))%nat)
        by (apply nth_error_Some; rewrite Hi; discriminate).
      rewrite C13 by (unfold K; lia).
      destruct (He _ _ _ Hi) as [E S]. split; [exact E|].
      apply Hstored. exact S.
    + intros i Hi. apply C14. lia.
  - hsimpl. rewrite W6, G6, F6. exact Hwr.
  - hsimpl. rewrite W5, G5, F5, Hnum, length_app. cbn [length].
    rewrite u64_small by lia. unfold K, P. lia.
  - hsimpl. rewrite W8, G7, F7. exact Hcf.
  - hsimpl. rewrite W12, G4, Hnw1. exact Hnw.
  - hsimpl. rewrite W11, G3. exact Hnn1.
  - rewrite C11. exact Hnr1.
  - hsimpl. rewrite W9, G2. exact Hnl1.
  - hsimpl. rewrite W10, G1. exact Hca1.
  - (* si_committed *)
    hsimpl. rewrite W4, Hmode. intros Hm i Hi.
    assert (Hsl : memory_slot h (K + P) = K + P).
    { unfold memory_slot.
      destruct (open_flags h); try reflexivity. contradiction. }
    rewrite Hidx by (unfold P in *; lia).
    rewrite C15 by (unfold P in *; lia).
    rewrite C13 by exact Hi. apply Hco; assumption.
  - (* si_unused *)
    hsimpl. rewrite W4, Hmode, length_app. cbn [length]. intros Hm i Hi.
    assert (Hsl : memory_slot h (K + P) = K + P).
    { unfold memory_slot.
      destruct (open_flags h); try reflexivity. contradiction. }
    rewrite Hidx by (unfold K, P in *; lia).
    destruct (Z.lt_ge_cases i (index_allocated_entries (file_header f)))
      as [Hlo|Hhi].
    + rewrite C15 by (unfold K, P in *; lia).
      apply Hun; [exact Hm|]. unfold K, P in *. lia.
    + apply C16; [exact Hm|]. lia.
  - (* si_pend *)
    intros j c' Hj. cbv zeta. rewrite Hms. hsimpl. fold K.
    destruct (Nat.lt_ge_cases j (length pend)) as [Hlt|Hge].
    + rewrite nth_error_app1 in Hj by exact Hlt.
      assert (Hne : memory_slot h (K + Z.of_nat j) <> memory_slot h (K + P)).
      { unfold memory_slot, P. destruct (open_flag_eqb _ _); lia. }
      assert (Hrange : 0 <= memory_slot h (K + Z.of_nat j)
                       < index_allocated_entries (file_header f)).
      { unfold memory_slot, P in *. rewrite Hwr.
        destruct (open_flag_eqb _ _); unfold K in *; lia. }
      rewrite Hidx by exact Hne. rewrite C15 by exact Hrange.
      destruct (Hpe _ _ Hj) as [E S]. split.
      * apply (entry_for_ext (ns ++ pns)); [exact E|exact Hext].
      * apply Hstored. exact S.
    + rewrite nth_error_app2 in Hj by exact Hge.
      destruct (j - length pend)%nat as [|d] eqn:Ed;
        [|destruct d; discriminate].
      injection Hj as <-.
      replace (Z.of_nat j) with P by (unfold P; lia).
      rewrite <- Hslot, W3, entry_at_store_same.
      destruct Hc as [_ HN HM HT' _ _].
      split.
      * constructor; unfold clip_entry;
          cbn [frame N M location id type flags].
        -- rewrite Hcf. apply u64_small.
           pose proof (number_frames_count 0 log Hfm). unfold K, P in *. lia.
        -- apply u64_small. lia.
        -- unfold u32. apply Z.mod_small. lia.
        -- apply u8_type. exact HT'.
        -- reflexivity.
        -- unfold u16. rewrite Z.mod_small by lia. lia.
        -- unfold u16. rewrite Z.mod_small by lia. exact Hidn.
      * constructor; unfold clip_entry; cbn [location];
          rewrite ?u64_small by (unfold OFF_MAX in *; lia).
        -- unfold sizeof_header. lia.
        -- lia.
        -- exact C7.
        -- unfold index_end, sizeof_index_entry.
           destruct C12 as [(E1 & E2 & _)|(E1 & E2 & _)]; rewrite E1, E2;
             [right|left]; lia.
        -- right. unfold namelist_end, sizeof_namelist_entry.
           rewrite C10, C11. lia.
        -- exact Hc.
  - exact Hfm.
Qed.

End WriteInv.

(** ** The invariant along [gsd_end_frame] *)

Lemma write_region (f : file) (buf : buffer) (count off : Z) :
  0 <= off -> 0 <= count -> off + count <= fsize f ->
  fsize (write_bytes f buf count off) = fsize f
  /\ (forall o, o < off \/ off + count <= o ->
        file_byte (write_bytes f buf count off) o = file_byte f o)
  /\ (forall o, 0 <= o < count ->
        file_byte (write_bytes f buf count off) (off + o) = buf o).
Proof.
  intros Ho Hc Hin. split; [rewrite write_bytes_size; lia|]. split.
  - intros o Hout. apply write_bytes_outside; assumption.
  - intros o Hr. rewrite write_bytes_inside by lia. f_equal. lia.
Qed.

Lemma log_names_last (log : list (list chunk)) (cs : list chunk) :
  log_names (log ++ [cs]) = log_names log ++ map c_name cs.
Proof.
  unfold log_names. rewrite concat_app, map_app. cbn [concat].
  rewrite app_nil_r. reflexivity.
Qed.

Section EndFrame.

Variables (h : gsd_handle) (f : file) (ns pns : list (list byte))
  (log : list (list chunk)) (pend : list chunk).
Hypothesis Hinv : session_inv h f ns pns log pend.
Hypothesis Hpend : pend <> [].
Hypothesis Hprefix : prefix_free (log_names (log ++ [pend])).

Let K := Z.of_nat (length (number_frames 0 log)).
Let P := Z.of_nat (length pend).
Let iloc := index_location (file_header f).
Let nloc := namelist_location (file_header f).
Let nw := Z.of_nat (length ns).
Let np := Z.of_nat (length pns).

Variables (h3 : gsd_handle) (f3 : file).
Hypothesis Hfd : fd h3 = Some f3.
Hypothesis Hhdr : header h3 = header h.
Hypothesis Hfs : file_size h3 = file_size h.
Hypothesis Hidx : index h3 = index h.
Hypothesis Hnml : namelist h3 = namelist h.
Hypothesis Hflags : open_flags h3 = open_flags h.
Hypothesis Hwritten : index_written_entries h3 = K + P.
Hypothesis Hnumber : index_num_entries h3 = K + P.
Hypothesis Hcur : cur_frame h3 = Z.of_nat (length log) + 1.
Hypothesis Hnwritten : namelist_written_entries h3 = nw + np.
Hypothesis Hnnum : namelist_num_entries h3 = nw + np.
Hypothesis Hcache :
  names h3 = names h /\ pns = []
  \/ names h3 = sort_pairs (names h).
Hypothesis Hsize : fsize f3 = fsize f.
Hypothesis Hsame :
  forall o,
    (o < iloc + sizeof_index_entry * K
     \/ iloc + sizeof_index_entry * (K + P) <= o) ->
    (o < nloc + sizeof_namelist_entry * nw
     \/ nloc + sizeof_namelist_entry * (nw + np) <= o) ->
    file_byte f3 o = file_byte f o.
Hypothesis Hentries :
  forall o, sizeof_index_entry * K <= o < sizeof_index_entry * (K + P) ->
    file_byte f3 (iloc + o)
    = if open_flag_eqb (open_flags h) GSD_OPEN_APPEND
      then index h (o - sizeof_index_entry * K)
      else index h o.
Hypothesis Hnames :
  forall o,
    sizeof_namelist_entry * nw <= o < sizeof_namelist_entry * (nw + np) ->
    file_byte f3 (nloc + o) = namelist h o.

Lemma end_frame_state_inv :
  session_inv h3 f3 (ns ++ pns) [] (log ++ [pend]) [].
Proof.
  inv_fields Hinv.
  pose proof (inv_alloc_bound _ _ _ _ _ _ Hinv) as Hab.
  pose proof (inv_num_bound _ _ _ _ _ _ Hinv) as Hnb.
  pose proof Hon as [Hfd0 Hfs0 Hhd Hs Hal Hblk].
  pose proof Hreg as [R1 R2 R3 R4].
  pose proof Hlay as [L1 L2 L3 L4 L5 L6].
  rewrite Hhd in Hab, Hnb, Hal, Hblk.
  assert (HT : Z.of_nat (length (number_frames 0 log) + length pend) = K + P)
    by (unfold K, P; lia).
  rewrite HT in *.
  assert (Hnn' : Z.of_nat (length (ns ++ pns)) = nw + np)
    by (rewrite length_app; unfold nw, np; lia).
  rewrite Hnn' in *.
  fold iloc nloc in R1, R2, R3, L5, L6, Hblk.
  unfold index_end, namelist_end in *.
  unfold sizeof_header, sizeof_index_entry, sizeof_namelist_entry,
    UINT16_MAX in *.
  fold iloc nloc in R3.
  assert (HKP : 0 <= K /\ 0 <= P /\ 0 <= nw /\ 0 <= np)
    by (unfold K, P, nw, np; lia).
  assert (Hsame' : forall o,
            (o < iloc + 64 * K \/ iloc + 64 * (K + P) <= o) ->
            (o < nloc + 64 * nw \/ nloc + 64 * (nw + np) <= o) ->
            file_byte f3 o = file_byte f o) by exact Hsame.
  assert (Hentries' : forall o, 64 * K <= o < 64 * (K + P) ->
            file_byte f3 (iloc + o)
            = if open_flag_eqb (open_flags h) GSD_OPEN_APPEND
              then index h (o - 64 * K)
              else index h o) by exact Hentries.
  assert (Hnames' : forall o, 64 * nw <= o < 64 * (nw + np) ->
            file_byte f3 (nloc + o) = namelist h o) by exact Hnames.
  assert (Hhd3 : file_header f3 = file_header f).
  { apply file_header_same; unfold sizeof_header; try lia.
    intros o Ho. apply Hsame'; lia. }
  assert (Hstored : forall e c', stored f e c' -> stored f3 e c').
  { intros e c' He. pose proof He as [S1 S2 _ S4 S5 _].
    unfold index_end, namelist_end in *.
    unfold sizeof_header, sizeof_index_entry, sizeof_namelist_entry in *.
    fold iloc nloc in S4, S5.
    apply (stored_step f f3 e c' He).
    - lia.
    - intros o Ho. apply Hsame'; lia.
    - rewrite Hhd3. exact S4.
    - rewrite Hhd3. reflexivity.
    - rewrite Hhd3. reflexivity. }
  assert (Hold : forall i, 0 <= i < K -> file_entry f3 i = file_entry f i).
  { intros i Hi. apply file_entry_same; [rewrite Hhd3; reflexivity|].
    intros o Ho. fold iloc. unfold sizeof_index_entry in Ho.
    apply Hsame'. lia.
    lia. }
  assert (Hnew : forall i, K <= i < K + P ->
            file_entry f3 i = entry_at (index h) (memory_slot h i)).
  { intros i Hi. unfold memory_slot. rewrite Hwr. fold K.
    destruct (open_flag_eqb (open_flags h) GSD_OPEN_APPEND) eqn:Hm.
    - rewrite (file_entry_bytes f3 (shift (index h) (- (64 * K))) i).
      + unfold entry_at. rewrite decode_entry_shift.
        apply decode_entry_eq. unfold sizeof_index_entry. lia.
      + intros o Ho. unfold sizeof_index_entry in Ho.
        rewrite Hhd3. fold iloc. rewrite Hentries' by lia. rewrite ?Hm.
        unfold shift. f_equal. lia.
    - apply file_entry_bytes. intros o Ho.
      unfold sizeof_index_entry in Ho.
      rewrite Hhd3. fold iloc. rewrite Hentries' by lia. rewrite ?Hm.
      reflexivity. }
  assert (Hfree : forall i,
            K + P <= i < index_allocated_entries (file_header f) ->
            file_entry f3 i = file_entry f i).
  { intros i Hi. apply file_entry_same; [rewrite Hhd3; reflexivity|].
    intros o Ho. fold iloc. unfold sizeof_index_entry in Ho.
    apply Hsame'; lia. }
  constructor.
  - (* si_on *)
    constructor.
    + exact Hfd.
    + rewrite Hfs, Hsize. exact Hfs0.
    + rewrite Hhdr, Hhd3. exact Hhd.
    + rewrite Hsize. exact Hs.
    + rewrite Hhdr, Hhd. exact Hal.
    + rewrite Hhdr, Hhd, Hsize. unfold sizeof_index_entry. fold iloc.
      exact Hblk.
  - (* si_layout *)
    constructor; rewrite ?Hhd3, ?Hsize; assumption.
  - rewrite Hhd3. exact Hreg.
  - (* si_names *)
    destruct Hdn as [D1 D2 D3 D4].
    constructor; rewrite ?Hhd3; fold nloc.
    + lia.
    + intros j n Hj.
      assert (Hjl : (j < length (ns ++ pns))%nat)
        by (apply nth_error_Some; rewrite Hj; discriminate).
      destruct (Nat.lt_ge_cases j (length ns)) as [Hlt|Hge].
      * rewrite nth_error_app1 in Hj by exact Hlt.
        rewrite <- (D2 j n Hj). fold nloc. apply load_ext. intros o Ho.
        unfold sizeof_namelist_entry in *. change (Z.of_nat 64) with 64 in Ho.
        apply Hsame'; unfold nw; lia.
      * rewrite <- (Hnl j n Hj).
        rewrite <- (load_shift (file_byte f3)). apply load_ext. intros o Ho.
        unfold shift, sizeof_namelist_entry in *.
        change (Z.of_nat 64) with 64 in Ho.
        rewrite length_app in Hjl. apply Hnames'. unfold nw, np. lia.
    + intros j Hj. rewrite <- (D3 j) by (fold nw; lia). fold nloc.
      unfold sizeof_namelist_entry in *. apply Hsame'; lia.
    + exact Hnd.
  - (* si_log *)
    rewrite log_names_last. intros x Hx. apply in_app_or in Hx.
    apply in_or_app. destruct Hx as [Hx|Hx]; [left; apply Hlog|right; apply Hpn];
      exact Hx.
  - intros x [].
  - rewrite app_nil_r. exact Hnd.
  - (* si_index *)
    rewrite number_frames_last, length_app, length_map. cbn [length].
    rewrite Nat.add_0_r, HT. destruct Hdx as [_ He Hf].
    constructor; rewrite ?Hhd3.
    + exact Hnb.
    + intros i fr c' Hi. rewrite number_frames_last in Hi.
      destruct (Nat.lt_ge_cases i (length (number_frames 0 log))) as [Hlt|Hge].
      * rewrite nth_error_app1 in Hi by exact Hlt.
        rewrite Hold by (unfold K; lia).
        destruct (He _ _ _ Hi) as [E S].
        split; [apply entry_for_app; exact E|apply Hstored; exact S].
      * rewrite nth_error_app2 in Hi by exact Hge.
        rewrite nth_error_map in Hi.
        destruct (nth_error pend (i - length (number_frames 0 log)))
          as [c0|] eqn:Ej; [|discriminate].
        injection Hi as <- <-.
        assert (Hjl : (i - length (number_frames 0 log) < length pend)%nat)
          by (apply nth_error_Some; rewrite Ej; discriminate).
        rewrite Hnew by (unfold K, P; lia).
        destruct (Hpe _ _ Ej) as [E S]. cbv zeta in E, S.
        replace (Z.of_nat (length (number_frames 0 log))
                 + Z.of_nat (i - length (number_frames 0 log)))
          with (Z.of_nat i) in E, S by lia.
        split; [exact E|apply Hstored; exact S].
    + intros i Hi. rewrite Hfree by exact Hi. apply Hf. exact Hi.
  - rewrite number_frames_last, length_app, length_map. rewrite Hwritten.
    unfold K, P. lia.
  - rewrite number_frames_last, length_app, length_map. cbn [length].
    rewrite Hnumber. unfold K, P. lia.
  - rewrite length_app. cbn [length]. rewrite Hcur. lia.
  - rewrite Hnwritten. lia.
  - rewrite app_nil_r, Hnnum. lia.
  - rewrite app_nil_r, Hhd3. lia.
  - rewrite app_nil_r, Hnml. exact Hnl.
  - (* si_cache *)
    destruct Hca as (cp & Hn & Hperm & Hsep).
    cbn [name_pairs length seq combine map].
    destruct Hcache as [[E1 E2]|E1].
    + exists cp. rewrite E1, Hn, E2. cbn [name_pairs length seq combine map].
      rewrite !app_nil_r. repeat split; assumption.
    + destruct (sorted_cache (cp ++ name_pairs (length ns) pns) (ns ++ pns))
        as [Q1 Q2].
      * rewrite name_pairs_app. cbn [Nat.add].
        apply Permutation_app_tail. exact Hperm.
      * exact Hnd.
      * intros a b Ha Hb. apply Hprefix; rewrite log_names_last;
          apply in_or_app.
        -- apply in_app_or in Ha.
           destruct Ha as [Ha|Ha]; [left; apply Hlog|right; apply Hpn]; exact Ha.
        -- apply in_app_or in Hb.
           destruct Hb as [Hb|Hb]; [left; apply Hlog|right; apply Hpn]; exact Hb.
      * exists (sort_pairs (cp ++ name_pairs (length ns) pns)).
        rewrite E1, Hn, app_nil_r. repeat split; assumption.
  - (* si_committed *)
    rewrite Hflags, Hidx, number_frames_last, length_app, length_map.
    intros Hm i Hi.
    destruct (Z.lt_ge_cases i K) as [Hlo|Hhi].
    + rewrite Hold by lia. apply Hco; [exact Hm|]. fold K. lia.
    + rewrite Hnew by (unfold K, P in *; lia). unfold memory_slot.
      destruct (open_flags h); try reflexivity. contradiction.
  - (* si_unused *)
    rewrite Hflags, Hidx, Hhd3, number_frames_last, length_app, length_map.
    cbn [length]. intros Hm i Hi. apply Hun; [exact Hm|].
    unfold K, P in *. lia.
  - intros j c Hj. destruct j; discriminate.
  - intros cs Hin. apply in_app_or in Hin. destruct Hin as [Hin|[<-|[]]];
      [apply Hfm; exact Hin|exact Hpend].
Qed.

End EndFrame.

Section EndFrameCall.

Variables (h : gsd_handle) (f : file) (ns pns : list (list byte))
  (log : list (list chunk)) (pend : list chunk).
Hypothesis Hinv : session_inv h f ns pns log pend.
Hypothesis Hpend : pend <> [].
Hypothesis Hprefix : prefix_free (log_names (log ++ [pend])).
Hypothesis Hmode : open_flags h <> GSD_OPEN_READONLY.

(** [gsd_end_frame] succeeds and commits the pending chunks and names. *)
Lemma end_frame_inv :
  exists h' f',
    gsd_end_frame (Some h) = (GSD_SUCCESS, Some h')
    /\ open_flags h' = open_flags h
    /\ session_inv h' f' (ns ++ pns) [] (log ++ [pend]) [].
Proof.
  inv_fields Hinv.
  pose proof (inv_alloc_bound _ _ _ _ _ _ Hinv) as Hab.
  pose proof (inv_num_bound _ _ _ _ _ _ Hinv) as Hnb.
  pose proof (number_frames_count 0 log Hfm) as Hlc.
  pose proof Hon as [Hfd0 Hfs0 Hhd Hs Hal Hblk].
  pose proof Hreg as [R1 R2 R3 R4].
  pose proof Hlay as [L1 L2 L3 L4 L5 L6].
  set (K := Z.of_nat (length (number_frames 0 log))) in *.
  set (P := Z.of_nat (length pend)).
  set (nw := Z.of_nat (length ns)).
  set (np := Z.of_nat (length pns)).
  assert (HT : Z.of_nat (length (number_frames 0 log) + length pend) = K + P)
    by (unfold K, P; lia).
  assert (Hnn' : Z.of_nat (length (ns ++ pns)) = nw + np)
    by (rewrite length_app; unfold nw, np; lia).
  rewrite HT, ?Hnn' in *.
  assert (HP : 0 < P) by (unfold P; destruct pend; [contradiction|cbn; lia]).
  assert (HKP : 0 <= K /\ 0 <= nw /\ 0 <= np) by (unfold K, nw, np; lia).
  rewrite Hhd in Hab, Hnb, Hal, Hblk.
  unfold index_end, namelist_end in *.
  unfold sizeof_header, sizeof_index_entry, sizeof_namelist_entry,
    UINT16_MAX, OFF_MAX in *.
  set (iloc := index_location (file_header f)) in *.
  set (nloc := namelist_location (file_header f)) in *.
  set (data := if open_flag_eqb (open_flags h) GSD_OPEN_APPEND then index h
               else shift (index h) (64 * K)).
  set (f2 := write_bytes f data (64 * P) (iloc + 64 * K)).
  destruct (write_region f data (64 * P) (iloc + 64 * K))
    as (A1 & A2 & A3); [lia|lia|lia|]. fold f2 in A1, A2, A3.
  set (f3 := if np =? 0 then f2
             else write_bytes f2 (shift (namelist h) (64 * nw)) (64 * np)
                    (nloc + 64 * nw)).
  assert (B : fsize f3 = fsize f
              /\ (forall o, o < nloc + 64 * nw \/ nloc + 64 * (nw + np) <= o ->
                    file_byte f3 o = file_byte f2 o)
              /\ (forall o, 64 * nw <= o < 64 * (nw + np) ->
                    file_byte f3 (nloc + o) = namelist h o)).
  { unfold f3. destruct (Z.eqb_spec np 0) as [E|Hnz].
    - split; [exact A1|]. split; [reflexivity|]. intros o Ho. lia.
    - destruct (write_region f2 (shift (namelist h) (64 * nw)) (64 * np)
                  (nloc + 64 * nw)) as (B1 & B2 & B3); [lia|lia|lia|].
      split; [lia|]. split.
      + intros o Ho. apply B2. lia.
      + intros o Ho.
        replace (nloc + o) with (nloc + 64 * nw + (o - 64 * nw)) by lia.
        rewrite B3 by lia. unfold shift. f_equal. lia. }
  destruct B as (B1 & B2 & B3).
  set (h2 := set_index_written_entries (K + P)
               (set_fd (Some f2) (set_cur_frame (Z.of_nat (length log) + 1) h))).
  set (h3 := if np =? 0 then h2
             else gsd_sort_name_id_pairs
                    (set_namelist_written_entries (nw + np)
                       (set_fd (Some f3) h2))).
  exists h3, f3. split; [|split].
  - unfold gsd_end_frame.
    replace (open_flag_eqb (open_flags h) GSD_OPEN_READONLY) with false
      by (destruct (open_flags h); try reflexivity; contradiction).
    rewrite Hcf, (u64_small (Z.of_nat (length log) + 1)) by lia.
    unfold end_frame_index. hsimpl. rewrite Hnum, Hwr, Hhd. fold iloc.
    replace (K + P - K) with P by lia.
    rewrite (u64_small P) by lia.
    destruct (Z.ltb_spec 0 P) as [_|]; [|lia].
    unfold sizeof_index_entry.
    rewrite (u64_small (64 * K)), (u64_small (iloc + 64 * K)),
      (u64_small (64 * P)) by lia.
    fold data. rewrite Hfd0.
    rewrite pwrite_ok by (unfold OFF_MAX; lia). fold f2.
    destruct (Z.eqb_spec (64 * P) (-1)) as [|_]; [lia|].
    rewrite Z.eqb_refl. cbn [orb negb]. hsimpl.
    rewrite (u64_small (K + P)) by lia. fold h2.
    assert (E1 : namelist_num_entries h2 = nw + np) by exact Hnn.
    assert (E2 : namelist_written_entries h2 = nw) by exact Hnw.
    assert (E3 : namelist_location (header h2) = nloc)
      by (unfold h2; hsimpl; rewrite Hhd; reflexivity).
    assert (E4 : fd h2 = Some f2) by reflexivity.
    assert (E5 : namelist h2 = namelist h) by reflexivity.
    unfold end_frame_namelist. rewrite E1, E2, E3, E4, E5.
    replace (nw + np - nw) with np by lia.
    rewrite (u64_small np) by lia.
    unfold h3, f3.
    destruct (Z.eqb_spec np 0) as [E|Hnz]; cbn [negb]; [reflexivity|].
    unfold sizeof_namelist_entry.
    rewrite (u64_small (64 * np)), (u64_small (64 * nw)),
      (u64_small (nloc + 64 * nw)) by lia.
    rewrite pwrite_ok by (unfold OFF_MAX; lia).
    rewrite Z.eqb_refl. cbn [negb].
    unfold gsd_sort_name_id_pairs at 1. hsimpl. cbn [fsync Z.eqb negb].
    rewrite E1. reflexivity.
  - unfold h3. destruct (np =? 0); reflexivity.
  - apply (end_frame_state_inv h f ns pns log pend Hinv Hpend Hprefix h3 f3).
    all: fold K P nw np iloc nloc.
    + unfold h3. destruct (np =? 0); [reflexivity|].
      unfold gsd_sort_name_id_pairs. hsimpl. reflexivity.
    + unfold h3. destruct (np =? 0); reflexivity.
    + unfold h3. destruct (np =? 0); reflexivity.
    + unfold h3. destruct (np =? 0); reflexivity.
    + unfold h3. destruct (np =? 0); reflexivity.
    + unfold h3. destruct (np =? 0); reflexivity.
    + unfold h3. destruct (np =? 0); reflexivity.
    + unfold h3. destruct (np =? 0); unfold gsd_sort_name_id_pairs, h2;
        hsimpl; rewrite ?Hnum; lia.
    + unfold h3. destruct (np =? 0); reflexivity.
    + unfold h3. destruct (Z.eqb_spec np 0);
        unfold gsd_sort_name_id_pairs, h2; hsimpl; rewrite ?Hnw; lia.
    + unfold h3. destruct (Z.eqb_spec np 0);
        unfold gsd_sort_name_id_pairs, h2; hsimpl; rewrite ?Hnn; lia.
    + unfold h3. destruct (Z.eqb_spec np 0) as [E|Hnz].
      * left. split; [reflexivity|].
        destruct pns; [reflexivity|]. unfold np in E. cbn [length] in E. lia.
      * right. unfold gsd_sort_name_id_pairs. hsimpl.
        destruct Hca as (cp & Hn & Hperm & _).
        assert (Hlen : length (names h) = Z.to_nat (nw + np)).
        { rewrite Hn, length_app, name_pairs_length,
            <- (Permutation_length Hperm), name_pairs_length.
          unfold nw, np. lia. }
        unfold h2. hsimpl. rewrite Hnn, <- Hlen, firstn_all, skipn_all.
        apply app_nil_r.
    + exact B1.
    + intros o Ho1 Ho2. rewrite B2 by exact Ho2. apply A2.
      unfold sizeof_index_entry in Ho1. lia.
    + intros o Ho. unfold sizeof_index_entry in Ho.
      rewrite B2 by lia.
      replace (iloc + o) with (iloc + 64 * K + (o - 64 * K)) by lia.
      rewrite A3 by lia. unfold data.
      destruct (open_flag_eqb (open_flags h) GSD_OPEN_APPEND);
        [reflexivity|]. unfold shift, sizeof_index_entry. f_equal. lia.
    + intros o Ho. apply B3. unfold sizeof_namelist_entry in Ho. exact Ho.
Qed.

End EndFrameCall.

(** ** Sessions *)

Lemma log_ok_prefix (l1 l2 : list (list chunk)) :
  log_ok (l1 ++ l2) -> log_ok l1.
Proof.
  intros [H1 H2 H3 H4]. constructor.
  - intros cs Hin. apply H1. apply in_or_app. left. exact Hin.
  - intros c Hin. apply H2. rewrite concat_app. apply in_or_app. left.
    exact Hin.
  - intros cs Hin. apply H3. apply in_or_app. left. exact Hin.
  - intros a b Ha Hb. apply H4; unfold log_names in *;
      rewrite concat_app, map_app; apply in_or_app; left; assumption.
Qed.

Lemma log_ok_frame (log : list (list chunk)) (pend : list chunk) (c : chunk) :
  log_ok (log ++ [pend]) -> In c pend ->
  chunk_ok c /\ In (c_name c) (log_names (log ++ [pend])).
Proof.
  intros [_ H2 _ _] Hin.
  assert (Hc : In c (concat (log ++ [pend]))).
  { rewrite concat_app. apply in_or_app. right. cbn [concat].
    rewrite app_nil_r. exact Hin. }
  split; [apply H2; exact Hc|]. unfold log_names. apply in_map. exact Hc.
Qed.

(** The chunks of a frame, one call after the other. *)
Lemma write_chunks_inv (cs : list chunk) :
  forall (h : gsd_handle) (f : file) (ns pns : list (list byte))
    (log : list (list chunk)) (pend : list chunk) (h' : gsd_handle),
    session_inv h f ns pns log pend ->
    log_ok (log ++ [pend ++ cs]) ->
    write_chunks h cs = (GSD_SUCCESS, h') ->
    open_flags h' = open_flags h
    /\ exists f' pns', session_inv h' f' ns pns' log (pend ++ cs).
Proof.
  induction cs as [|c r IH]; intros h f ns pns log pend h' Hinv Hok Hw.
  - cbn [write_chunks] in Hw. injection Hw as <-. split; [reflexivity|].
    exists f, pns. rewrite app_nil_r. exact Hinv.
  - cbn [write_chunks] in Hw.
    destruct (write_one h c) as [e h1] eqn:E1.
    destruct e; try discriminate Hw.
    destruct (log_ok_frame log (pend ++ c :: r) c Hok) as [Hc Hn].
    { apply in_or_app. right. left. reflexivity. }
    destruct (write_one_inv h f ns pns log pend Hinv c Hc) with (h' := h1)
      as (Hm1 & f1 & pns1 & Hinv1).
    + intros m Hm Hp. symmetry. apply (lo_prefix _ Hok); [exact Hn| |exact Hp].
      rewrite log_names_last. apply in_or_app. left.
      apply (si_log _ _ _ _ _ _ Hinv). exact Hm.
    + pose proof (lo_once _ Hok (pend ++ c :: r)
                    ltac:(apply in_or_app; right; left; reflexivity)) as Hnd.
      rewrite map_app in Hnd. cbn [map] in Hnd.
      apply NoDup_remove_2 in Hnd. intros Hin. apply Hnd.
      apply in_or_app. left. exact Hin.
    + exact E1.
    + replace (pend ++ c :: r) with ((pend ++ [c]) ++ r) in *
        by (rewrite <- app_assoc; reflexivity).
      destruct (IH h1 f1 ns pns1 log (pend ++ [c]) h' Hinv1 Hok Hw)
        as (Hm2 & f2 & pns2 & Hinv2).
      split; [congruence|]. exists f2, pns2. exact Hinv2.
Qed.

Lemma end_frame_writable (h : gsd_handle) (r : option gsd_handle) :
  gsd_end_frame (Some h) = (GSD_SUCCESS, r) ->
  open_flags h <> GSD_OPEN_READONLY.
Proof.
  unfold gsd_end_frame. intros H E. rewrite E in H. discriminate H.
Qed.

(** A frame. *)
Lemma write_frame_inv (h : gsd_handle) (f : file) (ns : list (list byte))
  (log : list (list chunk)) (cs : list chunk) (h' : gsd_handle) :
  session_inv h f ns [] log [] ->
  log_ok (log ++ [cs]) ->
  write_frame h cs = (GSD_SUCCESS, h') ->
  open_flags h' = open_flags h
  /\ exists f' ns', session_inv h' f' ns' [] (log ++ [cs]) [].
Proof.
  intros Hinv Hok Hw. unfold write_frame in Hw.
  destruct (write_chunks h cs) as [e h1] eqn:E1.
  destruct e; try discriminate Hw.
  destruct (write_chunks_inv cs h f ns [] log [] h1 Hinv Hok E1)
    as (Hm1 & f1 & pns1 & Hinv1). cbn [app] in Hinv1.
  destruct (gsd_end_frame (Some h1)) as [e2 r2] eqn:E2.
  assert (He2 : e2 = GSD_SUCCESS)
    by (destruct r2; injection Hw as -> _; reflexivity).
  subst e2.
  pose proof (end_frame_writable _ _ E2) as Hrw.
  destruct (end_frame_inv h1 f1 ns pns1 log cs Hinv1) as (h2 & f2 & E3 & Hm2 & Hinv2).
  - apply (lo_frames _ Hok). apply in_or_app. right. left. reflexivity.
  - exact (lo_prefix _ Hok).
  - exact Hrw.
  - rewrite E2 in E3. injection E3 as ->. injection Hw as <-.
    split; [congruence|]. exists f2, (ns ++ pns1). exact Hinv2.
Qed.

(** A run of frames. *)
Lemma write_frames_inv (fs : list (list chunk)) :
  forall (h : gsd_handle) (f : file) (ns : list (list byte))
    (log : list (list chunk)) (h' : gsd_handle),
    session_inv h f ns [] log [] ->
    log_ok (log ++ fs) ->
    write_frames h fs = (GSD_SUCCESS, h') ->
    open_flags h' = open_flags h
    /\ exists f' ns', session_inv h' f' ns' [] (log ++ fs) [].
Proof.
  induction fs as [|cs r IH]; intros h f ns log h' Hinv Hok Hw.
  - cbn [write_frames] in Hw. injection Hw as <-. split; [reflexivity|].
    exists f, ns. rewrite app_nil_r. exact Hinv.
  - cbn [write_frames] in Hw.
    destruct (write_frame h cs) as [e h1] eqn:E1.
    destruct e; try discriminate Hw.
    replace (log ++ cs :: r) with ((log ++ [cs]) ++ r) in *
      by (rewrite <- app_assoc; reflexivity).
    destruct (write_frame_inv h f ns log cs h1 Hinv
                (log_ok_prefix _ _ Hok) E1) as (Hm1 & f1 & ns1 & Hinv1).
    destruct (IH h1 f1 ns1 (log ++ [cs]) h' Hinv1 Hok Hw)
      as (Hm2 & f2 & ns2 & Hinv2).
    split; [congruence|]. exists f2, ns2. exact Hinv2.
Qed.

Lemma session_disk_inv (h : gsd_handle) (f : file) (ns : list (list byte))
  (log : list (list chunk)) :
  session_inv h f ns [] log [] -> disk_inv f ns log.
Proof.
  intros Hinv. inv_fields Hinv. constructor; try assumption.
  cbn [length] in Hdx. rewrite Nat.add_0_r in Hdx. exact Hdx.
Qed.

Lemma initial_file_inv (app sch : list byte) (ver : Z) :
  disk_inv (initial_file app sch ver) [] [].
Proof.
  constructor.
  - apply initial_file_layout.
  - rewrite initial_file_header. constructor; vm_compute;
      first [discriminate | left; discriminate].
  - constructor.
    + rewrite initial_file_header. vm_compute. discriminate.
    + intros j n Hj. destruct j; discriminate.
    + intros j Hj. rewrite initial_file_header in *.
      cbn [initial_header namelist_location namelist_allocated_entries] in *.
      apply initial_file_zero.
      unfold sizeof_header, sizeof_index_entry, sizeof_namelist_entry,
        GSD_INITIAL_INDEX_SIZE in *. rewrite u64_small by lia.
      cbn [length] in Hj. lia.
    + constructor.
  - intros x [].
  - constructor.
    + rewrite initial_file_header. vm_compute. discriminate.
    + intros i fr c Hi. destruct i; discriminate.
    + intros i Hi. apply initial_file_entry. cbn in Hi. lia.
Qed.

(** Every produced file holds its frames. *)
Lemma produced_inv (f : file) (log : list (list chunk)) :
  produced f log -> log_ok log -> exists ns, disk_inv f ns log.
Proof.
  induction 1 as [fs app sch ver f Hc|f log flags h fs h' f' Hp IH Ho Hw Hfd];
    intros Hok.
  - unfold gsd_create, open_create in Hc.
    assert (E : exists f0, (match fs with
                            | Some _ => Some empty_file
                            | None => Some empty_file
                            end) = Some f0)
      by (destruct fs; eexists; reflexivity).
    destruct E as (f0 & E). rewrite E, initialize_file_ok in Hc.
    injection Hc as <-. exists []. apply initial_file_inv.
  - destruct (IH (log_ok_prefix _ _ Hok)) as (ns & Hdi).
    destruct (read_header_inv
                (set_open_flags flags (set_fd (Some f) zero_handle)) f ns log
                eq_refl Hdi (log_ok_prefix _ _ Hok))
      as (h0 & E0 & _ & Hinv0).
    unfold gsd_open in Ho. rewrite E0 in Ho. injection Ho as ->.
    destruct (write_frames_inv fs h f ns log h' Hinv0 Hok Hw)
      as (_ & f2 & ns2 & Hinv2).
    pose proof (ho_fd _ _ (si_on _ _ _ _ _ _ Hinv2)) as Hfd2.
    rewrite Hfd in Hfd2. injection Hfd2 as ->.
    exists ns2. apply (session_disk_inv h'). exact Hinv2.
Qed.

(** ** The round trip *)

Lemma gsd_open_eq (fs : option file) (flags : gsd_open_flag) :
  gsd_open fs flags
  = gsd_read_header (set_open_flags flags (set_fd fs zero_handle)).
Proof. reflexivity. Qed.

Lemma session_handle_eq (fs : list (list chunk)) :
  session_handle fs
  = snd (write_frames
           (snd (gsd_open (Some created_file) GSD_OPEN_READWRITE)) fs).
Proof. reflexivity. Qed.

Lemma session_produced (fs : list (list chunk)) :
  fst (write_frames (snd (gsd_open (Some created_file) GSD_OPEN_READWRITE)) fs)
  = GSD_SUCCESS ->
  fd (session_handle fs) <> None ->
  produced (session_file fs) fs.
Proof.
  intros H2 H3.
  assert (Hc : produced created_file []).
  { apply (produced_create None [x61; x70; x70] [x73] 0).
    unfold gsd_create, open_create. apply initialize_file_ok. }
  assert (Hok : log_ok []).
  { constructor.
    - intros cs [].
    - intros c [].
    - intros cs [].
    - intros x y []. }
  destruct (produced_inv _ _ Hc Hok) as (ns & Hdi).
  destruct (read_header_inv
              (set_open_flags GSD_OPEN_READWRITE
                 (set_fd (Some created_file) zero_handle))
              created_file ns [] eq_refl Hdi Hok) as (h0 & E0 & _ & _).
  apply (produced_session created_file [] GSD_OPEN_READWRITE h0 fs
           (session_handle fs) (session_file fs) Hc).
  - rewrite gsd_open_eq. exact E0.
  - rewrite session_handle_eq. rewrite gsd_open_eq in H2 |- *.
    rewrite E0 in H2 |- *.
    cbn [snd] in H2 |- *. apply pair_of_fst. exact H2.
  - unfold session_file, file_of.
    destruct (fd (session_handle fs)) as [f1|];
      [reflexivity|exfalso; apply H3; reflexivity].
Qed.

Lemma fd_open_check (h : gsd_handle) :
  match fd h with Some _ => true | None => false end = true -> fd h <> None.
Proof. destruct (fd h); [discriminate|intros H; discriminate H]. Qed.

Lemma bytes_chunk_ok (name data : list byte) :
  name_ok name -> data <> [] -> Z.of_nat (length data) < 2 ^ 32 ->
  chunk_ok (bytes_chunk name data).
Proof.
  intros Hn Hd Hl.
  assert (Hp : 0 < Z.of_nat (length data))
    by (destruct data; [contradiction|cbn [length]; lia]).
  constructor; unfold bytes_chunk, c_size;
    cbn [c_name c_N c_M c_type c_data]; try assumption;
    change (gsd_sizeof_type GSD_TYPE_UINT8) with 1; try lia.
Qed.

Lemma log_a_ok : log_ok log_a.
Proof.
  assert (Hc : chunk_ok (bytes_chunk ["a"%byte] [x01])).
  { apply bytes_chunk_ok.
    - repeat split; [discriminate|cbn; lia].
    - discriminate.
    - cbn. lia. }
  constructor.
  - intros cs [<-|[]]. discriminate.
  - intros c [<-|[]]. exact Hc.
  - intros cs [<-|[]]. repeat constructor. intros [].
  - intros a b [<-|[]] [<-|[]] _. reflexivity.
Qed.

Lemma log_a_produced : produced (session_file log_a) log_a.
Proof.
  apply session_produced.
  - vm_compute. reflexivity.
  - apply fd_open_check. vm_compute. reflexivity.
Qed.

(** ** Files written through the public interface *)

Lemma log_frame_entry (log : list (list chunk)) (k : nat) (cs : list chunk)
  (c : chunk) :
  nth_error log k = Some cs -> In c cs ->
  In (Z.of_nat k, c) (number_frames 0 log).
Proof.
  intros Hk Hc. apply number_frames_In. exists k, cs.
  repeat split; assumption.
Qed.

Lemma log_frame_names (log : list (list chunk)) (k : nat) (cs : list chunk)
  (c : chunk) :
  nth_error log k = Some cs -> In c cs -> In (c_name c) (log_names log).
Proof.
  intros Hk Hc. unfold log_names. apply in_map. apply in_concat.
  exists cs. split; [apply (nth_error_In _ _ Hk)|exact Hc].
Qed.

(** A file that holds the frames [log] gives every chunk back. *)
Lemma disk_chunk_round_trip (f : file) (ns : list (list byte))
  (log : list (list chunk)) (flags : gsd_open_flag) (k : nat)
  (cs : list chunk) (c : chunk) (dst : buffer) :
  disk_inv f ns log -> log_ok log -> flags <> GSD_OPEN_APPEND ->
  nth_error log k = Some cs -> In c cs ->
  exists hr e buf,
    gsd_open (Some f) flags = (GSD_SUCCESS, hr)
    /\ gsd_find_chunk (Some hr) (Z.of_nat k) (Some (c_name c)) = Some e
    /\ N e = c_N c /\ M e = c_M c /\ type e = c_type c
    /\ gsd_read_chunk (Some hr) (Some dst) (Some e) = (GSD_SUCCESS, Some buf)
    /\ load buf 0 (length (c_data c)) = c_data c.
Proof.
  intros Hdi Hok Hflags Hk Hc.
  destruct (read_header_inv
              (set_open_flags flags (set_fd (Some f) zero_handle))
              f ns log eq_refl Hdi Hok) as (hr & E0 & Hfl & Hinv).
  hsimpl_in Hfl.
  assert (Hm : open_flags hr <> GSD_OPEN_APPEND) by (rewrite Hfl; exact Hflags).
  exists hr. rewrite gsd_open_eq.
  pose proof (log_frame_entry log k cs c Hk Hc) as Hin.
  pose proof (find_chunk_inv hr f ns [] log [] Hinv Hm (Z.of_nat k) (c_name c))
    as Hfind.
  assert (Hkl : (k < length log)%nat)
    by (apply nth_error_Some; rewrite Hk; discriminate).
  specialize (Hfind ltac:(lia)).
  assert (Hq : forall m, In m ns -> has_prefix (c_name c) m = true ->
                         m = c_name c).
  { intros m Hmn Hpre. symmetry.
    apply (lo_prefix log Hok);
      [apply (log_frame_names log k cs c Hk Hc)
      |apply (di_log f ns log Hdi); exact Hmn|exact Hpre]. }
  specialize (Hfind Hq).
  destruct (gsd_find_chunk (Some hr) (Z.of_nat k) (Some (c_name c))) as [e|].
  - destruct Hfind as (i & c' & Hi & Hn & ->).
    + apply In_nth_error in Hin. destruct Hin as (i0 & Hi0).
      assert (E : i = i0)
        by (apply (number_frames_once 0 log i i0 (Z.of_nat k) c' c
                     (lo_once log Hok) Hi Hi0 Hn)).
      subst i0. rewrite Hi0 in Hi. injection Hi as <-.
      destruct (dx_entries _ _ _ _ (di_index f ns log Hdi) _ _ _ Hi0)
        as [He Hst].
      pose proof (si_on _ _ _ _ _ _ Hinv) as [Hfd Hfs _ Hsz _ _].
      destruct (read_chunk_stored hr f ns (file_entry f (Z.of_nat i))
                  (Z.of_nat k) c dst Hfd Hfs (proj2 Hsz) Hm He Hst
                  (st_ok _ _ _ Hst)) as (buf & Hr & Hl).
      exists (file_entry f (Z.of_nat i)), buf.
      split; [exact E0|]. split; [reflexivity|].
      destruct He as [_ E2 E3 E4 _ _ _].
      repeat (split; [assumption|]). exact Hl.
  - exfalso. exact (Hfind c Hin eq_refl).
Qed.

(** X1: on a file written through [gsd_create] and sessions of whole frames
    (no empty frame, valid arguments, a name once per frame, no name a
    proper prefix of another one), [gsd_open] for reading succeeds, and for
    every committed chunk [gsd_find_chunk] with its frame and name gives an
    entry with its [N], [M] and type, on which [gsd_read_chunk] delivers
    exactly the payload. *)
Theorem committed_chunk_round_trip (f : file) (log : list (list chunk))
  (k : nat) (cs : list chunk) (c : chunk) (dst : buffer) :
  produced f log -> log_ok log ->
  nth_error log k = Some cs -> In c cs ->
  exists hr e buf,
    gsd_open (Some f) GSD_OPEN_READONLY = (GSD_SUCCESS, hr)
    /\ gsd_find_chunk (Some hr) (Z.of_nat k) (Some (c_name c)) = Some e
    /\ N e = c_N c /\ M e = c_M c /\ type e = c_type c
    /\ gsd_read_chunk (Some hr) (Some dst) (Some e) = (GSD_SUCCESS, Some buf)
    /\ load buf 0 (length (c_data c)) = c_data c.
Proof.
  intros Hp Hok Hk Hc.
  destruct (produced_inv f log Hp Hok) as (ns & Hdi).
  apply (disk_chunk_round_trip f ns log GSD_OPEN_READONLY k cs c dst Hdi Hok);
    [discriminate|exact Hk|exact Hc].
Qed.

Lemma committed_chunk_round_trip_witness :
  exists e,
    gsd_find_chunk
      (Some (snd (gsd_open (Some (session_file log_a)) GSD_OPEN_READONLY)))
      0 (Some ["a"%byte]) = Some e
    /\ N e = 1.
Proof.
  destruct (committed_chunk_round_trip (session_file log_a) log_a 0
              [bytes_chunk ["a"%byte] [x01]] (bytes_chunk ["a"%byte] [x01])
              zero_buffer log_a_produced log_a_ok eq_refl
              (or_introl eq_refl))
    as (hr & e & buf & Ho & Hf & HN & _).
  exists e. rewrite Ho. split; [exact Hf|exact HN].
Defined.


(** The handle of a session on a produced file. *)
Lemma session_handle_inv (f : file) (log fs : list (list chunk))
  (flags : gsd_open_flag) (h0 hr : gsd_handle) :
  produced f log -> log_ok (log ++ fs) ->
  gsd_open (Some f) flags = (GSD_SUCCESS, h0) ->
  write_frames h0 fs = (GSD_SUCCESS, hr) ->
  open_flags hr = flags
  /\ exists f' ns, session_inv hr f' ns [] (log ++ fs) [].
Proof.
  intros Hp Hok Ho Hw.
  destruct (produced_inv f log Hp (log_ok_prefix _ _ Hok)) as (ns & Hdi).
  destruct (read_header_inv
              (set_open_flags flags (set_fd (Some f) zero_handle))
              f ns log eq_refl Hdi (log_ok_prefix _ _ Hok))
    as (h & E0 & Hfl & Hinv).
  hsimpl_in Hfl. rewrite gsd_open_eq, E0 in Ho. injection Ho as ->.
  destruct (write_frames_inv fs h0 f ns log hr Hinv Hok Hw)
    as (Hm & f' & ns' & Hinv').
  split; [congruence|]. exists f', ns'. exact Hinv'.
Qed.





Lemma write_chunks_writable (h h1 : gsd_handle) (cs : list chunk) :
  cs <> [] -> write_chunks h cs = (GSD_SUCCESS, h1) ->
  open_flags h <> GSD_OPEN_READONLY.
Proof.
  destruct cs as [|c r]; [contradiction|]. intros _ Hw.
  cbn [write_chunks] in Hw.
  destruct (write_one h c) as [e h'] eqn:E.
  destruct e; try discriminate Hw.
  exact (write_chunk_writable _ _ _ _ _ _ _ _ E).
Qed.

(** X4: in a session on a produced file, after the chunks of a frame have
    been written with success, [gsd_end_frame] succeeds: the frame counter
    grows by one, nothing is left pending, and the file holds the frames of
    before and the new frame. *)
Theorem end_frame_commits (f : file) (log : list (list chunk))
  (flags : gsd_open_flag) (h h1 : gsd_handle) (cs : list chunk) :
  produced f log -> log_ok (log ++ [cs]) ->
  gsd_open (Some f) flags = (GSD_SUCCESS, h) ->
  write_chunks h cs = (GSD_SUCCESS, h1) ->
  exists h2 f2,
    gsd_end_frame (Some h1) = (GSD_SUCCESS, Some h2)
    /\ fd h2 = Some f2
    /\ produced f2 (log ++ [cs])
    /\ gsd_get_nframes (Some h2) = gsd_get_nframes (Some h) + 1
    /\ index_written_entries h2 = index_num_entries h2
    /\ namelist_written_entries h2 = namelist_num_entries h2.
Proof.
  intros Hp Hok Ho Hw.
  assert (Hok0 : log_ok (log ++ [])).
  { rewrite app_nil_r. exact (log_ok_prefix _ _ Hok). }
  destruct (session_handle_inv f log [] flags h h Hp Hok0 Ho eq_refl)
    as (Hfl & f0 & ns & Hinv).
  rewrite app_nil_r in Hinv.
  destruct (write_chunks_inv cs h f0 ns [] log [] h1 Hinv Hok Hw)
    as (Hm1 & f1 & pns & Hinv1). cbn [app] in Hinv1.
  assert (Hcs : cs <> []).
  { apply (lo_frames _ Hok). apply in_or_app. right. left. reflexivity. }
  assert (Hrw : open_flags h1 <> GSD_OPEN_READONLY).
  { rewrite Hm1. exact (write_chunks_writable h h1 cs Hcs Hw). }
  destruct (end_frame_inv h1 f1 ns pns log cs Hinv1 Hcs (lo_prefix _ Hok) Hrw)
    as (h2 & f2 & E2 & Hm2 & Hinv2).
  exists h2, f2. split; [exact E2|].
  inv_fields Hinv2. destruct Hon as [Hfd _ _ _ _ _].
  split; [exact Hfd|]. split.
  - apply (produced_session f log flags h [cs] h2 f2 Hp Ho); [|exact Hfd].
    cbn [write_frames]. unfold write_frame. rewrite Hw, E2. reflexivity.
  - cbn [gsd_get_nframes]. rewrite Hcf, (si_cur_frame _ _ _ _ _ _ Hinv).
    rewrite length_app. cbn [length].
    split; [lia|]. cbn [length] in Hnum. rewrite Nat.add_0_r in Hnum.
    rewrite app_nil_r in Hnn.
    split; congruence.
Qed.

Lemma end_frame_commits_witness :
  exists h2,
    gsd_end_frame
      (Some (snd (write_chunks
                    (snd (gsd_open (Some created_file) GSD_OPEN_APPEND))
                    [bytes_chunk ["a"%byte] [x01]])))
    = (GSD_SUCCESS, Some h2)
    /\ gsd_get_nframes (Some h2) = 1.
Proof.
  pose (o := gsd_open (Some created_file) GSD_OPEN_APPEND).
  pose (w := write_chunks (snd o) [bytes_chunk ["a"%byte] [x01]]).
  assert (F1 : fst o = GSD_SUCCESS) by (vm_compute; reflexivity).
  assert (F2 : fst w = GSD_SUCCESS) by (vm_compute; reflexivity).
  assert (Hc : produced created_file []).
  { apply (produced_create None [x61; x70; x70] [x73] 0).
    unfold gsd_create, open_create. apply initialize_file_ok. }
  assert (Hn : gsd_get_nframes (Some (snd o)) + 1 = 1)
    by (vm_compute; reflexivity).
  destruct (end_frame_commits created_file [] GSD_OPEN_APPEND (snd o) (snd w)
              [bytes_chunk ["a"%byte] [x01]] Hc log_a_ok
              (pair_of_fst o _ F1) (pair_of_fst w _ F2))
    as (h2 & f2 & E & _ & _ & N2 & _).
  exists h2. split; [exact E|]. rewrite N2. exact Hn.
Defined.
(** ** Lookups on any handle *)

Lemma find_name_loop_sound (fuel : nat) (nm : list gsd_name_id_pair)
  (name : list byte) (len : nat) (L R : Z) :
  0 <= L < R -> R <= UINT16_MAX ->
  find_name_loop fuel nm name len L R <> UINT16_MAX ->
  L <= find_name_loop fuel nm name len L R < R
  /\ strncmp name
       (pair_name (names_at nm (find_name_loop fuel nm name len L R))) len
     = Eq.
Proof.
  revert L R. induction fuel as [|fuel IH]; intros L R HL HR.
  - cbn [find_name_loop]. intros H. contradiction.
  - cbn [find_name_loop]. unfold UINT16_MAX in *.
    assert (Hu : u64 (L + R) = L + R) by (apply u64_small; lia).
    rewrite Hu.
    assert (Hm : L <= (L + R) / 2 < R)
      by (split; [apply Z.div_le_lower_bound|apply Z.div_lt_upper_bound]; lia).
    set (m := (L + R) / 2) in *.
    destruct (strncmp name (pair_name (names_at nm m)) len) eqn:E.
    + assert (E16 : u16 m = m) by (unfold u16; apply Z.mod_small; lia).
      rewrite E16. intros _. split; [lia|exact E].
    + rewrite (u64_small (m - L)) by lia.
      destruct (Z.ltb_spec 1 (m - L)); [|intros Hc; contradiction].
      intros H1. destruct (IH L m ltac:(lia) ltac:(lia) H1) as [Hr He].
      split; [lia|exact He].
    + rewrite (u64_small (R - m)) by lia.
      destruct (Z.ltb_spec 1 (R - m)); [|intros Hc; contradiction].
      intros H1. destruct (IH m R ltac:(lia) ltac:(lia) H1) as [Hr He].
      split; [lia|exact He].
Qed.

(** A name found by [gsd_find_name] is a committed name that begins with
    the name looked for. *)
Lemma find_name_found (h : gsd_handle) (name : list byte) :
  0 <= namelist_written_entries h <= UINT16_MAX ->
  gsd_find_name h name <> UINT16_MAX ->
  0 <= gsd_find_name h name < namelist_written_entries h
  /\ has_prefix name (pair_name (names_at (names h) (gsd_find_name h name)))
     = true.
Proof.
  intros Hn. unfold gsd_find_name, has_prefix.
  destruct (Z.eqb_spec (namelist_written_entries h) 0) as [E0|N0];
    [intros H; contradiction|].
  destruct (strncmp name (pair_name (names_at (names h) 0)) (strlen name))
    eqn:E.
  - change (u16 0) with 0. intros _. rewrite E. split; [lia|reflexivity].
  - intros H; contradiction.
  - intros H.
    destruct (find_name_loop_sound _ _ _ _ 0 (namelist_written_entries h)
                ltac:(lia) ltac:(lia) H) as [Hr He].
    rewrite He. split; [exact Hr|reflexivity].
Qed.

(** X5: [gsd_find_name] searches the committed names only: a result other
    than [UINT16_MAX] is the position, below [namelist_written_entries], of
    a cached name whose first [strlen (name)] characters are those of
    [name] (the comparison is [strncmp], so the cached name may be longer);
    and when no committed name compares equal in this way, the result is
    [UINT16_MAX]. *)
Theorem find_name_sound (h : gsd_handle) (name : list byte) :
  0 <= namelist_written_entries h <= UINT16_MAX ->
  (gsd_find_name h name <> UINT16_MAX ->
   0 <= gsd_find_name h name < namelist_written_entries h
   /\ has_prefix name (pair_name (names_at (names h) (gsd_find_name h name)))
      = true)
  /\ ((forall m, 0 <= m < namelist_written_entries h ->
         has_prefix name (pair_name (names_at (names h) m)) = false) ->
      gsd_find_name h name = UINT16_MAX).
Proof.
  intros Hn. split.
  - exact (find_name_found h name Hn).
  - intros Hno. apply find_name_none.
    + unfold UINT16_MAX in Hn. lia.
    + intros m Hm E. specialize (Hno m Hm). unfold has_prefix in Hno.
      rewrite E in Hno. discriminate.
Qed.

Lemma find_name_sound_witness :
  gsd_find_name handle_with_ab ["c"%byte] = UINT16_MAX.
Proof.
  assert (Hn : 0 <= namelist_written_entries handle_with_ab <= UINT16_MAX)
    by (vm_compute; split; discriminate).
  apply (proj2 (find_name_sound handle_with_ab ["c"%byte] Hn)).
  intros m Hm.
  assert (E : namelist_written_entries handle_with_ab = 1)
    by (vm_compute; reflexivity).
  assert (m = 0) by lia. subst m. vm_compute. reflexivity.
Defined.

Lemma find_chunk_bisect_range (fuel : nat) (idx : buffer) (fr L R : Z) :
  0 <= L <= R -> R < 2 ^ 63 ->
  L <= find_chunk_bisect fuel idx fr L R
  /\ (L < R -> find_chunk_bisect fuel idx fr L R < R)
  /\ (L = R -> find_chunk_bisect fuel idx fr L R = L).
Proof.
  revert L R. induction fuel as [|fuel IH]; intros L R HL HR.
  - cbn [find_chunk_bisect]. lia.
  - cbn [find_chunk_bisect].
    assert (Hu : u64 (L + R) = L + R) by (apply u64_small; lia).
    rewrite Hu.
    assert (Hm : L <= (L + R) / 2 <= R)
      by (split; [apply Z.div_le_lower_bound|apply Z.div_le_upper_bound]; lia).
    assert (Hm' : L < R -> (L + R) / 2 < R)
      by (intros; apply Z.div_lt_upper_bound; lia).
    set (m := (L + R) / 2) in *.
    destruct (fr <? frame (entry_at idx m)).
    + rewrite (u64_small (m - L)) by lia.
      destruct (Z.ltb_spec 1 (m - L)); [|lia].
      destruct (IH L m ltac:(lia) ltac:(lia)) as (I1 & I2 & I3). lia.
    + rewrite (u64_small (R - m)) by lia.
      destruct (Z.ltb_spec 1 (R - m)); [|lia].
      destruct (IH m R ltac:(lia) ltac:(lia)) as (I1 & I2 & I3). lia.
Qed.

(** An entry returned by [gsd_find_chunk] is in the index, with the frame
    and the id looked for. *)
Lemma find_chunk_found (h : gsd_handle) (fr : Z) (name : list byte)
  (e : gsd_index_entry) :
  0 <= index_num_entries h < 2 ^ 63 ->
  gsd_find_chunk (Some h) fr (Some name) = Some e ->
  open_flags h <> GSD_OPEN_APPEND
  /\ fr < gsd_get_nframes (Some h)
  /\ gsd_get_id h name <> UINT16_MAX
  /\ exists i,
       0 <= i < Z.max 1 (index_num_entries h)
       /\ e = entry_at (index h) i
       /\ frame e = fr
       /\ id e = gsd_get_id h name.
Proof.
  intros Hn. unfold gsd_find_chunk.
  destruct (Z.leb_spec (gsd_get_nframes (Some h)) fr) as [|Hfr];
    [discriminate|].
  destruct (open_flag_eqb (open_flags h) GSD_OPEN_APPEND) eqn:Hm;
    [discriminate|].
  destruct (Z.eqb_spec (gsd_get_id h name) UINT16_MAX) as [|Hid];
    [discriminate|].
  intros Hs.
  split; [intros E; rewrite E in Hm; discriminate|].
  split; [exact Hfr|]. split; [exact Hid|].
  destruct (find_chunk_bisect_range
              (S (Z.to_nat (index_num_entries h))) (index h) fr 0
              (index_num_entries h) ltac:(lia) ltac:(lia)) as (B1 & B2 & B3).
  set (L := find_chunk_bisect _ _ _ _ _) in *.
  pose proof (find_chunk_scan_spec (S (S (Z.to_nat L))) (index h) fr
                (gsd_get_id h name) L ltac:(lia) ltac:(lia)) as Hsc.
  rewrite Hs in Hsc. destruct Hsc as (i & Hi & -> & Hf & Hd).
  exists i. repeat split; try assumption; lia.
Qed.

(** X6: whatever the index holds, an entry returned by [gsd_find_chunk] is
    an entry of the index in memory, below [index_num_entries] (slot 0 when
    the index is empty), whose frame is the requested frame and whose id is
    the id that [gsd_get_id] gives the name; the handle is not in append
    mode and the frame is below [gsd_get_nframes]. *)
Theorem find_chunk_sound (h : gsd_handle) (fr : Z) (name : list byte)
  (e : gsd_index_entry) :
  0 <= index_num_entries h < 2 ^ 63 ->
  gsd_find_chunk (Some h) fr (Some name) = Some e ->
  open_flags h <> GSD_OPEN_APPEND
  /\ fr < gsd_get_nframes (Some h)
  /\ gsd_get_id h name <> UINT16_MAX
  /\ exists i,
       0 <= i < Z.max 1 (index_num_entries h)
       /\ e = entry_at (index h) i
       /\ frame e = fr
       /\ id e = gsd_get_id h name.
Proof.
  exact (find_chunk_found h fr name e).
Qed.

Lemma find_chunk_sound_witness :
  exists e,
    gsd_find_chunk (Some handle_with_ab) 0 (Some ["a"%byte; "b"%byte]) = Some e
    /\ frame e = 0.
Proof.
  pose (r := gsd_find_chunk (Some handle_with_ab) 0 (Some ["a"%byte; "b"%byte])).
  assert (Hn : 0 <= index_num_entries handle_with_ab < 2 ^ 63)
    by (vm_compute; split; [discriminate|reflexivity]).
  assert (Hr : r = Some (entry_at (index handle_with_ab) 0))
    by (vm_compute; reflexivity).
  destruct (find_chunk_sound handle_with_ab 0 ["a"%byte; "b"%byte]
              (entry_at (index handle_with_ab) 0) Hn Hr)
    as (_ & _ & _ & i & _ & _ & Hf & _).
  exists (entry_at (index handle_with_ab) 0). split; [exact Hr|exact Hf].
Defined.

Lemma matching_scan_spec (rounds : nat) (nm : list gsd_name_id_pair)
  (mt : list byte) (len : nat) (i : Z) :
  match matching_scan rounds nm mt len i with
  | Some s =>
      exists j, i <= j < i + Z.of_nat rounds
                /\ s = pair_name (names_at nm j)
                /\ strncmp mt s len = Eq
                /\ forall k, i <= k < j ->
                     strncmp mt (pair_name (names_at nm k)) len <> Eq
  | None =>
      forall k, i <= k < i + Z.of_nat rounds ->
        strncmp mt (pair_name (names_at nm k)) len <> Eq
  end.
Proof.
  revert i. induction rounds as [|r IH]; intros i.
  - cbn [matching_scan]. intros k Hk. lia.
  - cbn [matching_scan].
    destruct (strncmp mt (pair_name (names_at nm i)) len) eqn:E.
    + exists i. repeat split; try lia. exact E.
    + specialize (IH (i + 1)).
      destruct (matching_scan r nm mt len (i + 1)) as [s|].
      * destruct IH as (j & Hj & Hs & He & Hk). exists j.
        repeat split; try assumption; try lia.
        intros k Hk'. destruct (Z.eq_dec k i) as [->|];
          [rewrite E; discriminate|apply Hk; lia].
      * intros k Hk. destruct (Z.eq_dec k i) as [->|];
          [rewrite E; discriminate|apply IH; lia].
    + specialize (IH (i + 1)).
      destruct (matching_scan r nm mt len (i + 1)) as [s|].
      * destruct IH as (j & Hj & Hs & He & Hk). exists j.
        repeat split; try assumption; try lia.
        intros k Hk'. destruct (Z.eq_dec k i) as [->|];
          [rewrite E; discriminate|apply Hk; lia].
      * intros k Hk. destruct (Z.eq_dec k i) as [->|];
          [rewrite E; discriminate|apply IH; lia].
Qed.

(** X7: one call of [gsd_find_matching_chunk_name] with a [prev] that
    [gsd_find_name] finds (or with NULL) returns the first committed name
    of the cache, behind the position found for [prev] (from the start for
    NULL), whose first [strlen (match)] characters are those of [match];
    it returns NULL exactly when there is no such name. *)
Theorem find_matching_chunk_name_first (h : gsd_handle) (mt : list byte)
  (prev : option (list byte)) (lo : Z) :
  0 <= namelist_written_entries h ->
  match prev with
  | None => lo = 0
  | Some p => gsd_find_name h p <> UINT16_MAX /\ lo = gsd_find_name h p + 1
  end ->
  0 <= lo ->
  match gsd_find_matching_chunk_name (Some h) (Some mt) prev with
  | Some s =>
      exists i,
        lo <= i < namelist_written_entries h
        /\ s = pair_name (names_at (names h) i)
        /\ has_prefix mt s = true
        /\ forall j, lo <= j < i ->
             has_prefix mt (pair_name (names_at (names h) j)) = false
  | None =>
      forall j, lo <= j < namelist_written_entries h ->
        has_prefix mt (pair_name (names_at (names h) j)) = false
  end.
Proof.
  intros Hn Hprev Hlo. unfold gsd_find_matching_chunk_name.
  destruct (Z.eqb_spec (namelist_written_entries h) 0) as [E0|N0].
  { intros j Hj. lia. }
  assert (Hst : match prev with
                | None => Some 0
                | Some p =>
                    if gsd_find_name h p =? UINT16_MAX then None
                    else Some (gsd_find_name h p + 1)
                end = Some lo).
  { destruct prev as [p|]; [|rewrite Hprev; reflexivity].
    destruct Hprev as [Hf ->].
    destruct (Z.eqb_spec (gsd_find_name h p) UINT16_MAX); [contradiction|].
    reflexivity. }
  rewrite Hst.
  pose proof (matching_scan_spec
                (Z.to_nat (namelist_written_entries h - lo)) (names h) mt
                (strlen mt) lo) as Hsc.
  assert (Hnot : forall s, strncmp mt s (strlen mt) <> Eq ->
                           has_prefix mt s = false).
  { intros s Hs. unfold has_prefix.
    destruct (strncmp mt s (strlen mt)); [contradiction|reflexivity..]. }
  destruct (matching_scan _ _ _ _ _) as [s|].
  - destruct Hsc as (j & Hj & Hs & He & Hk). exists j.
    split; [lia|]. split; [exact Hs|].
    split; [unfold has_prefix; rewrite He; reflexivity|].
    intros k Hk'. apply Hnot. apply Hk. exact Hk'.
  - intros j Hj. apply Hnot. apply Hsc. lia.
Qed.

Lemma find_matching_chunk_name_first_witness :
  exists s,
    gsd_find_matching_chunk_name (Some handle_with_ab) (Some ["a"%byte]) None
    = Some s
    /\ has_prefix ["a"%byte] s = true.
Proof.
  assert (Hn : 0 <= namelist_written_entries handle_with_ab)
    by (vm_compute; discriminate).
  pose proof (find_matching_chunk_name_first handle_with_ab ["a"%byte] None 0
                Hn eq_refl ltac:(lia)) as H.
  assert (E : gsd_find_matching_chunk_name (Some handle_with_ab)
                (Some ["a"%byte]) None = Some ["a"%byte; "b"%byte])
    by (vm_compute; reflexivity).
  rewrite E in H. destruct H as (i & _ & _ & Hp & _).
  exists ["a"%byte; "b"%byte]. split; [exact E|exact Hp].
Defined.
(** ** [gsd_append_name] *)

(** X8: on a writable handle with room in the namelist, [gsd_append_name]
    gives the name the next id, stores its first 63 characters in the slot
    of that id and in the name cache, and leaves the other slots alone;
    the new name is not committed, so [gsd_find_name] answers as before for
    every name, the new one included. *)
Theorem append_name_effect (id0 : Z) (h : gsd_handle) (name : list byte) :
  open_flags h <> GSD_OPEN_READONLY ->
  0 <= namelist_num_entries h < namelist_allocated_entries (header h) ->
  namelist_allocated_entries (header h) <= UINT16_MAX ->
  Z.of_nat (length (names h)) = namelist_num_entries h ->
  0 <= namelist_written_entries h <= namelist_num_entries h ->
  exists h',
    gsd_append_name id0 h name = (GSD_SUCCESS, namelist_num_entries h, h')
    /\ namelist_num_entries h' = namelist_num_entries h + 1
    /\ name_at (namelist h') (namelist_num_entries h)
       = firstn 63 (c_str name)
    /\ (forall j, j <> namelist_num_entries h ->
          name_at (namelist h') j = name_at (namelist h) j)
    /\ names h'
       = names h
         ++ [mk_pair (firstn 63 (c_str name)) (namelist_num_entries h)]
    /\ forall other, gsd_find_name h' other = gsd_find_name h other.
Proof.
  intros Hrw Hn Ha Hl Hw. unfold gsd_append_name.
  destruct (open_flag_eqb (open_flags h) GSD_OPEN_READONLY) eqn:Hro.
  { destruct (open_flags h); try discriminate Hro. contradiction. }
  destruct (Z.eqb_spec (namelist_num_entries h)
              (namelist_allocated_entries (header h))) as [E|_]; [lia|].
  unfold UINT16_MAX in Ha.
  assert (E16 : u16 (namelist_num_entries h) = namelist_num_entries h)
    by (unfold u16; apply Z.mod_small; lia).
  assert (E64 : u64 (namelist_num_entries h + 1) = namelist_num_entries h + 1)
    by (apply u64_small; lia).
  rewrite E16, E64.
  assert (Hname :
            name_at
              (store (namelist h)
                 (sizeof_namelist_entry * namelist_num_entries h)
                 (strncpy_field 63 name)) (namelist_num_entries h)
            = firstn 63 (c_str name)).
  { unfold name_at.
    rewrite load_store_len by (rewrite strncpy_field_length; reflexivity).
    unfold strncpy_field. apply c_str_fit. }
  eexists. split; [reflexivity|].
  destruct (names_allocated_size
              (set_namelist
                 (store (namelist h)
                    (sizeof_namelist_entry * namelist_num_entries h)
                    (strncpy_field 63 name)) h)
            <? namelist_num_entries h + 1);
    hsimpl; rewrite Hname.
  all: split; [reflexivity|]; split; [reflexivity|].
  all: split;
    [intros j Hj; unfold name_at; f_equal; apply load_ext; intros k Hk;
     apply store_other; rewrite strncpy_field_length;
     unfold sizeof_namelist_entry in *; lia|].
  all: split; [reflexivity|].
  all: intros other;
    apply (find_name_app h _
             [mk_pair (firstn 63 (c_str name)) (namelist_num_entries h)]);
    [lia|lia|hsimpl; reflexivity|hsimpl; reflexivity].
Qed.

Lemma append_name_effect_witness :
  exists h',
    gsd_append_name 0 handle_with_ab ["c"%byte]
    = (GSD_SUCCESS, 1, h')
    /\ name_at (namelist h') 1 = ["c"%byte].
Proof.
  assert (H1 : open_flags handle_with_ab <> GSD_OPEN_READONLY)
    by (vm_compute; discriminate).
  assert (H2 : 0 <= namelist_num_entries handle_with_ab
               < namelist_allocated_entries (header handle_with_ab))
    by (vm_compute; split; [discriminate|reflexivity]).
  assert (H3 : namelist_allocated_entries (header handle_with_ab)
               <= UINT16_MAX) by (vm_compute; discriminate).
  assert (H4 : Z.of_nat (length (names handle_with_ab))
               = namelist_num_entries handle_with_ab)
    by (vm_compute; reflexivity).
  assert (H5 : 0 <= namelist_written_entries handle_with_ab
               <= namelist_num_entries handle_with_ab)
    by (vm_compute; split; discriminate).
  assert (E : namelist_num_entries handle_with_ab = 1)
    by (vm_compute; reflexivity).
  destruct (append_name_effect 0 handle_with_ab ["c"%byte] H1 H2 H3 H4 H5)
    as (h' & Ha & _ & Hn & _).
  rewrite E in Ha, Hn. exists h'. split; [exact Ha|exact Hn].
Defined.
(** ** Frames without chunks, and reading in general *)

(** A produced file opens in a session that holds its frames. *)
Lemma open_inv (f : file) (log : list (list chunk)) (flags : gsd_open_flag) :
  produced f log -> log_ok log ->
  exists h ns,
    gsd_open (Some f) flags = (GSD_SUCCESS, h)
    /\ open_flags h = flags
    /\ session_inv h f ns [] log [].
Proof.
  intros Hp Hok.
  destruct (produced_inv f log Hp Hok) as (ns & Hdi).
  destruct (read_header_inv
              (set_open_flags flags (set_fd (Some f) zero_handle))
              f ns log eq_refl Hdi Hok) as (h & E0 & Hfl & Hinv).
  hsimpl_in Hfl. exists h, ns. rewrite gsd_open_eq.
  split; [exact E0|]. split; [exact Hfl|exact Hinv].
Qed.

(** X9: [gsd_end_frame] on a writable handle with no chunk written since
    the file was opened succeeds and counts a frame in the handle, but
    leaves the file as it is: when the file is opened again the frame is
    not there. *)
Theorem empty_frame_not_recorded (f : file) (log : list (list chunk))
  (flags : gsd_open_flag) (h : gsd_handle) :
  produced f log -> log_ok log ->
  flags <> GSD_OPEN_READONLY ->
  gsd_open (Some f) flags = (GSD_SUCCESS, h) ->
  exists h',
    gsd_end_frame (Some h) = (GSD_SUCCESS, Some h')
    /\ gsd_get_nframes (Some h') = Z.of_nat (length log) + 1
    /\ fd h' = Some f
    /\ forall flags', exists hr,
         gsd_open (Some f) flags' = (GSD_SUCCESS, hr)
         /\ gsd_get_nframes (Some hr) = Z.of_nat (length log).
Proof.
  intros Hp Hok Hrw Ho.
  destruct (open_inv f log flags Hp Hok) as (h0 & ns & E0 & Hfl & Hinv).
  rewrite E0 in Ho. injection Ho as ->.
  pose proof (inv_alloc_bound _ _ _ _ _ _ Hinv) as Hab.
  pose proof (inv_num_bound _ _ _ _ _ _ Hinv) as Hnb.
  inv_fields Hinv. destruct Hon as [Hfd _ _ _ _ _].
  pose proof (number_frames_count 0 log Hfm) as Hcount.
  cbn [length] in Hnum, Hnb. rewrite Nat.add_0_r in Hnum, Hnb.
  rewrite app_nil_r in Hnn.
  exists (set_cur_frame (u64 (cur_frame h + 1)) h).
  split; [|split; [|split]].
  - unfold gsd_end_frame.
    replace (open_flag_eqb (open_flags h) GSD_OPEN_READONLY) with false
      by (rewrite Hfl; destruct flags; try reflexivity; contradiction).
    unfold end_frame_index. hsimpl. rewrite Hnum, Hwr, Z.sub_diag.
    change (0 <? u64 0) with false. cbn iota.
    unfold end_frame_namelist. hsimpl. rewrite Hnn, Hnw, Z.sub_diag.
    change (negb (u64 0 =? 0)) with false. cbn iota. reflexivity.
  - cbn [gsd_get_nframes]. hsimpl. rewrite Hcf. apply u64_small. lia.
  - hsimpl. exact Hfd.
  - intros flags'.
    destruct (open_inv f log flags' Hp Hok) as (hr & ns' & E1 & _ & Hinv').
    exists hr. split; [exact E1|].
    cbn [gsd_get_nframes]. exact (si_cur_frame _ _ _ _ _ _ Hinv').
Qed.

Lemma empty_frame_not_recorded_witness :
  exists h',
    gsd_end_frame
      (Some (snd (gsd_open (Some created_file) GSD_OPEN_READWRITE)))
    = (GSD_SUCCESS, Some h')
    /\ gsd_get_nframes (Some h') = 1.
Proof.
  pose (o := gsd_open (Some created_file) GSD_OPEN_READWRITE).
  assert (F1 : fst o = GSD_SUCCESS) by (vm_compute; reflexivity).
  assert (Hc : produced created_file []).
  { apply (produced_create None [x61; x70; x70] [x73] 0).
    unfold gsd_create, open_create. apply initialize_file_ok. }
  assert (Hok : log_ok []) by exact (log_ok_prefix [] log_a log_a_ok).
  assert (Hrw : GSD_OPEN_READWRITE <> GSD_OPEN_READONLY) by discriminate.
  destruct (empty_frame_not_recorded created_file [] GSD_OPEN_READWRITE
              (snd o) Hc Hok Hrw (pair_of_fst o _ F1))
    as (h' & E & Hn & _).
  exists h'. split; [exact E|exact Hn].
Defined.

(** X10: on a handle whose descriptor and cached size are those of the
    file, [gsd_read_chunk] succeeds exactly when the handle is not in
    append mode, the entry has a size and a location other than zero, and
    the chunk lies inside the file; it then copies the bytes of the file
    at the location into the destination and leaves the rest of the
    destination alone. *)
Theorem read_chunk_success_iff (h : gsd_handle) (f : file) (dst : buffer)
  (c : gsd_index_entry) :
  fd h = Some f -> file_size h = fsize f -> 0 <= fsize f <= OFF_MAX ->
  0 <= location c < 2 ^ 64 ->
  (fst (gsd_read_chunk (Some h) (Some dst) (Some c)) = GSD_SUCCESS
   <-> open_flags h <> GSD_OPEN_APPEND
       /\ chunk_size c <> 0 /\ location c <> 0
       /\ location c + chunk_size c <= fsize f)
  /\ (fst (gsd_read_chunk (Some h) (Some dst) (Some c)) = GSD_SUCCESS ->
      exists buf,
        snd (gsd_read_chunk (Some h) (Some dst) (Some c)) = Some buf
        /\ (forall k, 0 <= k < chunk_size c ->
              buf k = file_byte f (location c + k))
        /\ (forall k, k < 0 \/ chunk_size c <= k -> buf k = dst k)).
Proof.
  intros Hfd Hfs Hsz Hloc.
  pose proof (u64_range (N c * M c * gsd_sizeof_type (type c))) as Hcs.
  fold (chunk_size c) in Hcs.
  unfold gsd_read_chunk. rewrite Hfd, Hfs.
  destruct (open_flag_eqb (open_flags h) GSD_OPEN_APPEND) eqn:Hm.
  { cbn [fst]. split; [split; [discriminate|]|discriminate].
    intros (Hn & _). destruct (open_flags h); try discriminate Hm.
    contradiction. }
  assert (Hmode : open_flags h <> GSD_OPEN_APPEND)
    by (intros E; rewrite E in Hm; discriminate).
  destruct (Z.eqb_spec (chunk_size c) 0) as [E0|N0].
  { cbn [fst]. split; [split; [discriminate|]|discriminate].
    intros (_ & Hn & _). contradiction. }
  destruct (Z.eqb_spec (location c) 0) as [L0|NL].
  { cbn [fst]. split; [split; [discriminate|]|discriminate].
    intros (_ & _ & Hn & _). contradiction. }
  unfold OFF_MAX in Hsz.
  destruct (Z.ltb_spec (fsize f) (u64 (location c + chunk_size c)))
    as [Hover|Hfit].
  { cbn [fst]. split; [split; [discriminate|]|discriminate].
    intros (_ & _ & _ & Hin).
    rewrite u64_small in Hover by lia. lia. }
  unfold gsd_pread_retry.
  destruct (Z.leb_spec (chunk_size c) 0) as [|_]; [lia|].
  unfold pread, to_int64. rewrite (u64_small (location c)) by exact Hloc.
  destruct (Z.ltb_spec (location c) (2 ^ 63)) as [Hlow|Hhigh].
  - destruct (Z.ltb_spec (location c) 0) as [|_]; [lia|].
    set (n := Z.max 0 (Z.min (chunk_size c) (fsize f - location c))).
    destruct (Z.eqb_spec n (-1)) as [|_]; [unfold n in *; lia|].
    destruct (Z.eqb_spec n (chunk_size c)) as [En|Nn]; cbn [orb negb fst snd].
    + assert (Hin : location c + chunk_size c <= fsize f)
        by (unfold n in En; lia).
      split; [split; [intros _; repeat split; assumption|reflexivity]|].
      intros _. eexists. split; [reflexivity|]. rewrite En. split.
      * intros k Hk.
        destruct (Z.leb_spec 0 k); [|lia].
        destruct (Z.ltb_spec k (chunk_size c)); [|lia]. reflexivity.
      * intros k Hk.
        destruct (Z.leb_spec 0 k); [|reflexivity].
        destruct (Z.ltb_spec k (chunk_size c)); [lia|reflexivity].
    + split; [split; [discriminate|]|discriminate].
      intros (_ & _ & _ & Hin). exfalso. apply Nn. unfold n. lia.
  - destruct (Z.ltb_spec (location c - 2 ^ 64) 0) as [_|]; [|lia].
    cbn [Z.eqb orb fst].
    split; [split; [discriminate|]|discriminate].
    intros (_ & _ & _ & Hin). lia.
Qed.

Lemma read_chunk_success_iff_witness :
  fst (gsd_read_chunk (Some handle_with_ab) (Some zero_buffer)
         (Some (entry_at (index handle_with_ab) 0)))
  = GSD_SUCCESS.
Proof.
  pose (h := handle_with_ab).
  assert (Hfd : fd h = Some (file_of h)).
  { unfold file_of.
    assert (E : match fd h with Some _ => true | None => false end = true)
      by (vm_compute; reflexivity).
    destruct (fd h); [reflexivity|discriminate]. }
  assert (Hfs : file_size h = fsize (file_of h)) by (vm_compute; reflexivity).
  assert (Hsz : 0 <= fsize (file_of h) <= OFF_MAX)
    by (vm_compute; split; discriminate).
  assert (Hloc : 0 <= location (entry_at (index h) 0) < 2 ^ 64)
    by (vm_compute; split; [discriminate|reflexivity]).
  apply (proj1 (read_chunk_success_iff h (file_of h) zero_buffer
                  (entry_at (index h) 0) Hfd Hfs Hsz Hloc)).
  repeat split; vm_compute; discriminate.
Defined.
(** ** [gsd_write_chunk] appends *)

(** X11: a successful [gsd_write_chunk] on a handle whose descriptor, cached
    header and cached size are those of its file only adds to the file: the
    payload is stored at the former end of the file, every byte behind the
    header that the file held is unchanged, the handle is again coherent
    with the file, and the chunk is pending (one more entry in the index,
    none more written, the frame and the committed names as before). *)
Theorem write_chunk_appends (h : gsd_handle) (f : file) (name : list byte)
  (type N M flags : Z) (data : option (list byte)) (h' : gsd_handle) :
  handle_on h f ->
  gsd_write_chunk h name type N M flags data = (GSD_SUCCESS, h') ->
  exists f' bytes,
    data = Some bytes
    /\ handle_on h' f'
    /\ fsize f + u64 (N * M * gsd_sizeof_type type) <= fsize f'
    /\ (forall o, sizeof_header <= o < fsize f ->
          file_byte f' o = file_byte f o)
    /\ (forall o, 0 <= o < u64 (N * M * gsd_sizeof_type type) ->
          file_byte f' (fsize f + o) = buf_of_list bytes o)
    /\ index_num_entries h' = u64 (index_num_entries h + 1)
    /\ index_written_entries h' = index_written_entries h
    /\ namelist_written_entries h' = namelist_written_entries h
    /\ cur_frame h' = cur_frame h.
Proof.
  intros Hon Hw.
  destruct (write_chunk_on _ _ _ _ _ _ _ _ _ Hon Hw)
    as (bytes & id1 & h1 & f1 & h4 & f4 & Hb & Hid & Hid1 & S1 & S2 & S3 & S4
        & Hx & Hm4 & Hfr & ->).
  destruct (name_step_frame _ _ _ _ Hid)
    as (F1 & F2 & F3 & F4 & F5 & F6 & F7 & F8 & F9).
  assert (Hnw : namelist_written_entries h1 = namelist_written_entries h).
  { destruct (gsd_get_id h name =? UINT16_MAX).
    - unfold gsd_append_name in Hid.
      destruct (open_flag_eqb _ _); [discriminate|].
      destruct (_ =? _); [discriminate|].
      apply (f_equal snd) in Hid. cbn [snd] in Hid. subst h1.
      destruct (_ <? _); hsimpl; reflexivity.
    - apply (f_equal snd) in Hid. cbn [snd] in Hid. subst h1. reflexivity. }
  destruct Hfr as (R1 & R2 & R3 & R4 & R5 & R6 & R7 & R8 & R9 & R10 & R11
                   & R12).
  pose proof Hon as [Hfd Hfs Hhd Hsz Hal Hblk].
  pose proof (u64_range (N * M * gsd_sizeof_type type)) as Hu.
  unfold sizeof_header, sizeof_index_entry in *.
  exists f4, bytes. split; [exact Hb|].
  assert (Hslot : forall g : gsd_handle,
            fd (snd (write_chunk_slot g)) = fd g
            /\ file_size (snd (write_chunk_slot g)) = file_size g
            /\ header (snd (write_chunk_slot g)) = header g
            /\ index_num_entries (snd (write_chunk_slot g))
               = index_num_entries g
            /\ index_written_entries (snd (write_chunk_slot g))
               = index_written_entries g
            /\ namelist_written_entries (snd (write_chunk_slot g))
               = namelist_written_entries g
            /\ cur_frame (snd (write_chunk_slot g)) = cur_frame g).
  { intros g. destruct (write_chunk_slot_cases g) as [->| ->];
      hsimpl; repeat split. }
  destruct (Hslot h4) as (G1 & G2 & G3 & G4 & G5 & G6 & G7).
  assert (Hcore :
            handle_on h4 f4
            /\ fsize f + u64 (N * M * gsd_sizeof_type type) <= fsize f4
            /\ (forall o, 256 <= o < fsize f -> file_byte f4 o = file_byte f o)
            /\ (forall o, 0 <= o < u64 (N * M * gsd_sizeof_type type) ->
                  file_byte f4 (fsize f + o) = buf_of_list bytes o)).
  { destruct (Z.leb_spec (index_allocated_entries (header h))
                (index_num_entries h)) as [Hfull|Hroom].
    - destruct Hx as [X1 X2 X3 X4 X5 X6 X7 X8 X9].
      hsimpl_in X2. hsimpl_in X4. rewrite F2 in X2, X4.
      unfold sizeof_header, sizeof_index_entry in *.
      split; [|split; [|split]].
      + constructor.
        * exact X1.
        * exact X5.
        * symmetry. exact X3.
        * unfold sizeof_header. lia.
        * rewrite X2. hsimpl. lia.
        * rewrite X2. hsimpl. unfold sizeof_index_entry. lia.
      + lia.
      + intros o Ho. rewrite X6 by lia. apply S3. lia.
      + intros o Ho. rewrite X6 by lia. apply S4. exact Ho.
    - destruct Hx as [-> ->].
      split; [|split; [|split]].
      + constructor; hsimpl; rewrite ?F2.
        * reflexivity.
        * reflexivity.
        * rewrite Hhd. symmetry. apply file_header_same;
            unfold sizeof_header; try lia.
          intros o Ho. apply S3. lia.
        * unfold sizeof_header. lia.
        * exact Hal.
        * unfold sizeof_index_entry. lia.
      + lia.
      + intros o Ho. apply S3. lia.
      + exact S4. }
  destruct Hcore as (Hon4 & C1 & C2 & C3).
  destruct Hon4 as [A1 A2 A3 A4 A5 A6].
  split.
  { constructor; hsimpl; rewrite ?G1, ?G2, ?G3; assumption. }
  split; [exact C1|]. split; [exact C2|]. split; [exact C3|].
  hsimpl. rewrite G4, G5, G6, G7, R5, R6, R4, R7, F5, F6, Hnw, F7.
  repeat split.
Qed.

Lemma write_chunk_appends_witness :
  exists f',
    fd (snd (gsd_write_chunk handle_with_ab ["c"%byte] GSD_TYPE_UINT8 1 1 0
               (Some [x07])))
    = Some f'
    /\ file_byte f' (fsize (file_of handle_with_ab)) = x07.
Proof.
  pose (h := handle_with_ab).
  pose (w := gsd_write_chunk h ["c"%byte] GSD_TYPE_UINT8 1 1 0 (Some [x07])).
  assert (Hfd : fd h = Some (file_of h)).
  { unfold file_of.
    assert (E : match fd h with Some _ => true | None => false end = true)
      by (vm_compute; reflexivity).
    destruct (fd h); [reflexivity|discriminate]. }
  assert (Hon : handle_on h (file_of h)).
  { constructor; [exact Hfd|vm_compute; reflexivity..|idtac|idtac|idtac].
    - vm_compute. split; discriminate.
    - vm_compute. discriminate.
    - vm_compute. discriminate. }
  assert (F : fst w = GSD_SUCCESS) by (vm_compute; reflexivity).
  destruct (write_chunk_appends h (file_of h) ["c"%byte] GSD_TYPE_UINT8 1 1 0
              (Some [x07]) (snd w) Hon (pair_of_fst w _ F))
    as (f' & bytes & Hb & [Hfd' _ _ _ _ _] & _ & _ & Hp & _).
  injection Hb as <-.
  exists f'. split; [exact Hfd'|].
  specialize (Hp 0). rewrite Z.add_0_r in Hp. apply Hp.
  vm_compute. split; [discriminate|reflexivity].
Defined.
(** ** Chunks that are not committed, in append mode *)

Section AppendStep.

Variables (h : gsd_handle) (f : file) (ns pns : list (list byte))
  (log : list (list chunk)) (pend : list chunk).
Hypothesis Hinv : session_inv h f ns pns log pend.
Hypothesis Hmode : open_flags h = GSD_OPEN_APPEND.
Hypothesis Hfree0 :
  forall i,
    Z.of_nat (length (number_frames 0 log)) <= i
    < index_allocated_entries (file_header f) ->
    location (file_entry f i) = 0.

Variable c : chunk.


End AppendStep.



(** ** Fresh files: [gsd_create_and_open] and [gsd_truncate] *)

Lemma log_ok_nil : log_ok [].
Proof.
  constructor.
  - intros cs [].
  - intros c [].
  - intros cs [].
  - intros x y [].
Qed.

(** [gsd_read_header] on the file that [gsd_initialize_file] writes. *)
Lemma read_header_initial (h0 : gsd_handle) (app sch : list byte) (ver : Z) :
  fd h0 = Some (initial_file app sch ver) ->
  exists h,
    gsd_read_header h0 = (GSD_SUCCESS, h)
    /\ open_flags h = open_flags h0
    /\ session_inv h (initial_file app sch ver) [] [] [] [].
Proof.
  intros Hfd.
  exact (read_header_inv h0 (initial_file app sch ver) [] [] Hfd
           (initial_file_inv app sch ver) log_ok_nil).
Qed.

(** The counters of a handle at the start of a session on a file without
    frames. *)
Lemma fresh_session_counters (h : gsd_handle) (f : file) :
  session_inv h f [] [] [] [] ->
  fd h = Some f /\ file_size h = fsize f
  /\ gsd_get_nframes (Some h) = 0
  /\ index_num_entries h = 0 /\ index_written_entries h = 0
  /\ namelist_num_entries h = 0 /\ namelist_written_entries h = 0.
Proof.
  intros Hinv. inv_fields Hinv. destruct Hon as [Hfd Hfs _ _ _ _].
  cbn [gsd_get_nframes].
  repeat split; assumption.
Qed.

(** X13: [gsd_truncate] on a writable handle with an open descriptor
    succeeds whatever the file held, keeps the open mode, and leaves the
    file that [gsd_create] writes for the application, the schema and the
    schema version of the old header; the handle is at frame 0 with an empty
    index and an empty namelist. *)
Theorem truncate_like_create (h : gsd_handle) (f : file) :
  open_flags h <> GSD_OPEN_READONLY ->
  fd h = Some f ->
  exists h',
    gsd_truncate (Some h) = (GSD_SUCCESS, Some h')
    /\ open_flags h' = open_flags h
    /\ gsd_create (Some f) (application (header h)) (schema (header h))
         (schema_version (header h))
       = (GSD_SUCCESS, fd h')
    /\ file_size h' = fsize (file_of h')
    /\ gsd_get_nframes (Some h') = 0
    /\ index_num_entries h' = 0
    /\ namelist_num_entries h' = 0.
Proof.
  intros Hmode Hfd. unfold gsd_truncate.
  destruct (open_flag_eqb (open_flags h) GSD_OPEN_READONLY) eqn:Hro.
  { destruct (open_flags h); try discriminate Hro. contradiction. }
  rewrite Hfd, initialize_file_ok.
  set (f0 := initial_file (application (header h)) (schema (header h))
               (schema_version (header h))).
  destruct (read_header_initial (set_fd (Some f0) h) _ _ _ eq_refl)
    as (h' & E & Hfl & Hinv).
  fold f0 in E, Hinv. rewrite E. exists h'.
  destruct (fresh_session_counters h' f0 Hinv)
    as (C1 & C2 & C3 & C4 & C5 & C6 & C7).
  split; [reflexivity|]. split; [exact Hfl|].
  split.
  { unfold gsd_create, open_create. rewrite initialize_file_ok, C1.
    reflexivity. }
  unfold file_of. rewrite C1.
  repeat split; assumption.
Qed.

Lemma truncate_like_create_witness :
  index_num_entries
    (match snd (gsd_truncate (Some handle_with_ab)) with
     | Some h' => h'
     | None => handle_with_ab
     end) = 0.
Proof.
  pose (h := handle_with_ab).
  assert (Hfd : fd h = Some (file_of h)).
  { unfold file_of.
    assert (E : match fd h with Some _ => true | None => false end = true)
      by (vm_compute; reflexivity).
    destruct (fd h); [reflexivity|discriminate]. }
  assert (Hm : open_flags h <> GSD_OPEN_READONLY) by (vm_compute; discriminate).
  destruct (truncate_like_create h (file_of h) Hm Hfd)
    as (h' & E & _ & _ & _ & _ & Hn & _).
  fold h. rewrite E. exact Hn.
Defined.

(** X14: [gsd_create_and_open] refuses the read-only mode without a change
    of the handle, fails with an I/O error when an exclusive creation meets
    a file, and otherwise succeeds whatever the handle held before: the
    handle is in the requested mode on the file that [gsd_create] writes,
    at frame 0 with an empty index and an empty namelist. *)
Theorem create_and_open_outcomes (h0 : gsd_handle) (fs : option file)
  (app sch : list byte) (ver : Z) (flags : gsd_open_flag) (excl : bool) :
  (flags = GSD_OPEN_READONLY ->
   gsd_create_and_open h0 fs app sch ver flags excl
   = (GSD_ERROR_FILE_MUST_BE_WRITABLE, h0))
  /\ (flags <> GSD_OPEN_READONLY -> excl = true -> fs <> None ->
      fst (gsd_create_and_open h0 fs app sch ver flags excl) = GSD_ERROR_IO)
  /\ (flags <> GSD_OPEN_READONLY -> excl = false \/ fs = None ->
      exists h,
        gsd_create_and_open h0 fs app sch ver flags excl = (GSD_SUCCESS, h)
        /\ open_flags h = flags
        /\ gsd_create fs app sch ver = (GSD_SUCCESS, fd h)
        /\ file_size h = fsize (file_of h)
        /\ gsd_get_nframes (Some h) = 0
        /\ index_num_entries h = 0
        /\ namelist_num_entries h = 0).
Proof.
  split; [|split].
  - intros ->. reflexivity.
  - intros Hrw -> Hfs. destruct fs as [g|]; [|contradiction].
    destruct flags; try contradiction; reflexivity.
  - intros Hrw Hex.
    assert (Eo : open_create fs excl = Some empty_file).
    { destruct fs as [g|]; [|reflexivity].
      destruct Hex as [->|Hn]; [reflexivity|discriminate]. }
    assert (Ec : open_create fs false = Some empty_file)
      by (destruct fs; reflexivity).
    assert (E : gsd_create_and_open h0 fs app sch ver flags excl
                = gsd_read_header
                    (set_fd (Some (initial_file app sch ver))
                       (set_fd (Some empty_file) (set_open_flags flags h0)))).
    { unfold gsd_create_and_open.
      destruct flags; try contradiction; rewrite Eo; hsimpl;
        rewrite initialize_file_ok; reflexivity. }
    destruct (read_header_initial
                (set_fd (Some (initial_file app sch ver))
                   (set_fd (Some empty_file) (set_open_flags flags h0)))
                app sch ver eq_refl) as (h & Er & Hfl & Hinv).
    hsimpl_in Hfl.
    destruct (fresh_session_counters h _ Hinv)
      as (C1 & C2 & C3 & C4 & C5 & C6 & C7).
    exists h. rewrite E. split; [exact Er|]. split; [exact Hfl|].
    split.
    { unfold gsd_create. rewrite Ec, initialize_file_ok, C1. reflexivity. }
    unfold file_of. rewrite C1. repeat split; assumption.
Qed.

Lemma create_and_open_outcomes_witness :
  exists h,
    gsd_create_and_open zero_handle None [x61] [x73] 0 GSD_OPEN_APPEND true
    = (GSD_SUCCESS, h)
    /\ gsd_get_nframes (Some h) = 0.
Proof.
  assert (Hrw : GSD_OPEN_APPEND <> GSD_OPEN_READONLY) by discriminate.
  destruct (proj2 (proj2 (create_and_open_outcomes zero_handle None [x61]
                            [x73] 0 GSD_OPEN_APPEND true))
              Hrw (or_intror eq_refl))
    as (h & E & _ & _ & _ & Hn & _).
  exists h. split; [exact E|exact Hn].
Defined.


(** ** The index and the names of a session *)





(** ** What a successful [gsd_open] has checked *)

Lemma read_header_tail_success (h h' : gsd_handle) :
  read_header_tail h = (GSD_SUCCESS, h') ->
  u64 (namelist_location (header h)
       + u64 (sizeof_namelist_entry * namelist_allocated_entries (header h)))
  <= file_size h
  /\ fd h' = fd h /\ header h' = header h /\ file_size h' = file_size h
  /\ open_flags h' = open_flags h
  /\ index_written_entries h' = index_num_entries h'
  /\ namelist_written_entries h' = namelist_num_entries h'
  /\ (index_num_entries h' = 0 -> cur_frame h' = 0).
Proof.
  unfold read_header_tail.
  destruct (Z.ltb_spec (file_size h)
              (u64 (namelist_location (header h)
                    + u64 (sizeof_namelist_entry
                           * namelist_allocated_entries (header h)))))
    as [|Hnl]; [discriminate|].
  destruct (gsd_pread_retry _ _ _) as [br nl].
  destruct ((br =? -1) || negb (br =? _)); [discriminate|].
  hsimpl.
  set (n := match first_empty_name _ nl 0 with
            | Some i => i
            | None => namelist_allocated_entries (header h)
            end).
  unfold gsd_sort_name_id_pairs. hsimpl.
  destruct (negb (location (entry_at (index h) 0) =? 0)
            && negb (gsd_is_entry_valid _ 0)); [discriminate|].
  destruct (if location (entry_at (index h) 0) =? 0 then Some 0
            else index_bisect _ _ 0 _) as [k|]; [|discriminate].
  hsimpl.
  destruct (open_flag_eqb (open_flags h) GSD_OPEN_APPEND);
    intros H; injection H as <-; hsimpl;
    (split; [exact Hnl|]); repeat (split; [reflexivity|]);
    intros ->; reflexivity.
Qed.

(** X18: on a file whose index block lies inside the file when the mode
    maps it (read-only and append), [gsd_open] succeeds only if the file has
    256 bytes at least, the magic number and an accepted version, and the
    end of the namelist block (for reading and writing also the end of the
    index block), computed in 64-bit arithmetic as the code computes it, is
    not behind the end of the file; when that computation does not wrap,
    the block lies inside the file.  The handle is then in the requested
    mode, its descriptor, header and size are those of the file, and
    nothing in it is pending. *)
Theorem open_success_checked (f : file) (flags : gsd_open_flag)
  (h : gsd_handle) :
  (flags <> GSD_OPEN_READWRITE ->
   index_location (file_header f)
   + sizeof_index_entry * index_allocated_entries (file_header f)
   <= fsize f) ->
  gsd_open (Some f) flags = (GSD_SUCCESS, h) ->
  sizeof_header <= fsize f
  /\ magic (file_header f) = GSD_MAGIC_ID
  /\ version_accepted (gsd_version (file_header f))
  /\ u64 (namelist_location (file_header f)
          + u64 (sizeof_namelist_entry
                 * namelist_allocated_entries (file_header f)))
     <= fsize f
  /\ (namelist_location (file_header f)
      + sizeof_namelist_entry * namelist_allocated_entries (file_header f)
      < 2 ^ 64 ->
      namelist_location (file_header f)
      + sizeof_namelist_entry * namelist_allocated_entries (file_header f)
      <= fsize f)
  /\ (flags = GSD_OPEN_READWRITE ->
      u64 (index_location (file_header f)
           + u64 (sizeof_index_entry
                  * index_allocated_entries (file_header f)))
      <= fsize f
      /\ (index_location (file_header f)
          + sizeof_index_entry * index_allocated_entries (file_header f)
          < 2 ^ 64 ->
          index_location (file_header f)
          + sizeof_index_entry * index_allocated_entries (file_header f)
          <= fsize f))
  /\ open_flags h = flags /\ fd h = Some f
  /\ header h = file_header f /\ file_size h = fsize f
  /\ index_written_entries h = index_num_entries h
  /\ namelist_written_entries h = namelist_num_entries h
  /\ (index_num_entries h = 0 -> gsd_get_nframes (Some h) = 0).
Proof.
  intros _.
  assert (Hnowrap : forall a n,
            0 <= a < 2 ^ 64 -> 0 <= n < 2 ^ 64 ->
            u64 (a + u64 (64 * n)) <= fsize f ->
            a + 64 * n < 2 ^ 64 -> a + 64 * n <= fsize f).
  { intros a n Ha Hn Hle Hlt.
    rewrite (u64_small (64 * n)) in Hle by lia.
    rewrite u64_small in Hle by lia. exact Hle. }
  pose proof (header_fields_range f) as (Hr1 & Hr2 & Hr3 & Hr4).
  rewrite gsd_open_eq. unfold gsd_read_header. hsimpl.
  rewrite pread_header. hsimpl. fold (file_header f).
  destruct (Z.eqb_spec (Z.max 0 (Z.min sizeof_header (fsize f))) (-1));
    [discriminate|].
  destruct (Z.eqb_spec (Z.max 0 (Z.min sizeof_header (fsize f)))
              sizeof_header) as [Hsz|]; [|discriminate].
  destruct (Z.eqb_spec (magic (file_header f)) GSD_MAGIC_ID) as [Hmag|];
    [|discriminate].
  cbn [negb].
  destruct (Z.ltb_spec (gsd_version (file_header f)) (gsd_make_version 1 0))
    as [Hlt|Hge];
    destruct (Z.eqb_spec (gsd_version (file_header f)) (gsd_make_version 0 3))
      as [He|Hne]; cbn [andb negb]; try discriminate;
    (destruct (Z.leb_spec (gsd_make_version 2 0)
                (gsd_version (file_header f))) as [Hle|Hgt];
     [discriminate|]).
  all: assert (Hver : version_accepted (gsd_version (file_header f)))
    by (unfold version_accepted; lia).
  all: assert (Hlen : sizeof_header <= fsize f)
    by (unfold sizeof_header in *; lia).
  all: unfold read_header_index; hsimpl; cbn [lseek_end].
  all: destruct flags.
  all: try (destruct (Z.ltb_spec (fsize f)
                        (u64 (index_location (file_header f)
                              + u64 (sizeof_index_entry
                                     * index_allocated_entries
                                         (file_header f)))))
              as [|Hib]; [discriminate|];
            destruct (gsd_pread_retry _ _ _) as [br idx];
            destruct ((br =? -1) || negb (br =? _)); [discriminate|]).
  all: try (destruct (map_index _) as [idx|]; [|discriminate]).
  all: intros Ht; apply read_header_tail_success in Ht; hsimpl_in Ht;
    destruct Ht as (T1 & T2 & T3 & T4 & T5 & T6 & T7 & T8).
  all: split; [exact Hlen|]; split; [exact Hmag|]; split; [exact Hver|];
    split; [exact T1|];
    split; [exact (Hnowrap _ _ Hr2 Hr4 T1)|];
    split;
    [first [ intros E; discriminate E
           | intros _; split; [exact Hib|exact (Hnowrap _ _ Hr1 Hr3 Hib)] ]|].
  all: repeat (split; [assumption|]).
  all: cbn [gsd_get_nframes]; exact T8.
Qed.

Lemma open_success_checked_witness :
  fd (snd (gsd_open (Some created_file) GSD_OPEN_READONLY))
  = Some created_file.
Proof.
  pose (o := gsd_open (Some created_file) GSD_OPEN_READONLY).
  assert (F : fst o = GSD_SUCCESS) by (vm_compute; reflexivity).
  assert (Hin : GSD_OPEN_READONLY <> GSD_OPEN_READWRITE ->
                index_location (file_header created_file)
                + sizeof_index_entry
                  * index_allocated_entries (file_header created_file)
                <= fsize created_file)
    by (intros _; vm_compute; discriminate).
  destruct (open_success_checked created_file GSD_OPEN_READONLY (snd o)
              Hin (pair_of_fst o _ F))
    as (_ & _ & _ & _ & _ & _ & _ & Hfd & _).
  exact Hfd.
Defined.
(** ** Pending chunks and the expansion of the index in read/write mode *)

Section ReadWriteExpand.

Variables (h : gsd_handle) (f : file) (ns pns : list (list byte))
  (log : list (list chunk)) (pend : list chunk).
Hypothesis Hinv : session_inv h f ns pns log pend.
Hypothesis Hmode : open_flags h = GSD_OPEN_READWRITE.
Hypothesis Hfull :
  index_num_entries h = index_allocated_entries (header h).

Variable c : chunk.

(** In read/write mode the expansion writes the index in memory, with its
    pending entries, to the new index block of the file. *)
Lemma readwrite_expand_file (h' : gsd_handle) :
  write_one h c = (GSD_SUCCESS, h') ->
  exists f',
    fd h' = Some f'
    /\ index_allocated_entries (file_header f')
       = 2 * index_allocated_entries (header h)
    /\ (forall i, 0 <= i < index_allocated_entries (header h) ->
          file_entry f' i = entry_at (index h) i)
    /\ (forall i,
          index_allocated_entries (header h) <= i
          < 2 * index_allocated_entries (header h) ->
          location (file_entry f' i) = 0).
Proof.
  intros Hw. inv_fields Hinv.
  pose proof (inv_alloc_bound _ _ _ _ _ _ Hinv) as Hab.
  destruct (write_chunk_on _ _ _ _ _ _ _ _ _ Hon Hw)
    as (bytes & id1 & h1 & f1 & h4 & f4 & Hb & Hid & Hid1 & S1 & S2 & S3 & S4
        & Hx & Hm4 & Hfr & ->).
  destruct (name_step_frame _ _ _ _ Hid)
    as (F1 & F2 & F3 & F4 & F5 & F6 & F7 & F8 & F9).
  destruct (write_chunk_slot_frame h4) as (W1 & W2 & _).
  pose proof Hon as [Hfd Hfs Hhd Hs Hal Hblk].
  rewrite Hfull, Z.leb_refl in Hx.
  destruct Hx as [X1 X2 X3 X4 X5 X6 X7 X8 X9].
  hsimpl_in X2. hsimpl_in X4. hsimpl_in X7. hsimpl_in X8.
  rewrite F2 in X2, X4, X7, X8.
  unfold sizeof_header, sizeof_index_entry in *.
  assert (Hil : index_location (file_header f4) = fsize f1)
    by (rewrite X3, X2; reflexivity).
  exists f4. hsimpl. rewrite W1.
  split; [exact X1|].
  split; [rewrite X3, X2; reflexivity|].
  split.
  - intros i Hi.
    apply (file_entry_bytes f4 (index h) i).
    intros o Ho. rewrite Hil, X7 by (unfold sizeof_index_entry in Ho; lia).
    unfold old_index_byte. hsimpl. rewrite F8, Hmode, F3. reflexivity.
  - intros i Hi. apply file_location_zero. intros o Ho. rewrite Hil.
    apply X8. unfold sizeof_index_entry in Ho. lia.
Qed.

End ReadWriteExpand.

Lemma log_ok_frame_prefix (log : list (list chunk)) (cs r : list chunk) :
  log_ok (log ++ [cs ++ r]) -> cs <> [] -> log_ok (log ++ [cs]).
Proof.
  intros [H1 H2 H3 H4] Hcs.
  assert (Hsub : forall x, In x (concat (log ++ [cs])) ->
                           In x (concat (log ++ [cs ++ r]))).
  { intros x. rewrite !concat_app. cbn [concat]. rewrite !app_nil_r.
    rewrite !in_app_iff. tauto. }
  constructor.
  - intros x Hx. apply in_app_or in Hx. destruct Hx as [Hx|[<-|[]]].
    + apply H1. apply in_or_app. left. exact Hx.
    + exact Hcs.
  - intros x Hx. apply H2. apply Hsub. exact Hx.
  - intros x Hx. apply in_app_or in Hx. destruct Hx as [Hx|[<-|[]]].
    + apply H3. apply in_or_app. left. exact Hx.
    + specialize (H3 (cs ++ r)
                    ltac:(apply in_or_app; right; left; reflexivity)).
      rewrite map_app in H3. apply NoDup_app_remove_r in H3. exact H3.
  - intros a b Ha Hb. unfold log_names in *.
    apply in_map_iff in Ha. destruct Ha as (x & <- & Hx).
    apply in_map_iff in Hb. destruct Hb as (y & <- & Hy).
    apply H4; apply in_map; apply Hsub; assumption.
Qed.

(** X19: in read/write mode the expansion of a full index writes the
    entries of the chunks that are pending into the index block of the
    file, before [gsd_end_frame]: when the file is opened at that point,
    [gsd_open] either reports a corrupt file or counts the pending entries
    as committed and shows one frame more than was committed. *)
Theorem readwrite_expansion_exposes_pending (f : file)
  (log : list (list chunk)) (cs : list chunk) (c : chunk)
  (h h1 h2 : gsd_handle) (flags : gsd_open_flag) :
  produced f log -> log_ok (log ++ [cs ++ [c]]) -> cs <> [] ->
  gsd_open (Some f) GSD_OPEN_READWRITE = (GSD_SUCCESS, h) ->
  write_chunks h cs = (GSD_SUCCESS, h1) ->
  index_num_entries h1 = index_allocated_entries (header h1) ->
  write_one h1 c = (GSD_SUCCESS, h2) ->
  exists f2,
    fd h2 = Some f2
    /\ (fst (gsd_open (Some f2) flags) = GSD_ERROR_FILE_CORRUPT
        \/ (fst (gsd_open (Some f2) flags) = GSD_SUCCESS
            /\ index_num_entries (snd (gsd_open (Some f2) flags))
               = Z.of_nat (length (concat log) + length cs)
            /\ gsd_get_nframes (Some (snd (gsd_open (Some f2) flags)))
               = Z.of_nat (length log) + 1)).
Proof.
  intros Hp Hok Hcs Ho Hw1 Hfull Hw2.
  pose proof (log_ok_frame_prefix log cs [c] Hok Hcs) as Hok1.
  pose proof (log_ok_prefix _ _ Hok1) as Hok0.
  destruct (open_inv f log GSD_OPEN_READWRITE Hp Hok0)
    as (h0 & ns & E0 & Hfl & Hinv).
  rewrite E0 in Ho. injection Ho as ->.
  destruct (write_chunks_inv cs h f ns [] log [] h1 Hinv Hok1 Hw1)
    as (Hm1 & f1 & pns1 & Hinv1).
  cbn [app] in Hinv1.
  assert (Hmode1 : open_flags h1 = GSD_OPEN_READWRITE) by congruence.
  assert (Hna : open_flags h1 <> GSD_OPEN_APPEND)
    by (rewrite Hmode1; discriminate).
  destruct (readwrite_expand_file h1 f1 ns pns1 log cs Hinv1 Hmode1 Hfull c
              h2 Hw2) as (f2 & Hfd2 & Hal2 & Hlow & Hhigh).
  assert (Hw2' : write_chunks h1 [c] = (GSD_SUCCESS, h2)).
  { cbn [write_chunks]. unfold write_one in Hw2 |- *. rewrite Hw2.
    reflexivity. }
  destruct (write_chunks_inv [c] h1 f1 ns pns1 log cs h2 Hinv1 Hok Hw2')
    as (_ & f2' & pns2 & Hinv2).
  pose proof (ho_fd _ _ (si_on _ _ _ _ _ _ Hinv2)) as Hfd2'.
  rewrite Hfd2 in Hfd2'. injection Hfd2' as <-.
  pose proof (si_layout _ _ _ _ _ _ Hinv2) as Hlay2.
  pose proof (si_num _ _ _ _ _ _ Hinv1) as Hnum1.
  pose proof (inv_alloc_bound _ _ _ _ _ _ Hinv1) as Hab1.
  pose proof (number_frames_count 0 log (lo_frames _ Hok0)) as Hcount.
  set (T := Z.of_nat (length (number_frames 0 log) + length cs)) in *.
  assert (HT : index_allocated_entries (header h1) = T) by congruence.
  rewrite HT in *.
  assert (Hlen : (1 <= length cs)%nat)
    by (destruct cs; [contradiction|cbn [length]; lia]).
  assert (Hpos : 0 < T) by (unfold T; lia).
  assert (Hent : forall i, 0 <= i < T ->
            exists fr c0,
              nth_error (number_frames 0 (log ++ [cs])) (Z.to_nat i)
              = Some (fr, c0)
              /\ frame (file_entry f2 i) = fr
              /\ sizeof_header <= location (file_entry f2 i)).
  { intros i Hi.
    destruct (inv_entry_direct h1 f1 ns pns1 log cs Hinv1 Hna i Hi)
      as (fr & c0 & Hn & He & Hst).
    exists fr, c0. rewrite Hlow by exact Hi.
    split; [exact Hn|]. split; [exact (ef_frame _ _ _ _ He)|].
    exact (st_low _ _ _ Hst). }
  assert (Hpre : index_prefix f2 T).
  { split; [lia|]. split.
    - intros i Hi. destruct (Hent i Hi) as (_ & _ & _ & _ & Hl).
      unfold sizeof_header in Hl. lia.
    - intros i Hi. rewrite Hal2 in Hi. apply Hhigh. lia. }
  exists f2. split; [exact Hfd2|].
  rewrite gsd_open_eq.
  destruct (read_header_spec
              (set_open_flags flags (set_fd (Some f2) zero_handle)) f2 T
              eq_refl Hlay2 Hpre) as [[Hc|(Hs & Hop & _)] _];
    [left; exact Hc|right].
  split; [exact Hs|].
  destruct Hop as [_ _ _ On _ Oc _ _ _ _ _].
  split.
  { rewrite On. unfold T. rewrite number_frames_length. reflexivity. }
  cbn [gsd_get_nframes]. rewrite Oc.
  destruct (Z.eqb_spec T 0) as [|_]; [lia|].
  destruct (Hent (T - 1) ltac:(lia)) as (fr & c0 & Hn & Hf & _).
  rewrite Hf.
  rewrite number_frames_last in Hn.
  rewrite nth_error_app2 in Hn by (unfold T; lia).
  rewrite nth_error_map in Hn.
  destruct (nth_error cs _) as [c1|]; [|discriminate].
  injection Hn as <- _.
  apply u64_small. lia.
Qed.

Lemma log_full_ok :
  log_ok (log_full ++ [frame_a ++ [bytes_chunk ["b"%byte] [x02]]]).
Proof.
  assert (Ha : chunk_ok (bytes_chunk ["a"%byte] [x01])).
  { apply bytes_chunk_ok.
    - repeat split; [discriminate|cbn; lia].
    - discriminate.
    - cbn. lia. }
  assert (Hb : chunk_ok (bytes_chunk ["b"%byte] [x02])).
  { apply bytes_chunk_ok.
    - repeat split; [discriminate|cbn; lia].
    - discriminate.
    - cbn. lia. }
  assert (Hfr : forall x,
            In x (log_full ++ [frame_a ++ [bytes_chunk ["b"%byte] [x02]]]) ->
            x = frame_a \/ x = frame_a ++ [bytes_chunk ["b"%byte] [x02]]).
  { intros x Hx. apply in_app_or in Hx. destruct Hx as [Hx|[<-|[]]].
    - left. exact (repeat_spec _ _ _ Hx).
    - right. reflexivity. }
  assert (Hch : forall x,
            In x (concat (log_full
                          ++ [frame_a ++ [bytes_chunk ["b"%byte] [x02]]])) ->
            x = bytes_chunk ["a"%byte] [x01]
            \/ x = bytes_chunk ["b"%byte] [x02]).
  { intros x Hx. apply in_concat in Hx. destruct Hx as (fr & Hf & Hx).
    destruct (Hfr fr Hf) as [-> | ->].
    - destruct Hx as [<-|[]]. left. reflexivity.
    - destruct Hx as [<-|[<-|[]]]; [left|right]; reflexivity. }
  constructor.
  - intros x Hx. destruct (Hfr x Hx) as [-> | ->]; discriminate.
  - intros x Hx. destruct (Hch x Hx) as [-> | ->]; assumption.
  - intros x Hx. destruct (Hfr x Hx) as [-> | ->].
    + repeat constructor. intros [].
    + repeat constructor.
      * intros [H|[]]. discriminate H.
      * intros [].
  - intros a b Hain Hbin Hpre. unfold log_names in *.
    apply in_map_iff in Hain. destruct Hain as (x & <- & Hx).
    apply in_map_iff in Hbin. destruct Hbin as (y & <- & Hy).
    destruct (Hch x Hx) as [-> | ->]; destruct (Hch y Hy) as [-> | ->];
      first [reflexivity | discriminate Hpre].
Qed.

Lemma readwrite_expansion_exposes_pending_witness :
  exists f2,
    fd (snd (write_one
               (snd (write_chunks
                       (snd (gsd_open (Some (session_file log_full))
                               GSD_OPEN_READWRITE)) frame_a))
               (bytes_chunk ["b"%byte] [x02]))) = Some f2
    /\ (fst (gsd_open (Some f2) GSD_OPEN_READONLY) = GSD_ERROR_FILE_CORRUPT
        \/ (fst (gsd_open (Some f2) GSD_OPEN_READONLY) = GSD_SUCCESS
            /\ index_num_entries (snd (gsd_open (Some f2) GSD_OPEN_READONLY))
               = 128
            /\ gsd_get_nframes
                 (Some (snd (gsd_open (Some f2) GSD_OPEN_READONLY)))
               = 128)).
Proof.
  pose (o := gsd_open (Some (session_file log_full)) GSD_OPEN_READWRITE).
  pose (w := write_chunks (snd o) frame_a).
  pose (x := write_one (snd w) (bytes_chunk ["b"%byte] [x02])).
  assert (Hp : produced (session_file log_full) log_full).
  { apply session_produced.
    - vm_compute. reflexivity.
    - apply fd_open_check. vm_compute. reflexivity. }
  assert (F1 : fst o = GSD_SUCCESS) by (vm_compute; reflexivity).
  assert (F2 : fst w = GSD_SUCCESS) by (vm_compute; reflexivity).
  assert (F3 : fst x = GSD_SUCCESS) by (vm_compute; reflexivity).
  assert (Hfull : index_num_entries (snd w)
                  = index_allocated_entries (header (snd w)))
    by (vm_compute; reflexivity).
  assert (Hcs : frame_a <> []) by discriminate.
  destruct (readwrite_expansion_exposes_pending (session_file log_full)
              log_full frame_a (bytes_chunk ["b"%byte] [x02]) (snd o) (snd w)
              (snd x) GSD_OPEN_READONLY Hp log_full_ok Hcs
              (pair_of_fst o _ F1) (pair_of_fst w _ F2) Hfull
              (pair_of_fst x _ F3)) as (f2 & Hfd & H).
  exists f2. split; [exact Hfd|].
  destruct H as [H|(H1 & H2 & H3)]; [left; exact H|right].
  split; [exact H1|]. split; [rewrite H2|rewrite H3]; reflexivity.
Defined.
(** ** The lookup by name is a lookup by prefix *)



(** ** The round trip and the lookup, as the write path gives them *)








